(** * nodeAgg.c: the aggregation executor node, as a shallow embedding

    The development follows [src/backend/executor/nodeAgg.c].  C structs
    become records, [int] and [Datum] become [Z] (counts that are never
    negative become [nat]), arrays become lists or index functions, and a
    function of the source that mutates the object behind a pointer takes
    the object and returns the new one.

    Memory contexts are not modelled: a [Datum] stands for the value it
    denotes, so [datumCopy] is the identity and [pfree] has no effect.
    [elog(ERROR)] and a failed [Assert] (assertion-checking build) end the
    computation with an error value; advance_aggregates is given for a
    build without assertion checking as well. *)

From stdpp Require Import prelude strings.
From Stdlib Require Import ZArith Lia QArith Qround.

Close Scope Q_scope.
Open Scope Z_scope.

(** ** Basic types *)

Definition Datum := Z.
Definition Oid := Z.

Definition InvalidOid : Oid := 0.
Definition OidIsValid (o : Oid) : bool := negb (o =? InvalidOid).

(** [pg_type.h] *)
Definition BOOLOID : Oid := 16.
Definition CHAROID : Oid := 18.
Definition INT8OID : Oid := 20.
Definition INT2OID : Oid := 21.
Definition INT4OID : Oid := 23.
Definition TEXTOID : Oid := 25.
Definition OIDOID : Oid := 26.
Definition ABSTIMEOID : Oid := 702.
Definition RELTIMEOID : Oid := 703.
Definition CASHOID : Oid := 790.
Definition DATEOID : Oid := 1082.
Definition TIMEOID : Oid := 1083.
Definition TIMESTAMPOID : Oid := 1114.
Definition TIMESTAMPTZOID : Oid := 1184.
Definition INTERNALOID : Oid := 2281.

(** Outcome of a routine that can raise. *)
Inductive ErrorKind :=
| AssertFailure               (* a failed Assert *)
| ElogError (msg : string)    (* elog(ERROR) / ereport(ERROR) *)
| Undefined (what : string)   (* the C program has no defined behaviour *)
| OutOfFuel.                  (* the loop bound of the model was reached *)

Inductive result (A : Type) :=
| Ok (a : A)
| Err (e : ErrorKind).
Arguments Ok {A} a.
Arguments Err {A} e.

Definition rbind {A B} (m : result A) (k : A -> result B) : result B :=
  match m with
  | Ok a => k a
  | Err e => Err e
  end.

Notation "x <-! m ;; k" := (rbind m (fun x => k))
  (at level 100, m at next level, right associativity).
Notation "'let!' p ':=' m 'in' k" := (rbind m (fun p => k))
  (at level 10, p pattern, m at level 100, k at level 200).

Definition Assert (b : bool) : result unit :=
  if b then Ok tt else Err AssertFailure.

(** [Assert] in a routine that is given for both builds:
    [USE_ASSERT_CHECKING] says whether the build checks assertions; where
    it does not, the macro expands to nothing. *)
Definition Assert_in (USE_ASSERT_CHECKING : bool) (b : bool) : result unit :=
  if USE_ASSERT_CHECKING then Assert b else Ok tt.


(** ** fmgr: function descriptors and call frames *)

Record FmgrInfo := {
  fn_oid : Oid;
  fn_strict : bool
}.

(** [arg] and [argnull] are the arrays of FUNC_MAX_ARGS cells of the call
    frame, read by position. *)
Record FunctionCallInfoData := {
  flinfo : FmgrInfo;
  arg : nat -> Datum;
  argnull : nat -> bool;
  isnull : bool
}.

Definition set_arg (fcinfo : FunctionCallInfoData) (i : nat) (d : Datum) (n : bool)
  : FunctionCallInfoData :=
  {| flinfo := flinfo fcinfo;
     arg := fun j => if Nat.eqb j i then d else arg fcinfo j;
     argnull := fun j => if Nat.eqb j i then n else argnull fcinfo j;
     isnull := isnull fcinfo |}.

Definition set_isnull (fcinfo : FunctionCallInfoData) (b : bool) : FunctionCallInfoData :=
  {| flinfo := flinfo fcinfo; arg := arg fcinfo; argnull := argnull fcinfo;
     isnull := b |}.

(** The functions reached through [FunctionCallInvoke]: the function named
    by the frame's [flinfo] reads the frame and gives back its result and
    the [isnull] flag it leaves in the frame. *)
Class FunctionManager := {
  fn_addr : Oid -> FunctionCallInfoData -> Datum * bool
}.

Definition FunctionCallInvoke {FM : FunctionManager} (fcinfo : FunctionCallInfoData)
  : Datum * bool :=
  fn_addr (fn_oid (flinfo fcinfo)) fcinfo.

Definition datumCopy (value : Datum) (typByVal : bool) (typLen : Z) : Datum := value.

Definition DatumGetBool (d : Datum) : bool := negb (d =? 0).

(** ** Tuples, slots and expressions *)

(** A stored tuple (heap or minimal), by its column values and null flags. *)
Record HeapTupleData := {
  t_values : list Datum;
  t_isnull : list bool
}.

(** A slot keeps its arrays when it is cleared; only [tts_isempty] changes. *)
Record TupleTableSlot := {
  tts_isempty : bool;
  tts_values : list Datum;
  tts_isnull : list bool
}.

Definition ExecClearTuple (slot : TupleTableSlot) : TupleTableSlot :=
  {| tts_isempty := true; tts_values := tts_values slot; tts_isnull := tts_isnull slot |}.

Definition ExecStoreTuple (tuple : HeapTupleData) (slot : TupleTableSlot) : TupleTableSlot :=
  {| tts_isempty := false; tts_values := t_values tuple; tts_isnull := t_isnull tuple |}.

Definition ExecStoreVirtualTuple (slot : TupleTableSlot) : TupleTableSlot :=
  {| tts_isempty := false; tts_values := tts_values slot; tts_isnull := tts_isnull slot |}.

Definition ExecStoreAllNullTuple (slot : TupleTableSlot) : TupleTableSlot :=
  {| tts_isempty := false;
     tts_values := replicate (length (tts_values slot)) 0;
     tts_isnull := replicate (length (tts_isnull slot)) true |}.

Definition ExecCopySlotTuple (slot : TupleTableSlot) : HeapTupleData :=
  {| t_values := tts_values slot; t_isnull := tts_isnull slot |}.

Definition slot_value (slot : TupleTableSlot) (i : nat) : Datum :=
  default 0 (tts_values slot !! i).
Definition slot_isnull (slot : TupleTableSlot) (i : nat) : bool :=
  default true (tts_isnull slot !! i).

(** The slot objects an Agg node points at.  [ecxt_outertuple] holds such a
    name, so a store into the slot is seen through every name for it. *)
Inductive SlotId :=
| ScanSlot      (* ss.ss_ScanTupleSlot, the firstSlot of the retrieve loops *)
| SortSlot      (* sort_slot *)
| OuterSlot.    (* the result slot of the outer plan *)

(** An expression state is modelled by what evaluating it gives on the
    tuple of its expression context. *)
Definition ExprState := TupleTableSlot -> Datum * bool.

(** What the qual and the target list can read of the output context. *)
Record ProjInput := {
  pi_outertuple : TupleTableSlot;
  pi_aggvalues : list Datum;
  pi_aggnulls : list bool;
  pi_grouped_cols : list nat
}.

(** ** tuplesort.c (external): a sorter is the tuples put so far *)

Record SortSpec := {
  sortColIdx : list nat;
  sortOperators : list Oid;
  sortCollations : list Oid;
  sortNullsFirst : list bool
}.

Record Tuplesortstate := {
  ts_datum : bool;              (* begun by tuplesort_begin_datum *)
  ts_spec : SortSpec;
  ts_tuples : list HeapTupleData
}.

Class Tuplesort := {
  (** the order in which a sorter gives back what was put into it *)
  tuplesort_order : SortSpec -> list HeapTupleData -> list HeapTupleData;
  (** the abbreviated key handed out with a tuple *)
  abbrev_key : SortSpec -> HeapTupleData -> Datum
}.

Definition tuplesort_begin (datum : bool) (spec : SortSpec) : Tuplesortstate :=
  {| ts_datum := datum; ts_spec := spec; ts_tuples := [] |}.

Definition tuplesort_put (state : Tuplesortstate) (tuple : HeapTupleData) : Tuplesortstate :=
  {| ts_datum := ts_datum state; ts_spec := ts_spec state;
     ts_tuples := ts_tuples state ++ [tuple] |}.

Definition tuplesort_performsort {TS : Tuplesort} (state : Tuplesortstate) : Tuplesortstate :=
  {| ts_datum := ts_datum state; ts_spec := ts_spec state;
     ts_tuples := tuplesort_order (ts_spec state) (ts_tuples state) |}.

(** Reading a sorted sorter: the next tuple and the sorter without it. *)
Definition tuplesort_get (state : Tuplesortstate) : option (HeapTupleData * Tuplesortstate) :=
  match ts_tuples state with
  | [] => None
  | t :: rest =>
      Some (t, {| ts_datum := ts_datum state; ts_spec := ts_spec state;
                  ts_tuples := rest |})
  end.

(** ** execGrouping.c (external): tuple comparison and hashing *)

Class ExecGrouping := {
  (** [execTuplesMatch(slot1, slot2, numCols, matchColIdx, eqfunctions, ..)] *)
  execTuplesMatch : TupleTableSlot -> TupleTableSlot -> nat -> list nat ->
                    list FmgrInfo -> bool;
  (** the hash of the key columns of the tuple in a slot *)
  TupleHashTableHash : list nat -> TupleTableSlot -> Z;
  (** key equality of a stored tuple and the tuple in a slot *)
  TupleHashTableMatch : list nat -> HeapTupleData -> TupleTableSlot -> bool
}.

(** ** Configuration variables *)

Class GUC := {
  work_mem : Z;                       (* in kilobytes *)
  g_hybrid_hash_agg : bool;
  g_hybrid_hash_agg_debug : bool;
  g_default_hashagg_nbatches : Z
}.

(** ** Per-transition, per-aggregate and per-group data *)

Record AggStatePerTransData := {
  numInputs : nat;
  inputoff : nat;
  numTransInputs : nat;
  aggtranstype : Oid;
  serialfn_oid : Oid;
  deserialfn_oid : Oid;
  serial_func_id : Oid;
  deserial_func_id : Oid;
  aggfilter : option ExprState;
  aggdirectargs : list ExprState;
  transfn : FmgrInfo;
  serialfn : FmgrInfo;
  deserialfn : FmgrInfo;
  combfn : FmgrInfo;
  serial_func : FmgrInfo;
  deserial_func : FmgrInfo;
  numSortCols : nat;
  numDistinctCols : nat;
  sortspec : SortSpec;
  equalfns : list FmgrInfo;
  initValue : Datum;
  initValueIsNull : bool;
  inputtypeByVal : bool;
  transtypeLen : Z;
  transtypeByVal : bool;
  sortstates : list (option Tuplesortstate);
  transfn_fcinfo : FunctionCallInfoData;
  combfn_fcinfo : FunctionCallInfoData
}.

Definition set_sortstates (pertrans : AggStatePerTransData) (v : list (option Tuplesortstate)) : AggStatePerTransData :=
  {| numInputs := numInputs pertrans; inputoff := inputoff pertrans;
     numTransInputs := numTransInputs pertrans;
     aggtranstype := aggtranstype pertrans; serialfn_oid := serialfn_oid pertrans;
     deserialfn_oid := deserialfn_oid pertrans;
     serial_func_id := serial_func_id pertrans;
     deserial_func_id := deserial_func_id pertrans;
     aggfilter := aggfilter pertrans; aggdirectargs := aggdirectargs pertrans;
     transfn := transfn pertrans; serialfn := serialfn pertrans;
     deserialfn := deserialfn pertrans; combfn := combfn pertrans;
     serial_func := serial_func pertrans; deserial_func := deserial_func pertrans;
     numSortCols := numSortCols pertrans;
     numDistinctCols := numDistinctCols pertrans; sortspec := sortspec pertrans;
     equalfns := equalfns pertrans; initValue := initValue pertrans;
     initValueIsNull := initValueIsNull pertrans;
     inputtypeByVal := inputtypeByVal pertrans;
     transtypeLen := transtypeLen pertrans;
     transtypeByVal := transtypeByVal pertrans; sortstates := v;
     transfn_fcinfo := transfn_fcinfo pertrans;
     combfn_fcinfo := combfn_fcinfo pertrans |}.

Definition set_transfn_fcinfo (pertrans : AggStatePerTransData) (v : FunctionCallInfoData) : AggStatePerTransData :=
  {| numInputs := numInputs pertrans; inputoff := inputoff pertrans;
     numTransInputs := numTransInputs pertrans;
     aggtranstype := aggtranstype pertrans; serialfn_oid := serialfn_oid pertrans;
     deserialfn_oid := deserialfn_oid pertrans;
     serial_func_id := serial_func_id pertrans;
     deserial_func_id := deserial_func_id pertrans;
     aggfilter := aggfilter pertrans; aggdirectargs := aggdirectargs pertrans;
     transfn := transfn pertrans; serialfn := serialfn pertrans;
     deserialfn := deserialfn pertrans; combfn := combfn pertrans;
     serial_func := serial_func pertrans; deserial_func := deserial_func pertrans;
     numSortCols := numSortCols pertrans;
     numDistinctCols := numDistinctCols pertrans; sortspec := sortspec pertrans;
     equalfns := equalfns pertrans; initValue := initValue pertrans;
     initValueIsNull := initValueIsNull pertrans;
     inputtypeByVal := inputtypeByVal pertrans;
     transtypeLen := transtypeLen pertrans;
     transtypeByVal := transtypeByVal pertrans; sortstates := sortstates pertrans;
     transfn_fcinfo := v; combfn_fcinfo := combfn_fcinfo pertrans |}.

Definition set_combfn_fcinfo (pertrans : AggStatePerTransData) (v : FunctionCallInfoData) : AggStatePerTransData :=
  {| numInputs := numInputs pertrans; inputoff := inputoff pertrans;
     numTransInputs := numTransInputs pertrans;
     aggtranstype := aggtranstype pertrans; serialfn_oid := serialfn_oid pertrans;
     deserialfn_oid := deserialfn_oid pertrans;
     serial_func_id := serial_func_id pertrans;
     deserial_func_id := deserial_func_id pertrans;
     aggfilter := aggfilter pertrans; aggdirectargs := aggdirectargs pertrans;
     transfn := transfn pertrans; serialfn := serialfn pertrans;
     deserialfn := deserialfn pertrans; combfn := combfn pertrans;
     serial_func := serial_func pertrans; deserial_func := deserial_func pertrans;
     numSortCols := numSortCols pertrans;
     numDistinctCols := numDistinctCols pertrans; sortspec := sortspec pertrans;
     equalfns := equalfns pertrans; initValue := initValue pertrans;
     initValueIsNull := initValueIsNull pertrans;
     inputtypeByVal := inputtypeByVal pertrans;
     transtypeLen := transtypeLen pertrans;
     transtypeByVal := transtypeByVal pertrans; sortstates := sortstates pertrans;
     transfn_fcinfo := transfn_fcinfo pertrans; combfn_fcinfo := v |}.

Record AggStatePerAggData := {
  transno : nat;
  finalfn_oid : Oid;
  finalfn : FmgrInfo;
  numFinalArgs : nat;
  resulttypeLen : Z;
  resulttypeByVal : bool
}.

Record AggStatePerGroupData := {
  transValue : Datum;
  transValueIsNull : bool;
  noTransValue : bool
}.

(** The content of freshly allocated per-group cells. *)
Definition pergroup_zero : AggStatePerGroupData :=
  {| transValue := 0; transValueIsNull := false; noTransValue := false |}.

(** ** Plan node, phases *)

Inductive AggStrategy := AGG_PLAIN | AGG_SORTED | AGG_HASHED | AGG_MIXED.

Definition AggStrategy_eqb (a b : AggStrategy) : bool :=
  match a, b with
  | AGG_PLAIN, AGG_PLAIN | AGG_SORTED, AGG_SORTED
  | AGG_HASHED, AGG_HASHED | AGG_MIXED, AGG_MIXED => true
  | _, _ => false
  end.

(** [nodes.h]: the bits of [AggSplit] *)
Definition AGGSPLITOP_COMBINE : Z := 1.
Definition AGGSPLITOP_SKIPFINAL : Z := 2.
Definition DO_AGGSPLIT_COMBINE (aggsplit : Z) : bool :=
  negb (Z.land aggsplit AGGSPLITOP_COMBINE =? 0).
Definition DO_AGGSPLIT_SKIPFINAL (aggsplit : Z) : bool :=
  negb (Z.land aggsplit AGGSPLITOP_SKIPFINAL =? 0).

Record Agg := {
  plan_aggstrategy : AggStrategy;
  plan_numCols : nat;
  plan_grpColIdx : list nat;
  plan_numGroups : Q;           (* a double in the source *)
  plan_hybrid : bool;
  plan_entrySize : Z
}.

(** [gset_lengths] and [phase_grouped_cols] are NULL when there are no
    grouping sets; [gset_lengths] is then the empty list. *)
Record AggStatePerPhaseData := {
  phase_aggstrategy : AggStrategy;
  numsets : nat;
  gset_lengths : list nat;
  phase_grouped_cols : option (list (list nat));
  eqfunctions : list FmgrInfo;
  phase_aggnode : Agg;
  sortnode : option SortSpec
}.

(** ** Hash tables and spill sets *)

Record TupleHashEntryData := {
  firstTuple : HeapTupleData;
  additional : list AggStatePerGroupData;
  hash : Z
}.

Definition set_additional (entry : TupleHashEntryData)
  (v : list AggStatePerGroupData) : TupleHashEntryData :=
  {| firstTuple := firstTuple entry; additional := v; hash := hash entry |}.

Definition set_firstTuple (entry : TupleHashEntryData)
  (v : HeapTupleData) : TupleHashEntryData :=
  {| firstTuple := v; additional := additional entry; hash := hash entry |}.

(** [hashtab] lists the members in the order a scan visits them.  The
    [tb_] fields are what [tuplehash_set_hybrid] left in the table proper. *)
Record TupleHashTableData := {
  hashtab : list TupleHashEntryData;
  keyColIdx : list nat;
  tb_hybrid : bool;
  tb_max_entries : Z;
  tb_nbatches : Z;
  hybrid : bool;
  nentries : Z;
  nbatches : Z;
  spilled : bool;
  spill_set : option nat;
  actual_entrysize : Z
}.

Definition set_hashtab (hashtable : TupleHashTableData) (v : list TupleHashEntryData) : TupleHashTableData :=
  {| hashtab := v; keyColIdx := keyColIdx hashtable;
     tb_hybrid := tb_hybrid hashtable; tb_max_entries := tb_max_entries hashtable;
     tb_nbatches := tb_nbatches hashtable; hybrid := hybrid hashtable;
     nentries := nentries hashtable; nbatches := nbatches hashtable;
     spilled := spilled hashtable; spill_set := spill_set hashtable;
     actual_entrysize := actual_entrysize hashtable |}.

Definition set_hybrid (hashtable : TupleHashTableData) (v : bool) : TupleHashTableData :=
  {| hashtab := hashtab hashtable; keyColIdx := keyColIdx hashtable;
     tb_hybrid := tb_hybrid hashtable; tb_max_entries := tb_max_entries hashtable;
     tb_nbatches := tb_nbatches hashtable; hybrid := v;
     nentries := nentries hashtable; nbatches := nbatches hashtable;
     spilled := spilled hashtable; spill_set := spill_set hashtable;
     actual_entrysize := actual_entrysize hashtable |}.

Definition set_spilled (hashtable : TupleHashTableData) (v : bool) : TupleHashTableData :=
  {| hashtab := hashtab hashtable; keyColIdx := keyColIdx hashtable;
     tb_hybrid := tb_hybrid hashtable; tb_max_entries := tb_max_entries hashtable;
     tb_nbatches := tb_nbatches hashtable; hybrid := hybrid hashtable;
     nentries := nentries hashtable; nbatches := nbatches hashtable; spilled := v;
     spill_set := spill_set hashtable;
     actual_entrysize := actual_entrysize hashtable |}.

Definition set_spill_set (hashtable : TupleHashTableData) (v : option nat) : TupleHashTableData :=
  {| hashtab := hashtab hashtable; keyColIdx := keyColIdx hashtable;
     tb_hybrid := tb_hybrid hashtable; tb_max_entries := tb_max_entries hashtable;
     tb_nbatches := tb_nbatches hashtable; hybrid := hybrid hashtable;
     nentries := nentries hashtable; nbatches := nbatches hashtable;
     spilled := spilled hashtable; spill_set := v;
     actual_entrysize := actual_entrysize hashtable |}.

Definition set_actual_entrysize (hashtable : TupleHashTableData) (v : Z) : TupleHashTableData :=
  {| hashtab := hashtab hashtable; keyColIdx := keyColIdx hashtable;
     tb_hybrid := tb_hybrid hashtable; tb_max_entries := tb_max_entries hashtable;
     tb_nbatches := tb_nbatches hashtable; hybrid := hybrid hashtable;
     nentries := nentries hashtable; nbatches := nbatches hashtable;
     spilled := spilled hashtable; spill_set := spill_set hashtable;
     actual_entrysize := v |}.

(** One record of a batch file.  Byte lengths are not modelled: the record
    is kept by its fields, [rec_payload] holding, per transition slot, the
    bytes written after the per-group array (a by-reference value, or the
    serialized form of an INTERNAL state). *)
Record SpillRecord := {
  rec_hash : Z;
  rec_tuple : HeapTupleData;
  rec_states : list AggStatePerGroupData;
  rec_payload : list (option Datum)
}.

Record SpillFile := {
  ntups_read : Z;
  ntups_write : Z;
  file_spilled : bool;
  child_spill_set : option nat;
  file : list SpillRecord
}.

Definition set_ntups_read (sfile : SpillFile) (v : Z) : SpillFile :=
  {| ntups_read := v; ntups_write := ntups_write sfile;
     file_spilled := file_spilled sfile; child_spill_set := child_spill_set sfile;
     file := file sfile |}.

Definition set_ntups_write (sfile : SpillFile) (v : Z) : SpillFile :=
  {| ntups_read := ntups_read sfile; ntups_write := v;
     file_spilled := file_spilled sfile; child_spill_set := child_spill_set sfile;
     file := file sfile |}.

Definition set_file_spilled (sfile : SpillFile) (v : bool) : SpillFile :=
  {| ntups_read := ntups_read sfile; ntups_write := ntups_write sfile;
     file_spilled := v; child_spill_set := child_spill_set sfile;
     file := file sfile |}.

Definition set_child_spill_set (sfile : SpillFile) (v : option nat) : SpillFile :=
  {| ntups_read := ntups_read sfile; ntups_write := ntups_write sfile;
     file_spilled := file_spilled sfile; child_spill_set := v; file := file sfile |}.

Definition set_file (sfile : SpillFile) (v : list SpillRecord) : SpillFile :=
  {| ntups_read := ntups_read sfile; ntups_write := ntups_write sfile;
     file_spilled := file_spilled sfile; child_spill_set := child_spill_set sfile;
     file := v |}.

(** Spill sets live in a store ([spill_heap]); a pointer to one is its
    position there. *)
Record SpillSet := {
  level : Z;
  num_files : Z;
  parent_index : Z;
  parent_spill_set : option nat;
  current_file : Z;
  spill_file : list (option SpillFile)
}.

Definition set_current_file (spillset : SpillSet) (v : Z) : SpillSet :=
  {| level := level spillset; num_files := num_files spillset;
     parent_index := parent_index spillset;
     parent_spill_set := parent_spill_set spillset; current_file := v;
     spill_file := spill_file spillset |}.

Definition set_spill_file (spillset : SpillSet) (v : list (option SpillFile)) : SpillSet :=
  {| level := level spillset; num_files := num_files spillset;
     parent_index := parent_index spillset;
     parent_spill_set := parent_spill_set spillset;
     current_file := current_file spillset; spill_file := v |}.


Record AggStatePerHashData := {
  hashtable : TupleHashTableData;
  hashiter : nat;
  hashslot : TupleTableSlot;
  numCols : nat;
  numhashGrpCols : nat;
  largestGrpColIdx : nat;
  hashGrpColIdxInput : list nat;
  hashGrpColIdxHash : list nat;
  hash_aggnode : Agg
}.

Definition set_hashtable (perhash : AggStatePerHashData) (v : TupleHashTableData) : AggStatePerHashData :=
  {| hashtable := v; hashiter := hashiter perhash; hashslot := hashslot perhash;
     numCols := numCols perhash; numhashGrpCols := numhashGrpCols perhash;
     largestGrpColIdx := largestGrpColIdx perhash;
     hashGrpColIdxInput := hashGrpColIdxInput perhash;
     hashGrpColIdxHash := hashGrpColIdxHash perhash;
     hash_aggnode := hash_aggnode perhash |}.

Definition set_hashiter (perhash : AggStatePerHashData) (v : nat) : AggStatePerHashData :=
  {| hashtable := hashtable perhash; hashiter := v; hashslot := hashslot perhash;
     numCols := numCols perhash; numhashGrpCols := numhashGrpCols perhash;
     largestGrpColIdx := largestGrpColIdx perhash;
     hashGrpColIdxInput := hashGrpColIdxInput perhash;
     hashGrpColIdxHash := hashGrpColIdxHash perhash;
     hash_aggnode := hash_aggnode perhash |}.

Definition set_hashslot (perhash : AggStatePerHashData) (v : TupleTableSlot) : AggStatePerHashData :=
  {| hashtable := hashtable perhash; hashiter := hashiter perhash; hashslot := v;
     numCols := numCols perhash; numhashGrpCols := numhashGrpCols perhash;
     largestGrpColIdx := largestGrpColIdx perhash;
     hashGrpColIdxInput := hashGrpColIdxInput perhash;
     hashGrpColIdxHash := hashGrpColIdxHash perhash;
     hash_aggnode := hash_aggnode perhash |}.

(** ** AggState *)

(** The fields down to [ps_ProjInfo] are fixed by ExecInitAgg.  [lefttree]
    is the outer plan, by the rows it has yet to return; [calls] records the
    frames handed to transition and combine functions, oldest first. *)
Record AggState := {
  aggstrategy : AggStrategy;
  aggsplit : Z;
  numaggs : nat;
  numtrans : nat;
  numphases : nat;
  phases : list AggStatePerPhaseData;
  peragg : list AggStatePerAggData;
  num_hashes : nat;
  all_grouped_cols : list nat;
  evalproj : option (TupleTableSlot -> TupleTableSlot);
  qual : ProjInput -> bool;
  ps_ProjInfo : ProjInput -> TupleTableSlot;
  current_phase : nat;
  pertrans : list AggStatePerTransData;
  projected_set : Z;
  current_set : nat;
  input_done : bool;
  agg_done : bool;
  pergroup : list AggStatePerGroupData;
  grp_firstTuple : option HeapTupleData;
  sort_in : option Tuplesortstate;
  sort_out : option Tuplesortstate;
  table_filled : bool;
  perhash : list AggStatePerHashData;
  hash_pergroup : list nat;
  spill_heap : list SpillSet;
  lefttree : list HeapTupleData;
  outer_slot : TupleTableSlot;
  sort_slot : TupleTableSlot;
  ss_ScanTupleSlot : TupleTableSlot;
  evalslot : TupleTableSlot;
  tmp_outertuple : SlotId;
  ecxt_outertuple : SlotId;
  ecxt_aggvalues : list Datum;
  ecxt_aggnulls : list bool;
  grouped_cols : list nat;
  calls : list FunctionCallInfoData
}.

Definition set_current_phase (aggstate : AggState) (v : nat) : AggState :=
  {| aggstrategy := aggstrategy aggstate; aggsplit := aggsplit aggstate;
     numaggs := numaggs aggstate; numtrans := numtrans aggstate;
     numphases := numphases aggstate; phases := phases aggstate;
     peragg := peragg aggstate; num_hashes := num_hashes aggstate;
     all_grouped_cols := all_grouped_cols aggstate; evalproj := evalproj aggstate;
     qual := qual aggstate; ps_ProjInfo := ps_ProjInfo aggstate;
     current_phase := v; pertrans := pertrans aggstate;
     projected_set := projected_set aggstate; current_set := current_set aggstate;
     input_done := input_done aggstate; agg_done := agg_done aggstate;
     pergroup := pergroup aggstate; grp_firstTuple := grp_firstTuple aggstate;
     sort_in := sort_in aggstate; sort_out := sort_out aggstate;
     table_filled := table_filled aggstate; perhash := perhash aggstate;
     hash_pergroup := hash_pergroup aggstate; spill_heap := spill_heap aggstate;
     lefttree := lefttree aggstate; outer_slot := outer_slot aggstate;
     sort_slot := sort_slot aggstate;
     ss_ScanTupleSlot := ss_ScanTupleSlot aggstate; evalslot := evalslot aggstate;
     tmp_outertuple := tmp_outertuple aggstate;
     ecxt_outertuple := ecxt_outertuple aggstate;
     ecxt_aggvalues := ecxt_aggvalues aggstate;
     ecxt_aggnulls := ecxt_aggnulls aggstate;
     grouped_cols := grouped_cols aggstate; calls := calls aggstate |}.

Definition set_pertrans (aggstate : AggState) (v : list AggStatePerTransData) : AggState :=
  {| aggstrategy := aggstrategy aggstate; aggsplit := aggsplit aggstate;
     numaggs := numaggs aggstate; numtrans := numtrans aggstate;
     numphases := numphases aggstate; phases := phases aggstate;
     peragg := peragg aggstate; num_hashes := num_hashes aggstate;
     all_grouped_cols := all_grouped_cols aggstate; evalproj := evalproj aggstate;
     qual := qual aggstate; ps_ProjInfo := ps_ProjInfo aggstate;
     current_phase := current_phase aggstate; pertrans := v;
     projected_set := projected_set aggstate; current_set := current_set aggstate;
     input_done := input_done aggstate; agg_done := agg_done aggstate;
     pergroup := pergroup aggstate; grp_firstTuple := grp_firstTuple aggstate;
     sort_in := sort_in aggstate; sort_out := sort_out aggstate;
     table_filled := table_filled aggstate; perhash := perhash aggstate;
     hash_pergroup := hash_pergroup aggstate; spill_heap := spill_heap aggstate;
     lefttree := lefttree aggstate; outer_slot := outer_slot aggstate;
     sort_slot := sort_slot aggstate;
     ss_ScanTupleSlot := ss_ScanTupleSlot aggstate; evalslot := evalslot aggstate;
     tmp_outertuple := tmp_outertuple aggstate;
     ecxt_outertuple := ecxt_outertuple aggstate;
     ecxt_aggvalues := ecxt_aggvalues aggstate;
     ecxt_aggnulls := ecxt_aggnulls aggstate;
     grouped_cols := grouped_cols aggstate; calls := calls aggstate |}.

Definition set_projected_set (aggstate : AggState) (v : Z) : AggState :=
  {| aggstrategy := aggstrategy aggstate; aggsplit := aggsplit aggstate;
     numaggs := numaggs aggstate; numtrans := numtrans aggstate;
     numphases := numphases aggstate; phases := phases aggstate;
     peragg := peragg aggstate; num_hashes := num_hashes aggstate;
     all_grouped_cols := all_grouped_cols aggstate; evalproj := evalproj aggstate;
     qual := qual aggstate; ps_ProjInfo := ps_ProjInfo aggstate;
     current_phase := current_phase aggstate; pertrans := pertrans aggstate;
     projected_set := v; current_set := current_set aggstate;
     input_done := input_done aggstate; agg_done := agg_done aggstate;
     pergroup := pergroup aggstate; grp_firstTuple := grp_firstTuple aggstate;
     sort_in := sort_in aggstate; sort_out := sort_out aggstate;
     table_filled := table_filled aggstate; perhash := perhash aggstate;
     hash_pergroup := hash_pergroup aggstate; spill_heap := spill_heap aggstate;
     lefttree := lefttree aggstate; outer_slot := outer_slot aggstate;
     sort_slot := sort_slot aggstate;
     ss_ScanTupleSlot := ss_ScanTupleSlot aggstate; evalslot := evalslot aggstate;
     tmp_outertuple := tmp_outertuple aggstate;
     ecxt_outertuple := ecxt_outertuple aggstate;
     ecxt_aggvalues := ecxt_aggvalues aggstate;
     ecxt_aggnulls := ecxt_aggnulls aggstate;
     grouped_cols := grouped_cols aggstate; calls := calls aggstate |}.

Definition set_current_set (aggstate : AggState) (v : nat) : AggState :=
  {| aggstrategy := aggstrategy aggstate; aggsplit := aggsplit aggstate;
     numaggs := numaggs aggstate; numtrans := numtrans aggstate;
     numphases := numphases aggstate; phases := phases aggstate;
     peragg := peragg aggstate; num_hashes := num_hashes aggstate;
     all_grouped_cols := all_grouped_cols aggstate; evalproj := evalproj aggstate;
     qual := qual aggstate; ps_ProjInfo := ps_ProjInfo aggstate;
     current_phase := current_phase aggstate; pertrans := pertrans aggstate;
     projected_set := projected_set aggstate; current_set := v;
     input_done := input_done aggstate; agg_done := agg_done aggstate;
     pergroup := pergroup aggstate; grp_firstTuple := grp_firstTuple aggstate;
     sort_in := sort_in aggstate; sort_out := sort_out aggstate;
     table_filled := table_filled aggstate; perhash := perhash aggstate;
     hash_pergroup := hash_pergroup aggstate; spill_heap := spill_heap aggstate;
     lefttree := lefttree aggstate; outer_slot := outer_slot aggstate;
     sort_slot := sort_slot aggstate;
     ss_ScanTupleSlot := ss_ScanTupleSlot aggstate; evalslot := evalslot aggstate;
     tmp_outertuple := tmp_outertuple aggstate;
     ecxt_outertuple := ecxt_outertuple aggstate;
     ecxt_aggvalues := ecxt_aggvalues aggstate;
     ecxt_aggnulls := ecxt_aggnulls aggstate;
     grouped_cols := grouped_cols aggstate; calls := calls aggstate |}.

Definition set_input_done (aggstate : AggState) (v : bool) : AggState :=
  {| aggstrategy := aggstrategy aggstate; aggsplit := aggsplit aggstate;
     numaggs := numaggs aggstate; numtrans := numtrans aggstate;
     numphases := numphases aggstate; phases := phases aggstate;
     peragg := peragg aggstate; num_hashes := num_hashes aggstate;
     all_grouped_cols := all_grouped_cols aggstate; evalproj := evalproj aggstate;
     qual := qual aggstate; ps_ProjInfo := ps_ProjInfo aggstate;
     current_phase := current_phase aggstate; pertrans := pertrans aggstate;
     projected_set := projected_set aggstate; current_set := current_set aggstate;
     input_done := v; agg_done := agg_done aggstate;
     pergroup := pergroup aggstate; grp_firstTuple := grp_firstTuple aggstate;
     sort_in := sort_in aggstate; sort_out := sort_out aggstate;
     table_filled := table_filled aggstate; perhash := perhash aggstate;
     hash_pergroup := hash_pergroup aggstate; spill_heap := spill_heap aggstate;
     lefttree := lefttree aggstate; outer_slot := outer_slot aggstate;
     sort_slot := sort_slot aggstate;
     ss_ScanTupleSlot := ss_ScanTupleSlot aggstate; evalslot := evalslot aggstate;
     tmp_outertuple := tmp_outertuple aggstate;
     ecxt_outertuple := ecxt_outertuple aggstate;
     ecxt_aggvalues := ecxt_aggvalues aggstate;
     ecxt_aggnulls := ecxt_aggnulls aggstate;
     grouped_cols := grouped_cols aggstate; calls := calls aggstate |}.

Definition set_agg_done (aggstate : AggState) (v : bool) : AggState :=
  {| aggstrategy := aggstrategy aggstate; aggsplit := aggsplit aggstate;
     numaggs := numaggs aggstate; numtrans := numtrans aggstate;
     numphases := numphases aggstate; phases := phases aggstate;
     peragg := peragg aggstate; num_hashes := num_hashes aggstate;
     all_grouped_cols := all_grouped_cols aggstate; evalproj := evalproj aggstate;
     qual := qual aggstate; ps_ProjInfo := ps_ProjInfo aggstate;
     current_phase := current_phase aggstate; pertrans := pertrans aggstate;
     projected_set := projected_set aggstate; current_set := current_set aggstate;
     input_done := input_done aggstate; agg_done := v;
     pergroup := pergroup aggstate; grp_firstTuple := grp_firstTuple aggstate;
     sort_in := sort_in aggstate; sort_out := sort_out aggstate;
     table_filled := table_filled aggstate; perhash := perhash aggstate;
     hash_pergroup := hash_pergroup aggstate; spill_heap := spill_heap aggstate;
     lefttree := lefttree aggstate; outer_slot := outer_slot aggstate;
     sort_slot := sort_slot aggstate;
     ss_ScanTupleSlot := ss_ScanTupleSlot aggstate; evalslot := evalslot aggstate;
     tmp_outertuple := tmp_outertuple aggstate;
     ecxt_outertuple := ecxt_outertuple aggstate;
     ecxt_aggvalues := ecxt_aggvalues aggstate;
     ecxt_aggnulls := ecxt_aggnulls aggstate;
     grouped_cols := grouped_cols aggstate; calls := calls aggstate |}.

Definition set_pergroup (aggstate : AggState) (v : list AggStatePerGroupData) : AggState :=
  {| aggstrategy := aggstrategy aggstate; aggsplit := aggsplit aggstate;
     numaggs := numaggs aggstate; numtrans := numtrans aggstate;
     numphases := numphases aggstate; phases := phases aggstate;
     peragg := peragg aggstate; num_hashes := num_hashes aggstate;
     all_grouped_cols := all_grouped_cols aggstate; evalproj := evalproj aggstate;
     qual := qual aggstate; ps_ProjInfo := ps_ProjInfo aggstate;
     current_phase := current_phase aggstate; pertrans := pertrans aggstate;
     projected_set := projected_set aggstate; current_set := current_set aggstate;
     input_done := input_done aggstate; agg_done := agg_done aggstate;
     pergroup := v; grp_firstTuple := grp_firstTuple aggstate;
     sort_in := sort_in aggstate; sort_out := sort_out aggstate;
     table_filled := table_filled aggstate; perhash := perhash aggstate;
     hash_pergroup := hash_pergroup aggstate; spill_heap := spill_heap aggstate;
     lefttree := lefttree aggstate; outer_slot := outer_slot aggstate;
     sort_slot := sort_slot aggstate;
     ss_ScanTupleSlot := ss_ScanTupleSlot aggstate; evalslot := evalslot aggstate;
     tmp_outertuple := tmp_outertuple aggstate;
     ecxt_outertuple := ecxt_outertuple aggstate;
     ecxt_aggvalues := ecxt_aggvalues aggstate;
     ecxt_aggnulls := ecxt_aggnulls aggstate;
     grouped_cols := grouped_cols aggstate; calls := calls aggstate |}.

Definition set_grp_firstTuple (aggstate : AggState) (v : option HeapTupleData) : AggState :=
  {| aggstrategy := aggstrategy aggstate; aggsplit := aggsplit aggstate;
     numaggs := numaggs aggstate; numtrans := numtrans aggstate;
     numphases := numphases aggstate; phases := phases aggstate;
     peragg := peragg aggstate; num_hashes := num_hashes aggstate;
     all_grouped_cols := all_grouped_cols aggstate; evalproj := evalproj aggstate;
     qual := qual aggstate; ps_ProjInfo := ps_ProjInfo aggstate;
     current_phase := current_phase aggstate; pertrans := pertrans aggstate;
     projected_set := projected_set aggstate; current_set := current_set aggstate;
     input_done := input_done aggstate; agg_done := agg_done aggstate;
     pergroup := pergroup aggstate; grp_firstTuple := v;
     sort_in := sort_in aggstate; sort_out := sort_out aggstate;
     table_filled := table_filled aggstate; perhash := perhash aggstate;
     hash_pergroup := hash_pergroup aggstate; spill_heap := spill_heap aggstate;
     lefttree := lefttree aggstate; outer_slot := outer_slot aggstate;
     sort_slot := sort_slot aggstate;
     ss_ScanTupleSlot := ss_ScanTupleSlot aggstate; evalslot := evalslot aggstate;
     tmp_outertuple := tmp_outertuple aggstate;
     ecxt_outertuple := ecxt_outertuple aggstate;
     ecxt_aggvalues := ecxt_aggvalues aggstate;
     ecxt_aggnulls := ecxt_aggnulls aggstate;
     grouped_cols := grouped_cols aggstate; calls := calls aggstate |}.

Definition set_sort_in (aggstate : AggState) (v : option Tuplesortstate) : AggState :=
  {| aggstrategy := aggstrategy aggstate; aggsplit := aggsplit aggstate;
     numaggs := numaggs aggstate; numtrans := numtrans aggstate;
     numphases := numphases aggstate; phases := phases aggstate;
     peragg := peragg aggstate; num_hashes := num_hashes aggstate;
     all_grouped_cols := all_grouped_cols aggstate; evalproj := evalproj aggstate;
     qual := qual aggstate; ps_ProjInfo := ps_ProjInfo aggstate;
     current_phase := current_phase aggstate; pertrans := pertrans aggstate;
     projected_set := projected_set aggstate; current_set := current_set aggstate;
     input_done := input_done aggstate; agg_done := agg_done aggstate;
     pergroup := pergroup aggstate; grp_firstTuple := grp_firstTuple aggstate;
     sort_in := v; sort_out := sort_out aggstate;
     table_filled := table_filled aggstate; perhash := perhash aggstate;
     hash_pergroup := hash_pergroup aggstate; spill_heap := spill_heap aggstate;
     lefttree := lefttree aggstate; outer_slot := outer_slot aggstate;
     sort_slot := sort_slot aggstate;
     ss_ScanTupleSlot := ss_ScanTupleSlot aggstate; evalslot := evalslot aggstate;
     tmp_outertuple := tmp_outertuple aggstate;
     ecxt_outertuple := ecxt_outertuple aggstate;
     ecxt_aggvalues := ecxt_aggvalues aggstate;
     ecxt_aggnulls := ecxt_aggnulls aggstate;
     grouped_cols := grouped_cols aggstate; calls := calls aggstate |}.

Definition set_sort_out (aggstate : AggState) (v : option Tuplesortstate) : AggState :=
  {| aggstrategy := aggstrategy aggstate; aggsplit := aggsplit aggstate;
     numaggs := numaggs aggstate; numtrans := numtrans aggstate;
     numphases := numphases aggstate; phases := phases aggstate;
     peragg := peragg aggstate; num_hashes := num_hashes aggstate;
     all_grouped_cols := all_grouped_cols aggstate; evalproj := evalproj aggstate;
     qual := qual aggstate; ps_ProjInfo := ps_ProjInfo aggstate;
     current_phase := current_phase aggstate; pertrans := pertrans aggstate;
     projected_set := projected_set aggstate; current_set := current_set aggstate;
     input_done := input_done aggstate; agg_done := agg_done aggstate;
     pergroup := pergroup aggstate; grp_firstTuple := grp_firstTuple aggstate;
     sort_in := sort_in aggstate; sort_out := v;
     table_filled := table_filled aggstate; perhash := perhash aggstate;
     hash_pergroup := hash_pergroup aggstate; spill_heap := spill_heap aggstate;
     lefttree := lefttree aggstate; outer_slot := outer_slot aggstate;
     sort_slot := sort_slot aggstate;
     ss_ScanTupleSlot := ss_ScanTupleSlot aggstate; evalslot := evalslot aggstate;
     tmp_outertuple := tmp_outertuple aggstate;
     ecxt_outertuple := ecxt_outertuple aggstate;
     ecxt_aggvalues := ecxt_aggvalues aggstate;
     ecxt_aggnulls := ecxt_aggnulls aggstate;
     grouped_cols := grouped_cols aggstate; calls := calls aggstate |}.

Definition set_table_filled (aggstate : AggState) (v : bool) : AggState :=
  {| aggstrategy := aggstrategy aggstate; aggsplit := aggsplit aggstate;
     numaggs := numaggs aggstate; numtrans := numtrans aggstate;
     numphases := numphases aggstate; phases := phases aggstate;
     peragg := peragg aggstate; num_hashes := num_hashes aggstate;
     all_grouped_cols := all_grouped_cols aggstate; evalproj := evalproj aggstate;
     qual := qual aggstate; ps_ProjInfo := ps_ProjInfo aggstate;
     current_phase := current_phase aggstate; pertrans := pertrans aggstate;
     projected_set := projected_set aggstate; current_set := current_set aggstate;
     input_done := input_done aggstate; agg_done := agg_done aggstate;
     pergroup := pergroup aggstate; grp_firstTuple := grp_firstTuple aggstate;
     sort_in := sort_in aggstate; sort_out := sort_out aggstate;
     table_filled := v; perhash := perhash aggstate;
     hash_pergroup := hash_pergroup aggstate; spill_heap := spill_heap aggstate;
     lefttree := lefttree aggstate; outer_slot := outer_slot aggstate;
     sort_slot := sort_slot aggstate;
     ss_ScanTupleSlot := ss_ScanTupleSlot aggstate; evalslot := evalslot aggstate;
     tmp_outertuple := tmp_outertuple aggstate;
     ecxt_outertuple := ecxt_outertuple aggstate;
     ecxt_aggvalues := ecxt_aggvalues aggstate;
     ecxt_aggnulls := ecxt_aggnulls aggstate;
     grouped_cols := grouped_cols aggstate; calls := calls aggstate |}.

Definition set_perhash (aggstate : AggState) (v : list AggStatePerHashData) : AggState :=
  {| aggstrategy := aggstrategy aggstate; aggsplit := aggsplit aggstate;
     numaggs := numaggs aggstate; numtrans := numtrans aggstate;
     numphases := numphases aggstate; phases := phases aggstate;
     peragg := peragg aggstate; num_hashes := num_hashes aggstate;
     all_grouped_cols := all_grouped_cols aggstate; evalproj := evalproj aggstate;
     qual := qual aggstate; ps_ProjInfo := ps_ProjInfo aggstate;
     current_phase := current_phase aggstate; pertrans := pertrans aggstate;
     projected_set := projected_set aggstate; current_set := current_set aggstate;
     input_done := input_done aggstate; agg_done := agg_done aggstate;
     pergroup := pergroup aggstate; grp_firstTuple := grp_firstTuple aggstate;
     sort_in := sort_in aggstate; sort_out := sort_out aggstate;
     table_filled := table_filled aggstate; perhash := v;
     hash_pergroup := hash_pergroup aggstate; spill_heap := spill_heap aggstate;
     lefttree := lefttree aggstate; outer_slot := outer_slot aggstate;
     sort_slot := sort_slot aggstate;
     ss_ScanTupleSlot := ss_ScanTupleSlot aggstate; evalslot := evalslot aggstate;
     tmp_outertuple := tmp_outertuple aggstate;
     ecxt_outertuple := ecxt_outertuple aggstate;
     ecxt_aggvalues := ecxt_aggvalues aggstate;
     ecxt_aggnulls := ecxt_aggnulls aggstate;
     grouped_cols := grouped_cols aggstate; calls := calls aggstate |}.

Definition set_hash_pergroup (aggstate : AggState) (v : list nat) : AggState :=
  {| aggstrategy := aggstrategy aggstate; aggsplit := aggsplit aggstate;
     numaggs := numaggs aggstate; numtrans := numtrans aggstate;
     numphases := numphases aggstate; phases := phases aggstate;
     peragg := peragg aggstate; num_hashes := num_hashes aggstate;
     all_grouped_cols := all_grouped_cols aggstate; evalproj := evalproj aggstate;
     qual := qual aggstate; ps_ProjInfo := ps_ProjInfo aggstate;
     current_phase := current_phase aggstate; pertrans := pertrans aggstate;
     projected_set := projected_set aggstate; current_set := current_set aggstate;
     input_done := input_done aggstate; agg_done := agg_done aggstate;
     pergroup := pergroup aggstate; grp_firstTuple := grp_firstTuple aggstate;
     sort_in := sort_in aggstate; sort_out := sort_out aggstate;
     table_filled := table_filled aggstate; perhash := perhash aggstate;
     hash_pergroup := v; spill_heap := spill_heap aggstate;
     lefttree := lefttree aggstate; outer_slot := outer_slot aggstate;
     sort_slot := sort_slot aggstate;
     ss_ScanTupleSlot := ss_ScanTupleSlot aggstate; evalslot := evalslot aggstate;
     tmp_outertuple := tmp_outertuple aggstate;
     ecxt_outertuple := ecxt_outertuple aggstate;
     ecxt_aggvalues := ecxt_aggvalues aggstate;
     ecxt_aggnulls := ecxt_aggnulls aggstate;
     grouped_cols := grouped_cols aggstate; calls := calls aggstate |}.

Definition set_spill_heap (aggstate : AggState) (v : list SpillSet) : AggState :=
  {| aggstrategy := aggstrategy aggstate; aggsplit := aggsplit aggstate;
     numaggs := numaggs aggstate; numtrans := numtrans aggstate;
     numphases := numphases aggstate; phases := phases aggstate;
     peragg := peragg aggstate; num_hashes := num_hashes aggstate;
     all_grouped_cols := all_grouped_cols aggstate; evalproj := evalproj aggstate;
     qual := qual aggstate; ps_ProjInfo := ps_ProjInfo aggstate;
     current_phase := current_phase aggstate; pertrans := pertrans aggstate;
     projected_set := projected_set aggstate; current_set := current_set aggstate;
     input_done := input_done aggstate; agg_done := agg_done aggstate;
     pergroup := pergroup aggstate; grp_firstTuple := grp_firstTuple aggstate;
     sort_in := sort_in aggstate; sort_out := sort_out aggstate;
     table_filled := table_filled aggstate; perhash := perhash aggstate;
     hash_pergroup := hash_pergroup aggstate; spill_heap := v;
     lefttree := lefttree aggstate; outer_slot := outer_slot aggstate;
     sort_slot := sort_slot aggstate;
     ss_ScanTupleSlot := ss_ScanTupleSlot aggstate; evalslot := evalslot aggstate;
     tmp_outertuple := tmp_outertuple aggstate;
     ecxt_outertuple := ecxt_outertuple aggstate;
     ecxt_aggvalues := ecxt_aggvalues aggstate;
     ecxt_aggnulls := ecxt_aggnulls aggstate;
     grouped_cols := grouped_cols aggstate; calls := calls aggstate |}.

Definition set_lefttree (aggstate : AggState) (v : list HeapTupleData) : AggState :=
  {| aggstrategy := aggstrategy aggstate; aggsplit := aggsplit aggstate;
     numaggs := numaggs aggstate; numtrans := numtrans aggstate;
     numphases := numphases aggstate; phases := phases aggstate;
     peragg := peragg aggstate; num_hashes := num_hashes aggstate;
     all_grouped_cols := all_grouped_cols aggstate; evalproj := evalproj aggstate;
     qual := qual aggstate; ps_ProjInfo := ps_ProjInfo aggstate;
     current_phase := current_phase aggstate; pertrans := pertrans aggstate;
     projected_set := projected_set aggstate; current_set := current_set aggstate;
     input_done := input_done aggstate; agg_done := agg_done aggstate;
     pergroup := pergroup aggstate; grp_firstTuple := grp_firstTuple aggstate;
     sort_in := sort_in aggstate; sort_out := sort_out aggstate;
     table_filled := table_filled aggstate; perhash := perhash aggstate;
     hash_pergroup := hash_pergroup aggstate; spill_heap := spill_heap aggstate;
     lefttree := v; outer_slot := outer_slot aggstate;
     sort_slot := sort_slot aggstate;
     ss_ScanTupleSlot := ss_ScanTupleSlot aggstate; evalslot := evalslot aggstate;
     tmp_outertuple := tmp_outertuple aggstate;
     ecxt_outertuple := ecxt_outertuple aggstate;
     ecxt_aggvalues := ecxt_aggvalues aggstate;
     ecxt_aggnulls := ecxt_aggnulls aggstate;
     grouped_cols := grouped_cols aggstate; calls := calls aggstate |}.

Definition set_outer_slot (aggstate : AggState) (v : TupleTableSlot) : AggState :=
  {| aggstrategy := aggstrategy aggstate; aggsplit := aggsplit aggstate;
     numaggs := numaggs aggstate; numtrans := numtrans aggstate;
     numphases := numphases aggstate; phases := phases aggstate;
     peragg := peragg aggstate; num_hashes := num_hashes aggstate;
     all_grouped_cols := all_grouped_cols aggstate; evalproj := evalproj aggstate;
     qual := qual aggstate; ps_ProjInfo := ps_ProjInfo aggstate;
     current_phase := current_phase aggstate; pertrans := pertrans aggstate;
     projected_set := projected_set aggstate; current_set := current_set aggstate;
     input_done := input_done aggstate; agg_done := agg_done aggstate;
     pergroup := pergroup aggstate; grp_firstTuple := grp_firstTuple aggstate;
     sort_in := sort_in aggstate; sort_out := sort_out aggstate;
     table_filled := table_filled aggstate; perhash := perhash aggstate;
     hash_pergroup := hash_pergroup aggstate; spill_heap := spill_heap aggstate;
     lefttree := lefttree aggstate; outer_slot := v;
     sort_slot := sort_slot aggstate;
     ss_ScanTupleSlot := ss_ScanTupleSlot aggstate; evalslot := evalslot aggstate;
     tmp_outertuple := tmp_outertuple aggstate;
     ecxt_outertuple := ecxt_outertuple aggstate;
     ecxt_aggvalues := ecxt_aggvalues aggstate;
     ecxt_aggnulls := ecxt_aggnulls aggstate;
     grouped_cols := grouped_cols aggstate; calls := calls aggstate |}.

Definition set_sort_slot (aggstate : AggState) (v : TupleTableSlot) : AggState :=
  {| aggstrategy := aggstrategy aggstate; aggsplit := aggsplit aggstate;
     numaggs := numaggs aggstate; numtrans := numtrans aggstate;
     numphases := numphases aggstate; phases := phases aggstate;
     peragg := peragg aggstate; num_hashes := num_hashes aggstate;
     all_grouped_cols := all_grouped_cols aggstate; evalproj := evalproj aggstate;
     qual := qual aggstate; ps_ProjInfo := ps_ProjInfo aggstate;
     current_phase := current_phase aggstate; pertrans := pertrans aggstate;
     projected_set := projected_set aggstate; current_set := current_set aggstate;
     input_done := input_done aggstate; agg_done := agg_done aggstate;
     pergroup := pergroup aggstate; grp_firstTuple := grp_firstTuple aggstate;
     sort_in := sort_in aggstate; sort_out := sort_out aggstate;
     table_filled := table_filled aggstate; perhash := perhash aggstate;
     hash_pergroup := hash_pergroup aggstate; spill_heap := spill_heap aggstate;
     lefttree := lefttree aggstate; outer_slot := outer_slot aggstate;
     sort_slot := v; ss_ScanTupleSlot := ss_ScanTupleSlot aggstate;
     evalslot := evalslot aggstate; tmp_outertuple := tmp_outertuple aggstate;
     ecxt_outertuple := ecxt_outertuple aggstate;
     ecxt_aggvalues := ecxt_aggvalues aggstate;
     ecxt_aggnulls := ecxt_aggnulls aggstate;
     grouped_cols := grouped_cols aggstate; calls := calls aggstate |}.

Definition set_ss_ScanTupleSlot (aggstate : AggState) (v : TupleTableSlot) : AggState :=
  {| aggstrategy := aggstrategy aggstate; aggsplit := aggsplit aggstate;
     numaggs := numaggs aggstate; numtrans := numtrans aggstate;
     numphases := numphases aggstate; phases := phases aggstate;
     peragg := peragg aggstate; num_hashes := num_hashes aggstate;
     all_grouped_cols := all_grouped_cols aggstate; evalproj := evalproj aggstate;
     qual := qual aggstate; ps_ProjInfo := ps_ProjInfo aggstate;
     current_phase := current_phase aggstate; pertrans := pertrans aggstate;
     projected_set := projected_set aggstate; current_set := current_set aggstate;
     input_done := input_done aggstate; agg_done := agg_done aggstate;
     pergroup := pergroup aggstate; grp_firstTuple := grp_firstTuple aggstate;
     sort_in := sort_in aggstate; sort_out := sort_out aggstate;
     table_filled := table_filled aggstate; perhash := perhash aggstate;
     hash_pergroup := hash_pergroup aggstate; spill_heap := spill_heap aggstate;
     lefttree := lefttree aggstate; outer_slot := outer_slot aggstate;
     sort_slot := sort_slot aggstate; ss_ScanTupleSlot := v;
     evalslot := evalslot aggstate; tmp_outertuple := tmp_outertuple aggstate;
     ecxt_outertuple := ecxt_outertuple aggstate;
     ecxt_aggvalues := ecxt_aggvalues aggstate;
     ecxt_aggnulls := ecxt_aggnulls aggstate;
     grouped_cols := grouped_cols aggstate; calls := calls aggstate |}.

Definition set_evalslot (aggstate : AggState) (v : TupleTableSlot) : AggState :=
  {| aggstrategy := aggstrategy aggstate; aggsplit := aggsplit aggstate;
     numaggs := numaggs aggstate; numtrans := numtrans aggstate;
     numphases := numphases aggstate; phases := phases aggstate;
     peragg := peragg aggstate; num_hashes := num_hashes aggstate;
     all_grouped_cols := all_grouped_cols aggstate; evalproj := evalproj aggstate;
     qual := qual aggstate; ps_ProjInfo := ps_ProjInfo aggstate;
     current_phase := current_phase aggstate; pertrans := pertrans aggstate;
     projected_set := projected_set aggstate; current_set := current_set aggstate;
     input_done := input_done aggstate; agg_done := agg_done aggstate;
     pergroup := pergroup aggstate; grp_firstTuple := grp_firstTuple aggstate;
     sort_in := sort_in aggstate; sort_out := sort_out aggstate;
     table_filled := table_filled aggstate; perhash := perhash aggstate;
     hash_pergroup := hash_pergroup aggstate; spill_heap := spill_heap aggstate;
     lefttree := lefttree aggstate; outer_slot := outer_slot aggstate;
     sort_slot := sort_slot aggstate;
     ss_ScanTupleSlot := ss_ScanTupleSlot aggstate; evalslot := v;
     tmp_outertuple := tmp_outertuple aggstate;
     ecxt_outertuple := ecxt_outertuple aggstate;
     ecxt_aggvalues := ecxt_aggvalues aggstate;
     ecxt_aggnulls := ecxt_aggnulls aggstate;
     grouped_cols := grouped_cols aggstate; calls := calls aggstate |}.

Definition set_tmp_outertuple (aggstate : AggState) (v : SlotId) : AggState :=
  {| aggstrategy := aggstrategy aggstate; aggsplit := aggsplit aggstate;
     numaggs := numaggs aggstate; numtrans := numtrans aggstate;
     numphases := numphases aggstate; phases := phases aggstate;
     peragg := peragg aggstate; num_hashes := num_hashes aggstate;
     all_grouped_cols := all_grouped_cols aggstate; evalproj := evalproj aggstate;
     qual := qual aggstate; ps_ProjInfo := ps_ProjInfo aggstate;
     current_phase := current_phase aggstate; pertrans := pertrans aggstate;
     projected_set := projected_set aggstate; current_set := current_set aggstate;
     input_done := input_done aggstate; agg_done := agg_done aggstate;
     pergroup := pergroup aggstate; grp_firstTuple := grp_firstTuple aggstate;
     sort_in := sort_in aggstate; sort_out := sort_out aggstate;
     table_filled := table_filled aggstate; perhash := perhash aggstate;
     hash_pergroup := hash_pergroup aggstate; spill_heap := spill_heap aggstate;
     lefttree := lefttree aggstate; outer_slot := outer_slot aggstate;
     sort_slot := sort_slot aggstate;
     ss_ScanTupleSlot := ss_ScanTupleSlot aggstate; evalslot := evalslot aggstate;
     tmp_outertuple := v; ecxt_outertuple := ecxt_outertuple aggstate;
     ecxt_aggvalues := ecxt_aggvalues aggstate;
     ecxt_aggnulls := ecxt_aggnulls aggstate;
     grouped_cols := grouped_cols aggstate; calls := calls aggstate |}.

Definition set_ecxt_outertuple (aggstate : AggState) (v : SlotId) : AggState :=
  {| aggstrategy := aggstrategy aggstate; aggsplit := aggsplit aggstate;
     numaggs := numaggs aggstate; numtrans := numtrans aggstate;
     numphases := numphases aggstate; phases := phases aggstate;
     peragg := peragg aggstate; num_hashes := num_hashes aggstate;
     all_grouped_cols := all_grouped_cols aggstate; evalproj := evalproj aggstate;
     qual := qual aggstate; ps_ProjInfo := ps_ProjInfo aggstate;
     current_phase := current_phase aggstate; pertrans := pertrans aggstate;
     projected_set := projected_set aggstate; current_set := current_set aggstate;
     input_done := input_done aggstate; agg_done := agg_done aggstate;
     pergroup := pergroup aggstate; grp_firstTuple := grp_firstTuple aggstate;
     sort_in := sort_in aggstate; sort_out := sort_out aggstate;
     table_filled := table_filled aggstate; perhash := perhash aggstate;
     hash_pergroup := hash_pergroup aggstate; spill_heap := spill_heap aggstate;
     lefttree := lefttree aggstate; outer_slot := outer_slot aggstate;
     sort_slot := sort_slot aggstate;
     ss_ScanTupleSlot := ss_ScanTupleSlot aggstate; evalslot := evalslot aggstate;
     tmp_outertuple := tmp_outertuple aggstate; ecxt_outertuple := v;
     ecxt_aggvalues := ecxt_aggvalues aggstate;
     ecxt_aggnulls := ecxt_aggnulls aggstate;
     grouped_cols := grouped_cols aggstate; calls := calls aggstate |}.

Definition set_ecxt_aggvalues (aggstate : AggState) (v : list Datum) : AggState :=
  {| aggstrategy := aggstrategy aggstate; aggsplit := aggsplit aggstate;
     numaggs := numaggs aggstate; numtrans := numtrans aggstate;
     numphases := numphases aggstate; phases := phases aggstate;
     peragg := peragg aggstate; num_hashes := num_hashes aggstate;
     all_grouped_cols := all_grouped_cols aggstate; evalproj := evalproj aggstate;
     qual := qual aggstate; ps_ProjInfo := ps_ProjInfo aggstate;
     current_phase := current_phase aggstate; pertrans := pertrans aggstate;
     projected_set := projected_set aggstate; current_set := current_set aggstate;
     input_done := input_done aggstate; agg_done := agg_done aggstate;
     pergroup := pergroup aggstate; grp_firstTuple := grp_firstTuple aggstate;
     sort_in := sort_in aggstate; sort_out := sort_out aggstate;
     table_filled := table_filled aggstate; perhash := perhash aggstate;
     hash_pergroup := hash_pergroup aggstate; spill_heap := spill_heap aggstate;
     lefttree := lefttree aggstate; outer_slot := outer_slot aggstate;
     sort_slot := sort_slot aggstate;
     ss_ScanTupleSlot := ss_ScanTupleSlot aggstate; evalslot := evalslot aggstate;
     tmp_outertuple := tmp_outertuple aggstate;
     ecxt_outertuple := ecxt_outertuple aggstate; ecxt_aggvalues := v;
     ecxt_aggnulls := ecxt_aggnulls aggstate;
     grouped_cols := grouped_cols aggstate; calls := calls aggstate |}.

Definition set_ecxt_aggnulls (aggstate : AggState) (v : list bool) : AggState :=
  {| aggstrategy := aggstrategy aggstate; aggsplit := aggsplit aggstate;
     numaggs := numaggs aggstate; numtrans := numtrans aggstate;
     numphases := numphases aggstate; phases := phases aggstate;
     peragg := peragg aggstate; num_hashes := num_hashes aggstate;
     all_grouped_cols := all_grouped_cols aggstate; evalproj := evalproj aggstate;
     qual := qual aggstate; ps_ProjInfo := ps_ProjInfo aggstate;
     current_phase := current_phase aggstate; pertrans := pertrans aggstate;
     projected_set := projected_set aggstate; current_set := current_set aggstate;
     input_done := input_done aggstate; agg_done := agg_done aggstate;
     pergroup := pergroup aggstate; grp_firstTuple := grp_firstTuple aggstate;
     sort_in := sort_in aggstate; sort_out := sort_out aggstate;
     table_filled := table_filled aggstate; perhash := perhash aggstate;
     hash_pergroup := hash_pergroup aggstate; spill_heap := spill_heap aggstate;
     lefttree := lefttree aggstate; outer_slot := outer_slot aggstate;
     sort_slot := sort_slot aggstate;
     ss_ScanTupleSlot := ss_ScanTupleSlot aggstate; evalslot := evalslot aggstate;
     tmp_outertuple := tmp_outertuple aggstate;
     ecxt_outertuple := ecxt_outertuple aggstate;
     ecxt_aggvalues := ecxt_aggvalues aggstate; ecxt_aggnulls := v;
     grouped_cols := grouped_cols aggstate; calls := calls aggstate |}.

Definition set_grouped_cols (aggstate : AggState) (v : list nat) : AggState :=
  {| aggstrategy := aggstrategy aggstate; aggsplit := aggsplit aggstate;
     numaggs := numaggs aggstate; numtrans := numtrans aggstate;
     numphases := numphases aggstate; phases := phases aggstate;
     peragg := peragg aggstate; num_hashes := num_hashes aggstate;
     all_grouped_cols := all_grouped_cols aggstate; evalproj := evalproj aggstate;
     qual := qual aggstate; ps_ProjInfo := ps_ProjInfo aggstate;
     current_phase := current_phase aggstate; pertrans := pertrans aggstate;
     projected_set := projected_set aggstate; current_set := current_set aggstate;
     input_done := input_done aggstate; agg_done := agg_done aggstate;
     pergroup := pergroup aggstate; grp_firstTuple := grp_firstTuple aggstate;
     sort_in := sort_in aggstate; sort_out := sort_out aggstate;
     table_filled := table_filled aggstate; perhash := perhash aggstate;
     hash_pergroup := hash_pergroup aggstate; spill_heap := spill_heap aggstate;
     lefttree := lefttree aggstate; outer_slot := outer_slot aggstate;
     sort_slot := sort_slot aggstate;
     ss_ScanTupleSlot := ss_ScanTupleSlot aggstate; evalslot := evalslot aggstate;
     tmp_outertuple := tmp_outertuple aggstate;
     ecxt_outertuple := ecxt_outertuple aggstate;
     ecxt_aggvalues := ecxt_aggvalues aggstate;
     ecxt_aggnulls := ecxt_aggnulls aggstate; grouped_cols := v;
     calls := calls aggstate |}.

Definition set_calls (aggstate : AggState) (v : list FunctionCallInfoData) : AggState :=
  {| aggstrategy := aggstrategy aggstate; aggsplit := aggsplit aggstate;
     numaggs := numaggs aggstate; numtrans := numtrans aggstate;
     numphases := numphases aggstate; phases := phases aggstate;
     peragg := peragg aggstate; num_hashes := num_hashes aggstate;
     all_grouped_cols := all_grouped_cols aggstate; evalproj := evalproj aggstate;
     qual := qual aggstate; ps_ProjInfo := ps_ProjInfo aggstate;
     current_phase := current_phase aggstate; pertrans := pertrans aggstate;
     projected_set := projected_set aggstate; current_set := current_set aggstate;
     input_done := input_done aggstate; agg_done := agg_done aggstate;
     pergroup := pergroup aggstate; grp_firstTuple := grp_firstTuple aggstate;
     sort_in := sort_in aggstate; sort_out := sort_out aggstate;
     table_filled := table_filled aggstate; perhash := perhash aggstate;
     hash_pergroup := hash_pergroup aggstate; spill_heap := spill_heap aggstate;
     lefttree := lefttree aggstate; outer_slot := outer_slot aggstate;
     sort_slot := sort_slot aggstate;
     ss_ScanTupleSlot := ss_ScanTupleSlot aggstate; evalslot := evalslot aggstate;
     tmp_outertuple := tmp_outertuple aggstate;
     ecxt_outertuple := ecxt_outertuple aggstate;
     ecxt_aggvalues := ecxt_aggvalues aggstate;
     ecxt_aggnulls := ecxt_aggnulls aggstate;
     grouped_cols := grouped_cols aggstate; calls := v |}.

(** * Per-group routines *)

(** ** initialize_aggregate *)

(** [current_set] is [aggstate->current_set].  The first component is the
    slot, with a fresh sorter for the set when the aggregate has DISTINCT
    or ORDER BY. *)
Definition initialize_aggregate (current_set : nat) (pertrans : AggStatePerTransData)
  (pergroupstate : AggStatePerGroupData)
  : AggStatePerTransData * AggStatePerGroupData :=
  let pertrans' :=
    if (0 <? numSortCols pertrans)%nat then
      (* an uncompleted sort of an earlier scan is ended, then: *)
      if (numInputs pertrans =? 1)%nat
      then set_sortstates pertrans
             (<[current_set := Some (tuplesort_begin true (sortspec pertrans))]>
                (sortstates pertrans))
      else set_sortstates pertrans
             (<[current_set := Some (tuplesort_begin false (sortspec pertrans))]>
                (sortstates pertrans))
    else pertrans in
  let transValue' :=
    if initValueIsNull pertrans then initValue pertrans
    else datumCopy (initValue pertrans) (transtypeByVal pertrans)
           (transtypeLen pertrans) in
  (pertrans',
   {| transValue := transValue';
      transValueIsNull := initValueIsNull pertrans;
      noTransValue := initValueIsNull pertrans |}).

(** ** advance_transition_function, advance_combine_function,
       combine_transition *)

(** What one call leaves behind: the slot with its call frame as the
    routine left it, the per-group state, and the frames handed to
    [FunctionCallInvoke], oldest first. *)
Record Advanced := {
  adv_pertrans : AggStatePerTransData;
  adv_pergroup : AggStatePerGroupData;
  adv_calls : list FunctionCallInfoData
}.

Definition unchanged (pertrans : AggStatePerTransData)
  (pergroupstate : AggStatePerGroupData) : Advanced :=
  {| adv_pertrans := pertrans; adv_pergroup := pergroupstate; adv_calls := [] |}.

(** [for (i = 1; i <= numTransInputs; i++) if (fcinfo->argnull[i]) return;] *)
Definition any_argnull (fcinfo : FunctionCallInfoData) (numTransInputs : nat) : bool :=
  existsb (argnull fcinfo) (seq 1 numTransInputs).

Section PerGroup.
Context {FM : FunctionManager}.

(** The end the three routines share: the state goes into argument 0,
    the function is invoked, its result is stored.  [store] puts the
    frame back into the slot. *)
Definition invoke_and_store (pertrans : AggStatePerTransData)
  (fcinfo : FunctionCallInfoData)
  (store : AggStatePerTransData -> FunctionCallInfoData -> AggStatePerTransData)
  (pergroupstate : AggStatePerGroupData) : Advanced :=
  let fcinfo := set_arg fcinfo 0 (transValue pergroupstate)
                  (transValueIsNull pergroupstate) in
  let fcinfo := set_isnull fcinfo false in
  let '(newVal, fc_isnull) := FunctionCallInvoke fcinfo in
  let newVal :=
    if negb (transtypeByVal pertrans) && negb (newVal =? transValue pergroupstate)
    then (if negb fc_isnull
          then datumCopy newVal (transtypeByVal pertrans) (transtypeLen pertrans)
          else newVal)
    else newVal in
  {| adv_pertrans := store pertrans (set_isnull fcinfo fc_isnull);
     adv_pergroup := {| transValue := newVal;
                        transValueIsNull := fc_isnull;
                        noTransValue := noTransValue pergroupstate |};
     adv_calls := [fcinfo] |}.

Definition advance_transition_function (pertrans : AggStatePerTransData)
  (pergroupstate : AggStatePerGroupData) : Advanced :=
  let fcinfo := transfn_fcinfo pertrans in
  if fn_strict (transfn pertrans) then
    if any_argnull fcinfo (numTransInputs pertrans) then
      unchanged pertrans pergroupstate
    else if noTransValue pergroupstate then
      {| adv_pertrans := pertrans;
         adv_pergroup :=
           {| transValue := datumCopy (arg fcinfo 1) (transtypeByVal pertrans)
                              (transtypeLen pertrans);
              transValueIsNull := false;
              noTransValue := false |};
         adv_calls := [] |}
    else if transValueIsNull pergroupstate then
      unchanged pertrans pergroupstate
    else invoke_and_store pertrans fcinfo set_transfn_fcinfo pergroupstate
  else invoke_and_store pertrans fcinfo set_transfn_fcinfo pergroupstate.

(** In this mode [transfn] holds the combine function. *)
Definition advance_combine_function (pertrans : AggStatePerTransData)
  (pergroupstate : AggStatePerGroupData) : Advanced :=
  let fcinfo := transfn_fcinfo pertrans in
  if fn_strict (transfn pertrans) then
    if argnull fcinfo 1 then unchanged pertrans pergroupstate
    else if noTransValue pergroupstate then
      {| adv_pertrans := pertrans;
         adv_pergroup :=
           {| transValue :=
                if negb (transtypeByVal pertrans)
                then datumCopy (arg fcinfo 1) (transtypeByVal pertrans)
                       (transtypeLen pertrans)
                else arg fcinfo 1;
              transValueIsNull := false;
              noTransValue := false |};
         adv_calls := [] |}
    else invoke_and_store pertrans fcinfo set_transfn_fcinfo pergroupstate
  else invoke_and_store pertrans fcinfo set_transfn_fcinfo pergroupstate.

(** The reload path of the hybrid hash table, on [combfn].  The
    [noTransValue] block of the source is under [#if 0]. *)
Definition combine_transition (pertrans : AggStatePerTransData)
  (pergroupstate : AggStatePerGroupData) : Advanced :=
  let fcinfo := combfn_fcinfo pertrans in
  if fn_strict (combfn pertrans) then
    if argnull fcinfo 1 then unchanged pertrans pergroupstate
    else invoke_and_store pertrans fcinfo set_combfn_fcinfo pergroupstate
  else invoke_and_store pertrans fcinfo set_combfn_fcinfo pergroupstate.

End PerGroup.

(** A transition or combine step on one per-group state, with the slot
    whose call frame holds the step's input. *)
Inductive GroupStep :=
| StepTransition (pertrans : AggStatePerTransData)
| StepCombine (pertrans : AggStatePerTransData)
| StepCombineReload (pertrans : AggStatePerTransData).

Definition run_step {FM : FunctionManager} (step : GroupStep)
  (pergroupstate : AggStatePerGroupData) : AggStatePerGroupData :=
  match step with
  | StepTransition pertrans =>
      adv_pergroup (advance_transition_function pertrans pergroupstate)
  | StepCombine pertrans =>
      adv_pergroup (advance_combine_function pertrans pergroupstate)
  | StepCombineReload pertrans =>
      adv_pergroup (combine_transition pertrans pergroupstate)
  end.

Definition run_steps {FM : FunctionManager} (steps : list GroupStep)
  (pergroupstate : AggStatePerGroupData) : AggStatePerGroupData :=
  foldl (fun pg step => run_step step pg) pergroupstate steps.

(** * Machine integers *)

Definition wrap_unsigned (w x : Z) : Z := x mod 2 ^ w.

Definition wrap_signed (w x : Z) : Z :=
  let u := x mod 2 ^ w in
  if u <? 2 ^ (w - 1) then u else u - 2 ^ w.

Definition DatumGetInt64 (d : Datum) : Z := wrap_signed 64 d.
Definition DatumGetInt32 (d : Datum) : Z := wrap_signed 32 d.
Definition DatumGetInt16 (d : Datum) : Z := wrap_signed 16 d.
Definition DatumGetChar (d : Datum) : Z := wrap_signed 8 d.
Definition DatumGetObjectId (d : Datum) : Z := wrap_unsigned 32 d.

(** The [%] of C on operands already converted to their common type. *)
Definition c_rem (a b : Z) : result Z :=
  if b =? 0 then Err (Undefined "remainder by zero") else Ok (Z.rem a b).

(** * Sizing of the hybrid hash table: OptimizeHybridHashtableSize *)

(** [double]s are modelled by the rationals they denote.  [max_mem] is a
    [long] and [entrySize] a [uint32], so [max_mem/entrySize] is the
    integer quotient, taken before [ceil] sees it. *)
Definition ceil (x : Q) : Q := inject_Z (Qceiling x).

Definition OptimizeHybridHashtableSize {guc : GUC} (hashtable : TupleHashTableData)
  (entrySize : Z) (numGroups : Q) : result TupleHashTableData :=
  let max_mem := work_mem * 1024 in
  if entrySize =? 0 then Err (Undefined "division by zero") else
  let '(nentries, nbatches) :=
    if Qle_bool (inject_Z max_mem) (inject_Z entrySize * numGroups)%Q then
      let nentries := ceil (inject_Z (max_mem ÷ entrySize)) in
      (nentries, ceil (numGroups / nentries)%Q)
    else
      (ceil (inject_Z (max_mem ÷ entrySize)), 0%Q) in
  let nbatches := inject_Z g_default_hashagg_nbatches in
  (* (uint32) nentries *)
  let nentries_u32 := Qfloor nentries in
  if negb ((0 <=? nentries_u32) && (nentries_u32 <? 2 ^ 32))
  then Err (Undefined "double out of the range of uint32")
  else
    Ok {| hashtab := hashtab hashtable;
          keyColIdx := keyColIdx hashtable;
          (* tuplehash_set_hybrid(hashtable->hashtab, nentries, nbatches, true) *)
          tb_hybrid := true;
          tb_max_entries := nentries_u32;
          tb_nbatches := Qfloor nbatches;
          hybrid := true;
          nentries := nentries_u32;
          nbatches := Qfloor nbatches;
          spilled := false;
          spill_set := None;
          actual_entrysize := actual_entrysize hashtable |}.

(** * Redistribution between parallel workers *)

(** The [case] labels of the [switch] of ReDistributeHash, in source
    order. *)
Inductive HashCase :=
| CaseInt8 | CaseInt2 | CaseOid | CaseInt4 | CaseChar | CaseTime | CaseDefault.

Definition ReDistributeHash_label (dataType : Oid) : HashCase :=
  if (dataType =? INT8OID) || (dataType =? CASHOID) then CaseInt8
  else if dataType =? INT2OID then CaseInt2
  else if dataType =? OIDOID then CaseOid
  else if (dataType =? INT4OID) || (dataType =? ABSTIMEOID)
          || (dataType =? RELTIMEOID) || (dataType =? DATEOID) then CaseInt4
  else if (dataType =? BOOLOID) || (dataType =? CHAROID) then CaseChar
  else if (dataType =? TIMEOID) || (dataType =? TIMESTAMPOID)
          || (dataType =? TIMESTAMPTZOID) then CaseTime
  else CaseDefault.

(** No block of the [switch] ends in [break]: control entering at a label
    runs that block and every block after it. *)
Definition blocks_from (c : HashCase) : list HashCase :=
  match c with
  | CaseInt8 => [CaseInt8; CaseInt2; CaseOid; CaseInt4; CaseChar; CaseTime; CaseDefault]
  | CaseInt2 => [CaseInt2; CaseOid; CaseInt4; CaseChar; CaseTime; CaseDefault]
  | CaseOid => [CaseOid; CaseInt4; CaseChar; CaseTime; CaseDefault]
  | CaseInt4 => [CaseInt4; CaseChar; CaseTime; CaseDefault]
  | CaseChar => [CaseChar; CaseTime; CaseDefault]
  | CaseTime => [CaseTime; CaseDefault]
  | CaseDefault => [CaseDefault]
  end.

(** [result = (val % num) % numWorkers] with [val] signed: the operands
    are converted to the type of [val]; the value is stored in an [int]. *)
Definition rem_rem_signed (val num numWorkers : Z) : result Z :=
  r1 <-! c_rem val num ;;
  r2 <-! c_rem r1 numWorkers ;;
  Ok (wrap_signed 32 r2).

(** The same with [val] an [unsigned int]: [num] and [numWorkers] are
    converted to [unsigned int]. *)
Definition rem_rem_unsigned (val num numWorkers : Z) : result Z :=
  r1 <-! c_rem val (wrap_unsigned 32 num) ;;
  r2 <-! c_rem r1 (wrap_unsigned 32 numWorkers) ;;
  Ok (wrap_signed 32 r2).

Definition ReDistributeHash_block (c : HashCase) (num numWorkers : Z)
  (value : Datum) (hashfunc : Datum -> Datum) : result Z :=
  match c with
  | CaseInt8 => rem_rem_signed (DatumGetInt64 value) num numWorkers
  | CaseInt2 => rem_rem_signed (DatumGetInt16 value) num numWorkers
  | CaseOid => rem_rem_unsigned (DatumGetObjectId value) num numWorkers
  | CaseInt4 => rem_rem_signed (DatumGetInt32 value) num numWorkers
  | CaseChar => rem_rem_signed (DatumGetChar value) num numWorkers
  | CaseTime => rem_rem_signed (DatumGetInt64 value) num numWorkers
  | CaseDefault =>
      let hashvalue := wrap_unsigned 32 (DatumGetInt32 (hashfunc value)) in
      rem_rem_unsigned hashvalue num numWorkers
  end.

Definition ReDistributeHash (dataType : Oid) (numWorkers : Z) (value : Datum)
  (hashfunc : Datum -> Datum) : result Z :=
  (* int num = 1 << numWorkers; *)
  if negb ((0 <=? numWorkers) && (numWorkers <? 31))
  then Err (Undefined "shift count out of range")
  else
    let num := Z.shiftl 1 numWorkers in
    result <-! foldl (fun acc c =>
                        _ <-! acc ;;
                        ReDistributeHash_block c num numWorkers value hashfunc)
                 (Ok 0) (blocks_from (ReDistributeHash_label dataType)) ;;
    Ok (Z.abs result).

(** ReDistributeData, up to the choice between keeping the row and sending
    it: [KeepLocal] is the [return false] of "data belongs to us";
    [SendTo w index] enters the sending branch for worker [w], [index]
    being the buffer it uses.  The transport itself (ring buffers in shared
    memory, buffer files, and the row taken over from a peer) is not
    modelled. *)
Inductive Routing :=
| KeepLocal
| SendTo (indexSendWorker index : Z).

Definition slot_getattr (slot : TupleTableSlot) (attnum : nat) : Datum * bool :=
  (slot_value slot (attnum - 1), slot_isnull slot (attnum - 1)).

Definition ReDistributeData_route (numWorkers ParallelWorkerNumber : Z)
  (varattno : nat) (slot : TupleTableSlot) (hashfunc : Datum -> Datum) (type : Oid)
  : result Routing :=
  let '(value, isnull) := slot_getattr slot varattno in
  indexSendWorker <-!
    (if isnull then Ok 0
     else ReDistributeHash type numWorkers value hashfunc) ;;
  if indexSendWorker =? ParallelWorkerNumber then Ok KeepLocal
  else Ok (SendTo indexSendWorker
             (ParallelWorkerNumber * numWorkers + indexSendWorker)).

(** * Access to the parts of an AggState *)

(** [phases] is allocated by palloc0: a phase never filled in is zero. *)
Definition phase_zero : AggStatePerPhaseData :=
  {| phase_aggstrategy := AGG_PLAIN; numsets := 0; gset_lengths := [];
     phase_grouped_cols := None; eqfunctions := [];
     phase_aggnode := {| plan_aggstrategy := AGG_PLAIN; plan_numCols := 0;
                         plan_grpColIdx := []; plan_numGroups := 0%Q;
                         plan_hybrid := false; plan_entrySize := 0 |};
     sortnode := None |}.

(** [aggstate->phase], which always is [&aggstate->phases[current_phase]]. *)
Definition phase (aggstate : AggState) : AggStatePerPhaseData :=
  default phase_zero (phases aggstate !! current_phase aggstate).

Definition get_slot (aggstate : AggState) (id : SlotId) : TupleTableSlot :=
  match id with
  | ScanSlot => ss_ScanTupleSlot aggstate
  | SortSlot => sort_slot aggstate
  | OuterSlot => outer_slot aggstate
  end.

Definition put_slot (aggstate : AggState) (id : SlotId) (slot : TupleTableSlot)
  : AggState :=
  match id with
  | ScanSlot => set_ss_ScanTupleSlot aggstate slot
  | SortSlot => set_sort_slot aggstate slot
  | OuterSlot => set_outer_slot aggstate slot
  end.

Definition TupIsNull (aggstate : AggState) (slot : option SlotId) : bool :=
  match slot with
  | None => true
  | Some id => tts_isempty (get_slot aggstate id)
  end.

(** An array of per-group states: [SortedGroups off] is
    [aggstate->pergroup + off]; [HashGroups setno entry] is the [additional]
    array of an entry of the hash table of the grouping set [setno]. *)
Inductive PerGroupLoc :=
| SortedGroups (offset : nat)
| HashGroups (setno entry : nat).

Definition read_pergroup (aggstate : AggState) (loc : PerGroupLoc) (i : nat)
  : result AggStatePerGroupData :=
  let cell :=
    match loc with
    | SortedGroups off => pergroup aggstate !! (off + i)%nat
    | HashGroups setno entry =>
        match perhash aggstate !! setno with
        | Some perhash =>
            match hashtab (hashtable perhash) !! entry with
            | Some e => additional e !! i
            | None => None
            end
        | None => None
        end
    end in
  match cell with
  | Some pergroupstate => Ok pergroupstate
  | None => Err (Undefined "per-group state out of bounds")
  end.

Definition alter_entry (aggstate : AggState) (setno entry : nat)
  (f : TupleHashEntryData -> TupleHashEntryData) : AggState :=
  set_perhash aggstate
    (alter (fun perhash =>
              set_hashtable perhash
                (set_hashtab (hashtable perhash)
                   (alter f entry (hashtab (hashtable perhash)))))
       setno (perhash aggstate)).

Definition write_pergroup (aggstate : AggState) (loc : PerGroupLoc) (i : nat)
  (pergroupstate : AggStatePerGroupData) : AggState :=
  match loc with
  | SortedGroups off =>
      set_pergroup aggstate (<[(off + i)%nat := pergroupstate]> (pergroup aggstate))
  | HashGroups setno entry =>
      alter_entry aggstate setno entry
        (fun e => set_additional e (<[i := pergroupstate]> (additional e)))
  end.

Definition get_pertrans (aggstate : AggState) (transno : nat)
  : result AggStatePerTransData :=
  match pertrans aggstate !! transno with
  | Some pertrans => Ok pertrans
  | None => Err (Undefined "pertrans out of bounds")
  end.

Definition put_pertrans (aggstate : AggState) (transno : nat)
  (pertrans' : AggStatePerTransData) : AggState :=
  set_pertrans aggstate (<[transno := pertrans']> (pertrans aggstate)).

Definition get_peragg (aggstate : AggState) (aggno : nat)
  : result AggStatePerAggData :=
  match peragg aggstate !! aggno with
  | Some peragg => Ok peragg
  | None => Err (Undefined "peragg out of bounds")
  end.

Definition log_calls (aggstate : AggState) (frames : list FunctionCallInfoData)
  : AggState :=
  set_calls aggstate (calls aggstate ++ frames).

(** A [for] loop over [0 .. n-1] whose body can raise. *)
Definition for_each {S : Type} (n : nat) (body : nat -> S -> result S) (s : S)
  : result S :=
  foldl (fun acc i => s' <-! acc ;; body i s') (Ok s) (seq 0 n).

(** * The sorted path *)

Definition select_current_set (aggstate : AggState) (setno : nat) (is_hash : bool)
  : AggState :=
  set_current_set aggstate setno.

Section Executor.
Context {FM : FunctionManager} {TS : Tuplesort} {EG : ExecGrouping} {guc : GUC}.

(** ** initialize_phase *)
Definition initialize_phase (aggstate : AggState) (newphase : nat) : result AggState :=
  _ <-! Assert ((newphase <=? 1)%nat || (newphase =? current_phase aggstate + 1)%nat) ;;
  (* tuplesort_end(aggstate->sort_in) *)
  let aggstate := set_sort_in aggstate None in
  aggstate <-!
    (if (newphase <=? 1)%nat then
       (* tuplesort_end(aggstate->sort_out) *)
       Ok (set_sort_out aggstate None)
     else
       let aggstate := set_sort_out (set_sort_in aggstate (sort_out aggstate)) None in
       _ <-! Assert (bool_decide (is_Some (sort_in aggstate))) ;;
       Ok (set_sort_in aggstate (tuplesort_performsort <$> sort_in aggstate))) ;;
  aggstate <-!
    (if (0 <? newphase)%nat && (newphase + 1 <? numphases aggstate)%nat then
       match sortnode (default phase_zero (phases aggstate !! (newphase + 1)%nat)) with
       | Some sortnode => Ok (set_sort_out aggstate (Some (tuplesort_begin false sortnode)))
       | None => Err (Undefined "null sortnode")
       end
     else Ok aggstate) ;;
  Ok (set_current_phase aggstate newphase).

(** ** fetch_input_tuple *)

(** ExecProcNode on the outer plan: the next row goes into the outer
    plan's result slot; at the end of the rows the answer is NULL. *)
Definition ExecProcNode_outer (aggstate : AggState) : option SlotId * AggState :=
  match lefttree aggstate with
  | [] => (None, aggstate)
  | tuple :: rest =>
      (Some OuterSlot,
       set_lefttree (set_outer_slot aggstate (ExecStoreTuple tuple (outer_slot aggstate)))
         rest)
  end.

Definition fetch_input_tuple (aggstate : AggState) : option SlotId * AggState :=
  let fetched :=
    match sort_in aggstate with
    | Some sorter =>
        match tuplesort_get sorter with
        | None =>
            (None, set_sort_slot aggstate (ExecClearTuple (sort_slot aggstate)), true)
        | Some (tuple, sorter') =>
            (Some SortSlot,
             set_sort_in
               (set_sort_slot aggstate (ExecStoreTuple tuple (sort_slot aggstate)))
               (Some sorter'), false)
        end
    | None => let '(slot, aggstate) := ExecProcNode_outer aggstate in (slot, aggstate, false)
    end in
  let '(slot, aggstate, exhausted) := fetched in
  if exhausted then (None, aggstate)
  else
    match slot, sort_out aggstate with
    | Some id, Some sorter =>
        if negb (TupIsNull aggstate slot) then
          (slot, set_sort_out aggstate
                   (Some (tuplesort_put sorter (ExecCopySlotTuple (get_slot aggstate id)))))
        else (slot, aggstate)
    | _, _ => (slot, aggstate)
    end.

(** ** initialize_aggregates *)

Definition initialize_one (aggstate : AggState) (transno : nat)
  (loc : PerGroupLoc) (i : nat) : result AggState :=
  pertrans <-! get_pertrans aggstate transno ;;
  pergroupstate <-! read_pergroup aggstate loc i ;;
  let '(pertrans', pergroupstate') :=
    initialize_aggregate (current_set aggstate) pertrans pergroupstate in
  Ok (write_pergroup (put_pertrans aggstate transno pertrans') loc i pergroupstate').

(** [numReset] is [-1] for a hash entry, [0] for every set, else the number
    of leading sets to initialize. *)
Definition initialize_aggregates (aggstate : AggState) (pergroup : PerGroupLoc)
  (numReset : Z) : result AggState :=
  let numGroupingSets := Nat.max (numsets (phase aggstate)) 1 in
  let numTrans := numtrans aggstate in
  let numReset := if numReset =? 0 then Z.of_nat numGroupingSets else numReset in
  for_each numTrans
    (fun transno aggstate =>
       if numReset <? 0 then initialize_one aggstate transno pergroup transno
       else
         for_each (Z.to_nat numReset)
           (fun setno aggstate =>
              let aggstate := select_current_set aggstate setno false in
              initialize_one aggstate transno pergroup (transno + setno * numTrans)%nat)
           aggstate)
    aggstate.

(** ** advance_aggregates *)

Definition advance_one (aggstate : AggState) (transno : nat)
  (loc : PerGroupLoc) (i : nat) : result AggState :=
  pertrans <-! get_pertrans aggstate transno ;;
  pergroupstate <-! read_pergroup aggstate loc i ;;
  let adv := advance_transition_function pertrans pergroupstate in
  Ok (log_calls
        (write_pergroup (put_pertrans aggstate transno (adv_pertrans adv)) loc i
           (adv_pergroup adv))
        (adv_calls adv)).

(** The columns [inputoff ..] of the evaluated inputs, as a tuple of
    [numInputs] columns. *)
Definition sort_input (slot : TupleTableSlot) (inputoff numInputs : nat) : HeapTupleData :=
  {| t_values := take numInputs (drop inputoff (tts_values slot));
     t_isnull := take numInputs (drop inputoff (tts_isnull slot)) |}.

Definition put_into_sorter (aggstate : AggState) (transno setno : nat)
  (tuple : HeapTupleData) : result AggState :=
  pertrans <-! get_pertrans aggstate transno ;;
  match sortstates pertrans !! setno with
  | Some (Some sorter) =>
      Ok (put_pertrans aggstate transno
            (set_sortstates pertrans
               (<[setno := Some (tuplesort_put sorter tuple)]> (sortstates pertrans))))
  | _ => Err (Undefined "null sorter")
  end.

(** [pergroup] is the array of the sorted grouping sets or NULL;
    [pergroups] is the array of arrays of the hashed ones or NULL.  The
    routine is given for a build with and for a build without assertion
    checking. *)
Definition advance_aggregates_in (USE_ASSERT_CHECKING : bool) (aggstate : AggState)
  (pergroup : option PerGroupLoc) (pergroups : option (list PerGroupLoc))
  : result AggState :=
  let numGroupingSets := Nat.max (numsets (phase aggstate)) 1 in
  let numHashes := num_hashes aggstate in
  let numTrans := numtrans aggstate in
  (* [slot] and [evalslot] name one slot, the one the projection fills *)
  let aggstate :=
    match evalproj aggstate with
    | Some proj =>
        set_evalslot aggstate (proj (get_slot aggstate (tmp_outertuple aggstate)))
    | None => aggstate
    end in
  let slot := evalslot aggstate in
  for_each numTrans
    (fun transno aggstate =>
       pertrans <-! get_pertrans aggstate transno ;;
       let numTransInputs := numTransInputs pertrans in
       let inputoff := inputoff pertrans in
       let filtered_out :=
         match aggfilter pertrans with
         | Some filter =>
             let '(res, isnull) := filter (get_slot aggstate (tmp_outertuple aggstate)) in
             isnull || negb (DatumGetBool res)
         | None => false
         end in
       if filtered_out then Ok aggstate
       else if (0 <? numSortCols pertrans)%nat then
         _ <-! Assert_in USE_ASSERT_CHECKING
                 (numInputs pertrans + inputoff <=? length (tts_values slot))%nat ;;
         _ <-! Assert_in USE_ASSERT_CHECKING (bool_decide (pergroups = None)) ;;
         if fn_strict (transfn pertrans)
            && existsb (fun i => slot_isnull slot (i + inputoff)) (seq 0 numTransInputs)
         then Ok aggstate
         else
           for_each numGroupingSets
             (fun setno aggstate =>
                if (numInputs pertrans =? 1)%nat then
                  put_into_sorter aggstate transno setno (sort_input slot inputoff 1)
                else
                  put_into_sorter aggstate transno setno
                    (sort_input slot inputoff (numInputs pertrans)))
             aggstate
       else
         _ <-! Assert_in USE_ASSERT_CHECKING
                 (numTransInputs + inputoff <=? length (tts_values slot))%nat ;;
         let fcinfo :=
           foldl (fun fcinfo i =>
                    set_arg fcinfo (i + 1) (slot_value slot (i + inputoff))
                      (slot_isnull slot (i + inputoff)))
             (transfn_fcinfo pertrans) (seq 0 numTransInputs) in
         let aggstate := put_pertrans aggstate transno (set_transfn_fcinfo pertrans fcinfo) in
         aggstate <-!
           match pergroup with
           | Some loc =>
               for_each numGroupingSets
                 (fun setno aggstate =>
                    let aggstate := select_current_set aggstate setno false in
                    advance_one aggstate transno loc (transno + setno * numTrans)%nat)
                 aggstate
           | None => Ok aggstate
           end ;;
         match pergroups with
         | Some locs =>
             for_each numHashes
               (fun setno aggstate =>
                  let aggstate := select_current_set aggstate setno true in
                  match locs !! setno with
                  | Some loc => advance_one aggstate transno loc transno
                  | None => Err (Undefined "pergroups out of bounds")
                  end)
               aggstate
         | None => Ok aggstate
         end)
    aggstate.

(** The routine in a build that checks assertions. *)
Definition advance_aggregates (aggstate : AggState) (pergroup : option PerGroupLoc)
  (pergroups : option (list PerGroupLoc)) : result AggState :=
  advance_aggregates_in true aggstate pergroup pergroups.

(** ** combine_aggregates *)

(** A frame set up for one call and not read again.  The serialization
    and deserialization frames of a slot are of this kind. *)
Definition call_frame (fn : FmgrInfo) (args : list (Datum * bool)) : FunctionCallInfoData :=
  {| flinfo := fn;
     arg := fun i => default 0 (fst <$> args !! i);
     argnull := fun i => default false (snd <$> args !! i);
     isnull := false |}.

Definition combine_aggregates (aggstate : AggState) (pergroup : PerGroupLoc)
  : result AggState :=
  let numTrans := numtrans aggstate in
  _ <-! Assert (numsets (phase aggstate) <=? 1)%nat ;;
  slot <-! match evalproj aggstate with
           | Some proj => Ok (proj (get_slot aggstate (tmp_outertuple aggstate)))
           | None => Err (Undefined "null evalproj")
           end ;;
  let aggstate := set_evalslot aggstate slot in
  for_each numTrans
    (fun transno aggstate =>
       pertrans <-! get_pertrans aggstate transno ;;
       pergroupstate <-! read_pergroup aggstate pergroup transno ;;
       let fcinfo := transfn_fcinfo pertrans in
       let inputoff := inputoff pertrans in
       _ <-! Assert (inputoff <? length (tts_values slot))%nat ;;
       let fcinfo :=
         if OidIsValid (deserialfn_oid pertrans) then
           if fn_strict (deserialfn pertrans) && slot_isnull slot inputoff then
             set_arg fcinfo 1 (slot_value slot inputoff) (slot_isnull slot inputoff)
           else
             let dsinfo := call_frame (deserialfn pertrans)
                             [(slot_value slot inputoff, slot_isnull slot inputoff);
                              (0, false)] in
             let '(res, ds_isnull) := FunctionCallInvoke dsinfo in
             set_arg fcinfo 1 res ds_isnull
         else
           set_arg fcinfo 1 (slot_value slot inputoff) (slot_isnull slot inputoff) in
       let adv := advance_combine_function (set_transfn_fcinfo pertrans fcinfo)
                    pergroupstate in
       Ok (log_calls
             (write_pergroup (put_pertrans aggstate transno (adv_pertrans adv))
                pergroup transno (adv_pergroup adv))
             (adv_calls adv)))
    aggstate.

(** ** process_ordered_aggregate_single *)

(** What the loop over the sorted values carries from one value to the
    next. *)
Record DistinctState := {
  oldVal : Datum;
  oldIsNull : bool;
  haveOldVal : bool;
  oldAbbrevVal : Datum
}.

Definition take_sorter (aggstate : AggState) (transno : nat)
  : result Tuplesortstate :=
  pertrans <-! get_pertrans aggstate transno ;;
  match sortstates pertrans !! current_set aggstate with
  | Some (Some sorter) => Ok sorter
  | _ => Err (Undefined "null sorter")
  end.

(** [tuplesort_end] and [sortstates[current_set] = NULL] *)
Definition drop_sorter (aggstate : AggState) (transno : nat) : result AggState :=
  pertrans <-! get_pertrans aggstate transno ;;
  Ok (put_pertrans aggstate transno
        (set_sortstates pertrans
           (<[current_set aggstate := None]> (sortstates pertrans)))).

Definition process_ordered_aggregate_single (aggstate : AggState) (transno : nat)
  (loc : PerGroupLoc) (i : nat) : result AggState :=
  pertrans <-! get_pertrans aggstate transno ;;
  let isDistinct := (0 <? numDistinctCols pertrans)%nat in
  _ <-! Assert (numDistinctCols pertrans <? 2)%nat ;;
  sorter <-! take_sorter aggstate transno ;;
  let sorter := tuplesort_performsort sorter in
  looped <-!
    foldl
      (fun acc tuple =>
         let! (aggstate, old) := acc in
         pertrans <-! get_pertrans aggstate transno ;;
         let newVal := default 0 (t_values tuple !! 0%nat) in
         let isNull := default true (t_isnull tuple !! 0%nat) in
         let newAbbrevVal := abbrev_key (ts_spec sorter) tuple in
         (* tuplesort_getdatum stores into arguments 1 of the frame *)
         let aggstate :=
           put_pertrans aggstate transno
             (set_transfn_fcinfo pertrans
                (set_arg (transfn_fcinfo pertrans) 1 newVal isNull)) in
         equal <-!
           (if isDistinct && haveOldVal old then
              if oldIsNull old && isNull then Ok true
              else if negb (oldIsNull old) && negb isNull
                      && (oldAbbrevVal old =? newAbbrevVal) then
                match equalfns pertrans !! 0%nat with
                | Some eqfn =>
                    Ok (DatumGetBool
                          (FunctionCallInvoke
                             (call_frame eqfn [(oldVal old, false); (newVal, false)])).1)
                | None => Err (Undefined "equalfns out of bounds")
                end
              else Ok false
            else Ok false) ;;
         if equal then Ok (aggstate, old)
         else
           aggstate <-! advance_one aggstate transno loc i ;;
           Ok (aggstate,
               {| oldVal := newVal; oldIsNull := isNull; haveOldVal := true;
                  oldAbbrevVal := newAbbrevVal |}))
      (Ok (aggstate,
           {| oldVal := 0; oldIsNull := true; haveOldVal := false;
              oldAbbrevVal := 0 |}))
      (ts_tuples sorter) ;;
  drop_sorter looped.1 transno.

(** ** process_ordered_aggregate_multi *)

(** [slot2] of the source holds the last tuple handed to the transition
    function, [None] while it is cleared. *)
Definition process_ordered_aggregate_multi (aggstate : AggState) (transno : nat)
  (loc : PerGroupLoc) (i : nat) : result AggState :=
  pertrans <-! get_pertrans aggstate transno ;;
  let numTransInputs := numTransInputs pertrans in
  let numDistinctCols := numDistinctCols pertrans in
  sorter <-! take_sorter aggstate transno ;;
  let sorter := tuplesort_performsort sorter in
  looped <-!
    foldl
      (fun acc tuple =>
         let! (aggstate, slot2, oldAbbrevVal, haveOldValue) := acc in
         pertrans <-! get_pertrans aggstate transno ;;
         let slot1 := {| tts_isempty := false; tts_values := t_values tuple;
                         tts_isnull := t_isnull tuple |} in
         let newAbbrevVal := abbrev_key (ts_spec sorter) tuple in
         if (numDistinctCols =? 0)%nat
            || negb haveOldValue
            || negb (newAbbrevVal =? oldAbbrevVal)
            || negb (execTuplesMatch slot1 slot2 numDistinctCols
                       (sortColIdx (sortspec pertrans)) (equalfns pertrans))
         then
           let fcinfo :=
             foldl (fun fcinfo i =>
                      set_arg fcinfo (i + 1) (slot_value slot1 i) (slot_isnull slot1 i))
               (transfn_fcinfo pertrans) (seq 0 numTransInputs) in
           let aggstate :=
             put_pertrans aggstate transno (set_transfn_fcinfo pertrans fcinfo) in
           aggstate <-! advance_one aggstate transno loc i ;;
           if (0 <? numDistinctCols)%nat
           then Ok (aggstate, slot1, newAbbrevVal, true)
           else Ok (aggstate, slot2, oldAbbrevVal, haveOldValue)
         else Ok (aggstate, slot2, oldAbbrevVal, haveOldValue))
      (Ok (aggstate,
           {| tts_isempty := true; tts_values := []; tts_isnull := [] |},
           0, false))
      (ts_tuples sorter) ;;
  drop_sorter looped.1.1.1 transno.

(** ** finalize_aggregate, finalize_partialaggregate *)

Definition finalize_aggregate (aggstate : AggState) (peragg : AggStatePerAggData)
  (pergroupstate : AggStatePerGroupData) : result (Datum * bool) :=
  pertrans <-! get_pertrans aggstate (transno peragg) ;;
  let outertuple := get_slot aggstate (ecxt_outertuple aggstate) in
  (* the direct arguments, into positions 1 and up *)
  let directs := (fun expr : ExprState => expr outertuple) <$> aggdirectargs pertrans in
  let anynull := existsb snd directs in
  if OidIsValid (finalfn_oid peragg) then
    let numFinalArgs := numFinalArgs peragg in
    let i := (1 + length directs)%nat in
    let anynull := anynull || transValueIsNull pergroupstate
                   || (i <? numFinalArgs)%nat in
    let args := (transValue pergroupstate, transValueIsNull pergroupstate)
                  :: directs ++ replicate (numFinalArgs - i) (0, true) in
    if fn_strict (finalfn peragg) && anynull then Ok (0, true)
    else Ok (FunctionCallInvoke (call_frame (finalfn peragg) args))
  else Ok (transValue pergroupstate, transValueIsNull pergroupstate).

Definition finalize_partialaggregate (aggstate : AggState) (peragg : AggStatePerAggData)
  (pergroupstate : AggStatePerGroupData) : result (Datum * bool) :=
  pertrans <-! get_pertrans aggstate (transno peragg) ;;
  if OidIsValid (serialfn_oid pertrans) then
    if fn_strict (serialfn pertrans) && transValueIsNull pergroupstate then Ok (0, true)
    else
      Ok (FunctionCallInvoke
            (call_frame (serialfn pertrans)
               [(transValue pergroupstate, transValueIsNull pergroupstate)]))
  else Ok (transValue pergroupstate, transValueIsNull pergroupstate).

(** ** prepare_projection_slot *)

Definition null_ungrouped (slot : TupleTableSlot) (all_grouped_cols grouped_cols : list nat)
  : TupleTableSlot :=
  foldl (fun slot attnum =>
           if bool_decide (attnum ∈ grouped_cols) then slot
           else {| tts_isempty := tts_isempty slot;
                   tts_values := tts_values slot;
                   tts_isnull := <[(attnum - 1)%nat := true]> (tts_isnull slot) |})
    slot all_grouped_cols.

Definition prepare_projection_slot (aggstate : AggState) (slot : SlotId)
  (currentSet : nat) : AggState :=
  match phase_grouped_cols (phase aggstate) with
  | Some sets =>
      let grouped_cols := default [] (sets !! currentSet) in
      let aggstate := set_grouped_cols aggstate grouped_cols in
      if tts_isempty (get_slot aggstate slot) then
        put_slot aggstate slot (ExecStoreAllNullTuple (get_slot aggstate slot))
      else
        match all_grouped_cols aggstate with
        | [] => aggstate
        | _ :: _ =>
            put_slot aggstate slot
              (null_ungrouped (get_slot aggstate slot) (all_grouped_cols aggstate)
                 grouped_cols)
        end
  | None => aggstate
  end.

(** ** finalize_aggregates *)

Definition finalize_aggregates (aggstate : AggState) (pergroup : PerGroupLoc)
  : result AggState :=
  aggstate <-!
    for_each (numtrans aggstate)
      (fun transno aggstate =>
         pertrans <-! get_pertrans aggstate transno ;;
         if (0 <? numSortCols pertrans)%nat then
           _ <-! Assert (negb (AggStrategy_eqb (aggstrategy aggstate) AGG_HASHED)
                         && negb (AggStrategy_eqb (aggstrategy aggstate) AGG_MIXED)) ;;
           if (numInputs pertrans =? 1)%nat
           then process_ordered_aggregate_single aggstate transno pergroup transno
           else process_ordered_aggregate_multi aggstate transno pergroup transno
         else Ok aggstate)
      aggstate ;;
  for_each (numaggs aggstate)
    (fun aggno aggstate =>
       peragg <-! get_peragg aggstate aggno ;;
       pergroupstate <-! read_pergroup aggstate pergroup (transno peragg) ;;
       let! (resultVal, resultIsNull) :=
         (if DO_AGGSPLIT_SKIPFINAL (aggsplit aggstate)
          then finalize_partialaggregate aggstate peragg pergroupstate
          else finalize_aggregate aggstate peragg pergroupstate) in
       Ok (set_ecxt_aggnulls
             (set_ecxt_aggvalues aggstate
                (<[aggno := resultVal]> (ecxt_aggvalues aggstate)))
             (<[aggno := resultIsNull]> (ecxt_aggnulls aggstate))))
    aggstate.

(** ** project_aggregates *)

Definition proj_input (aggstate : AggState) : ProjInput :=
  {| pi_outertuple := get_slot aggstate (ecxt_outertuple aggstate);
     pi_aggvalues := ecxt_aggvalues aggstate;
     pi_aggnulls := ecxt_aggnulls aggstate;
     pi_grouped_cols := grouped_cols aggstate |}.

(** ExecProject leaves a stored tuple in the result slot. *)
Definition project_aggregates (aggstate : AggState) : option TupleTableSlot :=
  if qual aggstate (proj_input aggstate)
  then Some (ExecStoreVirtualTuple (ps_ProjInfo aggstate (proj_input aggstate)))
  else None.

(** * The hash path *)

(** ** The hash table *)

(** Modelled from the spec: execGrouping.c and the simplehash table behind
    LookupTupleHashEntry, tuplehash_insert_with_key, ScanTupleHashTable and
    tuplehash_reset are not under src/.  Spec 4.3: "Compute hash of the key
    columns.  Probe the table; if absent, allocate a new entry in the hash
    arena containing (a) a copy of the compact key tuple".  Spec 3: "two
    keys that hash equal but compare unequal are distinct groups".  Spec
    4.4: "if the table is at capacity and the key is new" the insert does
    not happen (the lookup gives NULL and the caller dumps), the capacity
    being the number of entries handed to tuplehash_set_hybrid. *)
Definition tuplehash_lookup (hashtable : TupleHashTableData) (slot : TupleTableSlot)
  (hashkey : Z) : option nat :=
  fst <$> list_find
            (fun e => hash e = hashkey
                      /\ TupleHashTableMatch (keyColIdx hashtable) (firstTuple e) slot = true)
            (hashtab hashtable).

Definition tuplehash_at_capacity (hashtable : TupleHashTableData) : bool :=
  tb_hybrid hashtable
  && (tb_max_entries hashtable <=? Z.of_nat (length (hashtab hashtable))).

(** Modelled from the spec: see [tuplehash_lookup].  The answer is the
    position of the entry and the [found] flag, or NULL. *)
Definition tuplehash_insert_with_key (hashtable : TupleHashTableData)
  (slot : TupleTableSlot) (hashkey : Z)
  : option (nat * bool) * TupleHashTableData :=
  match tuplehash_lookup hashtable slot hashkey with
  | Some i => (Some (i, true), hashtable)
  | None =>
      if tuplehash_at_capacity hashtable then (None, hashtable)
      else
        (Some (length (hashtab hashtable), false),
         set_hashtab hashtable
           (hashtab hashtable
              ++ [{| firstTuple := ExecCopySlotTuple slot; additional := [];
                     hash := hashkey |}]))
  end.

(** Modelled from the spec: see [tuplehash_lookup].  The answer is the
    position of the entry and the [isnew] flag, or NULL. *)
Definition LookupTupleHashEntry (hashtable : TupleHashTableData)
  (slot : TupleTableSlot) : option (nat * bool) * TupleHashTableData :=
  let '(entry, hashtable) :=
    tuplehash_insert_with_key hashtable slot
      (TupleHashTableHash (keyColIdx hashtable) slot) in
  (prod_map id negb <$> entry, hashtable).

Definition tuplehash_reset (hashtable : TupleHashTableData) : TupleHashTableData :=
  set_hashtab hashtable [].

(** ** Access to hash tables and spill sets *)

Definition get_perhash (aggstate : AggState) (setno : nat)
  : result AggStatePerHashData :=
  match perhash aggstate !! setno with
  | Some perhash => Ok perhash
  | None => Err (Undefined "perhash out of bounds")
  end.

Definition put_perhash (aggstate : AggState) (setno : nat)
  (perhash' : AggStatePerHashData) : AggState :=
  set_perhash aggstate (<[setno := perhash']> (perhash aggstate)).

Definition put_hashtable (aggstate : AggState) (setno : nat)
  (hashtable' : TupleHashTableData) : AggState :=
  set_perhash aggstate
    (alter (fun perhash => set_hashtable perhash hashtable') setno (perhash aggstate)).

Definition get_spill_set (aggstate : AggState) (ptr : nat) : result SpillSet :=
  match spill_heap aggstate !! ptr with
  | Some spill_set => Ok spill_set
  | None => Err (Undefined "dangling spill set")
  end.

Definition put_spill_set (aggstate : AggState) (ptr : nat) (spill_set : SpillSet)
  : AggState :=
  set_spill_heap aggstate (<[ptr := spill_set]> (spill_heap aggstate)).

(** palloc of a spill set: the new object and the pointer to it. *)
Definition alloc_spill_set (aggstate : AggState) (spill_set : SpillSet)
  : nat * AggState :=
  (length (spill_heap aggstate),
   set_spill_heap aggstate (spill_heap aggstate ++ [spill_set])).

Definition new_spill_file : SpillFile :=
  {| ntups_read := 0; ntups_write := 0; file_spilled := false;
     child_spill_set := None; file := [] |}.

(** [hash % n] with [hash] a [uint32] and [n] an [int], as an index. *)
Definition batch_index (hashkey n : Z) : result nat :=
  r <-! c_rem hashkey (wrap_unsigned 32 n) ;;
  Ok (Z.to_nat r).

(** Append a record to the batch file [index] of the spill set at [ptr],
    creating the file at its first record. *)
Definition append_to_batch (aggstate : AggState) (ptr index : nat)
  (record : SpillRecord) : result AggState :=
  spill_set <-! get_spill_set aggstate ptr ;;
  match spill_file spill_set !! index with
  | None => Err (Undefined "batch index out of bounds")
  | Some slot =>
      let sfile := default new_spill_file slot in
      let sfile := set_file sfile (file sfile ++ [record]) in
      let sfile := set_ntups_write sfile (ntups_write sfile + 1) in
      Ok (put_spill_set aggstate ptr
            (set_spill_file spill_set (<[index := Some sfile]> (spill_file spill_set))))
  end.

(** ** DumpHybridHashtable *)

(** What is written after the per-group array for one state. *)
Definition dump_payload (pertrans : AggStatePerTransData)
  (pergroupstate : AggStatePerGroupData) : result (option Datum) :=
  if negb (transValueIsNull pergroupstate) then
    if negb (transtypeByVal pertrans) then Ok (Some (transValue pergroupstate))
    else if aggtranstype pertrans =? INTERNALOID then
      if negb (OidIsValid (serial_func_id pertrans))
      then Err (ElogError "could not serialize the transition value")
      else
        Ok (Some (FunctionCallInvoke
                    (call_frame (serial_func pertrans)
                       [(transValue pergroupstate, transValueIsNull pergroupstate)])).1)
    else Ok None
  else Ok None.

Definition dump_record (aggstate : AggState) (entry : TupleHashEntryData)
  : result SpillRecord :=
  payload <-!
    foldl (fun acc aggno =>
             payload <-! acc ;;
             pertrans <-! get_pertrans aggstate aggno ;;
             match additional entry !! aggno with
             | Some pergroupstate =>
                 p <-! dump_payload pertrans pergroupstate ;;
                 Ok (payload ++ [p])
             | None => Err (Undefined "per-group state out of bounds")
             end)
      (Ok []) (seq 0 (numtrans aggstate)) ;;
  Ok {| rec_hash := hash entry; rec_tuple := firstTuple entry;
        rec_states := take (numtrans aggstate) (additional entry);
        rec_payload := payload |}.

Definition DumpHybridHashtable (aggstate : AggState) (setno : nat) : result AggState :=
  perhash <-! get_perhash aggstate setno ;;
  let hashtable := hashtable perhash in
  (* prepare the spillset for write first time *)
  let '(hashtable, aggstate) :=
    if negb (spilled hashtable) then
      let '(ptr, aggstate) :=
        alloc_spill_set aggstate
          {| level := 0; num_files := nbatches hashtable; parent_index := -1;
             parent_spill_set := None; current_file := 0;
             spill_file := replicate (Z.to_nat (nbatches hashtable)) None |} in
      (set_spill_set (set_spilled hashtable true) (Some ptr), aggstate)
    else (hashtable, aggstate) in
  let aggstate := put_hashtable aggstate setno hashtable in
  ptr <-! match spill_set hashtable with
          | Some ptr => Ok ptr
          | None => Err (Undefined "null spill set")
          end ;;
  (* write hashtable out *)
  aggstate <-!
    foldl (fun acc entry =>
             aggstate <-! acc ;;
             spill_file_index <-! batch_index (hash entry) (nbatches hashtable) ;;
             record <-! dump_record aggstate entry ;;
             append_to_batch aggstate ptr spill_file_index record)
      (Ok aggstate) (hashtab hashtable) ;;
  (* reset hashtable *)
  Ok (put_hashtable aggstate setno (tuplehash_reset hashtable)).

(** ** lookup_hash_entry, lookup_hash_entries *)

(** The position of the entry of the current tuple in the table of the
    current grouping set. *)
Definition lookup_hash_entry (aggstate : AggState) : result (nat * AggState) :=
  let inputslot := get_slot aggstate (tmp_outertuple aggstate) in
  let setno := current_set aggstate in
  perhash <-! get_perhash aggstate setno ;;
  (* transfer just the needed columns into hashslot *)
  let hashslot :=
    {| tts_isempty := false;
       tts_values :=
         (fun i => slot_value inputslot
                     (default 0%nat (hashGrpColIdxInput perhash !! i) - 1))
           <$> seq 0 (numhashGrpCols perhash);
       tts_isnull :=
         (fun i => slot_isnull inputslot
                     (default 0%nat (hashGrpColIdxInput perhash !! i) - 1))
           <$> seq 0 (numhashGrpCols perhash) |} in
  let aggstate := put_perhash aggstate setno (set_hashslot perhash hashslot) in
  (* find or create the hashtable entry using the filtered tuple *)
  let '(entry, hashtable') := LookupTupleHashEntry (hashtable perhash) hashslot in
  let aggstate := put_hashtable aggstate setno hashtable' in
  let! (entry, isnew, aggstate) :=
    (if hybrid hashtable' then
       match entry with
       | Some (e, isnew) => Ok (e, isnew, aggstate)
       | None =>
           (* hashtable is full, dump the hashtable, then reuse *)
           aggstate <-! DumpHybridHashtable aggstate setno ;;
           perhash <-! get_perhash aggstate setno ;;
           let '(entry, hashtable') :=
             LookupTupleHashEntry (hashtable perhash) hashslot in
           let aggstate := put_hashtable aggstate setno hashtable' in
           match entry with
           | Some (e, isnew) => Ok (e, isnew, aggstate)
           | None => Err (ElogError "could not find entry in hybrid-hashtable")
           end
       end
     else
       match entry with
       | Some (e, isnew) => Ok (e, isnew, aggstate)
       | None => Err (ElogError "could not find entry in hashtable")
       end) in
  if isnew : bool then
    let aggstate :=
      alter_entry aggstate setno entry
        (fun e => set_additional e (replicate (numtrans aggstate) pergroup_zero)) in
    (* initialize aggregates for new tuple group *)
    aggstate <-! initialize_aggregates aggstate (HashGroups setno entry) (-1) ;;
    Ok (entry, aggstate)
  else Ok (entry, aggstate).

Definition lookup_hash_entries (aggstate : AggState)
  : result (list PerGroupLoc * AggState) :=
  let numHashes := num_hashes aggstate in
  foldl (fun acc setno =>
           let! (pergroup, aggstate) := acc in
           let aggstate := select_current_set aggstate setno true in
           let! (entry, aggstate) := lookup_hash_entry aggstate in
           Ok (pergroup ++ [HashGroups setno entry],
               set_hash_pergroup aggstate (<[setno := entry]> (hash_pergroup aggstate))))
    (Ok ([], aggstate)) (seq 0 numHashes).

(** ** LoadHybridHashtable *)

(** A state read back from a record of a batch file: a by-reference value
    points into the record, an INTERNAL one is deserialized. *)
Definition load_state (pertrans : AggStatePerTransData)
  (pergroupstate : AggStatePerGroupData) (payload : option Datum)
  : result AggStatePerGroupData :=
  if negb (transValueIsNull pergroupstate) then
    if negb (transtypeByVal pertrans) then
      Ok {| transValue := default 0 payload;
            transValueIsNull := transValueIsNull pergroupstate;
            noTransValue := noTransValue pergroupstate |}
    else if aggtranstype pertrans =? INTERNALOID then
      if negb (OidIsValid (deserial_func_id pertrans))
      then Err (ElogError "could not deserial transition value")
      else
        Ok {| transValue :=
                (FunctionCallInvoke
                   (call_frame (deserial_func pertrans)
                      [(default 0 payload, false); (0, false)])).1;
              transValueIsNull := transValueIsNull pergroupstate;
              noTransValue := noTransValue pergroupstate |}
    else Ok pergroupstate
  else Ok pergroupstate.

Definition record_state (record : SpillRecord) (aggno : nat)
  : result (AggStatePerGroupData * option Datum) :=
  match rec_states record !! aggno with
  | Some pergroupstate =>
      Ok (pergroupstate, default None (rec_payload record !! aggno))
  | None => Err (Undefined "per-group state out of bounds")
  end.

(** The record hits an entry: merge. *)
Definition load_merge (aggstate : AggState) (setno entry : nat)
  (record : SpillRecord) : result AggState :=
  for_each (numtrans aggstate)
    (fun aggno aggstate =>
       pertrans <-! get_pertrans aggstate aggno ;;
       pergroupstate <-! read_pergroup aggstate (HashGroups setno entry) aggno ;;
       let! (merge_pergroupstate, payload) := record_state record aggno in
       merge_pergroupstate <-! load_state pertrans merge_pergroupstate payload ;;
       let fcinfo := set_arg (combfn_fcinfo pertrans) 1
                       (transValue merge_pergroupstate)
                       (transValueIsNull merge_pergroupstate) in
       let adv := combine_transition (set_combfn_fcinfo pertrans fcinfo)
                    pergroupstate in
       Ok (log_calls
             (write_pergroup (put_pertrans aggstate aggno (adv_pertrans adv))
                (HashGroups setno entry) aggno (adv_pergroup adv))
             (adv_calls adv)))
    aggstate.

(** The record misses and was inserted: the entry takes the states of the
    record. *)
Definition load_new_entry (aggstate : AggState) (setno entry : nat)
  (record : SpillRecord) : result AggState :=
  let aggstate :=
    alter_entry aggstate setno entry
      (fun e => set_firstTuple e (rec_tuple record)) in
  if (0 <? numtrans aggstate)%nat then
    states <-!
      foldl (fun acc aggno =>
               states <-! acc ;;
               pertrans <-! get_pertrans aggstate aggno ;;
               let! (pergroupstate, payload) := record_state record aggno in
               pergroupstate <-! load_state pertrans pergroupstate payload ;;
               Ok (states ++ [pergroupstate]))
        (Ok []) (seq 0 (numtrans aggstate)) ;;
    Ok (alter_entry aggstate setno entry (fun e => set_additional e states))
  else Ok aggstate.

Definition get_spill_file (aggstate : AggState) (ptr index : nat)
  : result SpillFile :=
  spill_set <-! get_spill_set aggstate ptr ;;
  match spill_file spill_set !! index with
  | Some (Some sfile) => Ok sfile
  | _ => Err (Undefined "null spill file")
  end.

Definition put_spill_file (aggstate : AggState) (ptr index : nat)
  (sfile : SpillFile) : result AggState :=
  spill_set <-! get_spill_set aggstate ptr ;;
  Ok (put_spill_set aggstate ptr
        (set_spill_file spill_set (<[index := Some sfile]> (spill_file spill_set)))).

(** The record misses and the table is full: it goes to the child spill
    set of the batch file being read, which is created at the first such
    record.  [ptr] is the spill set being reloaded, [index] the position
    of the batch file being read. *)
Definition load_spill_to_child (aggstate : AggState) (ptr index : nat)
  (record : SpillRecord) : result AggState :=
  spill_set <-! get_spill_set aggstate ptr ;;
  sfile <-! get_spill_file aggstate ptr index ;;
  aggstate <-!
    (if negb (file_spilled sfile) then
       let '(child, aggstate) :=
         alloc_spill_set aggstate
           {| level := level spill_set + 1;
              num_files := num_files spill_set + 1;
              parent_index := current_file spill_set;
              parent_spill_set := Some ptr;
              current_file := 0;
              spill_file := replicate (Z.to_nat (num_files spill_set + 1)) None |} in
       put_spill_file aggstate ptr index
         (set_child_spill_set (set_file_spilled sfile true) (Some child))
     else Ok aggstate) ;;
  sfile <-! get_spill_file aggstate ptr index ;;
  child <-! match child_spill_set sfile with
            | Some child => Ok child
            | None => Err (Undefined "null spill set")
            end ;;
  spillset <-! get_spill_set aggstate child ;;
  file_index <-! batch_index (rec_hash record) (num_files spillset) ;;
  append_to_batch aggstate child file_index record.

(** ExecStoreMinimalTuple(tuple, hashtable->inputslot, false) *)
Definition record_slot (record : SpillRecord) : TupleTableSlot :=
  {| tts_isempty := false; tts_values := t_values (rec_tuple record);
     tts_isnull := t_isnull (rec_tuple record) |}.

(** One record of the batch file being read. *)
Definition load_record (aggstate : AggState) (setno ptr index : nat)
  (record : SpillRecord) : result AggState :=
  sfile <-! get_spill_file aggstate ptr index ;;
  aggstate <-! put_spill_file aggstate ptr index
                 (set_ntups_read sfile (ntups_read sfile + 1)) ;;
  perhash <-! get_perhash aggstate setno ;;
  let '(entry, hashtable') :=
    tuplehash_insert_with_key (hashtable perhash) (record_slot record)
      (rec_hash record) in
  let aggstate := put_hashtable aggstate setno hashtable' in
  match entry with
  | Some (entry, true) =>
      if (0 <? numtrans aggstate)%nat
      then load_merge aggstate setno entry record
      else Ok aggstate
  | None => load_spill_to_child aggstate ptr index record
  | Some (entry, false) => load_new_entry aggstate setno entry record
  end.

(** The [while (true)] over the records of the batch file. *)
Definition load_records (aggstate : AggState) (setno ptr index : nat)
  (records : list SpillRecord) : result AggState :=
  foldl (fun acc record =>
           aggstate <-! acc ;;
           load_record aggstate setno ptr index record)
    (Ok aggstate) records.

(** A whole batch file: its records in order, then the end of the file. *)
Definition load_batch_file (aggstate : AggState) (setno ptr index : nat)
  : result AggState :=
  sfile <-! get_spill_file aggstate ptr index ;;
  aggstate <-! load_records aggstate setno ptr index (file sfile) ;;
  (* read done *)
  sfile <-! get_spill_file aggstate ptr index ;;
  if negb (ntups_read sfile =? ntups_write sfile)
  then Err (ElogError "data corrupted in spill file")
  else
    perhash <-! get_perhash aggstate setno ;;
    let hashtable :=
      if file_spilled sfile
      then set_spill_set (hashtable perhash) (child_spill_set sfile)
      else hashtable perhash in
    (* InitTupleHashIterator(hashtable, hashiter) *)
    Ok (put_perhash aggstate setno
          (set_hashiter (set_hashtable perhash hashtable) 0)).

(** [get readable file]: from [current_file] on, the first batch file
    that exists, with [current_file] past it; [None] when the set has no
    further file. *)
Fixpoint next_spill_file (files : list (option SpillFile)) (position : nat)
  : option nat :=
  match files with
  | [] => None
  | Some _ :: _ => Some position
  | None :: files => next_spill_file files (S position)
  end.

Fixpoint LoadHybridHashtable (fuel : nat) (aggstate : AggState) (setno : nat)
  : result AggState :=
  match fuel with
  | O => Err OutOfFuel
  | S fuel =>
      perhash <-! get_perhash aggstate setno ;;
      let hashtable := hashtable perhash in
      if spilled hashtable then
        match spill_set hashtable with
        | Some ptr =>
            spill_set <-! get_spill_set aggstate ptr ;;
            if current_file spill_set <? num_files spill_set then
              let start := Z.to_nat (current_file spill_set) in
              match next_spill_file
                      (take (Z.to_nat (num_files spill_set) - start)
                         (drop start (spill_file spill_set))) start with
              | Some index =>
                  let aggstate :=
                    put_spill_set aggstate ptr
                      (set_current_file spill_set (Z.of_nat index + 1)) in
                  load_batch_file aggstate setno ptr index
              | None =>
                  let aggstate :=
                    put_spill_set aggstate ptr
                      (set_current_file spill_set (num_files spill_set)) in
                  let aggstate :=
                    put_hashtable aggstate setno
                      (set_spill_set hashtable (parent_spill_set spill_set)) in
                  LoadHybridHashtable fuel aggstate setno
              end
            else
              let aggstate :=
                put_hashtable aggstate setno
                  (set_spill_set hashtable (parent_spill_set spill_set)) in
              LoadHybridHashtable fuel aggstate setno
        | None => Ok aggstate
        end
      else Ok aggstate
  end.

(** ** ResetHybridHashtable, HybridHashtableLoadDone,
       dump_hashtable_if_spilled *)

Definition ResetHybridHashtable (hashtable : TupleHashTableData) : TupleHashTableData :=
  tuplehash_reset hashtable.

Definition HybridHashtableLoadDone (aggstate : AggState) (setno : nat)
  : result (bool * AggState) :=
  perhash <-! get_perhash aggstate setno ;;
  let hashtable := hashtable perhash in
  if spilled hashtable then
    done <-!
      match spill_set hashtable with
      | None => Ok true
      | Some ptr =>
          spill_set <-! get_spill_set aggstate ptr ;;
          Ok ((num_files spill_set <=? current_file spill_set)
              && bool_decide (parent_spill_set spill_set = None))
      end ;;
    if negb done
    then Ok (done, put_hashtable aggstate setno (ResetHybridHashtable hashtable))
    else Ok (done, aggstate)
  else Ok (true, aggstate).

Definition dump_hashtable_if_spilled (fuel : nat) (aggstate : AggState)
  : result AggState :=
  for_each (num_hashes aggstate)
    (fun setno aggstate =>
       perhash <-! get_perhash aggstate setno ;;
       if spilled (hashtable perhash) then
         aggstate <-! DumpHybridHashtable aggstate setno ;;
         LoadHybridHashtable fuel aggstate setno
       else Ok aggstate)
    aggstate.

(** ** build_hash_table *)

(** BuildTupleHashTable gives an empty table; [keyColIdx] is
    [hashGrpColIdxHash]. *)
Definition build_hash_table (aggstate : AggState) : result AggState :=
  _ <-! Assert (AggStrategy_eqb (aggstrategy aggstate) AGG_HASHED
                || AggStrategy_eqb (aggstrategy aggstate) AGG_MIXED) ;;
  for_each (num_hashes aggstate)
    (fun i aggstate =>
       perhash <-! get_perhash aggstate i ;;
       _ <-! Assert (negb (Qle_bool (plan_numGroups (hash_aggnode perhash)) 0)) ;;
       let hashtable :=
         {| hashtab := []; keyColIdx := hashGrpColIdxHash perhash;
            tb_hybrid := false; tb_max_entries := 0; tb_nbatches := 0;
            hybrid := false; nentries := 0; nbatches := 0; spilled := false;
            spill_set := None; actual_entrysize := 0 |} in
       hashtable <-!
         (if plan_hybrid (hash_aggnode perhash) then
            OptimizeHybridHashtableSize
              (set_actual_entrysize hashtable (plan_entrySize (hash_aggnode perhash)))
              (plan_entrySize (hash_aggnode perhash))
              (plan_numGroups (hash_aggnode perhash))
          else Ok hashtable) ;;
       Ok (put_perhash aggstate i (set_hashtable perhash hashtable)))
    aggstate.

(** * The retrieval loops *)

(** ** agg_retrieve_hash_table *)

(** The representative tuple of an entry, put back into the columns of the
    input descriptor: every column null but those the table keeps. *)
Definition restore_first_slot (perhash : AggStatePerHashData)
  (hashslot firstSlot : TupleTableSlot) : TupleTableSlot :=
  let varNumber i := (default 0%nat (hashGrpColIdxInput perhash !! i) - 1)%nat in
  {| tts_isempty := false;
     tts_values :=
       foldl (fun values i => <[varNumber i := slot_value hashslot i]> values)
         (tts_values firstSlot) (seq 0 (numhashGrpCols perhash));
     tts_isnull :=
       foldl (fun nulls i => <[varNumber i := slot_isnull hashslot i]> nulls)
         (replicate (length (tts_isnull firstSlot)) true)
         (seq 0 (numhashGrpCols perhash)) |}.

(** [setno] is the table the local [perhash] of the source points at.
    Interrupt checks are not modelled. *)
Fixpoint agg_retrieve_hash_table_loop (fuel : nat) (aggstate : AggState) (setno : nat)
  : result (option TupleTableSlot * AggState) :=
  match fuel with
  | O => Err OutOfFuel
  | S fuel =>
      if agg_done aggstate then Ok (None, aggstate)
      else
        perhash <-! get_perhash aggstate setno ;;
        (* Find the next entry in the hash table *)
        match hashtab (hashtable perhash) !! hashiter perhash with
        | None =>
            let nextset := (current_set aggstate + 1)%nat in
            let! (load_done, aggstate) :=
              (if hybrid (hashtable perhash)
               then HybridHashtableLoadDone aggstate setno
               else Ok (true, aggstate)) in
            if negb load_done then
              aggstate <-! LoadHybridHashtable fuel aggstate setno ;;
              agg_retrieve_hash_table_loop fuel aggstate setno
            else if (nextset <? num_hashes aggstate)%nat then
              let aggstate := select_current_set aggstate nextset true in
              let setno := current_set aggstate in
              perhash <-! get_perhash aggstate setno ;;
              (* ResetTupleHashIterator *)
              let aggstate := put_perhash aggstate setno (set_hashiter perhash 0) in
              agg_retrieve_hash_table_loop fuel aggstate setno
            else
              (* No more hashtables, so done *)
              Ok (None, set_agg_done aggstate true)
        | Some entry =>
            let entryno := hashiter perhash in
            let perhash := set_hashiter perhash (S entryno) in
            (* Transform representative tuple back into one with the right
               columns. *)
            let hashslot := ExecStoreTuple (firstTuple entry) (hashslot perhash) in
            let perhash := set_hashslot perhash hashslot in
            let aggstate := put_perhash aggstate setno perhash in
            let aggstate :=
              set_ss_ScanTupleSlot aggstate
                (restore_first_slot perhash hashslot (ss_ScanTupleSlot aggstate)) in
            let aggstate := set_ecxt_outertuple aggstate ScanSlot in
            let aggstate :=
              prepare_projection_slot aggstate (ecxt_outertuple aggstate)
                (current_set aggstate) in
            aggstate <-! finalize_aggregates aggstate (HashGroups setno entryno) ;;
            match project_aggregates aggstate with
            | Some result => Ok (Some result, aggstate)
            | None => agg_retrieve_hash_table_loop fuel aggstate setno
            end
        end
  end.

Definition agg_retrieve_hash_table (fuel : nat) (aggstate : AggState)
  : result (option TupleTableSlot * AggState) :=
  agg_retrieve_hash_table_loop fuel aggstate (current_set aggstate).

(** ** agg_retrieve_direct *)

(** [while (gset_lengths[projected_set] > 0)] with its [break]; [steps]
    bounds the iterations. *)
Fixpoint skip_nonempty_sets (lengths : list nat) (projected_set : Z)
  (numGroupingSets : nat) (steps : nat) : Z :=
  match steps with
  | O => projected_set
  | S steps =>
      if (0 <? default 0%nat (lengths !! Z.to_nat projected_set))%nat then
        let projected_set := projected_set + 1 in
        if Z.of_nat numGroupingSets <=? projected_set then projected_set
        else skip_nonempty_sets lengths projected_set numGroupingSets steps
      else projected_set
  end.

(** The inner [for (;;)]: process the tuple in hand and fetch the next,
    until the input ends or a group boundary is crossed. *)
Fixpoint advance_group (fuel : nat) (aggstate : AggState) (node : Agg)
  (hasGroupingSets : bool) : result AggState :=
  match fuel with
  | O => Err OutOfFuel
  | S fuel =>
      let! (hash_pergroups, aggstate) :=
        (if AggStrategy_eqb (aggstrategy aggstate) AGG_MIXED
            && (current_phase aggstate =? 1)%nat
         then let! (locs, aggstate) := lookup_hash_entries aggstate in
              Ok (Some locs, aggstate)
         else Ok (None, aggstate)) in
      aggstate <-!
        (if DO_AGGSPLIT_COMBINE (aggsplit aggstate)
         then combine_aggregates aggstate (SortedGroups 0)
         else advance_aggregates aggstate (Some (SortedGroups 0)) hash_pergroups) ;;
      let '(outerslot, aggstate) := fetch_input_tuple aggstate in
      if TupIsNull aggstate outerslot then
        aggstate <-!
          (if g_hybrid_hash_agg then dump_hashtable_if_spilled fuel aggstate
           else Ok aggstate) ;;
        (* no more outer-plan tuples available *)
        if hasGroupingSets then Ok (set_input_done aggstate true)
        else Ok (set_agg_done aggstate true)
      else
        match outerslot with
        | None => Err (Undefined "null slot")
        | Some outerslot =>
            (* set up for next advance_aggregates call *)
            let aggstate := set_tmp_outertuple aggstate outerslot in
            if negb (AggStrategy_eqb (plan_aggstrategy node) AGG_PLAIN)
               && negb (execTuplesMatch (get_slot aggstate ScanSlot)
                          (get_slot aggstate outerslot) (plan_numCols node)
                          (plan_grpColIdx node) (eqfunctions (phase aggstate)))
            then
              Ok (set_grp_firstTuple aggstate
                    (Some (ExecCopySlotTuple (get_slot aggstate outerslot))))
            else advance_group fuel aggstate node hasGroupingSets
        end
  end.

(** How one turn of the [while (!aggstate->agg_done)] loop ends. *)
Inductive LoopStep :=
| Continue (aggstate : AggState)
| Return (result : option TupleTableSlot) (aggstate : AggState).

(** The turns of the [while (!aggstate->agg_done)] loop, in three parts.
    [hasGroupingSets] is fixed when the function is entered; [node] and
    [numGroupingSets] follow the phase. *)

(** Check if input is complete and there are no more groups to project in
    this phase; move to next phase or mark as done.  The answer carries
    [numReset], which a new phase sets again. *)
Definition agg_retrieve_direct_next_phase (fuel : nat) (aggstate : AggState)
  (numReset : Z) : result (option LoopStep * AggState * Z) :=
  let numGroupingSets := Nat.max (numsets (phase aggstate)) 1 in
  if input_done aggstate
     && (Z.of_nat numGroupingSets - 1 <=? projected_set aggstate)
  then
    if (current_phase aggstate + 1 <? numphases aggstate)%nat then
      aggstate <-! initialize_phase aggstate (current_phase aggstate + 1) ;;
      let aggstate := set_input_done aggstate false in
      let aggstate := set_projected_set aggstate (-1) in
      Ok (None, aggstate,
          Z.of_nat (Nat.max (numsets (phase aggstate)) 1))
    else if AggStrategy_eqb (aggstrategy aggstate) AGG_MIXED then
      (* Mixed mode; we've output all the grouped stuff and have full
         hashtables, so switch to outputting those. *)
      aggstate <-! initialize_phase aggstate 0 ;;
      let aggstate := set_table_filled aggstate true in
      perhash0 <-! get_perhash aggstate 0 ;;
      let aggstate := put_perhash aggstate 0 (set_hashiter perhash0 0) in
      let aggstate := select_current_set aggstate 0 true in
      let! (result, aggstate) := agg_retrieve_hash_table fuel aggstate in
      Ok (Some (Return result aggstate), aggstate, numReset)
    else
      let aggstate := set_agg_done aggstate true in
      (* break; the loop is left and NULL returned *)
      Ok (Some (Return None aggstate), aggstate, numReset)
  else Ok (None, aggstate, numReset).

(** The projection of the grouping set [projected_set]. *)
Definition agg_retrieve_direct_project (aggstate : AggState) : result LoopStep :=
  _ <-! Assert (0 <=? projected_set aggstate) ;;
  let currentSet := Z.to_nat (projected_set aggstate) in
  let aggstate :=
    prepare_projection_slot aggstate (ecxt_outertuple aggstate) currentSet in
  let aggstate := select_current_set aggstate currentSet false in
  aggstate <-!
    finalize_aggregates aggstate
      (SortedGroups (currentSet * numtrans aggstate)) ;;
  (* If there's no row to project right now, we must continue
     rather than returning a null since there might be more
     groups. *)
  match project_aggregates aggstate with
  | Some result => Ok (Return (Some result) aggstate)
  | None => Ok (Continue aggstate)
  end.

(** The next grouping set of the group in hand, or a new group read from
    the input; then the projection. *)
Definition agg_retrieve_direct_group (fuel : nat) (aggstate : AggState)
  (hasGroupingSets : bool) (numReset : Z) : result LoopStep :=
  let node := phase_aggnode (phase aggstate) in
  let numGroupingSets := Nat.max (numsets (phase aggstate)) 1 in
  (* Get the number of columns in the next grouping set after the last
     projected one (if any). *)
  let nextSetSize :=
    if (0 <=? projected_set aggstate)
       && (projected_set aggstate <? Z.of_nat numGroupingSets - 1)
    then default 0%nat
           (gset_lengths (phase aggstate)
              !! Z.to_nat (projected_set aggstate + 1))
    else 0%nat in
  let! (early, aggstate) :=
    (if input_done aggstate
        || (negb (AggStrategy_eqb (plan_aggstrategy node) AGG_PLAIN)
            && negb (projected_set aggstate =? -1)
            && (projected_set aggstate <? Z.of_nat numGroupingSets - 1)
            && (0 <? nextSetSize)%nat
            && negb (execTuplesMatch
                       (get_slot aggstate (ecxt_outertuple aggstate))
                       (get_slot aggstate (tmp_outertuple aggstate))
                       nextSetSize (plan_grpColIdx node)
                       (eqfunctions (phase aggstate))))
     then
       let aggstate := set_projected_set aggstate (projected_set aggstate + 1) in
       _ <-! Assert (projected_set aggstate <? Z.of_nat numGroupingSets) ;;
       _ <-! Assert ((0 <? nextSetSize)%nat || input_done aggstate) ;;
       Ok (None, aggstate)
     else
       (* the next projection will always be the first (or only)
          grouping set (unless the input proves to be empty) *)
       let aggstate := set_projected_set aggstate 0 in
       (* If we don't already have the first tuple of the new group,
          fetch it from the outer plan. *)
       let! (early, aggstate) :=
         (match grp_firstTuple aggstate with
          | Some _ => Ok (None, aggstate)
          | None =>
              let '(outerslot, aggstate) := fetch_input_tuple aggstate in
              if negb (TupIsNull aggstate outerslot) then
                match outerslot with
                | Some outerslot =>
                    Ok (None,
                        set_grp_firstTuple aggstate
                          (Some (ExecCopySlotTuple (get_slot aggstate outerslot))))
                | None => Err (Undefined "null slot")
                end
              else if hasGroupingSets then
                (* outer plan produced no tuples at all: project rows
                   only if there are grouping sets of size 0 *)
                let aggstate := set_input_done aggstate true in
                let aggstate :=
                  set_projected_set aggstate
                    (skip_nonempty_sets (gset_lengths (phase aggstate))
                       (projected_set aggstate) numGroupingSets numGroupingSets) in
                if Z.of_nat numGroupingSets <=? projected_set aggstate
                then Ok (Some (Continue aggstate), aggstate)
                else Ok (None, aggstate)
              else
                let aggstate := set_agg_done aggstate true in
                (* If we are grouping, we should produce no tuples too *)
                if negb (AggStrategy_eqb (plan_aggstrategy node) AGG_PLAIN)
                then Ok (Some (Return None aggstate), aggstate)
                else Ok (None, aggstate)
          end) in
       match early with
       | Some step => Ok (Some step, aggstate)
       | None =>
           (* Initialize working state for a new input tuple group. *)
           aggstate <-! initialize_aggregates aggstate (SortedGroups 0) numReset ;;
           aggstate <-!
             match grp_firstTuple aggstate with
             | Some tuple =>
                 let aggstate :=
                   set_ss_ScanTupleSlot aggstate
                     (ExecStoreTuple tuple (ss_ScanTupleSlot aggstate)) in
                 let aggstate := set_grp_firstTuple aggstate None in
                 (* set up for first advance_aggregates call *)
                 let aggstate := set_tmp_outertuple aggstate ScanSlot in
                 advance_group fuel aggstate node hasGroupingSets
             | None => Ok aggstate
             end ;;
           Ok (None, set_ecxt_outertuple aggstate ScanSlot)
       end) in
  match early with
  | Some step => Ok step
  | None => agg_retrieve_direct_project aggstate
  end.

(** One turn of the loop. *)
Definition agg_retrieve_direct_body (fuel : nat) (aggstate : AggState)
  (hasGroupingSets : bool) : result LoopStep :=
  let numGroupingSets := Nat.max (numsets (phase aggstate)) 1 in
  (* Determine how many grouping sets need to be reset at this boundary. *)
  let numReset :=
    if (0 <=? projected_set aggstate)
       && (projected_set aggstate <? Z.of_nat numGroupingSets)
    then projected_set aggstate + 1
    else Z.of_nat numGroupingSets in
  let! (early, aggstate, numReset) :=
    agg_retrieve_direct_next_phase fuel aggstate numReset in
  match early with
  | Some step => Ok step
  | None => agg_retrieve_direct_group fuel aggstate hasGroupingSets numReset
  end.

Fixpoint agg_retrieve_direct_loop (fuel : nat) (aggstate : AggState)
  (hasGroupingSets : bool) : result (option TupleTableSlot * AggState) :=
  match fuel with
  | O => Err OutOfFuel
  | S fuel =>
      if agg_done aggstate then Ok (None, aggstate)
      else
        step <-! agg_retrieve_direct_body fuel aggstate hasGroupingSets ;;
        match step with
        | Continue aggstate => agg_retrieve_direct_loop fuel aggstate hasGroupingSets
        | Return result aggstate => Ok (result, aggstate)
        end
  end.

Definition agg_retrieve_direct (fuel : nat) (aggstate : AggState)
  : result (option TupleTableSlot * AggState) :=
  agg_retrieve_direct_loop fuel aggstate (0 <? numsets (phase aggstate))%nat.

(** ** agg_fill_hash_table *)

(** The loop of agg_fill_hash_table, outside a parallel worker (the
    redistribution branches are taken only when IsParallelWorker() and
    aggstate->state hold). *)
Fixpoint agg_fill_hash_table_loop (fuel : nat) (aggstate : AggState)
  : result AggState :=
  match fuel with
  | O => Err OutOfFuel
  | S fuel =>
      let '(outerslot, aggstate) := fetch_input_tuple aggstate in
      if TupIsNull aggstate outerslot then
        if g_hybrid_hash_agg then dump_hashtable_if_spilled fuel aggstate
        else Ok aggstate
      else
        match outerslot with
        | None => Err (Undefined "null slot")
        | Some outerslot =>
            (* set up for lookup_hash_entries and advance_aggregates *)
            let aggstate := set_tmp_outertuple aggstate outerslot in
            (* Find or build hashtable entries *)
            let! (pergroups, aggstate) := lookup_hash_entries aggstate in
            (* Advance the aggregates *)
            aggstate <-!
              (if DO_AGGSPLIT_COMBINE (aggsplit aggstate) then
                 match pergroups !! 0%nat with
                 | Some loc => combine_aggregates aggstate loc
                 | None => Err (Undefined "pergroups out of bounds")
                 end
               else advance_aggregates aggstate None (Some pergroups)) ;;
            agg_fill_hash_table_loop fuel aggstate
        end
  end.

Definition agg_fill_hash_table (fuel : nat) (aggstate : AggState) : result AggState :=
  aggstate <-! agg_fill_hash_table_loop fuel aggstate ;;
  let aggstate := set_table_filled aggstate true in
  (* Initialize to walk the first hash table *)
  let aggstate := select_current_set aggstate 0 true in
  perhash0 <-! get_perhash aggstate 0 ;;
  if negb (spilled (hashtable perhash0))
  then Ok (put_perhash aggstate 0 (set_hashiter perhash0 0))
  else Ok aggstate.

(** ** ExecAgg *)

(** The answer is the row, or [None] for the NULL that ends the stream. *)
Definition ExecAgg (fuel : nat) (aggstate : AggState)
  : result (option TupleTableSlot * AggState) :=
  if negb (agg_done aggstate) then
    let! (result, aggstate) :=
      (* Dispatch based on strategy *)
      (match phase_aggstrategy (phase aggstate) with
       | AGG_HASHED =>
           aggstate <-! (if negb (table_filled aggstate)
                         then agg_fill_hash_table fuel aggstate
                         else Ok aggstate) ;;
           agg_retrieve_hash_table fuel aggstate
       | AGG_MIXED => agg_retrieve_hash_table fuel aggstate
       | AGG_PLAIN | AGG_SORTED => agg_retrieve_direct fuel aggstate
       end) in
    match result with
    | Some slot =>
        if negb (tts_isempty slot) then Ok (Some slot, aggstate)
        else Ok (None, aggstate)
    | None => Ok (None, aggstate)
    end
  else Ok (None, aggstate).

(** Calling ExecAgg until it answers NULL, at most [n] times: the rows
    returned, in order, and whether the NULL was reached. *)
Fixpoint ExecAgg_drain (fuel : nat) (n : nat) (aggstate : AggState)
  : result (list TupleTableSlot * bool * AggState) :=
  match n with
  | O => Ok ([], false, aggstate)
  | S n =>
      let! (result, aggstate) := ExecAgg fuel aggstate in
      match result with
      | None => Ok ([], true, aggstate)
      | Some row =>
          let! (rows, ended, aggstate) := ExecAgg_drain fuel n aggstate in
          Ok (row :: rows, ended, aggstate)
      end
  end.

End Executor.

(** * The ring buffers between parallel workers *)

(** [sizeof(int)]; a [size_t] has 64 bits. *)
Definition sizeof_int : Z := 4.
Definition size_t (x : Z) : Z := wrap_unsigned 64 x.
Definition to_int (x : Z) : Z := wrap_signed 32 x.

Inductive ReDistributeDataType := DT_None | DT_HeapTup | DT_MinimalTup | DT_DataRow.

Definition ReDistributeDataType_eqb (a b : ReDistributeDataType) : bool :=
  match a, b with
  | DT_None, DT_None | DT_HeapTup, DT_HeapTup
  | DT_MinimalTup, DT_MinimalTup | DT_DataRow, DT_DataRow => true
  | _, _ => false
  end.

(** [buffer] is the array of [length] chars after the header; a char is
    kept as the number it holds. *)
Record ReDistributeBuffer := {
  buf_dataType : ReDistributeDataType;
  buf_length : Z;
  buf_head : Z;
  buf_tail : Z;
  nTuples : Z;
  nTuplesBuffer : Z;
  nTuplesFile : Z;
  buffer : list Z
}.

Definition set_buf_dataType (buf : ReDistributeBuffer) (v : ReDistributeDataType)
  : ReDistributeBuffer :=
  {| buf_dataType := v; buf_length := buf_length buf; buf_head := buf_head buf;
     buf_tail := buf_tail buf; nTuples := nTuples buf;
     nTuplesBuffer := nTuplesBuffer buf; nTuplesFile := nTuplesFile buf;
     buffer := buffer buf |}.

Definition set_buf_head (buf : ReDistributeBuffer) (v : Z) : ReDistributeBuffer :=
  {| buf_dataType := buf_dataType buf; buf_length := buf_length buf; buf_head := v;
     buf_tail := buf_tail buf; nTuples := nTuples buf;
     nTuplesBuffer := nTuplesBuffer buf; nTuplesFile := nTuplesFile buf;
     buffer := buffer buf |}.

Definition set_buf_tail (buf : ReDistributeBuffer) (v : Z) : ReDistributeBuffer :=
  {| buf_dataType := buf_dataType buf; buf_length := buf_length buf;
     buf_head := buf_head buf; buf_tail := v; nTuples := nTuples buf;
     nTuplesBuffer := nTuplesBuffer buf; nTuplesFile := nTuplesFile buf;
     buffer := buffer buf |}.

Definition set_buffer (buf : ReDistributeBuffer) (v : list Z) : ReDistributeBuffer :=
  {| buf_dataType := buf_dataType buf; buf_length := buf_length buf;
     buf_head := buf_head buf; buf_tail := buf_tail buf; nTuples := nTuples buf;
     nTuplesBuffer := nTuplesBuffer buf; nTuplesFile := nTuplesFile buf;
     buffer := v |}.

(** The counters of a tuple sent: [nTuples++] and one of
    [nTuplesBuffer++], [nTuplesFile++]. *)
Definition count_tuple (buf : ReDistributeBuffer) (in_buffer : bool)
  : ReDistributeBuffer :=
  {| buf_dataType := buf_dataType buf; buf_length := buf_length buf;
     buf_head := buf_head buf; buf_tail := buf_tail buf;
     nTuples := nTuples buf + 1;
     nTuplesBuffer := if in_buffer then nTuplesBuffer buf + 1 else nTuplesBuffer buf;
     nTuplesFile := if in_buffer then nTuplesFile buf else nTuplesFile buf + 1;
     buffer := buffer buf |}.

(** [memcpy(dst + pos, src, n)]: the first [n] chars of [src] over those
    of [dst] from [pos] on.  Where C has no defined behaviour (the chars
    do not fit, or [n] is negative) the model writes the chars that fit. *)
Definition memcpy (dst : list Z) (pos : Z) (src : list Z) (n : Z) : list Z :=
  list_inserts (Z.to_nat pos) (take (Z.to_nat n) src) dst.

(** The [n] chars a [memcpy(.., src + pos, n)] reads. *)
Definition chars_at (src : list Z) (pos n : Z) : list Z :=
  take (Z.to_nat n) (drop (Z.to_nat pos) src).

(** The chars of an [int] in memory, lowest first, and the [int] four
    chars hold. *)
Definition int_chars (x : Z) : list Z :=
  (fun i => (wrap_unsigned 32 x / 2 ^ (8 * i)) mod 256) <$> [0; 1; 2; 3].

Definition chars_int (chars : list Z) : Z :=
  to_int (foldr (fun c acc => c mod 256 + 256 * acc) 0 (take 4 chars)).

(** ** ReDistributeBufferFreeSize *)
Definition ReDistributeBufferFreeSize (buf : ReDistributeBuffer) : Z :=
  if buf_tail buf <=? buf_head buf
  then to_int ((buf_length buf - buf_head buf) + (buf_tail buf - 1))
  else to_int (buf_tail buf - buf_head buf - 1).

(** ** ReDistributeBufferPutData *)
Definition ReDistributeBufferPutData (buf : ReDistributeBuffer) (dataLen : Z)
  (data : list Z) : result ReDistributeBuffer :=
  let posi := buf_head buf in
  (* put data length *)
  let chars :=
    if sizeof_int <=? size_t (buf_length buf - buf_head buf) then
      memcpy (buffer buf) posi (int_chars dataLen) sizeof_int
    else
      let len := buf_length buf - buf_head buf in
      memcpy (memcpy (buffer buf) posi (int_chars dataLen) len)
        0 (drop (Z.to_nat len) (int_chars dataLen)) (sizeof_int - len) in
  posi <-! c_rem (size_t (posi + sizeof_int)) (size_t (buf_length buf)) ;;
  let posi := to_int posi in
  (* put data *)
  let chars :=
    if dataLen <=? buf_length buf - posi then memcpy chars posi data dataLen
    else
      let len := buf_length buf - posi in
      memcpy (memcpy chars posi data len)
        0 (drop (Z.to_nat len) data) (dataLen - len) in
  head <-! c_rem (size_t (to_int (buf_head buf + dataLen) + sizeof_int))
             (size_t (buf_length buf)) ;;
  Ok (set_buf_head (set_buffer buf chars) (to_int head)).

(** ** ReDistributeBufferGetData *)

(** The answer is the length read, the chars of the message (the [msg]
    of the data row when the buffer holds data rows, else the [data]
    handed back) and the buffer. *)
Definition ReDistributeBufferGetData (buf : ReDistributeBuffer)
  : result (Z * list Z * ReDistributeBuffer) :=
  let offset := buf_tail buf in
  (* get data length *)
  let dataLen :=
    if sizeof_int <=? size_t (buf_length buf - offset) then
      chars_int (chars_at (buffer buf) offset sizeof_int)
    else
      let len := buf_length buf - offset in
      chars_int (chars_at (buffer buf) offset len
                 ++ chars_at (buffer buf) 0 (sizeof_int - len)) in
  offset <-! c_rem (size_t (offset + sizeof_int)) (size_t (buf_length buf)) ;;
  let offset := to_int offset in
  (* get data *)
  let msg :=
    if dataLen <=? buf_length buf - offset then chars_at (buffer buf) offset dataLen
    else
      let len := buf_length buf - offset in
      chars_at (buffer buf) offset len ++ chars_at (buffer buf) 0 (dataLen - len) in
  tail <-! c_rem (size_t (to_int (buf_tail buf + dataLen) + sizeof_int))
             (size_t (buf_length buf)) ;;
  Ok (dataLen, msg, set_buf_tail buf (to_int tail)).

(** ** ReDistributeInitializeDSM: a buffer as it is set up *)
Definition ReDistributeBuffer_init (ReDistributeBufferSize : Z) (chars : list Z)
  : ReDistributeBuffer :=
  {| buf_dataType := DT_None; buf_length := ReDistributeBufferSize;
     buf_head := 0; buf_tail := 0; nTuples := 0; nTuplesBuffer := 0;
     nTuplesFile := 0; buffer := chars |}.

(** ** ReDistributeData: the message goes to the peer *)

(** The buffer of the peer and the buffer file behind it: the type of
    the data the file holds ([None] while [ReDistributeData[index]] is
    InvalidDsaPointer) and the messages written to it. *)
Record ReDistributeChannel := {
  chan_buf : ReDistributeBuffer;
  chan_fileType : option ReDistributeDataType;
  chan_file : list (Z * list Z)
}.

(** The sending branch, from its [switch (dataType)] on: [dataLen] and
    [data] are what the case of the data type took from the slot. *)
Definition ReDistributeData_send (chan : ReDistributeChannel)
  (dataType : ReDistributeDataType) (dataLen : Z) (data : list Z)
  : result ReDistributeChannel :=
  _ <-! match dataType with
        | DT_DataRow | DT_MinimalTup | DT_HeapTup => Ok tt
        | DT_None => Err (ElogError "wrong data type while ReDistributing Data.")
        end ;;
  let buf := chan_buf chan in
  (* if we can send data to buffer instead of bufFile *)
  if size_t (dataLen + sizeof_int) <=? size_t (ReDistributeBufferFreeSize buf) then
    (* enough space in buffer, put data into buffer *)
    buf <-!
      (if ReDistributeDataType_eqb (buf_dataType buf) DT_None
       then Ok (set_buf_dataType buf dataType)
       else if negb (ReDistributeDataType_eqb (buf_dataType buf) dataType)
            then Err (ElogError "mismatch data type in same buffer")
            else Ok buf) ;;
    buf <-! ReDistributeBufferPutData (count_tuple buf true) dataLen data ;;
    Ok {| chan_buf := buf; chan_fileType := chan_fileType chan;
          chan_file := chan_file chan |}
  else
    fileType <-!
      match chan_fileType chan with
      | None => Ok dataType
      | Some fileType =>
          if negb (ReDistributeDataType_eqb fileType dataType)
          then Err (ElogError "mismatch data type in same bufFile")
          else Ok fileType
      end ;;
    Ok {| chan_buf := count_tuple buf false; chan_fileType := Some fileType;
          chan_file := chan_file chan ++ [(dataLen, chars_at data 0 dataLen)] |}.

(** ** GetReDistributeData: the next message of a buffer *)

(** The declarations of the tuple headers (htup.h, htup_details.h) are
    not under src/; what the routines use of them is taken as given:
    [HEAPTUPLESIZE], the size of the header of a heap tuple;
    [tuple_t_len], the [t_len] that the chars of a HeapTupleData or of a
    MinimalTupleData hold; [with_t_data], the chars of a HeapTupleData
    after [t_data] is made to point behind its header. *)
Class TupleLayout := {
  HEAPTUPLESIZE : Z;
  tuple_t_len : list Z -> Z;
  with_t_data : list Z -> list Z
}.

Section Receive.
Context {TL : TupleLayout}.

(** The [switch] on the data type of a message read: the length the
    tuple gives for itself is compared with the length read, and the
    chars go to the slot.  [t_len] is a [uint32], [dataLen] an [int] and
    [HEAPTUPLESIZE] a [size_t]. *)
Definition ReDistributeData_store (dataType : ReDistributeDataType) (dataLen : Z)
  (data : list Z) : result (list Z) :=
  match dataType with
  | DT_MinimalTup =>
      if negb (wrap_unsigned 32 (tuple_t_len data) =? wrap_unsigned 32 dataLen)
      then Err (ElogError
                  "data len mismatch between minimal tup and length read from bufFile.")
      else Ok data
  | DT_HeapTup =>
      let tuple := with_t_data data in
      if negb (size_t (wrap_unsigned 32 (tuple_t_len tuple) + HEAPTUPLESIZE)
               =? size_t dataLen)
      then Err (ElogError
                  "data len mismatch between heap tup and length read from bufFile.")
      else Ok tuple
  | DT_DataRow => Ok data
  | DT_None => Err (ElogError "wrong data type while getting ReDistributeData.")
  end.

(** The scan of the buffers of the peers: a buffer whose [head] and
    [tail] differ gives its next message, which is stored as the data
    type of the buffer says. *)
Definition GetReDistributeData_buffer (buf : ReDistributeBuffer)
  : result (option (Z * list Z) * ReDistributeBuffer) :=
  if negb (buf_head buf =? buf_tail buf) then
    let dataType := buf_dataType buf in
    let! (dataLen, data, buf) := ReDistributeBufferGetData buf in
    data <-! ReDistributeData_store dataType dataLen data ;;
    Ok (Some (dataLen, data), buf)
  else Ok (None, buf).

End Receive.

(** ** ReDistributeBufferCheck *)

(** The buffers are those of the worker, [buf[ParallelWorkerNumber *
    numWorkers ..]]. *)
Definition ReDistributeBufferCheck (bufs : list ReDistributeBuffer) : result unit :=
  foldl (fun acc buf =>
           _ <-! acc ;;
           if negb (buf_head buf =? buf_tail buf)
           then Err (ElogError "data left in ReDistributeBuffer")
           else Ok tt)
    (Ok tt) bufs.

(** ** A sender and a receiver on one channel *)

(** What the two workers at the ends of a channel do, in the order it
    happens: the sender hands a message to ReDistributeData, or the
    receiver asks GetReDistributeData for the next message of the buffer. *)
Inductive ChannelOp :=
| OpSend (data : list Z)
| OpReceive.

(** The messages the receiver got, oldest first, and the channel. *)
Fixpoint channel_run {TL : TupleLayout} (dataType : ReDistributeDataType)
  (ops : list ChannelOp)
  (chan : ReDistributeChannel) : result (list (Z * list Z) * ReDistributeChannel) :=
  match ops with
  | [] => Ok ([], chan)
  | OpSend data :: ops =>
      chan <-! ReDistributeData_send chan dataType (Z.of_nat (length data)) data ;;
      channel_run dataType ops chan
  | OpReceive :: ops =>
      let! (msg, buf) := GetReDistributeData_buffer (chan_buf chan) in
      let chan := {| chan_buf := buf; chan_fileType := chan_fileType chan;
                     chan_file := chan_file chan |} in
      let! (msgs, chan) := channel_run dataType ops chan in
      Ok (option_list msg ++ msgs, chan)
  end.

(** ** ReDistributeInitializeWorker: the checks on the number of workers *)
Definition ReDistributeInitializeWorker_check
  (numExpectedParallelWorkers numLaunchedParallelWorkers ParallelWorkerNumber : Z)
  : result unit :=
  if numExpectedParallelWorkers <? numLaunchedParallelWorkers
  then Err (ElogError "launched parallel workers' total number is greater than the expected")
  else if numLaunchedParallelWorkers <=? ParallelWorkerNumber
       then Err (ElogError "parallel worker's number is greater than launched parallel workers' total number")
       else Ok tt.

(** The buffer a worker reads the messages of the worker [sender] from
    ([bufIndex] of ReDistributeData and GetReDistributeData). *)
Definition receive_index (numWorkers ParallelWorkerNumber sender : Z) : Z :=
  sender * numWorkers + ParallelWorkerNumber.

(** * Reading a whole input *)

(** Calling fetch_input_tuple until it answers NULL, at most [n] times:
    the tuples the slot held after each call, in order, and whether the
    NULL was reached. *)
Fixpoint fetch_rows (n : nat) (aggstate : AggState)
  : list HeapTupleData * bool * AggState :=
  match n with
  | O => ([], false, aggstate)
  | S n =>
      let '(slot, aggstate) := fetch_input_tuple aggstate in
      if TupIsNull aggstate slot then ([], true, aggstate)
      else
        match slot with
        | None => ([], true, aggstate)
        | Some id =>
            let tuple := ExecCopySlotTuple (get_slot aggstate id) in
            let '(rows, ended, aggstate) := fetch_rows n aggstate in
            (tuple :: rows, ended, aggstate)
        end
  end.

(** * ExecReScanAgg *)

Section ReScan.
Context {TS : Tuplesort} {guc : GUC}.

(** [MemSet(cells, 0, n * sizeof(cell))] *)
Definition MemSet {A : Type} (zero : A) (n : nat) (cells : list A) : result (list A) :=
  if (n <=? length cells)%nat then Ok (replicate n zero ++ drop n cells)
  else Err (Undefined "MemSet out of bounds").

(** [if (pertrans->sortstates[setno]) { tuplesort_end(..);
    pertrans->sortstates[setno] = NULL; }] *)
Definition close_sorter (node : AggState) (transno setno : nat) : result AggState :=
  pertrans <-! get_pertrans node transno ;;
  match sortstates pertrans !! setno with
  | Some (Some _) =>
      Ok (put_pertrans node transno
            (set_sortstates pertrans (<[setno := None]> (sortstates pertrans))))
  | Some None => Ok node
  | None => Err (Undefined "sortstates out of bounds")
  end.

(** [maxsets] is [node->maxsets].  [outer_chgParam] tells whether the outer
    plan has changed parameters ([outerPlan->chgParam != NULL]) and
    [params_overlap] whether the changed parameters of the node touch
    [aggParams].  [rescanned] is what the outer plan gives once it is
    rescanned: by ExecReScan at the end of the routine, or, when it has
    changed parameters, by its next ExecProcNode.  The expression contexts
    are not modelled. *)
Definition ExecReScanAgg (maxsets : nat) (outer_chgParam params_overlap : bool)
  (rescanned : list HeapTupleData) (node : AggState) : result AggState :=
  let numGroupingSets := Nat.max maxsets 1 in
  let node := set_agg_done node false in
  if AggStrategy_eqb (aggstrategy node) AGG_HASHED && negb (table_filled node) then
    (* nothing done yet, so nothing to undo *)
    Ok (if outer_chgParam then set_lefttree node rescanned else node)
  else if AggStrategy_eqb (aggstrategy node) AGG_HASHED
          && negb outer_chgParam && negb params_overlap then
    (* just rescan the existing hash table *)
    perhash0 <-! get_perhash node 0 ;;
    let node := put_perhash node 0 (set_hashiter perhash0 0) in
    Ok (select_current_set node 0 true)
  else
    (* Make sure we have closed any open tuplesorts *)
    node <-!
      for_each (numtrans node)
        (fun transno node =>
           for_each numGroupingSets
             (fun setno node => close_sorter node transno setno) node)
        node ;;
    (* Release first tuple of group, if we have made a copy *)
    let node := set_grp_firstTuple node None in
    let node := set_ss_ScanTupleSlot node (ExecClearTuple (ss_ScanTupleSlot node)) in
    (* Forget current agg values *)
    values <-! MemSet 0 (numaggs node) (ecxt_aggvalues node) ;;
    nulls <-! MemSet false (numaggs node) (ecxt_aggnulls node) ;;
    let node := set_ecxt_aggnulls (set_ecxt_aggvalues node values) nulls in
    node <-!
      (if AggStrategy_eqb (aggstrategy node) AGG_HASHED
          || AggStrategy_eqb (aggstrategy node) AGG_MIXED then
         (* Rebuild an empty hash table *)
         node <-! build_hash_table node ;;
         Ok (set_table_filled node false)
       else Ok node) ;;
    node <-!
      (if negb (AggStrategy_eqb (aggstrategy node) AGG_HASHED) then
         (* Reset the per-group state *)
         pergroup <-! MemSet pergroup_zero (numaggs node * numGroupingSets)
                        (pergroup node) ;;
         let node := set_pergroup node pergroup in
         (* reset to phase 1 *)
         node <-! initialize_phase node 1 ;;
         Ok (set_projected_set (set_input_done node false) (-1))
       else Ok node) ;;
    Ok (set_lefttree node rescanned).

End ReScan.

(** * Sample data *)

(** A function manager whose every function adds its first two arguments
    and never gives null. *)
Definition sum_fmgr : FunctionManager :=
  {| fn_addr := fun _ fcinfo => (arg fcinfo 0 + arg fcinfo 1, false) |}.

Definition sample_fcinfo (strict : bool) (input : Datum) (input_isnull : bool)
  : FunctionCallInfoData :=
  {| flinfo := {| fn_oid := 1; fn_strict := strict |};
     arg := fun i => if Nat.eqb i 1 then input else 0;
     argnull := fun i => if Nat.eqb i 1 then input_isnull else false;
     isnull := false |}.

Definition no_sort : SortSpec :=
  {| sortColIdx := []; sortOperators := []; sortCollations := [];
     sortNullsFirst := [] |}.

(** A one-input aggregate over a by-value state with a null initial value,
    [input] being loaded in both call frames. *)
Definition sample_pertrans (strict : bool) (input : Datum) (input_isnull : bool)
  : AggStatePerTransData :=
  {| numInputs := 1; inputoff := 0; numTransInputs := 1;
     aggtranstype := INT8OID;
     serialfn_oid := InvalidOid; deserialfn_oid := InvalidOid;
     serial_func_id := InvalidOid; deserial_func_id := InvalidOid;
     aggfilter := None; aggdirectargs := [];
     transfn := {| fn_oid := 1; fn_strict := strict |};
     serialfn := {| fn_oid := InvalidOid; fn_strict := false |};
     deserialfn := {| fn_oid := InvalidOid; fn_strict := false |};
     combfn := {| fn_oid := 1; fn_strict := strict |};
     serial_func := {| fn_oid := InvalidOid; fn_strict := false |};
     deserial_func := {| fn_oid := InvalidOid; fn_strict := false |};
     numSortCols := 0; numDistinctCols := 0; sortspec := no_sort; equalfns := [];
     initValue := 0; initValueIsNull := true;
     inputtypeByVal := true; transtypeLen := 8; transtypeByVal := true;
     sortstates := [];
     transfn_fcinfo := sample_fcinfo strict input input_isnull;
     combfn_fcinfo := sample_fcinfo strict input input_isnull |}.

Definition pergroup_unset : AggStatePerGroupData :=
  {| transValue := 0; transValueIsNull := true; noTransValue := true |}.

Definition pergroup_value (v : Datum) : AggStatePerGroupData :=
  {| transValue := v; transValueIsNull := false; noTransValue := false |}.

Definition pergroup_null : AggStatePerGroupData :=
  {| transValue := 0; transValueIsNull := true; noTransValue := false |}.

Definition sample_guc : GUC :=
  {| work_mem := 4096; g_hybrid_hash_agg := true;
     g_hybrid_hash_agg_debug := false; g_default_hashagg_nbatches := 32 |}.

(** A sorter that keeps the order of arrival, and comparisons of the
    listed columns by value. *)
Definition sample_tuplesort : Tuplesort :=
  {| tuplesort_order := fun _ tuples => tuples;
     abbrev_key := fun _ _ => 0 |}.

Definition column_eqb (a b : TupleTableSlot) (col : nat) : bool :=
  if slot_isnull a col then slot_isnull b col
  else negb (slot_isnull b col) && (slot_value a col =? slot_value b col).

Definition sample_grouping : ExecGrouping :=
  {| execTuplesMatch := fun a b n cols _ =>
       forallb (fun col => column_eqb a b (col - 1)) (take n cols);
     TupleHashTableHash := fun cols slot =>
       foldl (fun h col => (h * 31 + slot_value slot (col - 1)) mod 2 ^ 32) 0 cols;
     TupleHashTableMatch := fun cols tuple slot =>
       forallb (fun col =>
                  column_eqb (ExecStoreTuple tuple slot) slot (col - 1)) cols |}.

Definition sample_row (values : list Datum) : HeapTupleData :=
  {| t_values := values; t_isnull := (fun _ => false) <$> values |}.

Definition null_row (n : nat) : HeapTupleData :=
  {| t_values := replicate n 0; t_isnull := replicate n true |}.

Definition blank_slot (n : nat) : TupleTableSlot :=
  {| tts_isempty := true; tts_values := replicate n 0; tts_isnull := replicate n true |}.

Definition sample_agg (strategy : AggStrategy) (cols : list nat) : Agg :=
  {| plan_aggstrategy := strategy; plan_numCols := length cols;
     plan_grpColIdx := cols; plan_numGroups := 10%Q; plan_hybrid := false;
     plan_entrySize := 64 |}.

(** A phase of sorted grouping sets over the leading columns, [lengths]
    being the sizes of the sets; no set at all is plain aggregation. *)
Definition sample_phase (lengths : list nat) (cols : list nat) : AggStatePerPhaseData :=
  {| phase_aggstrategy := match cols with [] => AGG_PLAIN | _ => AGG_SORTED end;
     numsets := length lengths;
     gset_lengths := lengths;
     phase_grouped_cols :=
       match lengths with
       | [] => None
       | _ => Some ((fun n => take n cols) <$> lengths)
       end;
     eqfunctions := [];
     phase_aggnode :=
       sample_agg (match cols with [] => AGG_PLAIN | _ => AGG_SORTED end) cols;
     sortnode := Some no_sort |}.

(** The state ExecInitAgg leaves for [sum(last column)] over rows of
    [ncols] columns, with the sorted phases [sorted] (phase 0 is unused),
    the qual [having] and the rows [rows] of the outer plan. *)
Definition sample_aggstate (ncols : nat) (sorted : list AggStatePerPhaseData)
  (having : ProjInput -> bool) (rows : list HeapTupleData) : AggState :=
  let maxsets := foldr Nat.max 1%nat (numsets <$> sorted) in
  {| aggstrategy := match sorted with
                    | ph :: _ => phase_aggstrategy ph
                    | [] => AGG_PLAIN
                    end;
     aggsplit := 0; numaggs := 1; numtrans := 1;
     numphases := S (length sorted);
     phases := phase_zero :: sorted;
     peragg := [{| transno := 0; finalfn_oid := InvalidOid;
                   finalfn := {| fn_oid := InvalidOid; fn_strict := false |};
                   numFinalArgs := 1; resulttypeLen := 8; resulttypeByVal := true |}];
     num_hashes := 0;
     all_grouped_cols := [];
     evalproj := Some (fun slot =>
                         {| tts_isempty := false;
                            tts_values := drop (ncols - 1) (tts_values slot);
                            tts_isnull := drop (ncols - 1) (tts_isnull slot) |});
     qual := having;
     ps_ProjInfo := fun input =>
                      {| tts_isempty := false;
                         tts_values := tts_values (pi_outertuple input)
                                       ++ pi_aggvalues input;
                         tts_isnull := tts_isnull (pi_outertuple input)
                                       ++ pi_aggnulls input |};
     current_phase := 1;
     pertrans := [set_sortstates (sample_pertrans true 0 false)
                    (replicate maxsets None)];
     projected_set := -1; current_set := 0;
     input_done := false; agg_done := false;
     pergroup := replicate maxsets pergroup_zero;
     grp_firstTuple := None;
     sort_in := None;
     sort_out := match sorted with
                 | _ :: _ :: _ => Some (tuplesort_begin false no_sort)
                 | _ => None
                 end;
     table_filled := false; perhash := []; hash_pergroup := []; spill_heap := [];
     lefttree := rows;
     outer_slot := blank_slot ncols; sort_slot := blank_slot ncols;
     ss_ScanTupleSlot := blank_slot ncols; evalslot := blank_slot 1;
     tmp_outertuple := ScanSlot; ecxt_outertuple := ScanSlot;
     ecxt_aggvalues := [0]; ecxt_aggnulls := [false];
     grouped_cols := []; calls := [] |}.

Definition rows_of (r : result (list TupleTableSlot * bool * AggState))
  : option (list (list (option Datum)) * bool) :=
  match r with
  | Ok (rows, ended, _) =>
      Some ((fun row =>
               (fun '(v, n) => if n : bool then None else Some v)
                 <$> zip (tts_values row) (tts_isnull row)) <$> rows,
            ended)
  | Err _ => None
  end.

Definition sample_hash_agg (hybrid : bool) (entrySize : Z) : Agg :=
  {| plan_aggstrategy := AGG_HASHED; plan_numCols := 1; plan_grpColIdx := [1%nat];
     plan_numGroups := 10%Q; plan_hybrid := hybrid; plan_entrySize := entrySize |}.

Definition sample_perhash (hybrid : bool) (entrySize : Z) : AggStatePerHashData :=
  {| hashtable :=
       {| hashtab := []; keyColIdx := [1%nat]; tb_hybrid := false;
          tb_max_entries := 0; tb_nbatches := 0; hybrid := false;
          nentries := 0; nbatches := 0; spilled := false;
          spill_set := None; actual_entrysize := 0 |};
     hashiter := 0; hashslot := blank_slot 1;
     numCols := 1; numhashGrpCols := 1; largestGrpColIdx := 1;
     hashGrpColIdxInput := [1%nat]; hashGrpColIdxHash := [1%nat];
     hash_aggnode := sample_hash_agg hybrid entrySize |}.

(** The state before build_hash_table for [select k, sum(v) group by k],
    hashed, over rows of two columns. *)
Definition sample_hash_aggstate_0 (hybrid : bool) (entrySize : Z)
  (rows : list HeapTupleData) : AggState :=
  {| aggstrategy := AGG_HASHED;
     aggsplit := 0; numaggs := 1; numtrans := 1;
     numphases := 1;
     phases := [{| phase_aggstrategy := AGG_HASHED; numsets := 1;
                   gset_lengths := [1%nat];
                   phase_grouped_cols := Some [[1%nat]];
                   eqfunctions := [];
                   phase_aggnode := sample_hash_agg hybrid entrySize;
                   sortnode := None |}];
     peragg := [{| transno := 0; finalfn_oid := InvalidOid;
                   finalfn := {| fn_oid := InvalidOid; fn_strict := false |};
                   numFinalArgs := 1; resulttypeLen := 8; resulttypeByVal := true |}];
     num_hashes := 1;
     all_grouped_cols := [1%nat];
     evalproj := Some (fun slot =>
                         {| tts_isempty := false;
                            tts_values := drop 1 (tts_values slot);
                            tts_isnull := drop 1 (tts_isnull slot) |});
     qual := fun _ => true;
     ps_ProjInfo := fun input =>
                      {| tts_isempty := false;
                         tts_values := take 1 (tts_values (pi_outertuple input))
                                       ++ pi_aggvalues input;
                         tts_isnull := take 1 (tts_isnull (pi_outertuple input))
                                       ++ pi_aggnulls input |};
     current_phase := 0;
     pertrans := [sample_pertrans true 0 false];
     projected_set := -1; current_set := 0;
     input_done := false; agg_done := false;
     pergroup := [];
     grp_firstTuple := None; sort_in := None; sort_out := None;
     table_filled := false;
     perhash := [sample_perhash hybrid entrySize];
     hash_pergroup := [0%nat]; spill_heap := [];
     lefttree := rows;
     outer_slot := blank_slot 2; sort_slot := blank_slot 2;
     ss_ScanTupleSlot := blank_slot 2; evalslot := blank_slot 1;
     tmp_outertuple := ScanSlot; ecxt_outertuple := ScanSlot;
     ecxt_aggvalues := [0]; ecxt_aggnulls := [false];
     grouped_cols := []; calls := [] |}.

(** A configuration with [mem] kilobytes of work_mem and [n] batches. *)
Definition guc_with (mem n : Z) : GUC :=
  {| work_mem := mem; g_hybrid_hash_agg := true;
     g_hybrid_hash_agg_debug := false; g_default_hashagg_nbatches := n |}.

(** The sample hashed aggregation with its table built and filled from
    [rows], under the configuration [g]. *)
Section Samples.
Local Existing Instances sum_fmgr sample_tuplesort sample_grouping.

Definition sample_hash_built (g : GUC) (hybrid : bool) (entrySize : Z)
  (rows : list HeapTupleData) : result AggState :=
  build_hash_table (guc := g) (sample_hash_aggstate_0 hybrid entrySize rows).

Definition sample_hash_filled (g : GUC) (hybrid : bool) (entrySize : Z)
  (rows : list HeapTupleData) : result AggState :=
  st <-! sample_hash_built g hybrid entrySize rows ;;
  agg_fill_hash_table (guc := g) 50 st.

(** The state the sample aggregation over [rows] is in once ExecAgg has
    been called [n] times. *)
Definition sample_after_calls (n : nat) (rows : list HeapTupleData) : result AggState :=
  let! (_, aggstate) :=
    ExecAgg_drain (guc := sample_guc) 50 n
      (sample_aggstate 2 [sample_phase [] []] (fun _ => true) rows) in
  Ok aggstate.

End Samples.

Definition state_of (r : result AggState) : AggState :=
  match r with
  | Ok st => st
  | Err _ => sample_hash_aggstate_0 false 0 []
  end.

(** A record of a batch file for the group [key] with the sum [v]. *)
Definition sample_record (key v : Z) : SpillRecord :=
  {| rec_hash := key; rec_tuple := sample_row [key];
     rec_states := [pergroup_value v]; rec_payload := [None] |}.

Definition sample_spill_file : SpillFile :=
  {| ntups_read := 0; ntups_write := 2; file_spilled := false;
     child_spill_set := None;
     file := [sample_record 2 20; sample_record 3 1] |}.

Definition sample_spill_set : SpillSet :=
  {| level := 0; num_files := 1; parent_index := 0; parent_spill_set := None;
     current_file := 1; spill_file := [Some sample_spill_file] |}.

(** The sample hashed aggregation with room for one group, about to read
    back the only batch file of its spill set. *)
Definition sample_reload_state : AggState :=
  set_spill_heap (state_of (sample_hash_built (guc_with 1 1) true 1024 []))
    [sample_spill_set].

(** The sample hashed aggregation, its table filled from one row. *)
Definition sample_filled_state : AggState :=
  state_of (sample_hash_filled (guc_with 4096 32) false 64 [sample_row [1; 10]]).

(** [select a, sum(v) group by grouping sets ((a), (), ())] over an outer
    plan without rows, and the plain [select sum(v)] under a
    qualification that rejects every row. *)
Definition sample_rollup_state : AggState :=
  sample_aggstate 2 [sample_phase [1; 0; 0]%nat [1%nat]] (fun _ => true) [].

Definition sample_rejecting_state : AggState :=
  sample_aggstate 2 [sample_phase [] []] (fun _ => false) [].

(** ** A channel with a buffer of sixteen chars *)

(** A layout whose tuples begin with [t_len], lowest char first, the
    header of a heap tuple taking eight chars and its [t_data] being the
    chars 4 to 7. *)
Definition sample_layout : TupleLayout :=
  {| HEAPTUPLESIZE := 8;
     tuple_t_len := fun chars => wrap_unsigned 32 (chars_int chars);
     with_t_data := fun chars => take 4 chars ++ [8; 0; 0; 0] ++ drop 8 chars |}.

Definition sample_channel : ReDistributeChannel :=
  {| chan_buf := ReDistributeBuffer_init 32 (replicate 32 0);
     chan_fileType := None; chan_file := [] |}.

(** Minimal tuples of 5, 4, 6, 5 and 7 chars: the first three fill the
    buffer, the fourth goes to the file, the fifth wraps around the end of
    the array. *)
Definition sample_channel_ops : list ChannelOp :=
  [OpSend [5; 0; 0; 0; 1]; OpSend [4; 0; 0; 0]; OpSend [6; 0; 0; 0; 2; 3];
   OpSend [5; 0; 0; 0; 9]; OpReceive; OpSend [7; 0; 0; 0; 1; 2; 3];
   OpReceive; OpReceive; OpReceive; OpReceive].

Definition sample_wrapped_buffer : ReDistributeBuffer :=
  {| buf_dataType := DT_MinimalTup; buf_length := 16; buf_head := 3;
     buf_tail := 12; nTuples := 4; nTuplesBuffer := 4; nTuplesFile := 0;
     buffer := replicate 16 0 |}.

(** ** Two sorted phases *)

(** A sorter that gives the tuples back last first. *)
Definition reverse_tuplesort : Tuplesort :=
  {| tuplesort_order := fun _ tuples => reverse tuples;
     abbrev_key := fun _ _ => 0 |}.

(** [sum(v)] grouped by the first column, then by the second, over three
    rows. *)
Definition sample_two_phase_state : AggState :=
  sample_aggstate 3 [sample_phase [1%nat] [1%nat]; sample_phase [1%nat] [2%nat]]
    (fun _ => true)
    [sample_row [1; 7; 10]; sample_row [1; 8; 20]; sample_row [2; 7; 30]].

(** ** A row under the grouping sets [(a, b), (a), ()] *)

Definition with_all_grouped_cols (aggstate : AggState) (cols : list nat) : AggState :=
  {| aggstrategy := aggstrategy aggstate; aggsplit := aggsplit aggstate;
     numaggs := numaggs aggstate; numtrans := numtrans aggstate;
     numphases := numphases aggstate; phases := phases aggstate;
     peragg := peragg aggstate; num_hashes := num_hashes aggstate;
     all_grouped_cols := cols; evalproj := evalproj aggstate;
     qual := qual aggstate; ps_ProjInfo := ps_ProjInfo aggstate;
     current_phase := current_phase aggstate; pertrans := pertrans aggstate;
     projected_set := projected_set aggstate; current_set := current_set aggstate;
     input_done := input_done aggstate; agg_done := agg_done aggstate;
     pergroup := pergroup aggstate; grp_firstTuple := grp_firstTuple aggstate;
     sort_in := sort_in aggstate; sort_out := sort_out aggstate;
     table_filled := table_filled aggstate; perhash := perhash aggstate;
     hash_pergroup := hash_pergroup aggstate; spill_heap := spill_heap aggstate;
     lefttree := lefttree aggstate; outer_slot := outer_slot aggstate;
     sort_slot := sort_slot aggstate;
     ss_ScanTupleSlot := ss_ScanTupleSlot aggstate; evalslot := evalslot aggstate;
     tmp_outertuple := tmp_outertuple aggstate;
     ecxt_outertuple := ecxt_outertuple aggstate;
     ecxt_aggvalues := ecxt_aggvalues aggstate;
     ecxt_aggnulls := ecxt_aggnulls aggstate;
     grouped_cols := grouped_cols aggstate; calls := calls aggstate |}.

(** The scan slot holds the row [(1, 7, 10)]. *)
Definition sample_sets_state : AggState :=
  set_ss_ScanTupleSlot
    (with_all_grouped_cols
       (sample_aggstate 3 [sample_phase [2; 1; 0]%nat [1; 2]%nat] (fun _ => true) [])
       [2; 1]%nat)
    (ExecStoreTuple (sample_row [1; 7; 10]) (blank_slot 3)).

(** ** The group of the sample hashed aggregation *)

Definition sample_entry : TupleHashEntryData :=
  {| firstTuple := sample_row [1]; additional := [pergroup_value 10]; hash := 1 |}.

Definition sample_filled_perhash : AggStatePerHashData :=
  default (sample_perhash false 64) (perhash sample_filled_state !! 0%nat).

(** The sample hashed aggregation in hybrid mode with four batches, its
    table filled from four rows of three groups. *)
Definition sample_hybrid_state : AggState :=
  state_of (sample_hash_filled (guc_with 4096 4) true 64
              [sample_row [1; 10]; sample_row [2; 20]; sample_row [5; 50];
               sample_row [1; 5]]).

Definition sample_hybrid_perhash : AggStatePerHashData :=
  default (sample_perhash true 64) (perhash sample_hybrid_state !! 0%nat).

(** ** A sorted aggregation of three groups *)

Definition sample_sorted_rows : list HeapTupleData :=
  [sample_row [1; 10]; sample_row [1; 5]; sample_row [2; 7]; sample_row [3; 1];
   sample_row [3; 2]].

(** [sum(v)] grouped by the first column, the groups whose sum is 7 being
    left out. *)
Definition sample_sorted_state : AggState :=
  sample_aggstate 2 [sample_phase [] [1%nat]]
    (fun input => negb (default 0 (pi_aggvalues input !! 0%nat) =? 7))
    sample_sorted_rows.

(** The first row is in hand, in the scan slot. *)
Definition sample_group_state : AggState :=
  set_lefttree
    (set_ss_ScanTupleSlot sample_sorted_state
       (ExecStoreTuple (sample_row [1; 10]) (blank_slot 2)))
    (drop 1 sample_sorted_rows).

(** ** An aggregate with DISTINCT *)

(** Function 2 tells whether its first two arguments are equal; every
    other function adds them. *)
Definition sample_distinct_fmgr : FunctionManager :=
  {| fn_addr := fun oid fcinfo =>
       if oid =? 2 then (if arg fcinfo 0 =? arg fcinfo 1 then 1 else 0, false)
       else (arg fcinfo 0 + arg fcinfo 1, false) |}.

(** [sum(DISTINCT v)], the values of the group being in the sorter. *)
Definition sample_distinct_pertrans (sorter : Tuplesortstate) : AggStatePerTransData :=
  let p := sample_pertrans false 0 false in
  {| numInputs := numInputs p; inputoff := inputoff p;
     numTransInputs := numTransInputs p;
     aggtranstype := aggtranstype p; serialfn_oid := serialfn_oid p;
     deserialfn_oid := deserialfn_oid p;
     serial_func_id := serial_func_id p;
     deserial_func_id := deserial_func_id p;
     aggfilter := aggfilter p; aggdirectargs := aggdirectargs p;
     transfn := transfn p; serialfn := serialfn p;
     deserialfn := deserialfn p; combfn := combfn p;
     serial_func := serial_func p; deserial_func := deserial_func p;
     numSortCols := 1;
     numDistinctCols := 1; sortspec := sortspec p;
     equalfns := [{| fn_oid := 2; fn_strict := true |}];
     initValue := initValue p;
     initValueIsNull := initValueIsNull p;
     inputtypeByVal := inputtypeByVal p;
     transtypeLen := transtypeLen p;
     transtypeByVal := transtypeByVal p; sortstates := [Some sorter];
     transfn_fcinfo := transfn_fcinfo p;
     combfn_fcinfo := combfn_fcinfo p |}.

Definition sample_distinct_sorter : Tuplesortstate :=
  {| ts_datum := true; ts_spec := no_sort;
     ts_tuples := [sample_row [1]; sample_row [1]; sample_row [3]; null_row 1;
                   null_row 1; sample_row [3]] |}.

Definition sample_distinct_state : AggState :=
  set_pergroup
    (set_pertrans (sample_aggstate 1 [sample_phase [] []] (fun _ => true) [])
       [sample_distinct_pertrans sample_distinct_sorter])
    [pergroup_value 0].

(** ** An aggregate of two inputs with DISTINCT *)

Definition sample_multi_sorter : Tuplesortstate :=
  {| ts_datum := false;
     ts_spec := {| sortColIdx := [1; 2]%nat; sortOperators := []; sortCollations := [];
                   sortNullsFirst := [] |};
     ts_tuples := [sample_row [1; 5]; sample_row [1; 5]; sample_row [2; 5];
                   sample_row [2; 6]; sample_row [2; 6]] |}.

(** The transition function adds the first input to the state. *)
Definition sample_multi_pertrans (sorter : Tuplesortstate) : AggStatePerTransData :=
  let p := sample_pertrans false 0 false in
  {| numInputs := 2; inputoff := inputoff p;
     numTransInputs := 2;
     aggtranstype := aggtranstype p; serialfn_oid := serialfn_oid p;
     deserialfn_oid := deserialfn_oid p;
     serial_func_id := serial_func_id p;
     deserial_func_id := deserial_func_id p;
     aggfilter := aggfilter p; aggdirectargs := aggdirectargs p;
     transfn := transfn p; serialfn := serialfn p;
     deserialfn := deserialfn p; combfn := combfn p;
     serial_func := serial_func p; deserial_func := deserial_func p;
     numSortCols := 2;
     numDistinctCols := 2; sortspec := ts_spec sample_multi_sorter;
     equalfns := [{| fn_oid := 2; fn_strict := true |};
                  {| fn_oid := 2; fn_strict := true |}];
     initValue := initValue p;
     initValueIsNull := initValueIsNull p;
     inputtypeByVal := inputtypeByVal p;
     transtypeLen := transtypeLen p;
     transtypeByVal := transtypeByVal p; sortstates := [Some sorter];
     transfn_fcinfo := transfn_fcinfo p;
     combfn_fcinfo := combfn_fcinfo p |}.

Definition sample_multi_state : AggState :=
  set_pergroup
    (set_pertrans (sample_aggstate 1 [sample_phase [] []] (fun _ => true) [])
       [sample_multi_pertrans sample_multi_sorter])
    [pergroup_value 0].

(** ** A scan left after its first row *)

(** The sample sorted aggregation after its first call: the first group
    was returned, and the first tuple of the second is kept. *)
Definition sample_midscan_state : AggState :=
  match ExecAgg (FM := sum_fmgr) (TS := sample_tuplesort) (EG := sample_grouping)
          (guc := sample_guc) 6 sample_sorted_state with
  | Ok (_, aggstate) => aggstate
  | Err _ => sample_sorted_state
  end.

(** ** A rollup of three grouping sets with two aggregates *)

(** [sum(v)] and [sum(DISTINCT v)] under three grouping sets, every
    per-group state holding a value and every sorter a tuple. *)
Definition sample_reset_state : AggState :=
  let used := tuplesort_put (tuplesort_begin true no_sort) (sample_row [4]) in
  let aggstate :=
    sample_aggstate 2 [sample_phase [1; 0; 0]%nat [1%nat]] (fun _ => true) [] in
  {| aggstrategy := aggstrategy aggstate; aggsplit := aggsplit aggstate;
     numaggs := 2; numtrans := 2;
     numphases := numphases aggstate; phases := phases aggstate;
     peragg := peragg aggstate; num_hashes := num_hashes aggstate;
     all_grouped_cols := all_grouped_cols aggstate; evalproj := evalproj aggstate;
     qual := qual aggstate; ps_ProjInfo := ps_ProjInfo aggstate;
     current_phase := current_phase aggstate;
     pertrans :=
       [set_sortstates (sample_pertrans true 0 false) (replicate 3 None);
        set_sortstates (sample_distinct_pertrans used) (replicate 3 (Some used))];
     projected_set := projected_set aggstate; current_set := current_set aggstate;
     input_done := input_done aggstate; agg_done := agg_done aggstate;
     pergroup := pergroup_value <$> [10; 11; 20; 21; 30; 31];
     grp_firstTuple := grp_firstTuple aggstate;
     sort_in := sort_in aggstate; sort_out := sort_out aggstate;
     table_filled := table_filled aggstate; perhash := perhash aggstate;
     hash_pergroup := hash_pergroup aggstate; spill_heap := spill_heap aggstate;
     lefttree := lefttree aggstate; outer_slot := outer_slot aggstate;
     sort_slot := sort_slot aggstate;
     ss_ScanTupleSlot := ss_ScanTupleSlot aggstate; evalslot := evalslot aggstate;
     tmp_outertuple := tmp_outertuple aggstate;
     ecxt_outertuple := ecxt_outertuple aggstate;
     ecxt_aggvalues := ecxt_aggvalues aggstate;
     ecxt_aggnulls := ecxt_aggnulls aggstate;
     grouped_cols := grouped_cols aggstate; calls := calls aggstate |}.

(** ** A hashed aggregation with DISTINCT *)



(** * Properties *)

(** ** Transition, combine *)

Lemma any_argnull_true fcinfo n :
  any_argnull fcinfo n = true <->
  exists i, (1 <= i <= n)%nat /\ argnull fcinfo i = true.
Proof.
  unfold any_argnull. rewrite existsb_exists. split.
  - intros (i & Hin & Hi). exists i. split; [|done].
    apply in_seq in Hin. lia.
  - intros (i & Hr & Hi). exists i. split; [|done].
    apply in_seq. lia.
Qed.

Lemma any_argnull_false fcinfo n :
  any_argnull fcinfo n = false <->
  forall i, (1 <= i <= n)%nat -> argnull fcinfo i = false.
Proof.
  split.
  - intros Hf i Hi. destruct (argnull fcinfo i) eqn:E; [|done].
    assert (any_argnull fcinfo n = true) by (apply any_argnull_true; eauto).
    congruence.
  - intros Hall. destruct (any_argnull fcinfo n) eqn:E; [|done].
    apply any_argnull_true in E as (i & Hi & Hn).
    rewrite (Hall i Hi) in Hn. done.
Qed.

Lemma invoke_and_store_noTransValue {FM : FunctionManager} pertrans fcinfo store pg :
  noTransValue (adv_pergroup (invoke_and_store pertrans fcinfo store pg))
  = noTransValue pg.
Proof.
  unfold invoke_and_store. destruct (FunctionCallInvoke _). reflexivity.
Qed.

Lemma invoke_and_store_calls {FM : FunctionManager} pertrans fcinfo store pg :
  adv_calls (invoke_and_store pertrans fcinfo store pg)
  = [set_isnull (set_arg fcinfo 0 (transValue pg) (transValueIsNull pg)) false].
Proof.
  unfold invoke_and_store. destruct (FunctionCallInvoke _). reflexivity.
Qed.

(** C1: with a strict transition function, a null among the transition
    inputs 1..numTransInputs leaves the per-group state as it is; otherwise
    a state with noTransValue set takes argument 1 as its value, both flags
    going false, and no function is called; otherwise a null state is left
    as it is. *)
Theorem advance_transition_function_strict {FM : FunctionManager}
  (pertrans : AggStatePerTransData) (pergroupstate : AggStatePerGroupData) :
  fn_strict (transfn pertrans) = true ->
  let fcinfo := transfn_fcinfo pertrans in
  let nonnull_inputs :=
    forall i, (1 <= i <= numTransInputs pertrans)%nat -> argnull fcinfo i = false in
  ((exists i, (1 <= i <= numTransInputs pertrans)%nat /\ argnull fcinfo i = true) ->
   advance_transition_function pertrans pergroupstate
   = unchanged pertrans pergroupstate)
  /\ (nonnull_inputs -> noTransValue pergroupstate = true ->
      advance_transition_function pertrans pergroupstate
      = {| adv_pertrans := pertrans;
           adv_pergroup := {| transValue := arg fcinfo 1;
                              transValueIsNull := false;
                              noTransValue := false |};
           adv_calls := [] |})
  /\ (nonnull_inputs -> noTransValue pergroupstate = false ->
      transValueIsNull pergroupstate = true ->
      advance_transition_function pertrans pergroupstate
      = unchanged pertrans pergroupstate).
Proof.
  intros Hstrict fcinfo nonnull_inputs. unfold advance_transition_function.
  rewrite Hstrict. fold fcinfo. repeat split.
  - intros Hnull. apply any_argnull_true in Hnull. by rewrite Hnull.
  - intros Hnn HnoTV. apply any_argnull_false in Hnn. by rewrite Hnn, HnoTV.
  - intros Hnn HnoTV Hisnull. apply any_argnull_false in Hnn.
    by rewrite Hnn, HnoTV, Hisnull.
Qed.

Lemma advance_transition_function_strict_witness :
  fn_strict (transfn (sample_pertrans true 7 false)) = true /\
  advance_transition_function (FM := sum_fmgr)
    (sample_pertrans true 7 false) pergroup_unset
  = {| adv_pertrans := sample_pertrans true 7 false;
       adv_pergroup := pergroup_value 7;
       adv_calls := [] |}.
Proof.
  split; [reflexivity|].
  destruct (advance_transition_function_strict (FM := sum_fmgr)
              (sample_pertrans true 7 false) pergroup_unset eq_refl)
    as (_ & Hfirst & _).
  apply Hfirst; [|reflexivity].
  intros i Hi. assert (i = 1%nat) as -> by (simpl in Hi; lia). reflexivity.
Defined.

(** The two halves of what is said of a combine routine [combine] that
    works on the call frame [frame] of the function [fn]. *)
Definition strict_null_is_noop
  (combine : AggStatePerTransData -> AggStatePerGroupData -> Advanced)
  (frame : AggStatePerTransData -> FunctionCallInfoData)
  (fn : AggStatePerTransData -> FmgrInfo) : Prop :=
  forall pertrans pergroupstate,
    fn_strict (fn pertrans) = true ->
    argnull (frame pertrans) 1 = true ->
    combine pertrans pergroupstate = unchanged pertrans pergroupstate.

Definition never_short_circuits
  (combine : AggStatePerTransData -> AggStatePerGroupData -> Advanced)
  (frame : AggStatePerTransData -> FunctionCallInfoData)
  (fn : AggStatePerTransData -> FmgrInfo) : Prop :=
  forall pertrans pergroupstate,
    fn_strict (fn pertrans) = false \/ argnull (frame pertrans) 1 = false ->
    adv_calls (combine pertrans pergroupstate)
    = [set_isnull (set_arg (frame pertrans) 0 (transValue pergroupstate)
                     (transValueIsNull pergroupstate)) false].

(** C2, as stated, fails on the split-mode path: with a strict combine
    function, a non-null incoming state and noTransValue set,
    advance_combine_function adopts the incoming state and calls nothing. *)
Lemma advance_combine_function_short_circuits :
  ~ (forall FM : FunctionManager,
       never_short_circuits (@advance_combine_function FM) transfn_fcinfo transfn).
Proof.
  intros Hclaim.
  specialize (Hclaim sum_fmgr (sample_pertrans true 7 false) pergroup_unset
                (or_intror eq_refl)).
  discriminate Hclaim.
Qed.

(** C2, amended: a strict combine with a null incoming state is a no-op on
    both paths; the reload path (combine_transition) is never
    short-circuited on noTransValue and invokes the combine function with
    the existing state as argument 0; the split-mode path
    (advance_combine_function), when the combine function is strict, the
    incoming state is not null and noTransValue is set, adopts the incoming
    state without a call, and in every other case invokes the combine
    function with the existing state as argument 0. *)
Theorem combine_paths {FM : FunctionManager} :
  strict_null_is_noop advance_combine_function transfn_fcinfo transfn
  /\ strict_null_is_noop combine_transition combfn_fcinfo combfn
  /\ never_short_circuits combine_transition combfn_fcinfo combfn
  /\ (forall pertrans pergroupstate,
        fn_strict (transfn pertrans) = true ->
        argnull (transfn_fcinfo pertrans) 1 = false ->
        noTransValue pergroupstate = true ->
        advance_combine_function pertrans pergroupstate
        = {| adv_pertrans := pertrans;
             adv_pergroup := {| transValue := arg (transfn_fcinfo pertrans) 1;
                                transValueIsNull := false;
                                noTransValue := false |};
             adv_calls := [] |})
  /\ (forall pertrans pergroupstate,
        fn_strict (transfn pertrans) = false
        \/ (argnull (transfn_fcinfo pertrans) 1 = false
            /\ noTransValue pergroupstate = false) ->
        adv_calls (advance_combine_function pertrans pergroupstate)
        = [set_isnull (set_arg (transfn_fcinfo pertrans) 0
                         (transValue pergroupstate)
                         (transValueIsNull pergroupstate)) false]).
Proof.
  repeat split.
  - intros pertrans pg Hs Hn. unfold advance_combine_function.
    by rewrite Hs, Hn.
  - intros pertrans pg Hs Hn. unfold combine_transition. by rewrite Hs, Hn.
  - intros pertrans pg Hc. unfold combine_transition.
    destruct (fn_strict (combfn pertrans)) eqn:Hs.
    + destruct Hc as [Hc|Hc]; [done|]. rewrite Hc.
      apply invoke_and_store_calls.
    + apply invoke_and_store_calls.
  - intros pertrans pg Hs Hn HnoTV. unfold advance_combine_function.
    rewrite Hs, Hn, HnoTV. unfold datumCopy.
    by destruct (transtypeByVal pertrans).
  - intros pertrans pg Hc. unfold advance_combine_function.
    destruct (fn_strict (transfn pertrans)) eqn:Hs.
    + destruct Hc as [Hc|[Hn HnoTV]]; [done|]. rewrite Hn, HnoTV.
      apply invoke_and_store_calls.
    + apply invoke_and_store_calls.
Qed.

Lemma combine_paths_witness :
  adv_calls (combine_transition (FM := sum_fmgr)
               (sample_pertrans true 7 false) pergroup_unset)
  = [set_isnull (set_arg (sample_fcinfo true 7 false) 0 0 true) false]
  /\ advance_combine_function (FM := sum_fmgr)
       (sample_pertrans true 7 false) pergroup_unset
     = {| adv_pertrans := sample_pertrans true 7 false;
          adv_pergroup := pergroup_value 7;
          adv_calls := [] |}.
Proof.
  destruct (combine_paths (FM := sum_fmgr)) as (_ & _ & Hreload & Hadopt & _).
  split.
  - apply (Hreload (sample_pertrans true 7 false) pergroup_unset).
    right. reflexivity.
  - apply (Hadopt (sample_pertrans true 7 false) pergroup_unset); reflexivity.
Defined.

(** ** noTransValue *)

Lemma run_step_noTransValue {FM : FunctionManager} step pg :
  noTransValue pg = false -> noTransValue (run_step step pg) = false.
Proof.
  intros Hpg. destruct step as [pertrans|pertrans|pertrans]; simpl.
  - unfold advance_transition_function.
    repeat (match goal with
            | |- context [if ?b then _ else _] => destruct b eqn:?
            end);
      simpl; rewrite ?invoke_and_store_noTransValue; congruence.
  - unfold advance_combine_function.
    repeat (match goal with
            | |- context [if ?b then _ else _] => destruct b eqn:?
            end);
      simpl; rewrite ?invoke_and_store_noTransValue; congruence.
  - unfold combine_transition.
    repeat (match goal with
            | |- context [if ?b then _ else _] => destruct b eqn:?
            end);
      simpl; rewrite ?invoke_and_store_noTransValue; congruence.
Qed.

(** C9: (re)initialization sets noTransValue to the null flag of the initial
    value, so it sets it true only for a null initial value; and from a
    state where noTransValue is false, no sequence of transition and combine
    steps, on either combine path and whatever their inputs and results,
    makes it true again. *)
Theorem noTransValue_monotone {FM : FunctionManager}
  (current_set : nat) (pertrans : AggStatePerTransData)
  (fresh pergroupstate : AggStatePerGroupData) (steps : list GroupStep) :
  noTransValue pergroupstate = false ->
  noTransValue (run_steps steps pergroupstate) = false
  /\ noTransValue (initialize_aggregate current_set pertrans fresh).2
     = initValueIsNull pertrans.
Proof.
  intros Hpg. split.
  - unfold run_steps. revert pergroupstate Hpg.
    induction steps as [|step steps IH]; intros pg Hpg; simpl; [done|].
    apply IH. by apply run_step_noTransValue.
  - unfold initialize_aggregate. reflexivity.
Qed.

Lemma noTransValue_monotone_witness :
  noTransValue (pergroup_value 3) = false
  /\ noTransValue
       (run_steps (FM := sum_fmgr)
          [StepTransition (sample_pertrans true 4 false);
           StepCombine (sample_pertrans false 0 true);
           StepCombineReload (sample_pertrans true 5 false)]
          (pergroup_value 3)) = false.
Proof.
  split; [reflexivity|].
  apply (noTransValue_monotone (FM := sum_fmgr) 0
           (sample_pertrans true 4 false) pergroup_unset (pergroup_value 3)).
  reflexivity.
Defined.

(** ** Sizing *)

(** C5, amended: for a positive entry size and a quotient that the uint32
    field [nentries] holds (work_mem in bytes divided by the entry size is
    below 2^32), the number of entries kept in memory is work_mem, in
    bytes, divided by the entry size and rounded down, and the number of
    batches is the configured default, whatever the estimate of the number
    of groups. *)
Theorem OptimizeHybridHashtableSize_sizing {guc : GUC}
  (hashtable : TupleHashTableData) (entrySize : Z) (numGroups : Q) :
  0 <= work_mem ->
  0 < entrySize ->
  work_mem * 1024 / entrySize < 2 ^ 32 ->
  exists hashtable',
    OptimizeHybridHashtableSize hashtable entrySize numGroups = Ok hashtable'
    /\ nentries hashtable' = work_mem * 1024 / entrySize
    /\ tb_max_entries hashtable' = work_mem * 1024 / entrySize
    /\ nbatches hashtable' = g_default_hashagg_nbatches
    /\ tb_nbatches hashtable' = g_default_hashagg_nbatches
    /\ hybrid hashtable' = true.
Proof.
  intros Hmem Hsize Hfit. unfold OptimizeHybridHashtableSize.
  destruct (Z.eqb_spec entrySize 0) as [->|_]; [lia|].
  assert (Hq : work_mem * 1024 ÷ entrySize = work_mem * 1024 / entrySize)
    by (apply Z.quot_div_nonneg; lia).
  assert (Hpos : 0 <= work_mem * 1024 / entrySize)
    by (apply Z.div_pos; lia).
  set (cond := Qle_bool _ _).
  assert (Hn : Qfloor (ceil (inject_Z (work_mem * 1024 ÷ entrySize)))
               = work_mem * 1024 / entrySize).
  { unfold ceil. rewrite Qceiling_Z, Qfloor_Z. exact Hq. }
  destruct cond; cbv zeta iota beta; rewrite Hn, Qfloor_Z;
    (destruct (Z.leb_spec 0 (work_mem * 1024 / entrySize)); [|lia]);
    (destruct (Z.ltb_spec (work_mem * 1024 / entrySize) (2 ^ 32)); [|lia]);
    simpl; eexists; repeat split; reflexivity.
Qed.

Definition empty_hashtable : TupleHashTableData :=
  {| hashtab := []; keyColIdx := [0%nat]; tb_hybrid := false; tb_max_entries := 0;
     tb_nbatches := 0; hybrid := false; nentries := 0; nbatches := 0;
     spilled := false; spill_set := None; actual_entrysize := 0 |}.

Lemma OptimizeHybridHashtableSize_sizing_witness :
  exists hashtable',
    OptimizeHybridHashtableSize (guc := sample_guc) empty_hashtable 100 (1000 # 1)
    = Ok hashtable'
    /\ nentries hashtable' = 41943
    /\ nbatches hashtable' = 32.
Proof.
  destruct (OptimizeHybridHashtableSize_sizing (guc := sample_guc)
              empty_hashtable 100 (1000 # 1))
    as (ht & Hok & Hn & _ & Hb & _); [simpl; lia | lia | reflexivity |].
  exists ht. repeat split; [exact Hok | exact Hn | exact Hb].
Defined.

(** C5, as stated, fails: work_mem can be set to 256 GB (268435456 kB),
    and with an entry size of 64 bytes the quotient is 2^32, one more than
    the uint32 field [nentries] holds: the conversion [(uint32) nentries]
    has no defined result, and no table with that number of entries comes
    back. *)
Lemma OptimizeHybridHashtableSize_exceeds_uint32 :
  268435456 * 1024 / 64 = 2 ^ 32
  /\ ~ (forall (guc : GUC) (hashtable : TupleHashTableData) (entrySize : Z)
          (numGroups : Q),
          0 <= work_mem -> 0 < entrySize ->
          exists hashtable',
            OptimizeHybridHashtableSize hashtable entrySize numGroups = Ok hashtable'
            /\ nentries hashtable' = work_mem * 1024 / entrySize
            /\ nbatches hashtable' = g_default_hashagg_nbatches).
Proof.
  split; [reflexivity|]. intros Hclaim.
  destruct (Hclaim (guc_with 268435456 32) empty_hashtable 64 (1000 # 1)%Q)
    as (hashtable' & Hrun & _); [simpl; lia | lia |].
  vm_compute in Hrun. discriminate Hrun.
Qed.

(** ** Redistribution *)

Lemma wrap_unsigned_small w x : 0 <= x < 2 ^ w -> wrap_unsigned w x = x.
Proof. intros H. unfold wrap_unsigned. by apply Z.mod_small. Qed.

Lemma wrap_signed_small x : 0 <= x < 2 ^ 31 -> wrap_signed 32 x = x.
Proof.
  intros H. unfold wrap_signed. rewrite Z.mod_small by lia.
  change (2 ^ (32 - 1)) with (2 ^ 31).
  destruct (Z.ltb_spec x (2 ^ 31)); lia.
Qed.

Lemma wrap_unsigned_signed x :
  wrap_unsigned 32 (wrap_signed 32 x) = wrap_unsigned 32 x.
Proof.
  unfold wrap_unsigned, wrap_signed.
  destruct (x mod 2 ^ 32 <? 2 ^ (32 - 1)).
  - apply Z.mod_mod. lia.
  - replace (x mod 2 ^ 32 - 2 ^ 32) with (x mod 2 ^ 32 + (-1) * 2 ^ 32) by lia.
    rewrite Z.mod_add by lia. apply Z.mod_mod. lia.
Qed.

Lemma shiftl_1_bounds n : 0 < n < 31 -> 1 < Z.shiftl 1 n < 2 ^ 31.
Proof.
  intros H. rewrite Z.shiftl_1_l. split.
  - change 1 with (2 ^ 0). apply Z.pow_lt_mono_r; lia.
  - apply Z.pow_lt_mono_r; lia.
Qed.

Lemma rem_rem_signed_Ok val num numWorkers :
  num <> 0 -> numWorkers <> 0 ->
  exists r, rem_rem_signed val num numWorkers = Ok r.
Proof.
  intros Hn Hw. unfold rem_rem_signed, c_rem.
  destruct (Z.eqb_spec num 0); [done|].
  destruct (Z.eqb_spec numWorkers 0); [done|]. simpl. eauto.
Qed.

Lemma rem_rem_unsigned_value val num numWorkers :
  0 <= val -> 0 < num < 2 ^ 31 -> 0 < numWorkers < 31 ->
  rem_rem_unsigned val num numWorkers = Ok ((val mod num) mod numWorkers).
Proof.
  intros Hv Hn Hw. unfold rem_rem_unsigned, c_rem.
  rewrite !wrap_unsigned_small by lia.
  destruct (Z.eqb_spec num 0); [lia|].
  destruct (Z.eqb_spec numWorkers 0); [lia|]. simpl.
  rewrite (Z.rem_mod_nonneg val num) by lia.
  assert (0 <= val mod num < num) by (apply Z.mod_pos_bound; lia).
  rewrite Z.rem_mod_nonneg by lia.
  assert (0 <= (val mod num) mod numWorkers < numWorkers)
    by (apply Z.mod_pos_bound; lia).
  rewrite wrap_signed_small by lia. reflexivity.
Qed.

Lemma ReDistributeHash_block_Ok c num numWorkers value hashfunc :
  0 < num < 2 ^ 31 -> 0 < numWorkers < 31 ->
  exists r, ReDistributeHash_block c num numWorkers value hashfunc = Ok r.
Proof.
  intros Hn Hw.
  destruct c; simpl; try (apply rem_rem_signed_Ok; lia).
  - rewrite rem_rem_unsigned_value; eauto; try lia.
    unfold DatumGetObjectId, wrap_unsigned. apply Z.mod_pos_bound. lia.
  - rewrite rem_rem_unsigned_value; eauto; try lia.
    unfold wrap_unsigned. apply Z.mod_pos_bound. lia.
Qed.

(** Running the blocks from any label ends with the value of the default
    block: every earlier store into [result] is overwritten. *)
Lemma blocks_end_in_default blocks num numWorkers value hashfunc acc :
  0 < num < 2 ^ 31 -> 0 < numWorkers < 31 ->
  foldl (fun acc c =>
           _ <-! acc ;; ReDistributeHash_block c num numWorkers value hashfunc)
    (Ok acc) (blocks ++ [CaseDefault])
  = ReDistributeHash_block CaseDefault num numWorkers value hashfunc.
Proof.
  intros Hn Hw. revert acc.
  induction blocks as [|c blocks IH]; intros acc; simpl; [done|].
  destruct (ReDistributeHash_block_Ok c num numWorkers value hashfunc Hn Hw)
    as (r & ->).
  apply IH.
Qed.

Lemma blocks_from_default c : exists blocks, blocks_from c = blocks ++ [CaseDefault].
Proof.
  destruct c; simpl;
    [ eexists [_; _; _; _; _; _] | eexists [_; _; _; _; _] | eexists [_; _; _; _]
    | eexists [_; _; _] | eexists [_; _] | eexists [_] | eexists [] ];
    reflexivity.
Qed.

(** Whatever the data type, the result is that of the default block. *)
Lemma ReDistributeHash_value dataType numWorkers value hashfunc :
  0 < numWorkers < 31 ->
  ReDistributeHash dataType numWorkers value hashfunc
  = Ok ((wrap_unsigned 32 (hashfunc value) mod 2 ^ numWorkers) mod numWorkers).
Proof.
  intros Hw. unfold ReDistributeHash.
  destruct (Z.leb_spec 0 numWorkers); [|lia].
  destruct (Z.ltb_spec numWorkers 31); [|lia]. simpl negb. cbv iota.
  pose proof (shiftl_1_bounds numWorkers Hw) as Hnum.
  destruct (blocks_from_default (ReDistributeHash_label dataType)) as (blocks & ->).
  rewrite blocks_end_in_default by lia. simpl.
  unfold DatumGetInt32. rewrite wrap_unsigned_signed.
  rewrite rem_rem_unsigned_value; try lia.
  - simpl. rewrite Z.shiftl_1_l. f_equal. apply Z.abs_eq.
    apply Z.mod_pos_bound. lia.
  - unfold wrap_unsigned. apply Z.mod_pos_bound. lia.
Qed.

(** C7, as stated, fails: with three workers and a text key (a type the
    [switch] sends to its [default] block) whose hash is 8 the destination
    is (8 mod 2^3) mod 3 = 0, not 8 mod 3 = 2. *)
Lemma ReDistributeHash_not_hash_mod_N :
  ~ (forall (dataType : Oid) (numWorkers : Z) (value : Datum)
       (hashfunc : Datum -> Datum),
       0 < numWorkers < 31 ->
       ReDistributeHash dataType numWorkers value hashfunc
       = Ok (wrap_unsigned 32 (hashfunc value) mod numWorkers)).
Proof.
  intros Hclaim.
  specialize (Hclaim TEXTOID 3 0 (fun _ => 8) ltac:(lia)).
  vm_compute in Hclaim. discriminate Hclaim.
Qed.

(** A data type without a [case] label of its own enters the [switch] at
    [default]: the hash function decides. *)
Lemma ReDistributeHash_default dataType numWorkers value hashfunc :
  0 < numWorkers < 31 ->
  ReDistributeHash_label dataType = CaseDefault ->
  ReDistributeHash dataType numWorkers value hashfunc
  = Ok ((wrap_unsigned 32 (hashfunc value) mod 2 ^ numWorkers) mod numWorkers).
Proof.
  intros Hw Hlabel. unfold ReDistributeHash.
  destruct (Z.leb_spec 0 numWorkers); [|lia].
  destruct (Z.ltb_spec numWorkers 31); [|lia]. simpl negb. cbv iota.
  pose proof (shiftl_1_bounds numWorkers Hw) as Hnum.
  rewrite Hlabel. cbn [blocks_from foldl rbind ReDistributeHash_block].
  unfold DatumGetInt32. rewrite wrap_unsigned_signed.
  rewrite rem_rem_unsigned_value; try lia.
  - simpl. rewrite Z.shiftl_1_l. f_equal. apply Z.abs_eq.
    apply Z.mod_pos_bound. lia.
  - unfold wrap_unsigned. apply Z.mod_pos_bound. lia.
Qed.

(** C7, amended: with N workers (0 < N < 31, where the shift 1 << N is
    defined) and a redistribution key of a type that has no [case] label
    of its own in ReDistributeHash (the [switch] is entered at [default];
    text is such a type), the destination of a row whose key is not null
    is h = ((unsigned 32-bit) hashfunc(value) mod 2^N) mod N, the
    destination of a row whose key is null is worker 0, and the row is
    kept locally exactly when its destination is the worker's own index;
    otherwise it enters the sending branch for that destination. *)
Theorem ReDistribute_destination (dataType : Oid) (numWorkers self : Z)
  (varattno : nat) (slot : TupleTableSlot) (hashfunc : Datum -> Datum) :
  0 < numWorkers < 31 ->
  ReDistributeHash_label dataType = CaseDefault ->
  let value := (slot_getattr slot varattno).1 in
  let isnull := (slot_getattr slot varattno).2 in
  let h := (wrap_unsigned 32 (hashfunc value) mod 2 ^ numWorkers) mod numWorkers in
  let dest := if isnull then 0 else h in
  ReDistributeHash dataType numWorkers value hashfunc = Ok h
  /\ ReDistributeData_route numWorkers self varattno slot hashfunc dataType
     = Ok (if dest =? self then KeepLocal
           else SendTo dest (self * numWorkers + dest))
  /\ (ReDistributeData_route numWorkers self varattno slot hashfunc dataType
      = Ok KeepLocal <-> dest = self).
Proof.
  intros Hw Hlabel value isnull h dest.
  assert (Hh : ReDistributeHash dataType numWorkers value hashfunc = Ok h)
    by (by apply ReDistributeHash_default).
  assert (Hroute :
    ReDistributeData_route numWorkers self varattno slot hashfunc dataType
    = Ok (if dest =? self then KeepLocal
          else SendTo dest (self * numWorkers + dest))).
  { unfold ReDistributeData_route. subst dest isnull value h.
    destruct (slot_getattr slot varattno) as [v n]; simpl in *.
    destruct n; cbn [rbind]; rewrite ?Hh; cbn [rbind];
      match goal with |- context [Z.eqb ?a ?b] => destruct (Z.eqb a b) end;
      reflexivity. }
  repeat split; [done | done | |].
  - rewrite Hroute. destruct (Z.eqb_spec dest self); [done|discriminate].
  - intros ->. rewrite Hroute. by rewrite Z.eqb_refl.
Qed.

Definition sample_slot (v : Datum) : TupleTableSlot :=
  {| tts_isempty := false; tts_values := [v]; tts_isnull := [false] |}.

Lemma ReDistribute_destination_witness :
  ReDistributeHash TEXTOID 3 8 (fun v => v) = Ok 0
  /\ ReDistributeData_route 3 2 1 (sample_slot 8) (fun v => v) TEXTOID
     = Ok (SendTo 0 6).
Proof.
  destruct (ReDistribute_destination TEXTOID 3 2 1 (sample_slot 8) (fun v => v))
    as (Hh & Hroute & _); [lia|reflexivity|].
  split; [exact Hh | exact Hroute].
Defined.

(** ** End of stream *)

Section EndOfStream.
Context {FM : FunctionManager} {TS : Tuplesort} {EG : ExecGrouping} {guc : GUC}.

(** What a loop may answer: a NULL with the done flag set, or a row that
    is not empty. *)
Definition good_answer (answer : option TupleTableSlot * AggState) : Prop :=
  match answer with
  | (None, aggstate) => agg_done aggstate = true
  | (Some slot, _) => tts_isempty slot = false
  end.

Definition good_step (step : LoopStep) : Prop :=
  match step with
  | Continue _ => True
  | Return result aggstate => good_answer (result, aggstate)
  end.

Lemma project_aggregates_not_empty aggstate slot :
  project_aggregates aggstate = Some slot -> tts_isempty slot = false.
Proof.
  unfold project_aggregates. destruct (qual _ _); intros H; by simplify_eq.
Qed.

Lemma agg_retrieve_hash_table_loop_good fuel aggstate setno answer :
  agg_retrieve_hash_table_loop fuel aggstate setno = Ok answer ->
  good_answer answer.
Proof.
  revert aggstate setno. induction fuel as [|fuel IH]; intros aggstate setno.
  - discriminate.
  - cbn [agg_retrieve_hash_table_loop].
    destruct (agg_done aggstate) eqn:Hdone.
    { intros Hr. by simplify_eq. }
    destruct (get_perhash aggstate setno) as [perhash|]; [|discriminate].
    cbn [rbind].
    destruct (hashtab (hashtable perhash) !! hashiter perhash) as [entry|].
    + destruct (finalize_aggregates _ _) as [st1|]; [|discriminate].
      cbn [rbind].
      destruct (project_aggregates st1) eqn:Hrow; [|apply IH].
      intros Hr. simplify_eq. by eapply project_aggregates_not_empty.
    + match goal with
      | |- rbind ?m _ = _ -> _ => destruct m as [[load_done st1]|]; [|discriminate]
      end.
      cbn [rbind]. destruct (negb load_done).
      { destruct (LoadHybridHashtable _ _ _); [|discriminate]. apply IH. }
      destruct (_ <? _)%nat.
      { match goal with
        | |- rbind ?m _ = _ -> _ => destruct m; [|discriminate]
        end.
        apply IH. }
      intros Hr. by simplify_eq.
Qed.

Lemma agg_retrieve_direct_next_phase_good fuel aggstate numReset step st z :
  agg_retrieve_direct_next_phase fuel aggstate numReset = Ok (Some step, st, z) ->
  good_step step.
Proof.
  unfold agg_retrieve_direct_next_phase.
  destruct (_ && _); [|discriminate].
  destruct (_ <? _)%nat.
  { destruct (initialize_phase _ _); discriminate. }
  destruct (AggStrategy_eqb _ _).
  - destruct (initialize_phase _ _) as [st1|]; [|discriminate]. cbn [rbind].
    destruct (get_perhash _ _) as [ph|]; [|discriminate]. cbn [rbind].
    destruct (agg_retrieve_hash_table _ _) as [[answer st2]|] eqn:Hhash;
      [|discriminate].
    cbn [rbind]. intros Hr. simplify_eq.
    by apply agg_retrieve_hash_table_loop_good in Hhash.
  - intros Hr. by simplify_eq.
Qed.

Lemma agg_retrieve_direct_project_good aggstate step :
  agg_retrieve_direct_project aggstate = Ok step -> good_step step.
Proof.
  unfold agg_retrieve_direct_project.
  destruct (Assert _); [|discriminate]. cbn [rbind].
  destruct (finalize_aggregates _ _) as [st1|]; [|discriminate]. cbn [rbind].
  destruct (project_aggregates st1) eqn:Hrow; intros Hr; simplify_eq; [|done].
  by eapply project_aggregates_not_empty.
Qed.

Lemma agg_retrieve_direct_group_good fuel aggstate hasGroupingSets numReset step :
  agg_retrieve_direct_group fuel aggstate hasGroupingSets numReset = Ok step ->
  good_step step.
Proof.
  unfold agg_retrieve_direct_group.
  match goal with
  | |- rbind ?m _ = _ -> _ => destruct m as [[[early|] st1]|] eqn:Hgroup
  end; cbn [rbind]; [| apply agg_retrieve_direct_project_good | discriminate].
  intros Hr. simplify_eq. revert Hgroup.
  destruct (_ || _).
  { repeat (destruct (Assert _); [|discriminate]; cbn [rbind]). discriminate. }
  match goal with
  | |- rbind ?m _ = _ -> _ => destruct m as [[[early|] st2]|] eqn:Hfetch
  end; cbn [rbind]; [| |discriminate].
  - intros Hr. simplify_eq. revert Hfetch.
    destruct (grp_firstTuple _); [discriminate|].
    destruct (fetch_input_tuple _) as [outerslot st3].
    destruct (negb (TupIsNull st3 outerslot)).
    { destruct outerslot; discriminate. }
    destruct hasGroupingSets.
    + destruct (_ <=? _); intros Hr; by simplify_eq.
    + destruct (negb _); intros Hr; by simplify_eq.
  - destruct (initialize_aggregates _ _ _); [|discriminate]. cbn [rbind].
    match goal with
    | |- rbind ?m _ = _ -> _ => destruct m; discriminate
    end.
Qed.

Lemma agg_retrieve_direct_body_good fuel aggstate hasGroupingSets step :
  agg_retrieve_direct_body fuel aggstate hasGroupingSets = Ok step ->
  good_step step.
Proof.
  unfold agg_retrieve_direct_body.
  match goal with
  | |- rbind ?m _ = _ -> _ => destruct m as [[[[early|] st1] z]|] eqn:Hphase
  end; cbn [rbind]; [| apply agg_retrieve_direct_group_good | discriminate].
  intros Hr. simplify_eq.
  by eapply agg_retrieve_direct_next_phase_good.
Qed.

Lemma agg_retrieve_direct_loop_good fuel aggstate hasGroupingSets answer :
  agg_retrieve_direct_loop fuel aggstate hasGroupingSets = Ok answer ->
  good_answer answer.
Proof.
  revert aggstate. induction fuel as [|fuel IH]; intros aggstate.
  - discriminate.
  - cbn [agg_retrieve_direct_loop].
    destruct (agg_done aggstate) eqn:Hdone.
    { intros Hr. by simplify_eq. }
    destruct (agg_retrieve_direct_body _ _ _) as [[st1|row st1]|] eqn:Hbody;
      cbn [rbind]; [apply IH| |discriminate].
    intros Hr. simplify_eq.
    by apply agg_retrieve_direct_body_good in Hbody.
Qed.

Lemma ExecAgg_ends_done fuel aggstate aggstate' :
  ExecAgg fuel aggstate = Ok (None, aggstate') -> agg_done aggstate' = true.
Proof.
  unfold ExecAgg. destruct (agg_done aggstate) eqn:Hdone; simpl.
  { intros Hr. by simplify_eq. }
  match goal with
  | |- rbind ?m _ = _ -> _ =>
      destruct m as [[result st1]|e] eqn:Hdispatch
  end; cbn [rbind]; [|discriminate].
  assert (Hgood : good_answer (result, st1)).
  { destruct (phase_aggstrategy (phase aggstate));
      try (by eapply agg_retrieve_direct_loop_good);
      try (by eapply agg_retrieve_hash_table_loop_good).
    revert Hdispatch.
    match goal with
    | |- rbind ?m _ = _ -> _ => destruct m; [|discriminate]
    end.
    cbn [rbind]. apply agg_retrieve_hash_table_loop_good. }
  destruct result as [slot|]; simpl in Hgood.
  - rewrite Hgood. simpl. discriminate.
  - intros Hr. by simplify_eq.
Qed.

End EndOfStream.

(** C8: once ExecAgg has answered NULL, the done flag is set, and from a
    state with the done flag set every call answers NULL again and leaves
    the whole aggregation state as it is, whatever the loop bound of the
    model. *)
Theorem ExecAgg_idempotent_after_end
  {FM : FunctionManager} {TS : Tuplesort} {EG : ExecGrouping} {guc : GUC}
  (fuel fuel' : nat) (aggstate aggstate' : AggState) :
  (agg_done aggstate = true -> ExecAgg fuel aggstate = Ok (None, aggstate))
  /\ (ExecAgg fuel aggstate = Ok (None, aggstate') ->
      agg_done aggstate' = true
      /\ ExecAgg fuel' aggstate' = Ok (None, aggstate')).
Proof.
  assert (Hdone : forall f s, agg_done s = true -> ExecAgg f s = Ok (None, s)).
  { intros f s Hs. unfold ExecAgg. by rewrite Hs. }
  split; [apply Hdone|].
  intros Hend. apply ExecAgg_ends_done in Hend. split; [done|by apply Hdone].
Qed.

Lemma ExecAgg_idempotent_after_end_witness :
  agg_done (state_of (sample_after_calls 2 [sample_row [1; 10]])) = true
  /\ ExecAgg (FM := sum_fmgr) (TS := sample_tuplesort) (EG := sample_grouping)
       (guc := sample_guc) 50
       (state_of (sample_after_calls 2 [sample_row [1; 10]]))
     = Ok (None, state_of (sample_after_calls 2 [sample_row [1; 10]]))
  /\ ExecAgg (FM := sum_fmgr) (TS := sample_tuplesort) (EG := sample_grouping)
       (guc := sample_guc) 7
       (state_of (sample_after_calls 2 [sample_row [1; 10]]))
     = Ok (None, state_of (sample_after_calls 2 [sample_row [1; 10]])).
Proof.
  destruct (ExecAgg_idempotent_after_end
              (FM := sum_fmgr) (TS := sample_tuplesort) (EG := sample_grouping)
              (guc := sample_guc) 50 7
              (state_of (sample_after_calls 1 [sample_row [1; 10]]))
              (state_of (sample_after_calls 2 [sample_row [1; 10]])))
    as [_ Hend].
  destruct Hend as [Hdone Hagain]; [vm_compute; reflexivity|].
  split; [exact Hdone|]. split; [|exact Hagain].
  destruct (ExecAgg_idempotent_after_end
              (FM := sum_fmgr) (TS := sample_tuplesort) (EG := sample_grouping)
              (guc := sample_guc) 50 7
              (state_of (sample_after_calls 2 [sample_row [1; 10]]))
              (state_of (sample_after_calls 2 [sample_row [1; 10]])))
    as [Hfirst _].
  exact (Hfirst Hdone).
Defined.

(** ** Loops *)

Lemma for_each_S {S : Type} n (body : nat -> S -> result S) s :
  for_each (Datatypes.S n) body s = rbind (for_each n body s) (body n).
Proof.
  unfold for_each. rewrite seq_S, foldl_app. reflexivity.
Qed.

(** An invariant of the body is an invariant of the loop, and what every
    successful turn shows holds of every index. *)
Lemma for_each_inv {S : Type} (I : S -> Prop) (P : nat -> Prop) n
  (body : nat -> S -> result S) s s' :
  I s ->
  (forall i s1 s2, (i < n)%nat -> I s1 -> body i s1 = Ok s2 -> I s2 /\ P i) ->
  for_each n body s = Ok s' ->
  I s' /\ forall i, (i < n)%nat -> P i.
Proof.
  intros Hs. revert s'. induction n as [|n IH]; intros s' Hbody Hrun.
  - unfold for_each in Hrun. simpl in Hrun. simplify_eq. split; [done|lia].
  - rewrite for_each_S in Hrun.
    destruct (for_each n body s) as [s1|] eqn:Hn; [|discriminate].
    cbn [rbind] in Hrun.
    destruct (IH s1) as [Hs1 HP]; [|done|].
    { intros i a b Hi. apply Hbody. lia. }
    destruct (Hbody n s1 s' ltac:(lia) Hs1 Hrun) as [Hs' Hn'].
    split; [done|]. intros i Hi.
    destruct (decide (i = n)) as [->|]; [done|]. apply HP. lia.
Qed.

Lemma for_each_preserves {S : Type} (I : S -> Prop) n
  (body : nat -> S -> result S) s s' :
  I s ->
  (forall i s1 s2, (i < n)%nat -> I s1 -> body i s1 = Ok s2 -> I s2) ->
  for_each n body s = Ok s' -> I s'.
Proof.
  intros Hs Hbody Hrun.
  apply (for_each_inv I (fun _ => True) n body s s' Hs); [|done].
  intros i s1 s2 Hi H1 H2. split; [|done]. by eapply Hbody.
Qed.

(** ** What the routines leave of a slot *)

(** A slot without what the routines store into it. *)
Definition static_of (pertrans : AggStatePerTransData) : AggStatePerTransData :=
  set_combfn_fcinfo
    (set_transfn_fcinfo (set_sortstates pertrans [])
       (call_frame (transfn pertrans) []))
    (call_frame (combfn pertrans) []).

Lemma static_of_numSortCols p p' :
  static_of p' = static_of p -> numSortCols p' = numSortCols p.
Proof. intros H. apply (f_equal numSortCols) in H. exact H. Qed.

Lemma static_of_set_transfn_fcinfo p f :
  static_of (set_transfn_fcinfo p f) = static_of p.
Proof. reflexivity. Qed.

Lemma static_of_set_sortstates p ss :
  static_of (set_sortstates p ss) = static_of p.
Proof. reflexivity. Qed.

Lemma advance_transition_function_static {FM : FunctionManager} p pg :
  static_of (adv_pertrans (advance_transition_function p pg)) = static_of p
  /\ sortstates (adv_pertrans (advance_transition_function p pg)) = sortstates p.
Proof.
  unfold advance_transition_function, invoke_and_store, unchanged.
  repeat (match goal with
          | |- context [if ?b then _ else _] => destruct b
          | |- context [FunctionCallInvoke ?f] => destruct (FunctionCallInvoke f)
          end); simpl; done.
Qed.

Lemma fmap_insert_same {A B} (f : A -> B) (l : list A) i x y :
  l !! i = Some x -> f y = f x -> f <$> <[i := y]> l = f <$> l.
Proof.
  intros Hx Hf. rewrite list_fmap_insert, Hf.
  apply list_insert_id. by rewrite list_lookup_fmap, Hx.
Qed.

(** The slot the tuple in hand is read from, [tmpcontext->ecxt_outertuple]. *)
Definition input_slot (aggstate : AggState) : TupleTableSlot :=
  get_slot aggstate (tmp_outertuple aggstate).

(** The FILTER clause of an aggregate gives NULL or false. *)
Definition filter_rejects (pertrans : AggStatePerTransData) (input : TupleTableSlot)
  : bool :=
  match aggfilter pertrans with
  | Some filter =>
      let '(res, isnull) := filter input in isnull || negb (DatumGetBool res)
  | None => false
  end.

Section SortedAggregates.
Context {FM : FunctionManager} {TS : Tuplesort} {EG : ExecGrouping} {guc : GUC}.

(** What advancing one state leaves of the slots: their sorters and what
    is fixed in them. *)
Definition same_slots (aggstate aggstate' : AggState) : Prop :=
  static_of <$> pertrans aggstate' = static_of <$> pertrans aggstate
  /\ sortstates <$> pertrans aggstate' = sortstates <$> pertrans aggstate.

Lemma same_slots_refl aggstate : same_slots aggstate aggstate.
Proof. by split. Qed.










End SortedAggregates.



(** ** The retry after a dump *)









Section Retry.
Context {FM : FunctionManager} {TS : Tuplesort} {EG : ExecGrouping} {guc : GUC}.









End Retry.



(** ** Overflow while reloading a batch file *)

Section Reload.
Context {FM : FunctionManager} {EG : ExecGrouping}.

Lemma write_pergroup_spill_heap aggstate loc i pg :
  spill_heap (write_pergroup aggstate loc i pg) = spill_heap aggstate.
Proof. by destruct loc. Qed.

Lemma load_merge_spill_heap aggstate setno entry record aggstate' :
  load_merge aggstate setno entry record = Ok aggstate' ->
  spill_heap aggstate' = spill_heap aggstate.
Proof.
  unfold load_merge. intros Hrun.
  apply (for_each_preserves (fun s => spill_heap s = spill_heap aggstate))
    in Hrun; [done|done|].
  clear. intros aggno s1 s2 _ Hs1 Hbody.
  repeat (match type of Hbody with
          | rbind ?m _ = _ => destruct m as [?|]; [|discriminate];
                              cbn [rbind] in Hbody
          | (let (_, _) := ?x in _) = _ => destruct x
          end).
  simplify_eq. exact Hs1.
Qed.

Lemma load_new_entry_spill_heap aggstate setno entry record aggstate' :
  load_new_entry aggstate setno entry record = Ok aggstate' ->
  spill_heap aggstate' = spill_heap aggstate.
Proof.
  unfold load_new_entry. destruct (0 <? numtrans _)%nat.
  - match goal with
    | |- rbind ?m _ = _ -> _ => destruct m; [|discriminate]
    end.
    cbn [rbind]. intros H. by simplify_eq.
  - intros H. by simplify_eq.
Qed.

Lemma batch_index_value hashkey n :
  0 <= hashkey -> 0 < n < 2 ^ 31 ->
  batch_index hashkey n = Ok (Z.to_nat (hashkey mod n)).
Proof.
  intros Hh Hn. unfold batch_index, c_rem, wrap_unsigned.
  rewrite (Z.mod_small n) by lia.
  destruct (Z.eqb_spec n 0); [lia|]. simpl.
  by rewrite Z.rem_mod_nonneg by lia.
Qed.

End Reload.

(** ** Empty input *)

(** A loop whose every turn succeeds and carries an invariant on. *)
Lemma for_each_run {S : Type} (I : nat -> S -> Prop) n
  (body : nat -> S -> result S) s :
  I 0%nat s ->
  (forall i s1, (i < n)%nat -> I i s1 ->
     exists s2, body i s1 = Ok s2 /\ I (Datatypes.S i) s2) ->
  exists s', for_each n body s = Ok s' /\ I n s'.
Proof.
  intros Hs. induction n as [|n IH]; intros Hbody.
  - exists s. split; [reflexivity|done].
  - destruct IH as (s1 & Hrun & Hs1).
    { intros i s1 Hi. apply Hbody. lia. }
    destruct (Hbody n s1 ltac:(lia) Hs1) as (s2 & H2 & Hs2).
    exists s2. rewrite for_each_S, Hrun. done.
Qed.

Lemma fmap_insert_const {A B} (f : A -> B) (l : list A) i y :
  (forall x, l !! i = Some x -> f y = f x) -> f <$> <[i := y]> l = f <$> l.
Proof.
  intros Hf. destruct (l !! i) as [x|] eqn:Hx.
  - eapply fmap_insert_same; [exact Hx|]. by apply Hf.
  - rewrite list_insert_ge; [done|]. by apply lookup_ge_None.
Qed.

Lemma fmap_eq_lookup {A B} (f : A -> B) (l l' : list A) i x' :
  f <$> l' = f <$> l -> l' !! i = Some x' ->
  exists x, l !! i = Some x /\ f x' = f x.
Proof.
  intros Heq Hx'.
  assert (H : (f <$> l) !! i = Some (f x')) by (by rewrite <- Heq, list_lookup_fmap, Hx').
  rewrite list_lookup_fmap in H. destruct (l !! i) as [x|]; simpl in H; [|done].
  exists x. split; [done|]. congruence.
Qed.

(** *** What the run leaves of a state *)

(** A slot without its call frames and sorters, the room for the sorters
    kept. *)
Definition frame_of (pertrans : AggStatePerTransData) : AggStatePerTransData :=
  set_sortstates (static_of pertrans) ((fun _ => None) <$> sortstates pertrans).

(** A hash table without its iterator and the slot of its entries. *)
Definition table_of (perhash : AggStatePerHashData) : AggStatePerHashData :=
  set_hashslot (set_hashiter perhash 0) (blank_slot 0).

(** A state without the data the aggregates work on: the plan, the
    control flags, the input and the room of the arrays are kept. *)
Definition skeleton (aggstate : AggState) : AggState :=
  {| aggstrategy := aggstrategy aggstate; aggsplit := aggsplit aggstate;
     numaggs := numaggs aggstate; numtrans := numtrans aggstate;
     numphases := numphases aggstate; phases := phases aggstate;
     peragg := peragg aggstate; num_hashes := num_hashes aggstate;
     all_grouped_cols := all_grouped_cols aggstate; evalproj := evalproj aggstate;
     qual := qual aggstate; ps_ProjInfo := ps_ProjInfo aggstate;
     current_phase := current_phase aggstate;
     pertrans := frame_of <$> pertrans aggstate;
     projected_set := projected_set aggstate;
     current_set := 0;
     input_done := input_done aggstate; agg_done := agg_done aggstate;
     pergroup := (fun _ => pergroup_zero) <$> pergroup aggstate;
     grp_firstTuple := grp_firstTuple aggstate;
     sort_in := sort_in aggstate; sort_out := sort_out aggstate;
     table_filled := table_filled aggstate;
     perhash := table_of <$> perhash aggstate;
     hash_pergroup := []; spill_heap := spill_heap aggstate;
     lefttree := lefttree aggstate;
     outer_slot := blank_slot 0; sort_slot := blank_slot 0;
     ss_ScanTupleSlot := blank_slot 0; evalslot := blank_slot 0;
     tmp_outertuple := ScanSlot; ecxt_outertuple := ScanSlot;
     ecxt_aggvalues := (fun _ => 0) <$> ecxt_aggvalues aggstate;
     ecxt_aggnulls := (fun _ => false) <$> ecxt_aggnulls aggstate;
     grouped_cols := []; calls := [] |}.

Lemma frame_of_numSortCols p p' :
  frame_of p' = frame_of p ->
  numSortCols p' = numSortCols p /\ numInputs p' = numInputs p
  /\ numDistinctCols p' = numDistinctCols p
  /\ length (sortstates p') = length (sortstates p).
Proof.
  intros H. repeat split.
  - exact (f_equal numSortCols H).
  - exact (f_equal numInputs H).
  - exact (f_equal numDistinctCols H).
  - apply (f_equal (fun p => length (sortstates p))) in H. simpl in H.
    by rewrite !length_fmap in H.
Qed.

Lemma frame_of_set_sortstates p sorters :
  length sorters = length (sortstates p) ->
  frame_of (set_sortstates p sorters) = frame_of p.
Proof.
  intros Hlen. unfold frame_of. simpl. f_equal.
  apply list_eq. intros i. rewrite !list_lookup_fmap.
  destruct (sorters !! i) eqn:H1, (sortstates p !! i) eqn:H2; simpl; try done.
  - apply lookup_lt_Some in H1. apply lookup_ge_None in H2. lia.
  - apply lookup_lt_Some in H2. apply lookup_ge_None in H1. lia.
Qed.

Lemma skeleton_put_pertrans aggstate transno p p' :
  pertrans aggstate !! transno = Some p ->
  frame_of p' = frame_of p ->
  skeleton (put_pertrans aggstate transno p') = skeleton aggstate.
Proof.
  intros Hp Hframe. unfold skeleton, put_pertrans. simpl. f_equal.
  by eapply fmap_insert_same.
Qed.

Lemma skeleton_write_pergroup aggstate off i pg :
  skeleton (write_pergroup aggstate (SortedGroups off) i pg) = skeleton aggstate.
Proof.
  unfold skeleton, write_pergroup. simpl. f_equal.
  by apply fmap_insert_const.
Qed.

(** What two states with one skeleton share. *)
Lemma skeleton_pertrans aggstate aggstate' transno p' :
  skeleton aggstate' = skeleton aggstate ->
  pertrans aggstate' !! transno = Some p' ->
  exists p, pertrans aggstate !! transno = Some p /\ frame_of p' = frame_of p.
Proof.
  intros H. apply (f_equal pertrans) in H. simpl in H.
  by apply fmap_eq_lookup.
Qed.

Lemma skeleton_lengths aggstate aggstate' :
  skeleton aggstate' = skeleton aggstate ->
  length (pertrans aggstate') = length (pertrans aggstate)
  /\ length (pergroup aggstate') = length (pergroup aggstate)
  /\ length (perhash aggstate') = length (perhash aggstate).
Proof.
  intros H. repeat split.
  - apply (f_equal (fun s => length (pertrans s))) in H. simpl in H.
    by rewrite !length_fmap in H.
  - apply (f_equal (fun s => length (pergroup s))) in H. simpl in H.
    by rewrite !length_fmap in H.
  - apply (f_equal (fun s => length (perhash s))) in H. simpl in H.
    by rewrite !length_fmap in H.
Qed.

Lemma fmap_const_length {A B} (c : B) (l l' : list A) :
  length l' = length l -> (fun _ => c) <$> l' = (fun _ => c) <$> l.
Proof.
  revert l'. induction l as [|x l IH]; intros [|x' l'] Hlen; simpl in *;
    try done.
  f_equal. apply IH. lia.
Qed.

Lemma skeleton_set_ecxt aggstate values nulls :
  length values = length (ecxt_aggvalues aggstate) ->
  length nulls = length (ecxt_aggnulls aggstate) ->
  skeleton (set_ecxt_aggnulls (set_ecxt_aggvalues aggstate values) nulls)
  = skeleton aggstate.
Proof.
  intros Hv Hn. unfold skeleton. simpl. f_equal; by apply fmap_const_length.
Qed.

Lemma skeleton_numtrans aggstate aggstate' :
  skeleton aggstate' = skeleton aggstate -> numtrans aggstate' = numtrans aggstate.
Proof. intros H. exact (f_equal numtrans H). Qed.

Lemma skeleton_phase aggstate aggstate' :
  skeleton aggstate' = skeleton aggstate -> phase aggstate' = phase aggstate.
Proof.
  intros H. unfold phase.
  by rewrite (f_equal phases H : phases aggstate' = phases aggstate),
    (f_equal current_phase H : current_phase aggstate' = current_phase aggstate).
Qed.

(** *** The grouping sets still to be projected *)

(** The per-group state initialize_aggregate leaves for a slot. *)
Definition initial_group (pertrans : AggStatePerTransData) : AggStatePerGroupData :=
  (initialize_aggregate 0 pertrans pergroup_zero).2.

Lemma initial_group_frame p p' :
  frame_of p' = frame_of p -> initial_group p' = initial_group p.
Proof.
  intros H. unfold initial_group, initialize_aggregate. cbn [snd].
  by rewrite (f_equal initValue H : initValue p' = initValue p),
    (f_equal initValueIsNull H : initValueIsNull p' = initValueIsNull p),
    (f_equal transtypeByVal H : transtypeByVal p' = transtypeByVal p),
    (f_equal transtypeLen H : transtypeLen p' = transtypeLen p).
Qed.

(** The states of the grouping sets lie one after the other, each with
    one cell for every slot. *)
Lemma group_index_inj (numTrans t j t' j' : nat) :
  (t < numTrans)%nat -> (t' < numTrans)%nat ->
  (t + j * numTrans = t' + j' * numTrans)%nat -> t = t' /\ j = j'.
Proof.
  intros Ht Ht' H.
  assert (Heq : t = t').
  { apply (f_equal (fun x => x mod numTrans)%nat) in H.
    by rewrite !Nat.Div0.mod_add, !Nat.mod_small in H by done. }
  subst t'. split; [done|].
  assert (Hmul : (j * numTrans = j' * numTrans)%nat) by lia.
  apply Nat.mul_cancel_r in Hmul; [done|lia].
Qed.

(** The slots and grouping sets [R] picks are as initialize_aggregates
    left them: the per-group state is the initial one, and the sorter of
    an ordered aggregate exists and holds nothing. *)
Definition sets_ready (aggstate : AggState) (R : nat -> nat -> Prop) : Prop :=
  forall transno p setno,
    (transno < numtrans aggstate)%nat ->
    pertrans aggstate !! transno = Some p ->
    R transno setno ->
    pergroup aggstate !! (transno + setno * numtrans aggstate)%nat
    = Some (initial_group p)
    /\ ((0 < numSortCols p)%nat ->
        exists sorter,
          sortstates p !! setno = Some (Some sorter) /\ ts_tuples sorter = []).

Lemma sets_ready_weaken aggstate (R R' : nat -> nat -> Prop) :
  sets_ready aggstate R ->
  (forall transno setno,
     (transno < numtrans aggstate)%nat -> R' transno setno -> R transno setno) ->
  sets_ready aggstate R'.
Proof. intros H HR t p j Ht Hp Hj. apply (H t p j); auto. Qed.

Lemma sets_ready_same aggstate aggstate' R :
  numtrans aggstate' = numtrans aggstate ->
  pertrans aggstate' = pertrans aggstate ->
  pergroup aggstate' = pergroup aggstate ->
  sets_ready aggstate R -> sets_ready aggstate' R.
Proof. unfold sets_ready. intros -> -> ->. done. Qed.

(** Every result of the aggregates is the final value of an initial
    per-group state. *)
Definition final_of_initial {FM : FunctionManager} (aggstate : AggState) : Prop :=
  forall aggno pa p,
    (aggno < numaggs aggstate)%nat ->
    peragg aggstate !! aggno = Some pa ->
    pertrans aggstate !! transno pa = Some p ->
    exists resultVal resultIsNull,
      (if DO_AGGSPLIT_SKIPFINAL (aggsplit aggstate)
       then finalize_partialaggregate aggstate pa (initial_group p)
       else finalize_aggregate aggstate pa (initial_group p))
      = Ok (resultVal, resultIsNull)
      /\ ecxt_aggvalues aggstate !! aggno = Some resultVal
      /\ ecxt_aggnulls aggstate !! aggno = Some resultIsNull.

Section EmptyInput.
Context {FM : FunctionManager} {TS : Tuplesort} {EG : ExecGrouping} {guc : GUC}.

(** *** initialize_aggregates *)

Lemma initialize_one_run aggstate transno i p :
  pertrans aggstate !! transno = Some p ->
  (i < length (pergroup aggstate))%nat ->
  ((0 < numSortCols p)%nat ->
   (current_set aggstate < length (sortstates p))%nat) ->
  exists aggstate' p',
    initialize_one aggstate transno (SortedGroups 0) i = Ok aggstate'
    /\ skeleton aggstate' = skeleton aggstate
    /\ pertrans aggstate' = <[transno := p']> (pertrans aggstate)
    /\ pergroup aggstate' = <[i := initial_group p]> (pergroup aggstate)
    /\ frame_of p' = frame_of p
    /\ ((0 < numSortCols p)%nat ->
        exists sorter,
          sortstates p' !! current_set aggstate = Some (Some sorter)
          /\ ts_tuples sorter = [])
    /\ (forall setno, setno <> current_set aggstate ->
          sortstates p' !! setno = sortstates p !! setno).
Proof.
  intros Hp Hi Hroom. unfold initialize_one, get_pertrans, read_pergroup.
  rewrite Hp. cbn [rbind]. simpl.
  destruct (lookup_lt_is_Some_2 _ _ Hi) as [pg Hpg]. rewrite Hpg. cbn [rbind].
  unfold initialize_aggregate.
  match goal with
  | |- context [put_pertrans _ _ ?q] => set (p' := q)
  end.
  eexists _, p'.
  assert (Hframe : frame_of p' = frame_of p).
  { subst p'. destruct (0 <? numSortCols p)%nat; [|done].
    destruct (numInputs p =? 1)%nat;
      apply frame_of_set_sortstates; by rewrite length_insert. }
  split; [reflexivity|]. split.
  { etrans; [apply (skeleton_write_pergroup (put_pertrans aggstate transno p') 0 i)|].
    by eapply skeleton_put_pertrans. }
  split; [reflexivity|]. split; [reflexivity|]. split; [exact Hframe|].
  split.
  - intros Hn. specialize (Hroom Hn). subst p'.
    apply Nat.ltb_lt in Hn. rewrite Hn.
    destruct (numInputs p =? 1)%nat; simpl;
      rewrite list_lookup_insert_eq by done; eauto.
  - intros setno Hne. subst p'.
    destruct (0 <? numSortCols p)%nat; [|done].
    destruct (numInputs p =? 1)%nat; simpl;
      by rewrite list_lookup_insert_ne.
Qed.

Lemma initialize_aggregates_run aggstate n :
  (0 < n)%nat ->
  (numtrans aggstate <= length (pertrans aggstate))%nat ->
  (n * numtrans aggstate <= length (pergroup aggstate))%nat ->
  (forall transno p,
     pertrans aggstate !! transno = Some p -> (0 < numSortCols p)%nat ->
     (n <= length (sortstates p))%nat) ->
  exists aggstate',
    initialize_aggregates aggstate (SortedGroups 0) (Z.of_nat n) = Ok aggstate'
    /\ skeleton aggstate' = skeleton aggstate
    /\ sets_ready aggstate' (fun _ setno => (setno < n)%nat).
Proof.
  intros Hn Htrans Hgroups Hroom. unfold initialize_aggregates.
  destruct (Z.eqb_spec (Z.of_nat n) 0) as [|_]; [lia|].
  destruct (Z.ltb_spec (Z.of_nat n) 0) as [|_]; [lia|].
  rewrite Nat2Z.id.
  destruct (for_each_run
              (fun t s => skeleton s = skeleton aggstate
                          /\ sets_ready s (fun t' setno => (t' < t)%nat /\ (setno < n)%nat))
              (numtrans aggstate)
              (fun transno aggstate0 =>
                 for_each n
                   (fun setno aggstate1 =>
                      initialize_one (select_current_set aggstate1 setno false)
                        transno (SortedGroups 0)
                        (transno + setno * numtrans aggstate)%nat)
                   aggstate0)
              aggstate) as (s' & Hrun & Hskel & Hready).
  - split; [done|]. intros t p j _ _ [Hlt _]. lia.
  - intros t s1 Ht [Hskel1 Hready1].
    destruct (for_each_run
                (fun j s => skeleton s = skeleton aggstate
                            /\ sets_ready s
                                 (fun t' setno =>
                                    ((t' < t)%nat /\ (setno < n)%nat)
                                    \/ (t' = t /\ (setno < j)%nat)))
                n
                (fun setno aggstate1 =>
                   initialize_one (select_current_set aggstate1 setno false)
                     t (SortedGroups 0) (t + setno * numtrans aggstate)%nat)
                s1) as (s2 & Hrun2 & Hskel2 & Hready2).
    + split; [done|]. eapply sets_ready_weaken; [exact Hready1|].
      intros t' j _ [?|[_ ?]]; [done|lia].
    + intros j s3 Hj [Hskel3 Hready3].
      destruct (skeleton_lengths _ _ Hskel3) as (Hlt & Hlg & _).
      assert (Hnt : numtrans s3 = numtrans aggstate)
        by exact (f_equal numtrans Hskel3).
      destruct (lookup_lt_is_Some_2 (pertrans s3) t) as [p Hp]; [lia|].
      destruct (skeleton_pertrans _ _ _ _ Hskel3 Hp) as (p0 & Hp0 & Hframe).
      destruct (frame_of_numSortCols _ _ Hframe) as (Hnsc & _ & _ & Hlen).
      destruct (initialize_one_run (select_current_set s3 j false) t
                  (t + j * numtrans aggstate) p)
        as (s4 & p' & Hone & Hskel4 & Hpt4 & Hpg4 & Hframe4 & Hnew & Hold).
      * exact Hp.
      * simpl. nia.
      * simpl. intros Hpos. rewrite Hlen.
        specialize (Hroom t p0 Hp0). lia.
      * simpl in Hskel4, Hpt4, Hpg4, Hnew, Hold.
        change (skeleton (select_current_set s3 j false)) with (skeleton s3) in Hskel4.
        pose proof (skeleton_numtrans _ _ Hskel4) as Hnt4.
        destruct (frame_of_numSortCols _ _ Hframe4) as (Hnsc4 & _).
        exists s4. split; [exact Hone|]. split; [by rewrite Hskel4|].
        intros t' q jj Ht' Hq HR. rewrite Hpt4 in Hq.
        rewrite Hnt4, Hnt in Ht'. rewrite Hpg4, Hnt4, Hnt.
        destruct (decide (t' = t)) as [->|Hne].
        -- rewrite list_lookup_insert_eq in Hq by lia.
           injection Hq as <-. rewrite (initial_group_frame _ _ Hframe4), Hnsc4.
           destruct (decide (jj = j)) as [->|Hnej].
           ++ split; [|exact Hnew].
              apply list_lookup_insert_eq. nia.
           ++ destruct (Hready3 t p jj) as [Hgroup Hsorter]; [lia|done| |].
              { right. split; [done|]. destruct HR as [[? _]|[_ ?]]; lia. }
              split.
              ** rewrite list_lookup_insert_ne; [by rewrite Hnt in Hgroup|].
                 intros Heq. by destruct (group_index_inj _ _ _ _ _ Ht Ht Heq).
              ** intros Hpos. rewrite Hold by done. by apply Hsorter.
        -- rewrite list_lookup_insert_ne in Hq by done.
           destruct (Hready3 t' q jj) as [Hgroup Hsorter]; [lia|done| |].
           { destruct HR as [?|[? _]]; [by left|done]. }
           split; [|done].
           rewrite list_lookup_insert_ne; [by rewrite Hnt in Hgroup|].
           intros Heq. by destruct (group_index_inj _ _ _ _ _ Ht Ht' Heq).
    + exists s2. split; [exact Hrun2|]. split; [done|].
      eapply sets_ready_weaken; [exact Hready2|].
      intros t' j _ [Hlt Hj]. destruct (decide (t' = t)) as [->|]; [by right|].
      left. split; [lia|done].
  - exists s'. split; [exact Hrun|]. split; [done|].
    eapply sets_ready_weaken; [exact Hready|].
    intros t j Ht Hj. split; [|done].
    by rewrite (skeleton_numtrans _ _ Hskel) in Ht.
Qed.

(** *** finalize_aggregates *)

(** Sorting nothing gives nothing. *)
Definition sorts_nothing : Prop := forall spec, tuplesort_order spec [] = [].

(** An ordered aggregate whose sorter holds nothing only gives its sorter
    up. *)
Lemma process_ordered_aggregate_empty aggstate transno loc i p sorter :
  sorts_nothing ->
  pertrans aggstate !! transno = Some p ->
  ((numInputs p = 1)%nat -> (numDistinctCols p < 2)%nat) ->
  sortstates p !! current_set aggstate = Some (Some sorter) ->
  ts_tuples sorter = [] ->
  (if (numInputs p =? 1)%nat
   then process_ordered_aggregate_single aggstate transno loc i
   else process_ordered_aggregate_multi aggstate transno loc i)
  = Ok (put_pertrans aggstate transno
          (set_sortstates p (<[current_set aggstate := None]> (sortstates p)))).
Proof.
  intros Hlaw Hp Hdistinct Hsorter Hempty.
  destruct (Nat.eqb_spec (numInputs p) 1) as [Hone|_].
  - unfold process_ordered_aggregate_single, take_sorter, drop_sorter, get_pertrans.
    rewrite Hp. cbn [rbind].
    destruct (Nat.ltb_spec (numDistinctCols p) 2) as [_|]; [|specialize (Hdistinct Hone); lia].
    cbn [Assert rbind]. rewrite Hsorter. cbn [rbind].
    unfold tuplesort_performsort. cbn [ts_tuples]. rewrite Hempty, Hlaw.
    cbn [foldl rbind fst]. rewrite Hp. reflexivity.
  - unfold process_ordered_aggregate_multi, take_sorter, drop_sorter, get_pertrans.
    rewrite Hp. cbn [rbind]. rewrite Hsorter. cbn [rbind].
    unfold tuplesort_performsort. cbn [ts_tuples]. rewrite Hempty, Hlaw.
    cbn [foldl rbind fst]. rewrite Hp. reflexivity.
Qed.

Lemma finalize_aggregate_run aggstate peragg pergroupstate p :
  pertrans aggstate !! transno peragg = Some p ->
  exists answer,
    (if DO_AGGSPLIT_SKIPFINAL (aggsplit aggstate)
     then finalize_partialaggregate aggstate peragg pergroupstate
     else finalize_aggregate aggstate peragg pergroupstate) = Ok answer.
Proof.
  intros Hp. unfold finalize_partialaggregate, finalize_aggregate, get_pertrans.
  rewrite Hp. cbn [rbind].
  repeat (match goal with
          | |- context [if ?b then _ else _] => destruct b
          end); eauto.
Qed.

(** What finalize_aggregates and the routines around it ask of the
    arrays, for [n] grouping sets. *)
Record arrays_fit (aggstate : AggState) (n : nat) : Prop := {
  fit_pertrans : (numtrans aggstate <= length (pertrans aggstate))%nat;
  fit_pergroup : (n * numtrans aggstate <= length (pergroup aggstate))%nat;
  fit_peragg : (numaggs aggstate <= length (peragg aggstate))%nat;
  fit_aggvalues : (numaggs aggstate <= length (ecxt_aggvalues aggstate))%nat;
  fit_aggnulls : (numaggs aggstate <= length (ecxt_aggnulls aggstate))%nat;
  fit_transno : forall aggno pa,
    (aggno < numaggs aggstate)%nat -> peragg aggstate !! aggno = Some pa ->
    (transno pa < numtrans aggstate)%nat;
  fit_sorters : forall transno p,
    pertrans aggstate !! transno = Some p -> (0 < numSortCols p)%nat ->
    (n <= length (sortstates p))%nat
    /\ aggstrategy aggstate <> AGG_HASHED /\ aggstrategy aggstate <> AGG_MIXED
    /\ ((numInputs p = 1)%nat -> (numDistinctCols p < 2)%nat)
}.

(** *** The plan of a state *)

(** The skeleton without the control flags and the input: what stays as
    ExecInitAgg left it. *)
Definition plan_of (aggstate : AggState) : AggState :=
  set_current_phase
    (set_projected_set
       (set_input_done
          (set_agg_done
             (set_grp_firstTuple
                (set_sort_in
                   (set_sort_out
                      (set_table_filled (set_lefttree (skeleton aggstate) []) false)
                      None)
                   None)
                None)
             false)
          false)
       0)
    0.

Lemma skeleton_plan_of aggstate aggstate' :
  skeleton aggstate' = skeleton aggstate -> plan_of aggstate' = plan_of aggstate.
Proof. unfold plan_of. by intros ->. Qed.

Lemma plan_of_pertrans aggstate aggstate' transno p' :
  plan_of aggstate' = plan_of aggstate ->
  pertrans aggstate' !! transno = Some p' ->
  exists p, pertrans aggstate !! transno = Some p /\ frame_of p' = frame_of p.
Proof.
  intros H. apply (f_equal pertrans) in H. simpl in H.
  by apply fmap_eq_lookup.
Qed.

Lemma plan_of_lengths aggstate aggstate' :
  plan_of aggstate' = plan_of aggstate ->
  length (pertrans aggstate') = length (pertrans aggstate)
  /\ length (pergroup aggstate') = length (pergroup aggstate)
  /\ length (perhash aggstate') = length (perhash aggstate)
  /\ length (ecxt_aggvalues aggstate') = length (ecxt_aggvalues aggstate)
  /\ length (ecxt_aggnulls aggstate') = length (ecxt_aggnulls aggstate).
Proof.
  intros H. repeat split.
  4: { apply (f_equal (fun s => length (ecxt_aggvalues s))) in H. simpl in H.
       by rewrite !length_fmap in H. }
  4: { apply (f_equal (fun s => length (ecxt_aggnulls s))) in H. simpl in H.
       by rewrite !length_fmap in H. }
  - apply (f_equal (fun s => length (pertrans s))) in H. simpl in H.
    by rewrite !length_fmap in H.
  - apply (f_equal (fun s => length (pergroup s))) in H. simpl in H.
    by rewrite !length_fmap in H.
  - apply (f_equal (fun s => length (perhash s))) in H. simpl in H.
    by rewrite !length_fmap in H.
Qed.

Lemma arrays_fit_plan aggstate aggstate' n :
  plan_of aggstate' = plan_of aggstate ->
  arrays_fit aggstate n -> arrays_fit aggstate' n.
Proof.
  intros Hplan [H1 H2 H3 Hvalues Hnulls H4 H5].
  destruct (plan_of_lengths _ _ Hplan) as (Hlt & Hlg & _ & Hlv & Hln).
  pose proof (f_equal numtrans Hplan : numtrans aggstate' = numtrans aggstate) as Hnt.
  pose proof (f_equal numaggs Hplan : numaggs aggstate' = numaggs aggstate) as Hna.
  pose proof (f_equal peragg Hplan : peragg aggstate' = peragg aggstate) as Hpa.
  pose proof (f_equal aggstrategy Hplan
              : aggstrategy aggstate' = aggstrategy aggstate) as Hst.
  split.
  - by rewrite Hnt, Hlt.
  - by rewrite Hnt, Hlg.
  - by rewrite Hna, Hpa.
  - by rewrite Hna, Hlv.
  - by rewrite Hna, Hln.
  - rewrite Hna, Hpa, Hnt. exact H4.
  - intros t p' Hp' Hpos.
    destruct (plan_of_pertrans _ _ _ _ Hplan Hp') as (p & Hp & Hframe).
    destruct (frame_of_numSortCols _ _ Hframe) as (Hn1 & Hn2 & Hn3 & Hn4).
    rewrite Hn1 in Hpos. rewrite Hn2, Hn3, Hn4, Hst. by apply (H5 t).
Qed.

Lemma arrays_fit_skeleton aggstate aggstate' n :
  skeleton aggstate' = skeleton aggstate ->
  arrays_fit aggstate n -> arrays_fit aggstate' n.
Proof. intros H. apply arrays_fit_plan. by apply skeleton_plan_of. Qed.

Lemma finalize_aggregates_run aggstate n :
  sorts_nothing ->
  arrays_fit aggstate n ->
  (current_set aggstate < n)%nat ->
  sets_ready aggstate (fun _ setno => (current_set aggstate <= setno < n)%nat) ->
  exists aggstate',
    finalize_aggregates aggstate
      (SortedGroups (current_set aggstate * numtrans aggstate)) = Ok aggstate'
    /\ skeleton aggstate' = skeleton aggstate
    /\ sets_ready aggstate' (fun _ setno => (current_set aggstate < setno < n)%nat)
    /\ final_of_initial aggstate'.
Proof.
  intros Hlaw Hfit Hj Hready. unfold finalize_aggregates.
  set (j := current_set aggstate) in *.
  destruct (for_each_run
              (fun t s =>
                 skeleton s = skeleton aggstate /\ current_set s = j
                 /\ pergroup s = pergroup aggstate
                 /\ sets_ready s (fun t' setno =>
                                    (setno = j /\ (t <= t')%nat)
                                    \/ (j < setno < n)%nat))
              (numtrans aggstate)
              (fun transno aggstate0 =>
                 pertrans <-! get_pertrans aggstate0 transno ;;
                 if (0 <? numSortCols pertrans)%nat then
                   _ <-! Assert (negb (AggStrategy_eqb (aggstrategy aggstate0) AGG_HASHED)
                                 && negb (AggStrategy_eqb (aggstrategy aggstate0) AGG_MIXED)) ;;
                   if (numInputs pertrans =? 1)%nat
                   then process_ordered_aggregate_single aggstate0 transno
                          (SortedGroups (j * numtrans aggstate)) transno
                   else process_ordered_aggregate_multi aggstate0 transno
                          (SortedGroups (j * numtrans aggstate)) transno
                 else Ok aggstate0)
              aggstate) as (s1 & Hrun1 & Hskel1 & Hcur1 & Hpg1 & Hready1).
  - split; [done|]. split; [done|]. split; [done|].
    eapply sets_ready_weaken; [exact Hready|].
    intros t jj _ [[-> _]|?]; lia.
  - intros t s Ht (Hskel & Hcur & Hpg & Hsets).
    pose proof (arrays_fit_skeleton _ _ n Hskel Hfit) as Hfit'.
    pose proof (skeleton_numtrans _ _ Hskel) as Hnt.
    destruct (lookup_lt_is_Some_2 (pertrans s) t) as [p Hp].
    { pose proof (fit_pertrans _ _ Hfit'). lia. }
    unfold get_pertrans. rewrite Hp. cbn [rbind].
    destruct (Nat.ltb_spec 0 (numSortCols p)) as [Hpos|Hzero].
    + destruct (fit_sorters _ _ Hfit' t p Hp Hpos) as (Hroom & Hs1 & Hs2 & Hdistinct).
      assert (Hassert : negb (AggStrategy_eqb (aggstrategy s) AGG_HASHED)
                        && negb (AggStrategy_eqb (aggstrategy s) AGG_MIXED) = true)
        by (by destruct (aggstrategy s)).
      rewrite Hassert. cbn [Assert rbind].
      destruct (Hsets t p j) as (_ & Hsorter); [lia|done|left; split; [done|lia]|].
      destruct (Hsorter Hpos) as (sorter & Hsome & Hempty).
      rewrite <- Hcur in Hsome.
      rewrite (process_ordered_aggregate_empty s t _ t p sorter) by done.
      eexists. split; [reflexivity|].
      assert (Hframe : frame_of (set_sortstates p (<[current_set s := None]> (sortstates p)))
                       = frame_of p)
        by (apply frame_of_set_sortstates; by rewrite length_insert).
      split; [|split; [done|split; [exact Hpg|]]].
      { rewrite (skeleton_put_pertrans s t p) by done. exact Hskel. }
      intros t' q jj Ht' Hq HR.
      change (numtrans (put_pertrans s t
                (set_sortstates p (<[current_set s := None]> (sortstates p)))))
        with (numtrans s) in *.
      change (pergroup (put_pertrans s t
                (set_sortstates p (<[current_set s := None]> (sortstates p)))))
        with (pergroup s).
      change (pertrans (put_pertrans s t
                (set_sortstates p (<[current_set s := None]> (sortstates p)))))
        with (<[t := set_sortstates p (<[current_set s := None]> (sortstates p))]>
                (pertrans s)) in Hq.
      destruct (decide (t' = t)) as [->|Hne].
      * rewrite list_lookup_insert_eq in Hq by (by eapply lookup_lt_Some).
        injection Hq as <-.
        destruct (Hsets t p jj) as (Hgroup & Hlater); [lia|done| |].
        { right. destruct HR as [[_ ?]|?]; [lia|done]. }
        split; [exact Hgroup|]. intros _.
        cbn [sortstates set_sortstates].
        rewrite list_lookup_insert_ne by (destruct HR; lia).
        by apply Hlater.
      * rewrite list_lookup_insert_ne in Hq by done.
        apply (Hsets t' q jj); [done|done|].
        destruct HR as [[? ?]|?]; [left; split; [done|lia]|by right].
    + exists s. split; [reflexivity|]. split; [done|]. split; [done|].
      split; [done|].
      eapply sets_ready_weaken; [exact Hsets|]. cbv beta.
      intros t' jj _ [[? ?]|?]; [left; split; [done|lia]|by right].
  - rewrite Hrun1. cbn [rbind].
    pose proof (skeleton_numtrans _ _ Hskel1) as Hnt1.
    pose proof (f_equal numaggs Hskel1 : numaggs s1 = numaggs aggstate) as Hna1.
    pose proof (arrays_fit_skeleton _ _ n Hskel1 Hfit) as Hfit1.
    rewrite Hna1.
    (* the per-group states read are the initial ones *)
    assert (Hinitial : forall t p,
               (t < numtrans aggstate)%nat -> pertrans s1 !! t = Some p ->
               pergroup s1 !! (j * numtrans aggstate + t)%nat
               = Some (initial_group p)).
    { intros t p Ht Hp.
      destruct (skeleton_pertrans _ _ _ _ Hskel1 Hp) as (p0 & Hp0 & Hframe).
      destruct (Hready t p0 j) as (Hgroup & _); [done|done|lia|].
      rewrite Hpg1, (initial_group_frame _ _ Hframe), Nat.add_comm.
      exact Hgroup. }
    destruct (for_each_run
                (fun a s =>
                   exists values nulls,
                     s = set_ecxt_aggnulls (set_ecxt_aggvalues s1 values) nulls
                     /\ length values = length (ecxt_aggvalues s1)
                     /\ length nulls = length (ecxt_aggnulls s1)
                     /\ forall aggno pa p,
                          (aggno < a)%nat ->
                          peragg s1 !! aggno = Some pa ->
                          pertrans s1 !! transno pa = Some p ->
                          exists resultVal resultIsNull,
                            (if DO_AGGSPLIT_SKIPFINAL (aggsplit s1)
                             then finalize_partialaggregate s1 pa (initial_group p)
                             else finalize_aggregate s1 pa (initial_group p))
                            = Ok (resultVal, resultIsNull)
                            /\ values !! aggno = Some resultVal
                            /\ nulls !! aggno = Some resultIsNull)
                (numaggs aggstate)
                (fun aggno aggstate0 =>
                   peragg <-! get_peragg aggstate0 aggno ;;
                   pergroupstate <-!
                     read_pergroup aggstate0
                       (SortedGroups (j * numtrans aggstate)) (transno peragg) ;;
                   let! (resultVal, resultIsNull) :=
                     (if DO_AGGSPLIT_SKIPFINAL (aggsplit aggstate0)
                      then finalize_partialaggregate aggstate0 peragg pergroupstate
                      else finalize_aggregate aggstate0 peragg pergroupstate) in
                   Ok (set_ecxt_aggnulls
                         (set_ecxt_aggvalues aggstate0
                            (<[aggno := resultVal]> (ecxt_aggvalues aggstate0)))
                         (<[aggno := resultIsNull]> (ecxt_aggnulls aggstate0))))
                s1) as (s2 & Hrun2 & values & nulls & Hs2 & Hlv & Hln & Hfinal).
    + exists (ecxt_aggvalues s1), (ecxt_aggnulls s1).
      split; [by destruct s1|]. split; [done|]. split; [done|]. intros; lia.
    + intros a s Ha (values & nulls & Hs & Hlv & Hln & Hfinal).
      assert (Hread : peragg s = peragg s1 /\ pertrans s = pertrans s1
                      /\ pergroup s = pergroup s1 /\ aggsplit s = aggsplit s1
                      /\ ecxt_aggvalues s = values /\ ecxt_aggnulls s = nulls
                      /\ (forall pa pg,
                            finalize_partialaggregate s pa pg
                            = finalize_partialaggregate s1 pa pg)
                      /\ (forall pa pg,
                            finalize_aggregate s pa pg = finalize_aggregate s1 pa pg))
        by (by rewrite Hs).
      destruct Hread as (Hpa_s & Hpt_s & Hpg_s & Hsplit_s & Hv_s & Hn_s & Hfp & Hfa).
      destruct (lookup_lt_is_Some_2 (peragg s1) a) as [pa Hpa].
      { pose proof (fit_peragg _ _ Hfit1). lia. }
      unfold get_peragg. rewrite Hpa_s, Hpa. cbn [rbind].
      assert (Htr : (transno pa < numtrans aggstate)%nat).
      { rewrite <- Hnt1. apply (fit_transno _ _ Hfit1 a); [lia|done]. }
      destruct (lookup_lt_is_Some_2 (pertrans s1) (transno pa)) as [p Hp].
      { pose proof (fit_pertrans _ _ Hfit1). lia. }
      unfold read_pergroup. rewrite Hpg_s, (Hinitial _ _ Htr Hp). cbn [rbind].
      destruct (finalize_aggregate_run s1 pa (initial_group p) p Hp)
        as ([v isnull] & Hfin).
      rewrite Hsplit_s, Hfp, Hfa, Hfin. cbn [rbind].
      eexists. split; [reflexivity|].
      exists (<[a := v]> values), (<[a := isnull]> nulls).
      split; [by rewrite Hv_s, Hn_s, Hs|].
      split; [by rewrite length_insert|]. split; [by rewrite length_insert|].
      intros a' pa' p' Ha' Hpa' Hp'.
      destruct (decide (a' = a)) as [->|Hne].
      * rewrite Hpa in Hpa'. injection Hpa' as <-.
        rewrite Hp in Hp'. injection Hp' as <-.
        exists v, isnull. split; [exact Hfin|].
        pose proof (fit_aggvalues _ _ Hfit1). pose proof (fit_aggnulls _ _ Hfit1).
        split; apply list_lookup_insert_eq; lia.
      * destruct (Hfinal a' pa' p') as (v' & isnull' & Hfin' & Hv' & Hn');
          [lia|done|done|].
        exists v', isnull'. split; [exact Hfin'|].
        by rewrite !list_lookup_insert_ne.
    + assert (Hread : peragg s2 = peragg s1 /\ pertrans s2 = pertrans s1
                      /\ pergroup s2 = pergroup s1 /\ aggsplit s2 = aggsplit s1
                      /\ numtrans s2 = numtrans s1 /\ numaggs s2 = numaggs s1
                      /\ ecxt_aggvalues s2 = values /\ ecxt_aggnulls s2 = nulls
                      /\ (forall pa pg,
                            finalize_partialaggregate s2 pa pg
                            = finalize_partialaggregate s1 pa pg)
                      /\ (forall pa pg,
                            finalize_aggregate s2 pa pg = finalize_aggregate s1 pa pg))
        by (by rewrite Hs2).
      destruct Hread as (Hpa_s & Hpt_s & Hpg_s & Hsplit_s & Hnt_s & Hna_s
                         & Hv_s & Hn_s & Hfp & Hfa).
      exists s2. split; [exact Hrun2|]. split; [|split].
      * rewrite Hs2, skeleton_set_ecxt by done. exact Hskel1.
      * apply (sets_ready_same s1); [done..|].
        eapply sets_ready_weaken; [exact Hready1|].
        intros t jj _ ?. by right.
      * intros a pa p Ha Hpa Hp.
        rewrite Hna_s, Hna1 in Ha. rewrite Hpa_s in Hpa. rewrite Hpt_s in Hp.
        rewrite Hsplit_s, Hfp, Hfa, Hv_s, Hn_s.
        by apply Hfinal.
Qed.


(** *** The grouping sets projected when there is no input *)

(** The number of leading grouping sets, among the first [n], that have a
    column. *)
Fixpoint leading_nonempty (lengths : list nat) (n : nat) {struct n} : nat :=
  match n, lengths with
  | S n', l :: rest =>
      if (0 <? l)%nat then S (leading_nonempty rest n') else 0%nat
  | _, _ => 0%nat
  end.

Lemma leading_nonempty_le lengths n : (leading_nonempty lengths n <= n)%nat.
Proof.
  revert lengths. induction n as [|n IH]; intros [|l rest]; simpl; try lia.
  destruct (0 <? l)%nat; [|lia]. specialize (IH rest). lia.
Qed.

Lemma skip_nonempty_sets_from lengths n steps i :
  (i < n)%nat -> (n - i <= steps)%nat ->
  skip_nonempty_sets lengths (Z.of_nat i) n steps
  = Z.of_nat (i + leading_nonempty (drop i lengths) (n - i)).
Proof.
  revert i. induction steps as [|steps IH]; intros i Hi Hsteps; [lia|].
  cbn [skip_nonempty_sets]. rewrite Nat2Z.id.
  replace (n - i)%nat with (S (n - S i)) by lia.
  destruct (lengths !! i) as [l|] eqn:Hl.
  - rewrite (drop_S _ _ _ Hl). cbn [default leading_nonempty]. unfold id.
    destruct (0 <? l)%nat; [|f_equal; lia].
    destruct (Z.leb_spec (Z.of_nat n) (Z.of_nat i + 1)).
    + replace (n - S i)%nat with 0%nat by lia. simpl. lia.
    + replace (Z.of_nat i + 1) with (Z.of_nat (S i)) by lia.
      rewrite IH by lia. lia.
  - cbn [default]. rewrite drop_ge by (by apply lookup_ge_None).
    simpl. f_equal. lia.
Qed.

Lemma skip_nonempty_sets_first lengths n :
  (0 < n)%nat ->
  skip_nonempty_sets lengths 0 n n = Z.of_nat (leading_nonempty lengths n).
Proof.
  intros Hn. change 0 with (Z.of_nat 0).
  rewrite (skip_nonempty_sets_from lengths n n 0) by lia.
  by rewrite drop_0, Nat.sub_0_r.
Qed.

(** *** The input *)

(** Nothing is left to read: the sorter feeding the phase holds nothing,
    or there is no such sorter and the outer plan has no row. *)
Definition input_empty (aggstate : AggState) : Prop :=
  match sort_in aggstate with
  | Some sorter => ts_tuples sorter = []
  | None => lefttree aggstate = []
  end.

Lemma fetch_input_tuple_empty aggstate :
  input_empty aggstate ->
  exists aggstate',
    fetch_input_tuple aggstate = (None, aggstate')
    /\ skeleton aggstate' = skeleton aggstate.
Proof.
  unfold input_empty, fetch_input_tuple.
  destruct (sort_in aggstate) as [sorter|].
  - intros Hempty. unfold tuplesort_get. rewrite Hempty. eauto.
  - intros Hempty. unfold ExecProcNode_outer. rewrite Hempty. eauto.
Qed.

Lemma prepare_projection_slot_same aggstate slot currentSet :
  skeleton (prepare_projection_slot aggstate slot currentSet) = skeleton aggstate
  /\ pertrans (prepare_projection_slot aggstate slot currentSet) = pertrans aggstate
  /\ numtrans (prepare_projection_slot aggstate slot currentSet) = numtrans aggstate
  /\ pergroup (prepare_projection_slot aggstate slot currentSet) = pergroup aggstate
  /\ current_set (prepare_projection_slot aggstate slot currentSet)
     = current_set aggstate.
Proof.
  unfold prepare_projection_slot.
  destruct (phase_grouped_cols (phase aggstate)); [|done].
  destruct slot; simpl;
    match goal with
    | |- context [if ?b then _ else _] => destruct b
    end; try done;
    destruct (all_grouped_cols aggstate); done.
Qed.

(** *** The plan *)

(** What the run asks of the state ExecInitAgg leaves: the arrays have
    room for every phase, the phases from 1 on are plain or sorted, every
    phase from 3 on has a sort to feed it, a plan with grouping sets has
    them in every phase, and the hash tables are empty. *)
Record plan_fits (aggstate : AggState) : Prop := {
  plan_phases : (numphases aggstate <= length (phases aggstate))%nat;
  plan_arrays : forall p ph,
    (1 <= p < numphases aggstate)%nat -> phases aggstate !! p = Some ph ->
    arrays_fit aggstate (Nat.max (numsets ph) 1);
  plan_strategy : forall p ph,
    (1 <= p < numphases aggstate)%nat -> phases aggstate !! p = Some ph ->
    phase_aggstrategy ph = AGG_PLAIN \/ phase_aggstrategy ph = AGG_SORTED;
  plan_sortnode : forall p ph,
    (3 <= p < numphases aggstate)%nat -> phases aggstate !! p = Some ph ->
    is_Some (sortnode ph);
  plan_sets : forall ph1,
    phases aggstate !! 1%nat = Some ph1 -> (0 < numsets ph1)%nat ->
    forall p ph,
      (1 <= p < numphases aggstate)%nat -> phases aggstate !! p = Some ph ->
      (0 < numsets ph)%nat;
  plan_tables :
    aggstrategy aggstate = AGG_HASHED \/ aggstrategy aggstate = AGG_MIXED ->
    (1 <= num_hashes aggstate <= length (perhash aggstate))%nat
    /\ forall i ph, perhash aggstate !! i = Some ph ->
         hashtab (hashtable ph) = [] /\ spilled (hashtable ph) = false
}.

Section Run.
Variable aggstate0 : AggState.
Hypothesis Hplan : plan_fits aggstate0.
Hypothesis Hlaw : sorts_nothing.

Definition phase_at (p : nat) : AggStatePerPhaseData :=
  default phase_zero (phases aggstate0 !! p).

(** numGroupingSets of the phase [p] *)
Definition sets_at (p : nat) : nat := Nat.max (numsets (phase_at p)) 1.

(** The run is in the phase [p], with nothing to read. *)
Record running (aggstate : AggState) (p : nat) : Prop := {
  run_plan : plan_of aggstate = plan_of aggstate0;
  run_phase : current_phase aggstate = p;
  run_bounds : (1 <= p < numphases aggstate0)%nat;
  run_not_done : agg_done aggstate = false;
  run_no_tuple : grp_firstTuple aggstate = None;
  run_input : input_empty aggstate;
  run_sort_out : (p + 1 < numphases aggstate0)%nat ->
    exists sorter, sort_out aggstate = Some sorter /\ ts_tuples sorter = []
}.

Lemma running_skeleton aggstate aggstate' p :
  skeleton aggstate' = skeleton aggstate ->
  running aggstate p -> running aggstate' p.
Proof.
  intros Hskel [H1 H2 H3 H4 H5 H6 H7]. split.
  - by rewrite (skeleton_plan_of _ _ Hskel).
  - by rewrite (f_equal current_phase Hskel : current_phase aggstate' = _).
  - done.
  - by rewrite (f_equal agg_done Hskel : agg_done aggstate' = _).
  - by rewrite (f_equal grp_firstTuple Hskel : grp_firstTuple aggstate' = _).
  - unfold input_empty in *.
    by rewrite (f_equal sort_in Hskel : sort_in aggstate' = sort_in aggstate),
      (f_equal lefttree Hskel : lefttree aggstate' = lefttree aggstate).
  - by rewrite (f_equal sort_out Hskel : sort_out aggstate' = sort_out aggstate).
Qed.

Lemma plan_static aggstate :
  plan_of aggstate = plan_of aggstate0 ->
  phases aggstate = phases aggstate0
  /\ numphases aggstate = numphases aggstate0
  /\ aggstrategy aggstate = aggstrategy aggstate0
  /\ qual aggstate = qual aggstate0
  /\ numtrans aggstate = numtrans aggstate0.
Proof.
  intros H. repeat split.
  - exact (f_equal phases H).
  - exact (f_equal numphases H).
  - exact (f_equal aggstrategy H).
  - exact (f_equal qual H).
  - exact (f_equal numtrans H).
Qed.

Lemma running_static aggstate p :
  running aggstate p ->
  phases aggstate = phases aggstate0
  /\ numphases aggstate = numphases aggstate0
  /\ aggstrategy aggstate = aggstrategy aggstate0
  /\ qual aggstate = qual aggstate0
  /\ numtrans aggstate = numtrans aggstate0.
Proof. intros Hrun. apply plan_static. exact (run_plan _ _ Hrun). Qed.

Lemma running_phase aggstate p :
  running aggstate p -> phase aggstate = phase_at p.
Proof.
  intros Hrun. destruct (running_static _ _ Hrun) as (Hph & _).
  unfold phase, phase_at. by rewrite Hph, (run_phase _ _ Hrun).
Qed.

Lemma phase_at_lookup p :
  (p < numphases aggstate0)%nat -> phases aggstate0 !! p = Some (phase_at p).
Proof.
  intros Hp. unfold phase_at.
  destruct (lookup_lt_is_Some_2 (phases aggstate0) p) as [ph ->]; [|done].
  pose proof (plan_phases _ Hplan). lia.
Qed.

Lemma plan_fit aggstate p :
  plan_of aggstate = plan_of aggstate0 ->
  (1 <= p < numphases aggstate0)%nat ->
  arrays_fit aggstate (sets_at p).
Proof.
  intros Hsame Hp. apply (arrays_fit_plan aggstate0); [done|].
  apply (plan_arrays _ Hplan p); [done|]. apply phase_at_lookup. lia.
Qed.

Lemma running_fit aggstate p :
  running aggstate p -> arrays_fit aggstate (sets_at p).
Proof.
  intros Hrun. apply plan_fit; [exact (run_plan _ _ Hrun)|].
  exact (run_bounds _ _ Hrun).
Qed.

(** *** One projection *)

Definition accepts_all : Prop := forall input, qual aggstate0 input = true.

(** A row of the empty input: the projection of a state of the plan in
    which every aggregate has the final value of its initial per-group
    state. *)
Definition emitted (row : TupleTableSlot) : Prop :=
  exists aggstate,
    plan_of aggstate = plan_of aggstate0
    /\ final_of_initial aggstate
    /\ project_aggregates aggstate = Some row.

(** A grouping set was tried: its row is returned, or the qualification
    rejected it and the loop goes on. *)
Definition attempt (step : LoopStep) (aggstate' : AggState) : Prop :=
  (step = Continue aggstate'
   \/ exists row, step = Return (Some row) aggstate' /\ emitted row)
  /\ (accepts_all ->
      exists row, step = Return (Some row) aggstate' /\ emitted row).

Lemma agg_retrieve_direct_project_run aggstate p j :
  plan_of aggstate = plan_of aggstate0 ->
  (1 <= p < numphases aggstate0)%nat ->
  projected_set aggstate = Z.of_nat j ->
  (j < sets_at p)%nat ->
  sets_ready aggstate (fun _ setno => (j <= setno < sets_at p)%nat) ->
  exists step aggstate',
    agg_retrieve_direct_project aggstate = Ok step
    /\ attempt step aggstate'
    /\ skeleton aggstate' = skeleton aggstate
    /\ sets_ready aggstate' (fun _ setno => (j < setno < sets_at p)%nat).
Proof.
  intros Hsame Hp Hproj Hj Hsorters. unfold agg_retrieve_direct_project.
  rewrite Hproj. destruct (Z.leb_spec 0 (Z.of_nat j)) as [_|]; [|lia].
  cbn [Assert rbind]. rewrite Nat2Z.id.
  destruct (prepare_projection_slot_same aggstate (ecxt_outertuple aggstate) j)
    as (Hskel1 & Hpt1 & Hnt1 & Hpg1 & _).
  set (st1 := select_current_set
                (prepare_projection_slot aggstate (ecxt_outertuple aggstate) j)
                j false).
  assert (Hskel1' : skeleton st1 = skeleton aggstate) by exact Hskel1.
  destruct (finalize_aggregates_run st1 (sets_at p))
    as (st2 & Hfin & Hskel2 & Hsort2 & Hfinal).
  - exact Hlaw.
  - apply (arrays_fit_skeleton aggstate); [done|]. by apply plan_fit.
  - exact Hj.
  - apply (sets_ready_same aggstate);
      [exact Hnt1|exact Hpt1|exact Hpg1|exact Hsorters].
  - change (current_set st1) with j in *.
    rewrite Hfin. cbn [rbind].
    assert (Hplan2 : plan_of st2 = plan_of aggstate0).
    { rewrite (skeleton_plan_of _ _ Hskel2), (skeleton_plan_of _ _ Hskel1').
      exact Hsame. }
    assert (Hqual : qual st2 = qual aggstate0).
    { by destruct (plan_static _ Hplan2) as (_ & _ & _ & ? & _). }
    destruct (project_aggregates st2) as [row|] eqn:Hrow.
    + assert (Hemitted : emitted row) by (by exists st2).
      eexists _, st2. split; [reflexivity|]. split; [|split; [congruence|done]].
      split; eauto.
    + eexists _, st2. split; [reflexivity|]. split; [|split; [congruence|done]].
      split; [by left|]. intros Hall.
      unfold project_aggregates in Hrow. by rewrite Hqual, Hall in Hrow.
Qed.

Lemma running_projected aggstate p done v :
  running aggstate p ->
  running (set_projected_set (set_input_done aggstate done) v) p.
Proof. intros [H1 H2 H3 H4 H5 H6 H7]. by split. Qed.

(** The first turn in a phase: nothing is read, and the grouping sets
    with columns are skipped. *)
Lemma agg_retrieve_direct_group_first aggstate p :
  running aggstate p ->
  input_done aggstate = false ->
  projected_set aggstate = -1 ->
  exists step aggstate',
    (forall fuel,
       agg_retrieve_direct_group fuel aggstate true (Z.of_nat (sets_at p))
       = Ok step)
    /\ skeleton aggstate'
       = skeleton (set_projected_set (set_input_done aggstate true)
                     (Z.of_nat (leading_nonempty (gset_lengths (phase_at p))
                                  (sets_at p))))
    /\ sets_ready aggstate'
         (fun _ setno =>
            (leading_nonempty (gset_lengths (phase_at p)) (sets_at p)
             < setno < sets_at p)%nat)
    /\ (if decide (leading_nonempty (gset_lengths (phase_at p)) (sets_at p)
                   < sets_at p)%nat
        then attempt step aggstate'
        else step = Continue aggstate').
Proof.
  intros Hrun Hinput Hproj.
  pose proof (running_phase _ _ Hrun) as Hphase.
  assert (Hn : (0 < sets_at p)%nat) by (unfold sets_at; lia).
  destruct (fetch_input_tuple_empty (set_projected_set aggstate 0))
    as (st1 & Hfetch & Hskel1).
  { exact (run_input _ _ Hrun). }
  set (k := leading_nonempty (gset_lengths (phase_at p)) (sets_at p)).
  assert (Hskel2 : skeleton (set_projected_set (set_input_done st1 true) (Z.of_nat k))
                   = skeleton (set_projected_set (set_input_done aggstate true)
                                 (Z.of_nat k))).
  { change (set_projected_set (set_input_done (skeleton st1) true) (Z.of_nat k)
            = skeleton (set_projected_set (set_input_done aggstate true)
                          (Z.of_nat k))).
    by rewrite Hskel1. }
  pose proof (running_projected _ _ true (Z.of_nat k) Hrun) as Hrun2.
  apply (running_skeleton _ _ _ Hskel2) in Hrun2.
  (* the turn up to the test on the grouping set reached *)
  assert (Hhead : forall fuel,
             agg_retrieve_direct_group fuel aggstate true (Z.of_nat (sets_at p))
             = rbind
                 (rbind
                    (if Z.of_nat (sets_at p) <=? Z.of_nat k
                     then Ok (Some (Continue
                                      (set_projected_set (set_input_done st1 true)
                                         (Z.of_nat k))),
                              set_projected_set (set_input_done st1 true)
                                (Z.of_nat k))
                     else Ok (None,
                              set_projected_set (set_input_done st1 true)
                                (Z.of_nat k)))
                    (fun '(early, st) =>
                       match early with
                       | Some step => Ok (Some step, st)
                       | None =>
                           st <-! initialize_aggregates st (SortedGroups 0)
                                    (Z.of_nat (sets_at p)) ;;
                           st <-!
                             match grp_firstTuple st with
                             | Some tuple =>
                                 advance_group fuel
                                   (set_tmp_outertuple
                                      (set_grp_firstTuple
                                         (set_ss_ScanTupleSlot st
                                            (ExecStoreTuple tuple
                                               (ss_ScanTupleSlot st)))
                                         None)
                                      ScanSlot)
                                   (phase_aggnode (phase_at p)) true
                             | None => Ok st
                             end ;;
                           Ok (None, set_ecxt_outertuple st ScanSlot)
                       end))
                 (fun '(early, st) =>
                    match early with
                    | Some step => Ok step
                    | None => agg_retrieve_direct_project st
                    end)).
  { intros fuel. unfold agg_retrieve_direct_group.
    rewrite Hphase, Hinput, Hproj. fold (sets_at p).
    cbn [Z.leb Z.compare andb orb Z.eqb negb].
    rewrite !andb_false_r. cbn [andb].
    change (grp_firstTuple (set_projected_set aggstate 0))
      with (grp_firstTuple aggstate).
    rewrite (run_no_tuple _ _ Hrun).
    rewrite Hfetch. cbn [TupIsNull negb].
    change (phase (set_input_done st1 true)) with (phase st1).
    change (projected_set (set_input_done st1 true)) with (projected_set st1).
    rewrite (skeleton_phase _ _ Hskel1).
    change (phase (set_projected_set aggstate 0)) with (phase aggstate).
    rewrite Hphase.
    rewrite (f_equal projected_set Hskel1 : projected_set st1 = 0).
    rewrite skip_nonempty_sets_first by done. fold k.
    cbn [projected_set set_projected_set]. reflexivity. }
  destruct (Z.leb_spec (Z.of_nat (sets_at p)) (Z.of_nat k)) as [Hge|Hlt].
  - eexists _, _. split; [intros fuel; rewrite Hhead; reflexivity|].
    split; [exact Hskel2|]. split.
    + intros t q jj _ _ ?. lia.
    + destruct (decide (k < sets_at p)%nat); [lia|done].
  - destruct (initialize_aggregates_run
                (set_projected_set (set_input_done st1 true) (Z.of_nat k))
                (sets_at p)) as (st3 & Hinit & Hskel3 & Hsort3).
    + done.
    + exact (fit_pertrans _ _ (running_fit _ _ Hrun2)).
    + exact (fit_pergroup _ _ (running_fit _ _ Hrun2)).
    + intros t q Hq Hpos.
      by destruct (fit_sorters _ _ (running_fit _ _ Hrun2) t q Hq Hpos).
    + pose proof (running_skeleton _ _ _ Hskel3 Hrun2) as Hrun3.
      destruct (agg_retrieve_direct_project_run
                  (set_ecxt_outertuple st3 ScanSlot) p k)
        as (step & st5 & Hstep & Hattempt & Hskel5 & Hsort5).
      * exact (run_plan _ _ Hrun3).
      * exact (run_bounds _ _ Hrun3).
      * change (projected_set st3 = Z.of_nat k).
        by rewrite (f_equal projected_set Hskel3
                    : projected_set st3 = Z.of_nat k).
      * lia.
      * apply (sets_ready_same st3); [reflexivity|reflexivity|reflexivity|].
        eapply sets_ready_weaken; [exact Hsort3|]. cbv beta. intros; lia.
      * exists step, st5. split.
        { intros fuel. rewrite Hhead. cbn [rbind]. rewrite Hinit. cbn [rbind].
          rewrite (run_no_tuple _ _ Hrun3). cbn [rbind]. exact Hstep. }
        split; [by rewrite Hskel5; etrans; [exact Hskel3|]|].
        split; [exact Hsort5|].
        destruct (decide (k < sets_at p)%nat); [done|lia].
Qed.

(** A later turn in a phase: the next grouping set. *)
Lemma agg_retrieve_direct_group_next aggstate p j hasGroupingSets numReset :
  running aggstate p ->
  input_done aggstate = true ->
  projected_set aggstate = Z.of_nat j ->
  (j + 1 < sets_at p)%nat ->
  sets_ready aggstate (fun _ setno => (j < setno < sets_at p)%nat) ->
  exists step aggstate',
    (forall fuel,
       agg_retrieve_direct_group fuel aggstate hasGroupingSets numReset = Ok step)
    /\ attempt step aggstate'
    /\ skeleton aggstate'
       = skeleton (set_projected_set aggstate (Z.of_nat (j + 1)))
    /\ sets_ready aggstate' (fun _ setno => (j + 1 < setno < sets_at p)%nat).
Proof.
  intros Hrun Hinput Hproj Hj Hsorters.
  pose proof (running_phase _ _ Hrun) as Hphase.
  destruct (agg_retrieve_direct_project_run
              (set_projected_set aggstate (Z.of_nat (j + 1))) p (j + 1))
    as (step & st' & Hstep & Hattempt & Hskel & Hsort).
  - exact (run_plan _ _ Hrun).
  - exact (run_bounds _ _ Hrun).
  - reflexivity.
  - done.
  - apply (sets_ready_same aggstate); [reflexivity|reflexivity|reflexivity|].
    eapply sets_ready_weaken; [exact Hsorters|]. cbv beta. intros; lia.
  - exists step, st'. split; [|done].
    intros fuel. unfold agg_retrieve_direct_group.
    rewrite Hphase, Hinput, Hproj. fold (sets_at p). cbn [orb].
    cbn [projected_set set_projected_set].
    destruct (Z.ltb_spec (Z.of_nat j + 1) (Z.of_nat (sets_at p))) as [_|]; [|lia].
    change (input_done (set_projected_set aggstate (Z.of_nat j + 1)))
      with (input_done aggstate).
    rewrite Hinput, orb_true_r. cbn [Assert rbind].
    replace (Z.of_nat j + 1) with (Z.of_nat (j + 1)) by lia.
    exact Hstep.
Qed.

(** *** The end of a phase *)

Lemma agg_retrieve_direct_next_phase_stays fuel aggstate numReset p :
  running aggstate p ->
  input_done aggstate = false
  \/ projected_set aggstate < Z.of_nat (sets_at p) - 1 ->
  agg_retrieve_direct_next_phase fuel aggstate numReset
  = Ok (None, aggstate, numReset).
Proof.
  intros Hrun Hstay. unfold agg_retrieve_direct_next_phase.
  rewrite (running_phase _ _ Hrun). fold (sets_at p).
  destruct (input_done aggstate); [|done].
  destruct (Z.leb_spec (Z.of_nat (sets_at p) - 1) (projected_set aggstate));
    [|done].
  destruct Hstay; [done|lia].
Qed.

Lemma agg_retrieve_direct_next_phase_switch aggstate p :
  running aggstate p ->
  input_done aggstate = true ->
  Z.of_nat (sets_at p) - 1 <= projected_set aggstate ->
  (p + 1 < numphases aggstate0)%nat ->
  exists aggstate',
    (forall fuel numReset,
       agg_retrieve_direct_next_phase fuel aggstate numReset
       = Ok (None, aggstate', Z.of_nat (sets_at (p + 1))))
    /\ running aggstate' (p + 1)
    /\ input_done aggstate' = false
    /\ projected_set aggstate' = -1.
Proof.
  intros Hrun Hinput Hlast Hnext.
  assert (Hany : forall fuel numReset,
             agg_retrieve_direct_next_phase fuel aggstate numReset
             = agg_retrieve_direct_next_phase 0 aggstate 0).
  { intros fuel numReset. unfold agg_retrieve_direct_next_phase.
    rewrite (running_phase _ _ Hrun). fold (sets_at p). rewrite Hinput.
    destruct (Z.leb_spec (Z.of_nat (sets_at p) - 1) (projected_set aggstate));
      [|lia].
    cbn [andb].
    destruct (running_static _ _ Hrun) as (_ & -> & _).
    rewrite (run_phase _ _ Hrun).
    by destruct (Nat.ltb_spec (p + 1) (numphases aggstate0)); [|lia]. }
  cut (exists aggstate',
          agg_retrieve_direct_next_phase 0 aggstate 0
          = Ok (None, aggstate', Z.of_nat (sets_at (p + 1)))
          /\ running aggstate' (p + 1)
          /\ input_done aggstate' = false
          /\ projected_set aggstate' = -1).
  { intros (st' & Hswitch & Hrest). exists st'. split; [|done].
    intros fuel numReset. by rewrite Hany. }
  destruct (running_static _ _ Hrun) as (Hphases & Hnum & _).
  destruct (run_sort_out _ _ Hrun Hnext) as (sorter & Hsorter & Hempty).
  pose proof (run_bounds _ _ Hrun) as Hp.
  unfold agg_retrieve_direct_next_phase.
  rewrite (running_phase _ _ Hrun). fold (sets_at p). rewrite Hinput.
  destruct (Z.leb_spec (Z.of_nat (sets_at p) - 1) (projected_set aggstate));
    [|lia].
  cbn [andb]. rewrite Hnum, (run_phase _ _ Hrun).
  destruct (Nat.ltb_spec (p + 1) (numphases aggstate0)); [|lia].
  unfold initialize_phase. rewrite (run_phase _ _ Hrun).
  rewrite Nat.eqb_refl, orb_true_r. cbn [Assert rbind].
  destruct (Nat.leb_spec (p + 1) 1); [lia|].
  cbn [sort_in sort_out set_sort_in set_sort_out].
  rewrite Hsorter. rewrite bool_decide_eq_true_2 by eauto.
  cbn [Assert rbind fmap option_fmap option_map numphases set_sort_in set_sort_out
         phases].
  rewrite Hnum, Hphases.
  destruct (Nat.ltb_spec 0 (p + 1)); [|lia]. cbn [andb].
  destruct (Nat.ltb_spec (p + 1 + 1) (numphases aggstate0)) as [Hmore|Hlast'].
  - destruct (plan_sortnode _ Hplan (p + 1 + 1) (phase_at (p + 1 + 1)))
      as [sn Hsn]; [lia|by apply phase_at_lookup|].
    fold (phase_at (p + 1 + 1)). rewrite Hsn. cbn [rbind].
    eexists. split.
    { apply f_equal. apply (f_equal2 pair); [reflexivity|].
      unfold sets_at, phase_at, phase. simpl. by rewrite Hphases. }
    split; [|split; reflexivity].
    { destruct Hrun. split; try done.
      * unfold input_empty. simpl. by rewrite Hempty, Hlaw.
      * intros _. simpl. eauto. }
  - cbn [rbind].
    eexists. split.
    { apply f_equal. apply (f_equal2 pair); [reflexivity|].
      unfold sets_at, phase_at, phase. simpl. by rewrite Hphases. }
    split; [|split; reflexivity].
    { destruct Hrun. split; try done.
      * unfold input_empty. simpl. by rewrite Hempty, Hlaw.
      * intros ?. lia. }
Qed.

(** *** Empty hash tables *)

Definition tables_empty (aggstate : AggState) : Prop :=
  forall i ph, perhash aggstate !! i = Some ph ->
    hashtab (hashtable ph) = [] /\ spilled (hashtable ph) = false.

(** Walking empty tables gives no row and ends the stream. *)
Lemma agg_retrieve_hash_table_loop_empty d aggstate setno :
  agg_done aggstate = false ->
  tables_empty aggstate ->
  current_set aggstate = setno ->
  (setno < length (perhash aggstate))%nat ->
  (num_hashes aggstate <= length (perhash aggstate))%nat ->
  (num_hashes aggstate - setno <= d)%nat ->
  exists aggstate',
    agg_done aggstate' = true
    /\ forall fuel, (d < fuel)%nat ->
         agg_retrieve_hash_table_loop fuel aggstate setno = Ok (None, aggstate').
Proof.
  revert aggstate setno.
  induction d as [|d IH]; intros aggstate setno Hnot Hempty Hcur Hset Hlen Hd.
  - exists (set_agg_done aggstate true). split; [reflexivity|].
    intros [|fuel] Hfuel; [lia|]. cbn [agg_retrieve_hash_table_loop].
    rewrite Hnot. unfold get_perhash.
    destruct (lookup_lt_is_Some_2 _ _ Hset) as [ph Hph]. rewrite Hph.
    cbn [rbind]. destruct (Hempty _ _ Hph) as [Htab Hspilled].
    rewrite Htab, lookup_nil.
    assert (Hload : (if hybrid (hashtable ph)
                     then HybridHashtableLoadDone aggstate setno
                     else Ok (true, aggstate)) = Ok (true, aggstate)).
    { unfold HybridHashtableLoadDone, get_perhash. rewrite Hph. cbn [rbind].
      rewrite Hspilled. by destruct (hybrid _). }
    rewrite Hload. cbn [rbind negb]. rewrite Hcur.
    destruct (Nat.ltb_spec (setno + 1) (num_hashes aggstate)); [lia|done].
  - destruct (decide (setno + 1 < num_hashes aggstate)%nat) as [Hmore|Hlast].
    + destruct (lookup_lt_is_Some_2 (perhash aggstate) (setno + 1))
        as [ph' Hph']; [lia|].
      destruct (IH (put_perhash (select_current_set aggstate (setno + 1) true)
                      (setno + 1) (set_hashiter ph' 0)) (setno + 1)%nat)
        as (st' & Hdone & Hrun).
      * done.
      * intros i ph. unfold put_perhash. simpl.
        destruct (decide (i = setno + 1)%nat) as [->|Hne].
        -- rewrite list_lookup_insert_eq by lia. intros [= <-].
           simpl. by apply (Hempty (setno + 1)%nat).
        -- rewrite list_lookup_insert_ne by done. apply Hempty.
      * reflexivity.
      * unfold put_perhash. simpl. rewrite length_insert. lia.
      * unfold put_perhash. simpl. rewrite length_insert. lia.
      * simpl. lia.
      * exists st'. split; [done|].
        intros [|fuel] Hfuel; [lia|]. cbn [agg_retrieve_hash_table_loop].
        rewrite Hnot. unfold get_perhash at 1.
        destruct (lookup_lt_is_Some_2 _ _ Hset) as [ph Hph]. rewrite Hph.
        cbn [rbind]. destruct (Hempty _ _ Hph) as [Htab Hspilled].
        rewrite Htab, lookup_nil.
        assert (Hload : (if hybrid (hashtable ph)
                         then HybridHashtableLoadDone aggstate setno
                         else Ok (true, aggstate)) = Ok (true, aggstate)).
        { unfold HybridHashtableLoadDone, get_perhash. rewrite Hph. cbn [rbind].
          rewrite Hspilled. by destruct (hybrid _). }
        rewrite Hload. cbn [rbind negb]. rewrite Hcur.
        destruct (Nat.ltb_spec (setno + 1) (num_hashes aggstate)); [|lia].
        cbn [current_set select_current_set set_current_set].
        unfold get_perhash. simpl. rewrite Hph'. cbn [rbind].
        apply Hrun. lia.
    + exists (set_agg_done aggstate true). split; [reflexivity|].
      intros [|fuel] Hfuel; [lia|]. cbn [agg_retrieve_hash_table_loop].
      rewrite Hnot. unfold get_perhash.
      destruct (lookup_lt_is_Some_2 _ _ Hset) as [ph Hph]. rewrite Hph.
      cbn [rbind]. destruct (Hempty _ _ Hph) as [Htab Hspilled].
      rewrite Htab, lookup_nil.
      assert (Hload : (if hybrid (hashtable ph)
                       then HybridHashtableLoadDone aggstate setno
                       else Ok (true, aggstate)) = Ok (true, aggstate)).
      { unfold HybridHashtableLoadDone, get_perhash. rewrite Hph. cbn [rbind].
        rewrite Hspilled. by destruct (hybrid _). }
      rewrite Hload. cbn [rbind negb]. rewrite Hcur.
      destruct (Nat.ltb_spec (setno + 1) (num_hashes aggstate)); [lia|done].
Qed.

Lemma plan_of_tables aggstate :
  plan_of aggstate = plan_of aggstate0 ->
  aggstrategy aggstate0 = AGG_HASHED \/ aggstrategy aggstate0 = AGG_MIXED ->
  tables_empty aggstate
  /\ (1 <= num_hashes aggstate <= length (perhash aggstate))%nat.
Proof.
  intros Hsame Hhash.
  destruct (plan_tables _ Hplan Hhash) as [Hnum Hempty].
  destruct (plan_of_lengths _ _ Hsame) as (_ & _ & Hlen & _).
  split.
  - intros i ph Hph.
    pose proof (f_equal perhash Hsame) as Htables. simpl in Htables.
    destruct (fmap_eq_lookup _ _ _ _ _ Htables Hph) as (ph0 & Hph0 & Heq).
    apply (f_equal hashtable) in Heq. simpl in Heq. rewrite Heq.
    by apply (Hempty i).
  - by rewrite (f_equal num_hashes Hsame : num_hashes aggstate = _), Hlen.
Qed.

Lemma agg_retrieve_direct_next_phase_done fuel aggstate numReset p :
  running aggstate p ->
  input_done aggstate = true ->
  Z.of_nat (sets_at p) - 1 <= projected_set aggstate ->
  ~ (p + 1 < numphases aggstate0)%nat ->
  aggstrategy aggstate0 <> AGG_MIXED ->
  agg_retrieve_direct_next_phase fuel aggstate numReset
  = Ok (Some (Return None (set_agg_done aggstate true)),
        set_agg_done aggstate true, numReset).
Proof.
  intros Hrun Hinput Hlast Hnext Hmixed.
  destruct (running_static _ _ Hrun) as (_ & Hnum & Hstrategy & _).
  unfold agg_retrieve_direct_next_phase.
  rewrite (running_phase _ _ Hrun). fold (sets_at p). rewrite Hinput.
  destruct (Z.leb_spec (Z.of_nat (sets_at p) - 1) (projected_set aggstate));
    [|lia].
  cbn [andb]. rewrite Hnum, (run_phase _ _ Hrun).
  destruct (Nat.ltb_spec (p + 1) (numphases aggstate0)); [lia|].
  rewrite Hstrategy. by destruct (aggstrategy aggstate0).
Qed.

Lemma agg_retrieve_direct_next_phase_mixed aggstate p :
  running aggstate p ->
  input_done aggstate = true ->
  Z.of_nat (sets_at p) - 1 <= projected_set aggstate ->
  ~ (p + 1 < numphases aggstate0)%nat ->
  aggstrategy aggstate0 = AGG_MIXED ->
  exists aggstate',
    agg_done aggstate' = true
    /\ forall fuel numReset, (num_hashes aggstate0 < fuel)%nat ->
         agg_retrieve_direct_next_phase fuel aggstate numReset
         = Ok (Some (Return None aggstate'), aggstate', numReset).
Proof.
  intros Hrun Hinput Hlast Hnext Hmixed.
  destruct (running_static _ _ Hrun) as (_ & Hnum & Hstrategy & _).
  destruct (plan_of_tables aggstate (run_plan _ _ Hrun)) as [Hempty Hhashes];
    [by right|].
  destruct (lookup_lt_is_Some_2 (perhash aggstate) 0) as [ph0 Hph0]; [lia|].
  set (st1 := select_current_set
                (put_perhash
                   (set_table_filled
                      (set_current_phase
                         (set_sort_out (set_sort_in aggstate None) None) 0)
                      true)
                   0 (set_hashiter ph0 0))
                0 true).
  destruct (agg_retrieve_hash_table_loop_empty (num_hashes aggstate0) st1 0)
    as (st' & Hdone & Hloop).
  - exact (run_not_done _ _ Hrun).
  - intros i ph. subst st1. unfold put_perhash. simpl.
    destruct (decide (i = 0)%nat) as [->|Hne].
    + rewrite list_lookup_insert_eq by lia. intros [= <-].
      simpl. by apply (Hempty 0%nat).
    + rewrite list_lookup_insert_ne by done. apply Hempty.
  - reflexivity.
  - subst st1. unfold put_perhash. simpl. rewrite length_insert. lia.
  - subst st1. unfold put_perhash. simpl. rewrite length_insert. lia.
  - subst st1. simpl.
    rewrite (f_equal num_hashes (run_plan _ _ Hrun)
             : num_hashes aggstate = num_hashes aggstate0). lia.
  - exists st'. split; [done|]. intros fuel numReset Hfuel.
    unfold agg_retrieve_direct_next_phase.
    rewrite (running_phase _ _ Hrun). fold (sets_at p). rewrite Hinput.
    destruct (Z.leb_spec (Z.of_nat (sets_at p) - 1) (projected_set aggstate));
      [|lia].
    cbn [andb]. rewrite Hnum, (run_phase _ _ Hrun).
    destruct (Nat.ltb_spec (p + 1) (numphases aggstate0)); [lia|].
    rewrite Hstrategy, Hmixed. cbn [AggStrategy_eqb].
    unfold initialize_phase. cbn [Nat.leb orb Assert rbind].
    cbn [Nat.ltb Nat.leb andb rbind]. unfold get_perhash. simpl perhash.
    rewrite Hph0. cbn [rbind]. unfold agg_retrieve_hash_table.
    fold st1. change (current_set st1) with 0%nat.
    rewrite (Hloop fuel Hfuel). reflexivity.
Qed.

(** *** The rows of a run *)

(** The grouping sets a phase projects when there is no input: those from
    its first empty one on. *)
Definition sets_projected (ph : AggStatePerPhaseData) : nat :=
  Nat.max (numsets ph) 1
  - leading_nonempty (gset_lengths ph) (Nat.max (numsets ph) 1).

(** The grouping sets the phases after [p] will project. *)
Definition rows_after (p : nat) : nat :=
  sum_list (sets_projected
              <$> drop (S p) (take (numphases aggstate0) (phases aggstate0))).

Lemma rows_after_next p :
  (p + 1 < numphases aggstate0)%nat ->
  rows_after p = (sets_projected (phase_at (p + 1)) + rows_after (p + 1))%nat.
Proof.
  intros Hp. unfold rows_after.
  rewrite (drop_S _ (phase_at (p + 1)) (S p)).
  - rewrite fmap_cons. simpl. by rewrite Nat.add_1_r.
  - rewrite lookup_take_lt by lia.
    rewrite <- Nat.add_1_r. apply phase_at_lookup. lia.
Qed.

Lemma rows_after_last p :
  ~ (p + 1 < numphases aggstate0)%nat -> rows_after p = 0%nat.
Proof.
  intros Hp. unfold rows_after. rewrite drop_ge; [done|].
  rewrite length_take. lia.
Qed.

(** The run is in the phase [p], past its grouping set [j], with every
    later set of the phase still to be projected. *)
Record between (aggstate : AggState) (p j : nat) : Prop := {
  btw_running : running aggstate p;
  btw_input_done : input_done aggstate = true;
  btw_projected : projected_set aggstate = Z.of_nat j;
  btw_ready : sets_ready aggstate (fun _ setno => (j < setno < sets_at p)%nat)
}.

Definition rows_left (p j : nat) : nat := (sets_at p - 1 - j + rows_after p)%nat.

(** What a call answers when at most [m] rows are still to come: a row,
    with fewer to come; or the end. *)
Definition outcome (answer : option TupleTableSlot * AggState) (m : nat) : Prop :=
  match answer with
  | (Some row, aggstate') =>
      emitted row
      /\ exists p j,
           between aggstate' p j /\ (rows_left p j < m)%nat
           /\ (accepts_all -> S (rows_left p j) = m)
  | (None, aggstate') => agg_done aggstate' = true /\ (accepts_all -> m = 0%nat)
  end.

Lemma outcome_weaken answer m m' :
  outcome answer m' -> (m' <= m)%nat -> (accepts_all -> m' = m) ->
  outcome answer m.
Proof.
  destruct answer as [[row|] st]; simpl.
  - intros (Hrow & p & j & Hb & Hlt & Hall) Hle Heq. split; [done|].
    exists p, j.
    split; [done|]. split; [lia|]. intros H. rewrite <- (Heq H). by apply Hall.
  - intros (Hdone & Hall) Hle Heq. split; [done|].
    intros H. rewrite <- (Heq H). by apply Hall.
Qed.

(** How the loop goes on after a turn. *)
Definition resume (fuel : nat) (step : LoopStep)
  : result (option TupleTableSlot * AggState) :=
  match step with
  | Continue aggstate => agg_retrieve_direct_loop fuel aggstate true
  | Return result aggstate => Ok (result, aggstate)
  end.

Lemma agg_retrieve_direct_loop_S fuel aggstate :
  agg_done aggstate = false ->
  agg_retrieve_direct_loop (S fuel) aggstate true
  = rbind (agg_retrieve_direct_body fuel aggstate true) (resume fuel).
Proof.
  intros Hnot. cbn [agg_retrieve_direct_loop]. rewrite Hnot.
  destruct (agg_retrieve_direct_body fuel aggstate true) as [[?|? ?]|]; done.
Qed.

(** With enough fuel the loop answers, and the answer is an [outcome]. *)
Definition converges (run : nat -> result (option TupleTableSlot * AggState))
  (m : nat) : Prop :=
  exists fuel0 answer,
    outcome answer m /\ forall fuel, (fuel0 <= fuel)%nat -> run fuel = Ok answer.

(** The first turn of a phase, given how the loop goes on within it. *)
Lemma first_turn_converges p aggstate :
  (forall j st, between st p j ->
     converges (fun fuel => agg_retrieve_direct_loop fuel st true) (rows_left p j)) ->
  running aggstate p ->
  input_done aggstate = false ->
  projected_set aggstate = -1 ->
  converges
    (fun fuel =>
       rbind (agg_retrieve_direct_group fuel aggstate true (Z.of_nat (sets_at p)))
         (resume fuel))
    (sets_projected (phase_at p) + rows_after p).
Proof.
  intros IH Hrun Hinput Hproj.
  set (k := leading_nonempty (gset_lengths (phase_at p)) (sets_at p)).
  assert (Hk : (k <= sets_at p)%nat) by apply leading_nonempty_le.
  assert (Hm : (sets_projected (phase_at p) = sets_at p - k)%nat) by done.
  assert (Hbetween : forall st,
             skeleton st = skeleton (set_projected_set (set_input_done aggstate true)
                                       (Z.of_nat k)) ->
             sets_ready st (fun _ setno => (k < setno < sets_at p)%nat) ->
             between st p k).
  { intros st Hskel Hsort. split.
    - apply (running_skeleton _ _ _ Hskel). by apply running_projected.
    - exact (f_equal input_done Hskel).
    - exact (f_equal projected_set Hskel).
    - done. }
  destruct (decide (k < sets_at p)%nat) as [Hlt|Hge].
  - (* the set [k] is tried *)
    assert (Hstep : exists step st',
               (forall fuel,
                  agg_retrieve_direct_group fuel aggstate true
                    (Z.of_nat (sets_at p)) = Ok step)
               /\ attempt step st' /\ between st' p k).
    { destruct (agg_retrieve_direct_group_first aggstate p Hrun Hinput Hproj)
        as (step & st' & Hgroup & Hskel & Hsort & Hattempt).
      fold k in Hskel, Hsort, Hattempt.
      destruct (decide (k < sets_at p)%nat); [|lia].
      exists step, st'. split; [done|]. split; [done|by apply Hbetween]. }
    destruct Hstep as (step & st' & Hgroup & [Hcases Hall] & Hbtw).
    destruct Hcases as [->|(row & -> & Hemitted)].
    + destruct (IH k st' Hbtw) as (fuel0 & answer & Hout & Hloop).
      exists fuel0, answer. split.
      * apply (outcome_weaken _ _ (rows_left p k)); [done|unfold rows_left; lia|].
        intros Haccept. destruct (Hall Haccept) as (row & Hrow & _). discriminate.
      * intros fuel Hfuel. rewrite Hgroup. cbn [rbind resume]. by apply Hloop.
    + exists 0%nat, (Some row, st'). split.
      * split; [done|].
        exists p, k. split; [done|]. unfold rows_left. split; lia.
      * intros fuel _. by rewrite Hgroup.
  - (* every set of the phase has a column *)
    assert (Hstep : exists st',
               (forall fuel,
                  agg_retrieve_direct_group fuel aggstate true
                    (Z.of_nat (sets_at p)) = Ok (Continue st'))
               /\ between st' p k).
    { destruct (agg_retrieve_direct_group_first aggstate p Hrun Hinput Hproj)
        as (step & st' & Hgroup & Hskel & Hsort & Hattempt).
      fold k in Hskel, Hsort, Hattempt.
      destruct (decide (k < sets_at p)%nat); [lia|]. subst step.
      exists st'. split; [done|by apply Hbetween]. }
    destruct Hstep as (st' & Hgroup & Hbtw).
    destruct (IH k st' Hbtw) as (fuel0 & answer & Hout & Hloop).
    exists fuel0, answer. split.
    + apply (outcome_weaken _ _ (rows_left p k)); [done| |];
        unfold rows_left; lia.
    + intros fuel Hfuel. rewrite Hgroup. cbn [rbind resume]. by apply Hloop.
Qed.

(** The turns of a phase, given how the next phase begins. *)
Lemma phase_converges p :
  ((p + 1 < numphases aggstate0)%nat ->
   forall st, running st (p + 1) -> input_done st = false ->
     projected_set st = -1 ->
     converges
       (fun fuel =>
          rbind (agg_retrieve_direct_group fuel st true
                   (Z.of_nat (sets_at (p + 1))))
            (resume fuel))
       (sets_projected (phase_at (p + 1)) + rows_after (p + 1))) ->
  forall e j st,
    (sets_at p - 1 - j <= e)%nat ->
    between st p j ->
    converges (fun fuel => agg_retrieve_direct_loop fuel st true) (rows_left p j).
Proof.
  intros Hnext. induction e as [|e IH]; intros j st He Hbtw;
    destruct Hbtw as [Hrun Hinput Hproj Hsorters];
    pose proof (run_not_done _ _ Hrun) as Hnot.
  - (* the phase is over *)
    assert (Hover : Z.of_nat (sets_at p) - 1 <= projected_set st) by lia.
    assert (Hleft : rows_left p j = rows_after p) by (unfold rows_left; lia).
    rewrite Hleft.
    destruct (decide (p + 1 < numphases aggstate0)%nat) as [Hmore|Hlast].
    + destruct (agg_retrieve_direct_next_phase_switch st p Hrun Hinput Hover Hmore)
        as (st1 & Hswitch & Hrun1 & Hinput1 & Hproj1).
      destruct (Hnext Hmore st1 Hrun1 Hinput1 Hproj1)
        as (fuel0 & answer & Hout & Hloop).
      exists (S fuel0), answer. split; [by rewrite rows_after_next|].
      intros [|fuel] Hfuel; [lia|].
      rewrite agg_retrieve_direct_loop_S by done.
      unfold agg_retrieve_direct_body. rewrite Hswitch. cbn [rbind].
      apply Hloop. lia.
    + rewrite (rows_after_last p Hlast).
      assert (Hmixed : aggstrategy aggstate0 = AGG_MIXED
                       \/ aggstrategy aggstate0 <> AGG_MIXED)
        by (destruct (aggstrategy aggstate0); (by left) || (by right)).
      destruct Hmixed as [Hmixed|Hnot_mixed].
      * destruct (agg_retrieve_direct_next_phase_mixed st p
                    Hrun Hinput Hover Hlast Hmixed) as (st' & Hdone & Hhash).
        exists (S (S (num_hashes aggstate0))), (None, st'). split; [done|].
        intros [|fuel] Hfuel; [lia|].
        rewrite agg_retrieve_direct_loop_S by done.
        unfold agg_retrieve_direct_body. rewrite Hhash by lia. reflexivity.
      * exists 1%nat, (None, set_agg_done st true). split; [done|].
        intros [|fuel] Hfuel; [lia|].
        rewrite agg_retrieve_direct_loop_S by done.
        unfold agg_retrieve_direct_body.
        by rewrite (agg_retrieve_direct_next_phase_done _ _ _ p).
  - destruct (decide (j + 1 < sets_at p)%nat) as [Hin|Hout].
    2: { apply (IH j st); [lia|by split]. }
    destruct (agg_retrieve_direct_group_next st p j true
                (if (0 <=? projected_set st)
                    && (projected_set st
                        <? Z.of_nat (Nat.max (numsets (phase st)) 1))
                 then projected_set st + 1
                 else Z.of_nat (Nat.max (numsets (phase st)) 1))
                Hrun Hinput Hproj Hin Hsorters)
      as (step & st' & Hgroup & [Hcases Hall] & Hskel & Hsort).
    assert (Hbtw : between st' p (j + 1)).
    { split.
      - apply (running_skeleton _ _ _ Hskel). destruct Hrun. by split.
      - rewrite (f_equal input_done Hskel : input_done st' = input_done st).
        exact Hinput.
      - exact (f_equal projected_set Hskel).
      - done. }
    assert (Hturn : forall fuel,
               agg_retrieve_direct_loop (S fuel) st true = resume fuel step).
    { intros fuel. rewrite agg_retrieve_direct_loop_S by done.
      unfold agg_retrieve_direct_body.
      rewrite (agg_retrieve_direct_next_phase_stays _ _ _ p) by (done || (right; lia)).
      cbn [rbind]. by rewrite Hgroup. }
    destruct Hcases as [->|(row & -> & Hemitted)].
    + destruct (IH (j + 1)%nat st') as (fuel0 & answer & Hout & Hloop); [lia|done|].
      exists (S fuel0), answer. split.
      * apply (outcome_weaken _ _ (rows_left p (j + 1))); [done|unfold rows_left; lia|].
        intros Haccept. destruct (Hall Haccept) as (row & Hrow & _). discriminate.
      * intros [|fuel] Hfuel; [lia|]. rewrite Hturn. apply Hloop. lia.
    + exists 1%nat, (Some row, st'). split.
      * split; [done|].
        exists p, (j + 1)%nat. split; [done|]. unfold rows_left. split; lia.
      * intros [|fuel] Hfuel; [lia|]. by rewrite Hturn.
Qed.

Lemma between_converges d p j aggstate :
  (numphases aggstate0 - p <= d)%nat ->
  between aggstate p j ->
  converges (fun fuel => agg_retrieve_direct_loop fuel aggstate true)
    (rows_left p j).
Proof.
  revert p j aggstate. induction d as [|d IH]; intros p j st Hd Hbtw.
  - apply (phase_converges p) with (e := sets_at p); [intros; lia|lia|done].
  - apply (phase_converges p) with (e := sets_at p); [|lia|done].
    intros Hmore st1 Hrun1 Hinput1 Hproj1.
    apply first_turn_converges; [|done..].
    intros j' st' Hbtw'. apply IH; [lia|done].
Qed.

(** The first call on a plan with grouping sets. *)
Lemma start_converges aggstate p :
  running aggstate p ->
  input_done aggstate = false ->
  projected_set aggstate = -1 ->
  converges (fun fuel => agg_retrieve_direct_loop fuel aggstate true)
    (sets_projected (phase_at p) + rows_after p).
Proof.
  intros Hrun Hinput Hproj.
  destruct (first_turn_converges p aggstate) as (fuel0 & answer & Hout & Hloop);
    [|done..|].
  { intros j st Hbtw.
    apply (between_converges (numphases aggstate0) p j st); [lia|done]. }
  exists (S fuel0), answer. split; [done|].
  intros [|fuel] Hfuel; [lia|].
  rewrite agg_retrieve_direct_loop_S by exact (run_not_done _ _ Hrun).
  unfold agg_retrieve_direct_body.
  rewrite (agg_retrieve_direct_next_phase_stays _ _ _ p) by (done || by left).
  cbn [rbind]. rewrite Hproj, (running_phase _ _ Hrun). fold (sets_at p).
  cbn [Z.leb Z.compare andb]. apply Hloop. lia.
Qed.

(** *** ExecAgg *)

(** The plan has grouping sets. *)
Definition has_grouping_sets : Prop := (0 < numsets (phase_at 1))%nat.

Lemma ExecAgg_direct fuel aggstate p hasGroupingSets answer :
  running aggstate p ->
  hasGroupingSets = (0 <? numsets (phase_at p))%nat ->
  agg_retrieve_direct_loop fuel aggstate hasGroupingSets = Ok answer ->
  ExecAgg fuel aggstate = Ok answer.
Proof.
  intros Hrun -> Hloop. unfold ExecAgg.
  rewrite (run_not_done _ _ Hrun). cbn [negb].
  pose proof (run_bounds _ _ Hrun) as Hp.
  assert (Hdirect : agg_retrieve_direct fuel aggstate = Ok answer).
  { unfold agg_retrieve_direct. by rewrite (running_phase _ _ Hrun). }
  assert (Hdispatch :
            match phase_aggstrategy (phase aggstate) with
            | AGG_HASHED =>
                aggstate1 <-! (if negb (table_filled aggstate)
                               then agg_fill_hash_table fuel aggstate
                               else Ok aggstate) ;;
                agg_retrieve_hash_table fuel aggstate1
            | AGG_MIXED => agg_retrieve_hash_table fuel aggstate
            | _ => agg_retrieve_direct fuel aggstate
            end = Ok answer).
  { rewrite (running_phase _ _ Hrun).
    destruct (plan_strategy _ Hplan p (phase_at p)) as [-> | ->];
      [done|apply phase_at_lookup; lia|done|done]. }
  rewrite Hdispatch. cbn [rbind].
  pose proof (agg_retrieve_direct_loop_good _ _ _ _ Hloop) as Hgood.
  destruct answer as [[slot|] st']; [|done].
  simpl in Hgood. by rewrite Hgood.
Qed.

Lemma running_grouping_sets aggstate p :
  has_grouping_sets -> running aggstate p ->
  (0 <? numsets (phase_at p))%nat = true.
Proof.
  intros Hsets Hrun. pose proof (run_bounds _ _ Hrun) as Hp.
  apply Nat.ltb_lt.
  apply (plan_sets _ Hplan (phase_at 1)) with (p := p).
  - apply phase_at_lookup. lia.
  - exact Hsets.
  - done.
  - apply phase_at_lookup. lia.
Qed.

(** What draining gives when at most [m] rows are to come. *)
Definition drains (aggstate : AggState) (m : nat) : Prop :=
  exists fuel0 rows aggstate',
    (length rows <= m)%nat
    /\ (accepts_all -> length rows = m)
    /\ Forall emitted rows
    /\ forall fuel n, (fuel0 <= fuel)%nat -> (m < n)%nat ->
         ExecAgg_drain fuel n aggstate = Ok (rows, true, aggstate').

Lemma drains_step aggstate p m :
  running aggstate p ->
  has_grouping_sets ->
  converges (fun fuel => agg_retrieve_direct_loop fuel aggstate true) m ->
  (forall st p' j', between st p' j' -> (rows_left p' j' < m)%nat ->
     drains st (rows_left p' j')) ->
  drains aggstate m.
Proof.
  intros Hrun Hsets (fuel0 & answer & Hout & Hloop) IH.
  assert (Hcall : forall fuel, (fuel0 <= fuel)%nat ->
             ExecAgg fuel aggstate = Ok answer).
  { intros fuel Hfuel. apply (ExecAgg_direct _ _ p true); [done| |by apply Hloop].
    symmetry. by apply (running_grouping_sets aggstate). }
  destruct answer as [[row|] st1]; simpl in Hout.
  - destruct Hout as (Hrow & p' & j' & Hbtw & Hlt & Hall).
    destruct (IH st1 p' j' Hbtw Hlt)
      as (fuel1 & rows & st' & Hlen & Hexact & Hrows & Hdrain).
    exists (Nat.max fuel0 fuel1), (row :: rows), st'. split; [simpl; lia|].
    split.
    { intros Haccept. simpl. rewrite (Hexact Haccept). by apply Hall. }
    split; [by constructor|].
    intros fuel [|n] Hfuel Hn; [lia|]. cbn [ExecAgg_drain].
    rewrite Hcall by lia. cbn [rbind].
    rewrite (Hdrain fuel n) by lia. reflexivity.
  - destruct Hout as [Hdone Hall].
    exists fuel0, [], st1. split; [simpl; lia|]. split.
    { intros Haccept. simpl. by rewrite (Hall Haccept). }
    split; [constructor|].
    intros fuel [|n] Hfuel Hn; [lia|]. cbn [ExecAgg_drain].
    rewrite Hcall by lia. reflexivity.
Qed.

Lemma drains_between b aggstate p j :
  has_grouping_sets ->
  between aggstate p j ->
  (rows_left p j < b)%nat ->
  drains aggstate (rows_left p j).
Proof.
  intros Hsets. revert aggstate p j.
  induction b as [|b IH]; intros st p j Hbtw Hb; [lia|].
  apply (drains_step st p); [exact (btw_running _ _ _ Hbtw)|done| |].
  - apply (between_converges (numphases aggstate0)); [lia|done].
  - intros st1 p' j' Hbtw' Hlt. apply IH; [done|lia].
Qed.

(** A plan with grouping sets, from the state ExecInitAgg leaves. *)
Lemma drains_grouping_sets aggstate :
  has_grouping_sets ->
  running aggstate 1 ->
  input_done aggstate = false ->
  projected_set aggstate = -1 ->
  drains aggstate (sets_projected (phase_at 1) + rows_after 1).
Proof.
  intros Hsets Hrun Hinput Hproj.
  apply (drains_step aggstate 1); [done|done|by apply start_converges|].
  intros st p j Hbtw Hlt.
  by apply (drains_between (S (rows_left p j))); [| |lia].
Qed.

(** *** A plan without grouping sets *)

Lemma agg_retrieve_direct_group_plain aggstate p :
  running aggstate p ->
  input_done aggstate = false ->
  projected_set aggstate = -1 ->
  exists step aggstate',
    (forall fuel,
       agg_retrieve_direct_group fuel aggstate false (Z.of_nat (sets_at p))
       = Ok step)
    /\ agg_done aggstate' = true
    /\ (if AggStrategy_eqb (plan_aggstrategy (phase_aggnode (phase_at p))) AGG_PLAIN
        then attempt step aggstate'
        else step = Return None aggstate').
Proof.
  intros Hrun Hinput Hproj.
  pose proof (running_phase _ _ Hrun) as Hphase.
  assert (Hn : (0 < sets_at p)%nat) by (unfold sets_at; lia).
  destruct (fetch_input_tuple_empty (set_projected_set aggstate 0))
    as (st1 & Hfetch & Hskel1).
  { exact (run_input _ _ Hrun). }
  assert (Hsame1 : plan_of (set_agg_done st1 true) = plan_of aggstate0).
  { change (plan_of st1 = plan_of aggstate0).
    rewrite (skeleton_plan_of _ _ Hskel1). exact (run_plan _ _ Hrun). }
  assert (Hhead : forall fuel,
             agg_retrieve_direct_group fuel aggstate false (Z.of_nat (sets_at p))
             = rbind
                 (rbind
                    (if negb (AggStrategy_eqb
                                (plan_aggstrategy (phase_aggnode (phase_at p)))
                                AGG_PLAIN)
                     then Ok (Some (Return None (set_agg_done st1 true)),
                              set_agg_done st1 true)
                     else Ok (None, set_agg_done st1 true))
                    (fun '(early, st) =>
                       match early with
                       | Some step => Ok (Some step, st)
                       | None =>
                           st <-! initialize_aggregates st (SortedGroups 0)
                                    (Z.of_nat (sets_at p)) ;;
                           st <-!
                             match grp_firstTuple st with
                             | Some tuple =>
                                 advance_group fuel
                                   (set_tmp_outertuple
                                      (set_grp_firstTuple
                                         (set_ss_ScanTupleSlot st
                                            (ExecStoreTuple tuple
                                               (ss_ScanTupleSlot st)))
                                         None)
                                      ScanSlot)
                                   (phase_aggnode (phase_at p)) false
                             | None => Ok st
                             end ;;
                           Ok (None, set_ecxt_outertuple st ScanSlot)
                       end))
                 (fun '(early, st) =>
                    match early with
                    | Some step => Ok step
                    | None => agg_retrieve_direct_project st
                    end)).
  { intros fuel. unfold agg_retrieve_direct_group.
    rewrite Hphase, Hinput, Hproj. fold (sets_at p).
    cbn [Z.leb Z.compare andb orb Z.eqb negb].
    rewrite !andb_false_r. cbn [andb].
    change (grp_firstTuple (set_projected_set aggstate 0))
      with (grp_firstTuple aggstate).
    rewrite (run_no_tuple _ _ Hrun).
    rewrite Hfetch. cbn [TupIsNull negb]. reflexivity. }
  destruct (AggStrategy_eqb (plan_aggstrategy (phase_aggnode (phase_at p)))
              AGG_PLAIN) eqn:Hplain; cbn [negb] in Hhead.
  - destruct (initialize_aggregates_run (set_agg_done st1 true) (sets_at p))
      as (st3 & Hinit & Hskel3 & Hsort3).
    + done.
    + exact (fit_pertrans _ _ (plan_fit _ p Hsame1 (run_bounds _ _ Hrun))).
    + exact (fit_pergroup _ _ (plan_fit _ p Hsame1 (run_bounds _ _ Hrun))).
    + intros t q Hq Hpos.
      by destruct (fit_sorters _ _ (plan_fit _ p Hsame1 (run_bounds _ _ Hrun))
                     t q Hq Hpos).
    + assert (Hnone : grp_firstTuple st3 = None).
      { rewrite (f_equal grp_firstTuple Hskel3
                 : grp_firstTuple st3 = grp_firstTuple st1).
        rewrite (f_equal grp_firstTuple Hskel1
                 : grp_firstTuple st1 = grp_firstTuple aggstate).
        exact (run_no_tuple _ _ Hrun). }
      destruct (agg_retrieve_direct_project_run
                  (set_ecxt_outertuple st3 ScanSlot) p 0)
        as (step & st5 & Hstep & Hattempt & Hskel5 & Hsort5).
      * change (plan_of st3 = plan_of aggstate0).
        by rewrite (skeleton_plan_of _ _ Hskel3).
      * exact (run_bounds _ _ Hrun).
      * change (projected_set st3 = 0).
        rewrite (f_equal projected_set Hskel3
                 : projected_set st3 = projected_set st1).
        exact (f_equal projected_set Hskel1).
      * done.
      * apply (sets_ready_same st3); [reflexivity|reflexivity|reflexivity|].
        eapply sets_ready_weaken; [exact Hsort3|]. cbv beta. intros; lia.
      * exists step, st5. split; [|split; [|done]].
        { intros fuel. rewrite Hhead. cbn [rbind]. rewrite Hinit. cbn [rbind].
          rewrite Hnone. cbn [rbind]. exact Hstep. }
        rewrite (f_equal agg_done Hskel5 : agg_done st5 = agg_done st3).
        exact (f_equal agg_done Hskel3).
  - exists (Return None (set_agg_done st1 true)), (set_agg_done st1 true).
    split; [intros fuel; rewrite Hhead; reflexivity|].
    split; reflexivity.
Qed.

Lemma ExecAgg_done fuel aggstate :
  agg_done aggstate = true -> ExecAgg fuel aggstate = Ok (None, aggstate).
Proof. intros Hdone. unfold ExecAgg. by rewrite Hdone. Qed.

Lemma drains_plain aggstate :
  ~ has_grouping_sets ->
  running aggstate 1 ->
  input_done aggstate = false ->
  projected_set aggstate = -1 ->
  drains aggstate
    (if AggStrategy_eqb (plan_aggstrategy (phase_aggnode (phase_at 1))) AGG_PLAIN
     then 1 else 0).
Proof.
  intros Hsets Hrun Hinput Hproj.
  pose proof (run_not_done _ _ Hrun) as Hnot.
  assert (Hflag : false = (0 <? numsets (phase_at 1))%nat).
  { symmetry. apply Nat.ltb_ge. unfold has_grouping_sets in Hsets. lia. }
  destruct (agg_retrieve_direct_group_plain aggstate 1 Hrun Hinput Hproj)
    as (step & st' & Hgroup & Hdone & Hstep).
  assert (Hturn : forall fuel,
             agg_retrieve_direct_loop (S fuel) aggstate false
             = match step with
               | Continue st => agg_retrieve_direct_loop fuel st false
               | Return result st => Ok (result, st)
               end).
  { intros fuel. cbn [agg_retrieve_direct_loop]. rewrite Hnot.
    unfold agg_retrieve_direct_body.
    rewrite (agg_retrieve_direct_next_phase_stays _ _ _ 1) by (done || by left).
    cbn [rbind]. rewrite Hproj, (running_phase _ _ Hrun). fold (sets_at 1).
    cbn [Z.leb Z.compare andb]. rewrite Hgroup. by destruct step. }
  destruct (AggStrategy_eqb _ _).
  - destruct Hstep as [[->|(row & -> & Hemitted)] Hall].
    + exists 2%nat, [], st'. split; [simpl; lia|]. split.
      { intros Haccept. destruct (Hall Haccept) as (row & Hrow & _).
        discriminate. }
      split; [constructor|].
      intros fuel [|n] Hfuel Hn; [lia|]. cbn [ExecAgg_drain].
      rewrite (ExecAgg_direct fuel aggstate 1 false (None, st')); [done|done|done|].
      destruct fuel as [|[|fuel]]; [lia|lia|]. rewrite Hturn.
      cbn [agg_retrieve_direct_loop]. by rewrite Hdone.
    + exists 1%nat, [row], st'. split; [simpl; lia|]. split; [done|].
      split; [by repeat constructor|].
      intros fuel [|[|n]] Hfuel Hn; [lia|lia|]. cbn [ExecAgg_drain].
      rewrite (ExecAgg_direct fuel aggstate 1 false (Some row, st'));
        [|done|done|].
      * cbn [rbind]. by rewrite (ExecAgg_done fuel st' Hdone).
      * destruct fuel as [|fuel]; [lia|]. by rewrite Hturn.
  - subst step. exists 1%nat, [], st'. split; [simpl; lia|]. split; [done|].
    split; [constructor|].
    intros fuel [|n] Hfuel Hn; [lia|]. cbn [ExecAgg_drain].
    rewrite (ExecAgg_direct fuel aggstate 1 false (None, st')); [done|done|done|].
    destruct fuel as [|fuel]; [lia|]. by rewrite Hturn.
Qed.

(** *** Hashed aggregation *)

Lemma for_each_same {S : Type} n (body : nat -> S -> result S) s :
  (forall i, (i < n)%nat -> body i s = Ok s) -> for_each n body s = Ok s.
Proof.
  induction n as [|n IH]; intros Hbody; [done|].
  rewrite for_each_S, IH by (intros; apply Hbody; lia).
  apply Hbody. lia.
Qed.

Lemma drains_hashed aggstate :
  plan_of aggstate = plan_of aggstate0 ->
  aggstrategy aggstate0 = AGG_HASHED ->
  phase_aggstrategy (phase aggstate) = AGG_HASHED ->
  agg_done aggstate = false ->
  table_filled aggstate = false ->
  input_empty aggstate ->
  drains aggstate 0.
Proof.
  intros Hsame Hhashed Hphase Hnot Hfilled Hinput.
  destruct (fetch_input_tuple_empty aggstate Hinput) as (st1 & Hfetch & Hskel1).
  assert (Hsame1 : plan_of st1 = plan_of aggstate0)
    by (by rewrite (skeleton_plan_of _ _ Hskel1)).
  destruct (plan_of_tables st1 Hsame1) as [Hempty Hhashes]; [by left|].
  destruct (lookup_lt_is_Some_2 (perhash st1) 0) as [ph0 Hph0]; [lia|].
  set (st2 := put_perhash (select_current_set (set_table_filled st1 true) 0 true)
                0 (set_hashiter ph0 0)).
  destruct (agg_retrieve_hash_table_loop_empty (num_hashes aggstate0) st2 0)
    as (st' & Hdone & Hloop).
  - change (agg_done st1 = false).
    by rewrite (f_equal agg_done Hskel1 : agg_done st1 = agg_done aggstate).
  - intros i ph. subst st2. unfold put_perhash. simpl.
    destruct (decide (i = 0)%nat) as [->|Hne].
    + rewrite list_lookup_insert_eq by lia. intros [= <-].
      simpl. by apply (Hempty 0%nat).
    + rewrite list_lookup_insert_ne by done. apply Hempty.
  - reflexivity.
  - subst st2. unfold put_perhash. simpl. rewrite length_insert. lia.
  - subst st2. unfold put_perhash. simpl. rewrite length_insert. lia.
  - subst st2. simpl.
    rewrite (f_equal num_hashes Hsame1 : num_hashes st1 = num_hashes aggstate0).
    lia.
  - exists (S (num_hashes aggstate0)), [], st'. split; [done|]. split; [done|].
    split; [constructor|].
    intros fuel [|n] Hfuel Hn; [lia|]. cbn [ExecAgg_drain].
    assert (Hcall : ExecAgg fuel aggstate = Ok (None, st')).
    { unfold ExecAgg. rewrite Hnot, Hphase, Hfilled. cbn [negb].
      destruct fuel as [|fuel]; [lia|].
      unfold agg_fill_hash_table. cbn [agg_fill_hash_table_loop].
      rewrite Hfetch. cbn [TupIsNull].
      assert (Hdump : (if g_hybrid_hash_agg
                       then dump_hashtable_if_spilled fuel st1
                       else Ok st1) = Ok st1).
      { destruct g_hybrid_hash_agg; [|done].
        unfold dump_hashtable_if_spilled. apply for_each_same.
        intros i Hi. unfold get_perhash.
        destruct (lookup_lt_is_Some_2 (perhash st1) i) as [ph Hph]; [lia|].
        rewrite Hph. cbn [rbind]. by destruct (Hempty i ph Hph) as [_ ->]. }
      rewrite Hdump. cbn [rbind]. unfold get_perhash. simpl perhash.
      rewrite Hph0. cbn [rbind].
      destruct (Hempty 0%nat ph0 Hph0) as [_ ->]. cbn [negb rbind].
      unfold agg_retrieve_hash_table. fold st2.
      change (current_set st2) with 0%nat.
      rewrite (Hloop (S fuel)) by lia. reflexivity. }
    rewrite Hcall. reflexivity.
Qed.

End Run.

(** *** The rows of an aggregation without input *)

(** The state ExecInitAgg leaves, over an outer plan that has no row. *)
Record initial (aggstate : AggState) : Prop := {
  init_not_done : agg_done aggstate = false;
  init_input_done : input_done aggstate = false;
  init_projected : projected_set aggstate = -1;
  init_no_tuple : grp_firstTuple aggstate = None;
  init_sort_in : sort_in aggstate = None;
  init_no_rows : lefttree aggstate = [];
  init_table : table_filled aggstate = false;
  init_phase :
    match aggstrategy aggstate with
    | AGG_HASHED => phase_aggstrategy (phase aggstate) = AGG_HASHED
    | _ => current_phase aggstate = 1%nat /\ (1 < numphases aggstate)%nat
    end;
  init_sort_out :
    (2 < numphases aggstate)%nat ->
    exists sorter, sort_out aggstate = Some sorter /\ ts_tuples sorter = []
}.

(** The rows an aggregation without input has to give: none when hashed;
    one for a plain aggregate without grouping sets; else one for every
    grouping set of every phase from the first empty grouping set of the
    phase on. *)
Definition empty_input_rows (aggstate : AggState) : nat :=
  match aggstrategy aggstate with
  | AGG_HASHED => 0
  | _ =>
      let first := default phase_zero (phases aggstate !! 1%nat) in
      if (0 <? numsets first)%nat
      then sum_list (sets_projected
                       <$> drop 1 (take (numphases aggstate) (phases aggstate)))
      else if AggStrategy_eqb (plan_aggstrategy (phase_aggnode first)) AGG_PLAIN
           then 1
           else 0
  end%nat.

(** Every grouping set of the sorted phases has a column; a phase without
    grouping sets groups by the columns of its node, which a plain
    aggregate has none of. *)
Definition every_set_has_a_column (aggstate : AggState) : Prop :=
  forall p ph,
    (1 <= p < numphases aggstate)%nat -> phases aggstate !! p = Some ph ->
    if (0 <? numsets ph)%nat
    then forall i, (i < numsets ph)%nat ->
           exists l, gset_lengths ph !! i = Some l /\ (0 < l)%nat
    else plan_aggstrategy (phase_aggnode ph) <> AGG_PLAIN.

Lemma leading_nonempty_all lengths n :
  (forall i, (i < n)%nat -> exists l, lengths !! i = Some l /\ (0 < l)%nat) ->
  leading_nonempty lengths n = n.
Proof.
  revert lengths. induction n as [|n IH]; intros lengths Hall; [done|].
  destruct (Hall 0%nat) as (l & Hl & Hpos); [lia|].
  destruct lengths as [|l' rest]; [done|]. simpl in Hl. injection Hl as ->.
  cbn [leading_nonempty]. destruct (Nat.ltb_spec 0 l); [|lia].
  f_equal. apply IH. intros i Hi. apply (Hall (S i)). lia.
Qed.

Lemma sum_list_zero {A} (f : A -> nat) (l : list A) :
  (forall x, x ∈ l -> f x = 0%nat) -> sum_list (f <$> l) = 0%nat.
Proof.
  induction l as [|x l IH]; intros Hall; [done|].
  rewrite fmap_cons. simpl. rewrite (Hall x) by left.
  apply IH. intros y Hy. apply Hall. by right.
Qed.

Lemma every_set_has_a_column_no_rows aggstate :
  plan_fits aggstate ->
  initial aggstate ->
  every_set_has_a_column aggstate ->
  empty_input_rows aggstate = 0%nat.
Proof.
  intros Hplan Hinit Hevery. unfold empty_input_rows.
  pose proof (init_phase _ Hinit) as Hphase.
  assert (Hsorted :
            (current_phase aggstate = 1%nat /\ (1 < numphases aggstate)%nat) ->
            (let first := default phase_zero (phases aggstate !! 1%nat) in
             if (0 <? numsets first)%nat
             then sum_list (sets_projected
                              <$> drop 1 (take (numphases aggstate)
                                            (phases aggstate)))
             else if AggStrategy_eqb (plan_aggstrategy (phase_aggnode first))
                       AGG_PLAIN
                  then 1%nat
                  else 0%nat) = 0%nat).
  { intros [_ Hnum]. cbv zeta.
    destruct (lookup_lt_is_Some_2 (phases aggstate) 1) as [first Hfirst].
    { pose proof (plan_phases _ Hplan). lia. }
    rewrite Hfirst. cbn [default]. unfold id.
    destruct (Nat.ltb_spec 0 (numsets first)) as [Hsets|Hnone].
    - apply sum_list_zero. intros ph Hph.
      apply list_elem_of_lookup in Hph as [i Hi].
      rewrite lookup_drop in Hi. apply lookup_take_Some in Hi as [Hi Hlt].
      specialize (Hevery (1 + i)%nat ph ltac:(lia) Hi).
      pose proof (plan_sets _ Hplan first Hfirst Hsets (1 + i)%nat ph
                    ltac:(lia) Hi) as Hpos.
      unfold sets_projected.
      destruct (Nat.ltb_spec 0 (numsets ph)); [|lia].
      replace (Nat.max (numsets ph) 1) with (numsets ph) by lia.
      rewrite leading_nonempty_all by done. lia.
    - specialize (Hevery 1%nat first ltac:(lia) Hfirst).
      destruct (Nat.ltb_spec 0 (numsets first)); [lia|].
      by destruct (plan_aggstrategy (phase_aggnode first)). }
  destruct (aggstrategy aggstate); auto.
Qed.

(** C3, amended: with no input row, draining the aggregation ends the
    stream after at most [empty_input_rows] rows, and after exactly that
    many when no row is rejected by the qualification: a hashed aggregation
    gives no row; a plain aggregate without grouping sets gives one; an
    aggregation with grouping sets gives one for every grouping set from
    the first empty one on in each of its phases.  Every row is the
    projection of a state in which each aggregate has the final value of
    its initial per-group state.  When every grouping set has a column
    there is no row at all. *)
Theorem empty_input_rows_projected (aggstate : AggState) :
  plan_fits aggstate ->
  initial aggstate ->
  sorts_nothing ->
  exists fuel0 rows aggstate',
    (forall fuel n,
       (fuel0 <= fuel)%nat -> (empty_input_rows aggstate < n)%nat ->
       ExecAgg_drain fuel n aggstate = Ok (rows, true, aggstate'))
    /\ (length rows <= empty_input_rows aggstate)%nat
    /\ ((forall input, qual aggstate input = true) ->
        length rows = empty_input_rows aggstate)
    /\ Forall (emitted aggstate) rows
    /\ (every_set_has_a_column aggstate -> rows = []).
Proof.
  intros Hplan Hinit Hlaw.
  cut (drains aggstate aggstate (empty_input_rows aggstate)).
  { intros (fuel0 & rows & st' & Hlen & Hexact & Hrows & Hdrain).
    exists fuel0, rows, st'. split; [done|]. split; [done|]. split; [done|].
    split; [done|].
    intros Hevery.
    rewrite (every_set_has_a_column_no_rows _ Hplan Hinit Hevery) in Hlen.
    destruct rows; [done|simpl in Hlen; lia]. }
  destruct Hinit as [Hnot Hinput Hproj Htuple Hsort_in Hrows Hfilled Hphase Hsort_out].
  assert (Hempty : input_empty aggstate)
    by (unfold input_empty; by rewrite Hsort_in).
  assert (Hsorted :
            (current_phase aggstate = 1%nat /\ (1 < numphases aggstate)%nat) ->
            drains aggstate aggstate
              (let first := default phase_zero (phases aggstate !! 1%nat) in
               if (0 <? numsets first)%nat
               then sum_list (sets_projected
                                <$> drop 1 (take (numphases aggstate)
                                              (phases aggstate)))
               else if AggStrategy_eqb (plan_aggstrategy (phase_aggnode first))
                         AGG_PLAIN
                    then 1%nat
                    else 0%nat)).
  { intros [Hcurrent Hnum]. cbv zeta.
    assert (Hrun : running aggstate aggstate 1).
    { split; [done|done|lia|done|done|done|].
      intros ?. apply Hsort_out. lia. }
    change (default phase_zero (phases aggstate !! 1%nat))
      with (phase_at aggstate 1).
    destruct (Nat.ltb_spec 0 (numsets (phase_at aggstate 1))) as [Hsets|Hnone].
    - change (sum_list (sets_projected
                          <$> drop 1 (take (numphases aggstate) (phases aggstate))))
        with (rows_after aggstate 0).
      rewrite (rows_after_next aggstate Hplan 0) by lia.
      by apply drains_grouping_sets.
    - apply drains_plain; try done. unfold has_grouping_sets. lia. }
  unfold empty_input_rows.
  destruct (aggstrategy aggstate) eqn:Hstrategy; auto.
  by apply drains_hashed.
Qed.
End EmptyInput.

(** C3, as stated, fails in two ways.  With the grouping sets
    [(a), (), ()] and no input row the plan contains an empty grouping
    set and the aggregation gives two rows, one for each of them; and the
    plain aggregate, whose only grouping set is the empty one, gives no row
    when the qualification rejects it. *)
Lemma empty_input_not_one_row :
  (lefttree sample_rollup_state = []
   /\ gset_lengths (phase sample_rollup_state) = [1; 0; 0]%nat
   /\ rows_of (ExecAgg_drain (FM := sum_fmgr) (TS := sample_tuplesort)
                 (EG := sample_grouping) (guc := sample_guc)
                 50 10 sample_rollup_state)
      = Some ([[None; None; None]; [None; None; None]], true))
  /\ (lefttree sample_rejecting_state = []
      /\ rows_of (ExecAgg_drain (FM := sum_fmgr) (TS := sample_tuplesort)
                    (EG := sample_grouping) (guc := sample_guc)
                    50 10 sample_rejecting_state)
         = Some ([], true)).
Proof. repeat split; vm_compute; reflexivity. Qed.

Lemma sample_rollup_plan_fits : plan_fits sample_rollup_state.
Proof.
  split.
  - simpl. lia.
  - intros p ph Hp Hph. simpl in Hp. assert (p = 1%nat) as -> by lia.
    simpl in Hph. injection Hph as <-. split.
    + simpl. lia.
    + simpl. lia.
    + simpl. lia.
    + simpl. lia.
    + simpl. lia.
    + intros [|aggno] pa Ha; simpl in Ha; [|lia].
      intros [= <-]. simpl. lia.
    + intros [|t] q; simpl; [|done]. intros [= <-]. simpl. lia.
  - intros p ph Hp Hph. simpl in Hp. assert (p = 1%nat) as -> by lia.
    simpl in Hph. injection Hph as <-. by right.
  - intros p ph Hp. simpl in Hp. lia.
  - intros ph1 _ _ p ph Hp Hph. simpl in Hp. assert (p = 1%nat) as -> by lia.
    simpl in Hph. injection Hph as <-. simpl. lia.
  - intros [H|H]; discriminate H.
Qed.

Lemma sample_rollup_initial : initial sample_rollup_state.
Proof.
  split; try reflexivity.
  - simpl. split; [reflexivity|lia].
  - simpl. lia.
Qed.

Lemma empty_input_rows_projected_witness :
  empty_input_rows sample_rollup_state = 2%nat
  /\ exists fuel0 rows aggstate',
       (forall fuel n,
          (fuel0 <= fuel)%nat -> (empty_input_rows sample_rollup_state < n)%nat ->
          ExecAgg_drain (FM := sum_fmgr) (TS := sample_tuplesort)
            (EG := sample_grouping) (guc := sample_guc)
            fuel n sample_rollup_state = Ok (rows, true, aggstate'))
       /\ length rows = empty_input_rows sample_rollup_state
       /\ Forall (emitted (FM := sum_fmgr) sample_rollup_state) rows.
Proof.
  split; [reflexivity|].
  destruct (empty_input_rows_projected
              (FM := sum_fmgr) (TS := sample_tuplesort) (EG := sample_grouping)
              (guc := sample_guc) sample_rollup_state
              sample_rollup_plan_fits sample_rollup_initial)
    as (fuel0 & rows & st' & Hdrain & _ & Hexact & Hrows & _).
  - intros spec. reflexivity.
  - exists fuel0, rows, st'. split; [exact Hdrain|]. split; [|exact Hrows].
    apply Hexact. intros input. reflexivity.
Defined.

(** ** The ring buffers between parallel workers *)

Lemma size_t_small x : 0 <= x < 2 ^ 64 -> size_t x = x.
Proof. intros H. unfold size_t, wrap_unsigned. by apply Z.mod_small. Qed.

Lemma to_int_small x : 0 <= x < 2 ^ 31 -> to_int x = x.
Proof.
  intros H. unfold to_int, wrap_signed. rewrite Z.mod_small by lia.
  change (2 ^ (32 - 1)) with (2 ^ 31). destruct (Z.ltb_spec x (2 ^ 31)); lia.
Qed.

Lemma c_rem_mod a b : 0 <= a -> 0 < b -> c_rem a b = Ok (a mod b).
Proof.
  intros Ha Hb. unfold c_rem. destruct (Z.eqb_spec b 0); [lia|].
  by rewrite Z.rem_mod_nonneg.
Qed.

Lemma length_int_chars x : length (int_chars x) = 4%nat.
Proof. reflexivity. Qed.

(** The four chars of a length give the length back. *)
Lemma chars_int_int_chars x : 0 <= x < 2 ^ 31 -> chars_int (int_chars x) = x.
Proof.
  intros H. unfold chars_int, int_chars, wrap_unsigned.
  rewrite (Z.mod_small x) by lia. cbn [fmap list_fmap take foldr].
  rewrite !Z.mod_mod by lia.
  change (2 ^ (8 * 0)) with 1. change (2 ^ (8 * 1)) with 256.
  change (2 ^ (8 * 2)) with (256 * 256).
  change (2 ^ (8 * 3)) with (256 * (256 * 256)).
  rewrite Z.div_1_r.
  rewrite <- !Z.div_div by lia.
  set (q1 := x / 256). set (q2 := q1 / 256). set (q3 := q2 / 256).
  pose proof (Z.div_mod x 256 ltac:(lia)) as H0. fold q1 in H0.
  pose proof (Z.div_mod q1 256 ltac:(lia)) as H1. fold q2 in H1.
  pose proof (Z.div_mod q2 256 ltac:(lia)) as H2. fold q3 in H2.
  pose proof (Z.mod_pos_bound x 256 ltac:(lia)).
  pose proof (Z.mod_pos_bound q1 256 ltac:(lia)).
  pose proof (Z.mod_pos_bound q2 256 ltac:(lia)).
  assert (0 <= q3 < 128).
  { subst q3 q2 q1. rewrite !Z.div_div by lia. split.
    - apply Z.div_pos; lia.
    - apply Z.div_lt_upper_bound; lia. }
  rewrite (Z.mod_small q3) by lia.
  rewrite to_int_small; lia.
Qed.

(** *** Copies that wrap around the end of the array *)

Lemma memcpy_length dst pos src n : length (memcpy dst pos src n) = length dst.
Proof. apply length_inserts. Qed.

Lemma memcpy_inside dst pos src n j :
  0 <= pos -> 0 <= n -> (Z.to_nat n <= length src)%nat ->
  pos <= Z.of_nat j < pos + n -> (j < length dst)%nat ->
  memcpy dst pos src n !! j = src !! (j - Z.to_nat pos)%nat.
Proof.
  intros Hpos Hn Hsrc Hj Hdst. unfold memcpy.
  rewrite list_lookup_inserts.
  - apply lookup_take_lt. lia.
  - rewrite length_take. lia.
  - done.
Qed.

Lemma memcpy_outside dst pos src n j :
  0 <= pos -> 0 <= n ->
  Z.of_nat j < pos \/ pos + n <= Z.of_nat j ->
  memcpy dst pos src n !! j = dst !! j.
Proof.
  intros Hpos Hn [Hj|Hj]; unfold memcpy.
  - apply list_lookup_inserts_lt. lia.
  - apply list_lookup_inserts_ge. rewrite length_take. lia.
Qed.

Lemma chars_at_length src pos n :
  0 <= pos -> 0 <= n -> pos + n <= Z.of_nat (length src) ->
  length (chars_at src pos n) = Z.to_nat n.
Proof.
  intros Hpos Hn Hsrc. unfold chars_at. rewrite length_take, length_drop. lia.
Qed.

Lemma chars_at_lookup src pos n k :
  0 <= pos -> (k < Z.to_nat n)%nat ->
  chars_at src pos n !! k = src !! (Z.to_nat pos + k)%nat.
Proof.
  intros Hpos Hk. unfold chars_at.
  by rewrite lookup_take_lt, lookup_drop by done.
Qed.

(** A copy of [n] chars into the ring from [pos] on, in the two pieces
    the source makes of it. *)
Definition ring_put (chars : list Z) (L pos : Z) (src : list Z) (n : Z) : list Z :=
  if n <=? L - pos then memcpy chars pos src n
  else memcpy (memcpy chars pos src (L - pos))
         0 (drop (Z.to_nat (L - pos)) src) (n - (L - pos)).

Definition ring_get (chars : list Z) (L pos n : Z) : list Z :=
  if n <=? L - pos then chars_at chars pos n
  else chars_at chars pos (L - pos) ++ chars_at chars 0 (n - (L - pos)).

Lemma ring_index L pos k :
  0 <= pos < L -> 0 <= k < L ->
  (pos + k) mod L = if pos + k <? L then pos + k else pos + k - L.
Proof.
  intros Hpos Hk. destruct (Z.ltb_spec (pos + k) L).
  - apply Z.mod_small. lia.
  - symmetry. apply (Z.mod_unique_pos _ _ 1); lia.
Qed.

Lemma ring_put_length chars L pos src n :
  length (ring_put chars L pos src n) = length chars.
Proof.
  unfold ring_put. destruct (n <=? L - pos); by rewrite !memcpy_length.
Qed.

Lemma ring_put_inside chars L pos src n k :
  Z.of_nat (length chars) = L -> 0 <= pos < L -> 0 <= n <= L ->
  (Z.to_nat n <= length src)%nat -> 0 <= k < n ->
  ring_put chars L pos src n !! Z.to_nat ((pos + k) mod L) = src !! Z.to_nat k.
Proof.
  intros Hlen Hpos Hn Hsrc Hk. unfold ring_put.
  rewrite ring_index by lia.
  destruct (Z.leb_spec n (L - pos)) as [Hfit|Hwrap].
  - destruct (Z.ltb_spec (pos + k) L); [|lia].
    rewrite memcpy_inside by lia. f_equal. lia.
  - destruct (Z.ltb_spec (pos + k) L).
    + rewrite memcpy_outside by (rewrite ?length_drop; lia).
      rewrite memcpy_inside by lia. f_equal. lia.
    + rewrite memcpy_inside; try lia.
      * rewrite lookup_drop. f_equal. lia.
      * rewrite length_drop. lia.
      * rewrite memcpy_length. lia.
Qed.

Lemma ring_put_outside chars L pos src n j :
  Z.of_nat (length chars) = L -> 0 <= pos < L -> 0 <= n <= L ->
  (forall k, 0 <= k < n -> Z.of_nat j <> (pos + k) mod L) ->
  ring_put chars L pos src n !! j = chars !! j.
Proof.
  intros Hlen Hpos Hn Hout. unfold ring_put.
  destruct (Z.leb_spec n (L - pos)) as [Hfit|Hwrap].
  - apply memcpy_outside; [lia|lia|].
    destruct (Z.ltb_spec (Z.of_nat j) pos); [by left|right].
    destruct (Z.leb_spec (pos + n) (Z.of_nat j)); [done|].
    exfalso. apply (Hout (Z.of_nat j - pos)); [lia|].
    rewrite Z.mod_small; lia.
  - rewrite memcpy_outside; [|lia|lia|].
    + apply memcpy_outside; [lia|lia|].
      destruct (Z.ltb_spec (Z.of_nat j) pos); [by left|right].
      destruct (Z.leb_spec (pos + (L - pos)) (Z.of_nat j)); [done|].
      exfalso. apply (Hout (Z.of_nat j - pos)); [lia|].
      rewrite Z.mod_small; lia.
    + right. destruct (Z.leb_spec (0 + (n - (L - pos))) (Z.of_nat j)); [done|].
      exfalso. apply (Hout (Z.of_nat j + (L - pos))); [lia|].
      rewrite ring_index by lia.
      destruct (Z.ltb_spec (pos + (Z.of_nat j + (L - pos))) L); lia.
Qed.

Lemma ring_get_length chars L pos n :
  Z.of_nat (length chars) = L -> 0 <= pos < L -> 0 <= n <= L ->
  length (ring_get chars L pos n) = Z.to_nat n.
Proof.
  intros Hlen Hpos Hn. unfold ring_get.
  destruct (Z.leb_spec n (L - pos)).
  - apply chars_at_length; lia.
  - rewrite length_app, !chars_at_length by lia. lia.
Qed.

Lemma ring_get_lookup chars L pos n k :
  Z.of_nat (length chars) = L -> 0 <= pos < L -> 0 <= n <= L -> 0 <= k < n ->
  ring_get chars L pos n !! Z.to_nat k = chars !! Z.to_nat ((pos + k) mod L).
Proof.
  intros Hlen Hpos Hn Hk. unfold ring_get. rewrite ring_index by lia.
  destruct (Z.leb_spec n (L - pos)) as [Hfit|Hwrap].
  - destruct (Z.ltb_spec (pos + k) L); [|lia].
    rewrite chars_at_lookup by lia. f_equal. lia.
  - destruct (Z.ltb_spec (pos + k) L).
    + rewrite lookup_app_l by (rewrite chars_at_length; lia).
      rewrite chars_at_lookup by lia. f_equal. lia.
    + rewrite lookup_app_r by (rewrite chars_at_length; lia).
      rewrite chars_at_length by lia.
      rewrite chars_at_lookup by lia. f_equal. lia.
Qed.

(** A list is what its positions hold. *)
Lemma ring_get_eq chars L pos (msg : list Z) :
  Z.of_nat (length chars) = L -> 0 <= pos < L ->
  Z.of_nat (length msg) <= L ->
  (forall k c, msg !! k = Some c ->
     chars !! Z.to_nat ((pos + Z.of_nat k) mod L) = Some c) ->
  ring_get chars L pos (Z.of_nat (length msg)) = msg.
Proof.
  intros Hlen Hpos Hn Hmsg. apply list_eq. intros k.
  destruct (msg !! k) as [c|] eqn:Hk.
  - pose proof (lookup_lt_Some _ _ _ Hk) as Hlt.
    rewrite <- (Nat2Z.id k) at 1.
    rewrite ring_get_lookup by lia. by apply Hmsg.
  - apply lookup_ge_None. apply lookup_ge_None in Hk.
    rewrite ring_get_length by lia. lia.
Qed.

(** *** The queue a buffer holds *)

(** A message in the ring: its length, then its chars. *)
Definition message_chars (msg : list Z) : list Z :=
  int_chars (Z.of_nat (length msg)) ++ msg.

Definition queue_chars (queue : list (list Z)) : list Z :=
  concat (message_chars <$> queue).

(** The buffer holds the messages of [queue], oldest first, from [tail]
    up to [head]. *)
Record ring_holds (buf : ReDistributeBuffer) (queue : list (list Z)) : Prop := {
  ring_size : 0 < buf_length buf <= 2 ^ 30;
  ring_chars : Z.of_nat (length (buffer buf)) = buf_length buf;
  ring_tail : 0 <= buf_tail buf < buf_length buf;
  ring_used : Z.of_nat (length (queue_chars queue)) < buf_length buf;
  ring_head :
    buf_head buf
    = (buf_tail buf + Z.of_nat (length (queue_chars queue))) mod buf_length buf;
  ring_content : forall k c,
    queue_chars queue !! k = Some c ->
    buffer buf !! Z.to_nat ((buf_tail buf + Z.of_nat k) mod buf_length buf) = Some c
}.

Lemma queue_chars_snoc queue msg :
  queue_chars (queue ++ [msg]) = queue_chars queue ++ message_chars msg.
Proof.
  unfold queue_chars. rewrite fmap_app, concat_app. simpl. by rewrite app_nil_r.
Qed.

Lemma length_message_chars msg :
  length (message_chars msg) = (4 + length msg)%nat.
Proof. unfold message_chars. by rewrite length_app. Qed.

Lemma ring_free_used L head tail used :
  0 < L -> 0 <= tail < L -> 0 <= used < L -> head = (tail + used) mod L ->
  (if tail <=? head then (L - head) + (tail - 1) else tail - head - 1)
  = L - 1 - used.
Proof.
  intros HL Htail Hused ->. rewrite ring_index by lia.
  destruct (Z.ltb_spec (tail + used) L);
    match goal with |- context [?a <=? ?b] => destruct (Z.leb_spec a b) end; lia.
Qed.

Lemma ring_holds_free buf queue :
  ring_holds buf queue ->
  ReDistributeBufferFreeSize buf
  = buf_length buf - 1 - Z.of_nat (length (queue_chars queue)).
Proof.
  intros [Hsize Hchars Htail Hused Hhead Hcontent].
  unfold ReDistributeBufferFreeSize.
  pose proof (ring_free_used (buf_length buf) (buf_head buf) (buf_tail buf)
                (Z.of_nat (length (queue_chars queue)))
                ltac:(lia) Htail ltac:(lia) Hhead) as Hfree.
  destruct (buf_tail buf <=? buf_head buf);
    rewrite Hfree; apply to_int_small; lia.
Qed.

Lemma ring_mod_add L a b : 0 < L -> (a mod L + b) mod L = (a + b) mod L.
Proof. intros HL. by rewrite Zplus_mod_idemp_l. Qed.

Lemma ring_mod_apart L a b :
  0 < L -> a mod L = b mod L -> - L < a - b < L -> a = b.
Proof.
  intros HL Heq Hnear.
  assert (H : (a - b) mod L = 0).
  { rewrite Zminus_mod, Heq, Z.sub_diag. apply Z.mod_0_l. lia. }
  apply Z.mod_divide in H; [|lia]. destruct H as [d Hd].
  assert (d = 0) by nia. lia.
Qed.

(** ReDistributeBufferPutData on a buffer with room: the message is the
    newest of the queue. *)
Lemma ReDistributeBufferPutData_holds buf queue msg :
  ring_holds buf queue ->
  Z.of_nat (length msg) + sizeof_int <= ReDistributeBufferFreeSize buf ->
  exists buf',
    ReDistributeBufferPutData buf (Z.of_nat (length msg)) msg = Ok buf'
    /\ ring_holds buf' (queue ++ [msg])
    /\ buf_tail buf' = buf_tail buf /\ buf_length buf' = buf_length buf
    /\ buf_dataType buf' = buf_dataType buf /\ nTuples buf' = nTuples buf
    /\ nTuplesBuffer buf' = nTuplesBuffer buf /\ nTuplesFile buf' = nTuplesFile buf.
Proof.
  intros Hholds Hroom. rewrite (ring_holds_free _ _ Hholds) in Hroom.
  destruct Hholds as [Hsize Hchars Htail Hused Hhead Hcontent].
  set (L := buf_length buf) in *. set (used := Z.of_nat (length (queue_chars queue))) in *.
  set (n := Z.of_nat (length msg)) in *. unfold sizeof_int in Hroom.
  set (h := buf_head buf) in *.
  assert (Hhead_range : 0 <= h < L).
  { rewrite Hhead. apply Z.mod_pos_bound. lia. }
  assert (Hpos1 : 0 <= (h + 4) mod L < L) by (apply Z.mod_pos_bound; lia).
  unfold ReDistributeBufferPutData. fold L h. unfold sizeof_int.
  rewrite (size_t_small (L - h)) by lia.
  rewrite (size_t_small (h + 4)) by lia.
  rewrite (size_t_small L) by lia.
  rewrite c_rem_mod by lia. cbn [rbind].
  rewrite (to_int_small ((h + 4) mod L)) by lia.
  rewrite (to_int_small (h + n)) by lia.
  rewrite (size_t_small (h + n + 4)) by lia.
  rewrite c_rem_mod by lia. cbn [rbind].
  rewrite (to_int_small ((h + n + 4) mod L))
    by (pose proof (Z.mod_pos_bound (h + n + 4) L); lia).
  fold (ring_put (buffer buf) L h (int_chars n) 4).
  fold (ring_put (ring_put (buffer buf) L h (int_chars n) 4)
          L ((h + 4) mod L) msg n).
  eexists. split; [reflexivity|]. split; [|done].
  assert (Hlen' : Z.of_nat (length (queue_chars (queue ++ [msg]))) = used + 4 + n).
  { rewrite queue_chars_snoc, length_app, length_message_chars. lia. }
  assert (Hfrom_head : forall x,
             (buf_tail buf + x) mod L = (h + (x - used)) mod L).
  { intros x. rewrite Hhead, ring_mod_add by lia. f_equal. lia. }
  assert (Hsecond : forall i, ((h + 4) mod L + i) mod L = (h + (4 + i)) mod L).
  { intros i. rewrite ring_mod_add by lia. f_equal. lia. }
  split; cbn [buf_length buf_head buf_tail buffer set_buf_head set_buffer]; fold L.
  - done.
  - by rewrite !ring_put_length.
  - done.
  - lia.
  - rewrite Hlen', Hfrom_head. f_equal. lia.
  - intros k c. rewrite queue_chars_snoc. intros Hk.
    apply lookup_lt_Some in Hk as Hklt.
    rewrite length_app, length_message_chars in Hklt.
    destruct (decide (k < length (queue_chars queue))%nat) as [Hold|Hnew].
    + (* a char of the messages already there *)
      rewrite lookup_app_l in Hk by done.
      rewrite ring_put_outside; [|by rewrite ring_put_length|done|lia|].
      * rewrite ring_put_outside; [by apply Hcontent|done|done|lia|].
        intros i Hi. rewrite Z2Nat.id by (apply Z.mod_pos_bound; lia).
        rewrite Hfrom_head. intros Heq. apply ring_mod_apart in Heq; lia.
      * intros i Hi. rewrite Z2Nat.id by (apply Z.mod_pos_bound; lia).
        rewrite Hfrom_head, Hsecond.
        intros Heq. apply ring_mod_apart in Heq; lia.
    + rewrite lookup_app_r in Hk by lia. unfold message_chars in Hk.
      rewrite Hfrom_head.
      destruct (decide (k - length (queue_chars queue) < 4)%nat) as [Hint|Hdata].
      * (* a char of the length *)
        rewrite lookup_app_l in Hk by (rewrite length_int_chars; lia).
        rewrite ring_put_outside; [|by rewrite ring_put_length|done|lia|].
        -- rewrite ring_put_inside; [|done|done|lia|rewrite length_int_chars; lia|lia].
           rewrite <- Hk. f_equal. lia.
        -- intros i Hi. rewrite Z2Nat.id by (apply Z.mod_pos_bound; lia).
           rewrite Hsecond.
           intros Heq. apply ring_mod_apart in Heq; lia.
      * (* a char of the message *)
        rewrite lookup_app_r in Hk by (rewrite length_int_chars; lia).
        rewrite length_int_chars in Hk.
        replace (Z.of_nat k - used) with (4 + (Z.of_nat k - used - 4)) by lia.
        rewrite <- Hsecond.
        rewrite ring_put_inside; [|by rewrite ring_put_length|done|lia|lia|lia].
        rewrite <- Hk. f_equal. lia.
Qed.

(** ReDistributeBufferGetData on a buffer that holds a message: the
    oldest message comes out. *)
Lemma ReDistributeBufferGetData_holds buf queue msg :
  ring_holds buf (msg :: queue) ->
  exists buf',
    ReDistributeBufferGetData buf = Ok (Z.of_nat (length msg), msg, buf')
    /\ ring_holds buf' queue
    /\ buf_head buf <> buf_tail buf.
Proof.
  intros [Hsize Hchars Htail Hused Hhead Hcontent].
  set (L := buf_length buf) in *. set (n := Z.of_nat (length msg)) in *.
  assert (Hall : queue_chars (msg :: queue)
                 = int_chars n ++ msg ++ queue_chars queue).
  { unfold queue_chars. cbn [fmap list_fmap concat]. unfold message_chars.
    by rewrite <- app_assoc. }
  rewrite Hall in Hused, Hhead, Hcontent.
  rewrite !length_app, length_int_chars in Hused, Hhead.
  set (rest := Z.of_nat (length (queue_chars queue))) in *.
  assert (Hpos1 : 0 <= (buf_tail buf + 4) mod L < L) by (apply Z.mod_pos_bound; lia).
  assert (Hlen_chars :
            ring_get (buffer buf) L (buf_tail buf) 4 = int_chars n).
  { change 4 with (Z.of_nat (length (int_chars n))).
    apply ring_get_eq; [done|done|rewrite length_int_chars; lia|].
    intros k c Hk. apply Hcontent. by apply lookup_app_l_Some. }
  assert (Hmsg : ring_get (buffer buf) L ((buf_tail buf + 4) mod L) n = msg).
  { apply ring_get_eq; [done|done|lia|].
    intros k c Hk. rewrite ring_mod_add by lia.
    replace (buf_tail buf + 4 + Z.of_nat k)
      with (buf_tail buf + Z.of_nat (4 + k)) by lia.
    apply Hcontent. rewrite lookup_app_r by (rewrite length_int_chars; lia).
    rewrite length_int_chars. replace (4 + k - 4)%nat with k by lia.
    by apply lookup_app_l_Some. }
  assert (Hlen : (if sizeof_int <=? size_t (L - buf_tail buf)
                  then chars_int (chars_at (buffer buf) (buf_tail buf) sizeof_int)
                  else chars_int
                         (chars_at (buffer buf) (buf_tail buf) (L - buf_tail buf)
                          ++ chars_at (buffer buf) 0
                               (sizeof_int - (L - buf_tail buf)))) = n).
  { rewrite (size_t_small (L - buf_tail buf)) by lia.
    transitivity (chars_int (ring_get (buffer buf) L (buf_tail buf) 4)).
    - unfold ring_get, sizeof_int. by destruct (4 <=? L - buf_tail buf).
    - rewrite Hlen_chars. apply chars_int_int_chars. lia. }
  unfold ReDistributeBufferGetData. fold L. rewrite Hlen. unfold sizeof_int.
  rewrite (size_t_small (buf_tail buf + 4)) by lia.
  rewrite (size_t_small L) by lia.
  rewrite c_rem_mod by lia. cbn [rbind].
  rewrite (to_int_small ((buf_tail buf + 4) mod L)) by lia.
  rewrite (to_int_small (buf_tail buf + n)) by lia.
  rewrite (size_t_small (buf_tail buf + n + 4)) by lia.
  rewrite c_rem_mod by lia. cbn [rbind].
  rewrite (to_int_small ((buf_tail buf + n + 4) mod L))
    by (pose proof (Z.mod_pos_bound (buf_tail buf + n + 4) L); lia).
  fold (ring_get (buffer buf) L ((buf_tail buf + 4) mod L) n). rewrite Hmsg.
  eexists. split; [reflexivity|]. split.
  - split; cbn [buf_length buf_head buf_tail buffer set_buf_tail]; fold L.
    + done.
    + done.
    + apply Z.mod_pos_bound. lia.
    + fold rest. lia.
    + rewrite Hhead, ring_mod_add by lia. f_equal. fold rest. lia.
    + intros k c Hk. rewrite ring_mod_add by lia.
      replace (buf_tail buf + n + 4 + Z.of_nat k)
        with (buf_tail buf + Z.of_nat (4 + (length msg + k))) by lia.
      apply Hcontent. rewrite lookup_app_r by (rewrite length_int_chars; lia).
      rewrite length_int_chars. rewrite lookup_app_r by lia.
      rewrite <- Hk. f_equal. lia.
  - rewrite Hhead. intros Heq.
    rewrite <- (Z.mod_small (buf_tail buf) L) in Heq at 2 by lia.
    apply ring_mod_apart in Heq; lia.
Qed.

Lemma ring_holds_empty buf : ring_holds buf [] -> buf_head buf = buf_tail buf.
Proof.
  intros [Hsize Hchars Htail Hused Hhead Hcontent]. rewrite Hhead. simpl.
  rewrite Z.add_0_r. apply Z.mod_small. lia.
Qed.

(** *** The channel as a queue *)

(** The behaviour the channel is compared with: a queue of messages in a
    room of [size - 1] chars, each message taking four chars more than it
    has.  A message sent goes to the end of the queue when there is room
    for it and else to the file; a receive takes the oldest message of
    the queue, if there is one.  The answer is the messages received, the
    messages sent to the file and the queue left. *)
Fixpoint fifo_run (size : Z) (ops : list ChannelOp) (queue : list (list Z))
  : list (list Z) * list (list Z) * list (list Z) :=
  match ops with
  | [] => ([], [], queue)
  | OpSend data :: ops =>
      if Z.of_nat (length data) + 4
         <=? size - 1 - Z.of_nat (sum_list ((fun msg => 4 + length msg)%nat <$> queue))
      then fifo_run size ops (queue ++ [data])
      else
        let '(received, filed, queue) := fifo_run size ops queue in
        (received, data :: filed, queue)
  | OpReceive :: ops =>
      match queue with
      | [] => fifo_run size ops []
      | msg :: queue =>
          let '(received, filed, queue) := fifo_run size ops queue in
          (msg :: received, filed, queue)
      end
  end.

(** A message as the receiver and the file have it: its length and its
    chars. *)
Definition with_length (msg : list Z) : Z * list Z := (Z.of_nat (length msg), msg).

Definition sends (ops : list ChannelOp) : list (list Z) :=
  omap (fun op => match op with OpSend data => Some data | OpReceive => None end) ops.

Lemma length_queue_chars queue :
  length (queue_chars queue) = sum_list ((fun msg => 4 + length msg)%nat <$> queue).
Proof.
  unfold queue_chars. induction queue as [|msg queue IH]; [done|].
  cbn [fmap list_fmap concat sum_list sum_list_with].
  rewrite length_app, length_message_chars.
  change (length (concat (list_fmap _ _ message_chars queue)))
    with (length (concat (message_chars <$> queue))).
  rewrite IH. done.
Qed.

Lemma chars_at_all (data : list Z) :
  chars_at data 0 (Z.of_nat (length data)) = data.
Proof. unfold chars_at. rewrite Nat2Z.id. simpl. apply firstn_all. Qed.

(** A message as ReDistributeData builds it for a data type: a data row is
    any message, a tuple says its own length. *)
Definition well_formed {TL : TupleLayout} (dataType : ReDistributeDataType)
  (data : list Z) : Prop :=
  match dataType with
  | DT_None => False
  | DT_DataRow => True
  | DT_MinimalTup => wrap_unsigned 32 (tuple_t_len data) = Z.of_nat (length data)
  | DT_HeapTup =>
      size_t (wrap_unsigned 32 (tuple_t_len (with_t_data data)) + HEAPTUPLESIZE)
      = Z.of_nat (length data)
  end.

(** A message as the receiver stores it: its length and its chars, the
    [t_data] of a heap tuple pointing behind its header. *)
Definition received_as {TL : TupleLayout} (dataType : ReDistributeDataType)
  (msg : list Z) : Z * list Z :=
  (Z.of_nat (length msg),
   match dataType with
   | DT_HeapTup => with_t_data msg
   | _ => msg
   end).

Lemma ReDistributeData_store_well_formed {TL : TupleLayout} dataType msg :
  Z.of_nat (length msg) < 2 ^ 31 ->
  well_formed dataType msg ->
  ReDistributeData_store dataType (Z.of_nat (length msg)) msg
  = Ok (received_as dataType msg).2.
Proof.
  intros Hlen Hwf. unfold ReDistributeData_store, received_as. cbn [snd].
  destruct dataType; cbn [well_formed] in Hwf; [done| | |done].
  - rewrite Hwf, (size_t_small (Z.of_nat (length msg))) by lia.
    by rewrite Z.eqb_refl.
  - rewrite Hwf, (wrap_unsigned_small 32 (Z.of_nat (length msg))) by lia.
    by rewrite Z.eqb_refl.
Qed.

Lemma channel_run_fifo {TL : TupleLayout} dataType ops :
  Forall (fun data => Z.of_nat (length data) < 2 ^ 31) (sends ops) ->
  Forall (well_formed dataType) (sends ops) ->
  forall chan queue,
    ring_holds (chan_buf chan) queue ->
    Forall (fun data => Z.of_nat (length data) < 2 ^ 31) queue ->
    Forall (well_formed dataType) queue ->
    (buf_dataType (chan_buf chan) = DT_None /\ queue = [])
    \/ buf_dataType (chan_buf chan) = dataType ->
    chan_fileType chan = None \/ chan_fileType chan = Some dataType ->
    exists chan',
      channel_run dataType ops chan
      = Ok (received_as dataType
              <$> (fifo_run (buf_length (chan_buf chan)) ops queue).1.1,
            chan')
      /\ chan_file chan'
         = chan_file chan
           ++ (with_length <$> (fifo_run (buf_length (chan_buf chan)) ops queue).1.2)
      /\ ring_holds (chan_buf chan') (fifo_run (buf_length (chan_buf chan)) ops queue).2
      /\ nTuples (chan_buf chan')
         = nTuples (chan_buf chan) + Z.of_nat (length (sends ops))
      /\ nTuplesFile (chan_buf chan')
         = nTuplesFile (chan_buf chan)
           + Z.of_nat (length (fifo_run (buf_length (chan_buf chan)) ops queue).1.2)
      /\ nTuplesBuffer (chan_buf chan') + nTuplesFile (chan_buf chan')
         = nTuplesBuffer (chan_buf chan) + nTuplesFile (chan_buf chan)
           + Z.of_nat (length (sends ops)).
Proof.
  induction ops as [|[data|] ops IH];
    intros Hint Hwf chan queue Hholds Hqint Hqwf Htype Hfile.
  - exists chan. cbn [channel_run fifo_run fst snd fmap list_fmap sends omap length].
    rewrite app_nil_r, !Z.add_0_r. done.
  - change (sends (OpSend data :: ops)) with (data :: sends ops) in Hint, Hwf.
    apply Forall_cons in Hint as [Hdata Hint].
    apply Forall_cons in Hwf as [Hdwf Hwf].
    assert (Hswitch : match dataType with
                      | DT_DataRow | DT_MinimalTup | DT_HeapTup => Ok tt
                      | DT_None =>
                          Err (ElogError "wrong data type while ReDistributing Data.")
                      end = Ok tt).
    { destruct dataType; [destruct Hdwf|done..]. }
    pose proof (ring_holds_free _ _ Hholds) as Hfree.
    rewrite length_queue_chars in Hfree.
    pose proof (ring_size _ _ Hholds) as Hsize.
    pose proof (ring_used _ _ Hholds) as Hused.
    rewrite length_queue_chars in Hused.
    cbn [channel_run fifo_run]. unfold ReDistributeData_send.
    rewrite Hswitch. cbn [rbind].
    rewrite Hfree. unfold sizeof_int.
    rewrite (size_t_small (Z.of_nat (length data) + 4)) by lia.
    rewrite size_t_small by lia.
    destruct (Z.leb_spec (Z.of_nat (length data) + 4)
                (buf_length (chan_buf chan) - 1
                 - Z.of_nat (sum_list ((fun msg => 4 + length msg)%nat <$> queue))))
      as [Hroom|Hfull].
    + (* into the buffer *)
      assert (Htyped :
                exists buf1,
                  (if ReDistributeDataType_eqb (buf_dataType (chan_buf chan)) DT_None
                   then Ok (set_buf_dataType (chan_buf chan) dataType)
                   else if negb (ReDistributeDataType_eqb
                                   (buf_dataType (chan_buf chan)) dataType)
                        then Err (ElogError "mismatch data type in same buffer")
                        else Ok (chan_buf chan)) = Ok buf1
                  /\ buffer buf1 = buffer (chan_buf chan)
                  /\ buf_length buf1 = buf_length (chan_buf chan)
                  /\ buf_head buf1 = buf_head (chan_buf chan)
                  /\ buf_tail buf1 = buf_tail (chan_buf chan)
                  /\ nTuples buf1 = nTuples (chan_buf chan)
                  /\ nTuplesBuffer buf1 = nTuplesBuffer (chan_buf chan)
                  /\ nTuplesFile buf1 = nTuplesFile (chan_buf chan)
                  /\ buf_dataType buf1 = dataType).
      { destruct Htype as [[Hnone _]|Hsame].
        - rewrite Hnone. cbn [ReDistributeDataType_eqb]. eexists.
          split; [reflexivity|]. by repeat split.
        - rewrite Hsame. destruct dataType; cbn [ReDistributeDataType_eqb negb];
            eexists; (split; [reflexivity|]); by repeat split. }
      destruct Htyped as (buf1 & -> & Hb & Hl & Hh & Ht & Hn1 & Hn2 & Hn3 & Hdt).
      cbn [rbind].
      assert (Hholds1 : ring_holds (count_tuple buf1 true) queue).
      { destruct Hholds as [H1 H2 H3 H4 H5 H6].
        split; cbn [count_tuple buf_length buf_head buf_tail buffer];
          rewrite ?Hb, ?Hl, ?Hh, ?Ht; done. }
      destruct (ReDistributeBufferPutData_holds (count_tuple buf1 true) queue data
                  Hholds1)
        as (buf2 & Hput & Hholds2 & Ht2 & Hl2 & Hdt2 & Hm1 & Hm2 & Hm3).
      { rewrite (ring_holds_free _ _ Hholds1), length_queue_chars.
        cbn [count_tuple buf_length]. rewrite Hl. unfold sizeof_int. lia. }
      rewrite Hput. cbn [rbind].
      destruct (IH Hint Hwf
                  {| chan_buf := buf2; chan_fileType := chan_fileType chan;
                     chan_file := chan_file chan |} (queue ++ [data]))
        as (chan' & Hrun & Hfiled & Hholds' & Hc1 & Hc2 & Hc3).
      * done.
      * apply Forall_app. split; [done|]. by apply Forall_singleton.
      * apply Forall_app. split; [done|]. by apply Forall_singleton.
      * right. cbn [chan_buf]. by rewrite Hdt2.
      * done.
      * cbn [chan_buf chan_file] in *. rewrite Hl2 in *.
        cbn [count_tuple buf_length nTuples nTuplesBuffer nTuplesFile] in *.
        rewrite Hl in *. exists chan'. rewrite Hrun.
        split; [done|]. split; [done|]. split; [done|].
        change (sends (OpSend data :: ops)) with (data :: sends ops).
        cbn [length]. repeat split; lia.
    + (* to the file *)
      assert (Hfiled :
                match chan_fileType chan with
                | None => Ok dataType
                | Some fileType =>
                    if negb (ReDistributeDataType_eqb fileType dataType)
                    then Err (ElogError "mismatch data type in same bufFile")
                    else Ok fileType
                end = Ok dataType).
      { destruct Hfile as [-> | ->]; [done|]. by destruct dataType. }
      rewrite Hfiled. cbn [rbind].
      assert (Hholds1 : ring_holds (count_tuple (chan_buf chan) false) queue).
      { destruct Hholds as [H1 H2 H3 H4 H5 H6]. by split. }
      destruct (IH Hint Hwf
                  {| chan_buf := count_tuple (chan_buf chan) false;
                     chan_fileType := Some dataType;
                     chan_file := chan_file chan
                                  ++ [(Z.of_nat (length data),
                                       chars_at data 0
                                         (Z.of_nat (length data)))] |}
                  queue)
        as (chan' & Hrun & Hfile' & Hholds' & Hc1 & Hc2 & Hc3).
      * done.
      * done.
      * done.
      * done.
      * by right.
      * cbn [chan_buf chan_file count_tuple buf_length nTuples nTuplesBuffer
               nTuplesFile] in *.
        destruct (fifo_run (buf_length (chan_buf chan)) ops queue)
          as [[received filed] queue'].
        cbn [fst snd] in *. exists chan'. rewrite Hrun.
        split; [done|]. split.
        { rewrite Hfile', chars_at_all, <- app_assoc. done. }
        split; [done|].
        change (sends (OpSend data :: ops)) with (data :: sends ops).
        cbn [length]. repeat split; lia.
  - change (sends (OpReceive :: ops)) with (sends ops) in Hint, Hwf.
    cbn [channel_run fifo_run]. unfold GetReDistributeData_buffer.
    destruct queue as [|msg queue].
    + rewrite (ring_holds_empty _ Hholds), Z.eqb_refl. cbn [negb rbind].
      destruct (IH Hint Hwf {| chan_buf := chan_buf chan;
                               chan_fileType := chan_fileType chan;
                               chan_file := chan_file chan |} [])
        as (chan' & Hrun & Hrest); [done..|].
      cbn [chan_buf chan_file] in *.
      exists chan'. rewrite Hrun. cbn [rbind option_list app]. done.
    + destruct (ReDistributeBufferGetData_holds _ _ _ Hholds)
        as (buf1 & Hget & Hholds1 & Hne).
      destruct (Z.eqb_spec (buf_head (chan_buf chan)) (buf_tail (chan_buf chan)));
        [done|].
      apply Forall_cons in Hqint as [Hmint Hqint].
      apply Forall_cons in Hqwf as [Hmwf Hqwf].
      assert (Hbuftype : buf_dataType (chan_buf chan) = dataType).
      { destruct Htype as [[_ Hnil]|Hsame]; [discriminate Hnil|exact Hsame]. }
      cbn [negb]. cbv zeta. rewrite Hget. cbn [rbind]. rewrite Hbuftype.
      rewrite (ReDistributeData_store_well_formed dataType msg Hmint Hmwf).
      cbn [rbind].
      assert (Hsame : buf_length buf1 = buf_length (chan_buf chan)
                      /\ buf_dataType buf1 = buf_dataType (chan_buf chan)
                      /\ nTuples buf1 = nTuples (chan_buf chan)
                      /\ nTuplesBuffer buf1 = nTuplesBuffer (chan_buf chan)
                      /\ nTuplesFile buf1 = nTuplesFile (chan_buf chan)).
      { unfold ReDistributeBufferGetData in Hget.
        destruct (c_rem _ _); [|done]. cbn [rbind] in Hget.
        destruct (c_rem _ _); [|done]. cbn [rbind] in Hget.
        injection Hget as _ _ <-. done. }
      destruct Hsame as (Hl & Hdt & Hn1 & Hn2 & Hn3).
      destruct (IH Hint Hwf
                  {| chan_buf := buf1; chan_fileType := chan_fileType chan;
                     chan_file := chan_file chan |} queue)
        as (chan' & Hrun & Hfile' & Hholds' & Hc1 & Hc2 & Hc3).
      * done.
      * done.
      * done.
      * right. cbn [chan_buf]. by rewrite Hdt.
      * done.
      * cbn [chan_buf chan_file] in *. rewrite Hl in *.
        destruct (fifo_run (buf_length (chan_buf chan)) ops queue)
          as [[received filed] queue'].
        cbn [fst snd] in *. exists chan'. rewrite Hrun. cbn [rbind option_list].
        split; [done|]. split; [done|]. split; [done|].
        change (sends (OpReceive :: ops)) with (sends ops).
        repeat split; lia.
Qed.

(** X1: on a buffer whose [head] and [tail] lie within its [length],
    ReDistributeBufferFreeSize is [length - 1] less the chars between
    [tail] and [head], counted around the end of the array; it is never
    negative, and it is [length - 1] exactly on an empty buffer. *)
Theorem ReDistributeBufferFreeSize_room (buf : ReDistributeBuffer) :
  0 < buf_length buf < 2 ^ 31 ->
  0 <= buf_head buf < buf_length buf ->
  0 <= buf_tail buf < buf_length buf ->
  ReDistributeBufferFreeSize buf
  = buf_length buf - 1 - (buf_head buf - buf_tail buf) mod buf_length buf
  /\ 0 <= ReDistributeBufferFreeSize buf <= buf_length buf - 1
  /\ (ReDistributeBufferFreeSize buf = buf_length buf - 1
      <-> buf_head buf = buf_tail buf).
Proof.
  intros HL Hhead Htail.
  set (used := (buf_head buf - buf_tail buf) mod buf_length buf).
  assert (Hused : 0 <= used < buf_length buf) by (apply Z.mod_pos_bound; lia).
  assert (Hat : buf_head buf = (buf_tail buf + used) mod buf_length buf).
  { subst used. rewrite Zplus_mod_idemp_r.
    replace (buf_tail buf + (buf_head buf - buf_tail buf)) with (buf_head buf) by lia.
    symmetry. apply Z.mod_small. lia. }
  assert (Hfree : ReDistributeBufferFreeSize buf = buf_length buf - 1 - used).
  { unfold ReDistributeBufferFreeSize.
    pose proof (ring_free_used (buf_length buf) (buf_head buf) (buf_tail buf) used
                  ltac:(lia) Htail Hused Hat) as Hfree.
    destruct (buf_tail buf <=? buf_head buf);
      rewrite Hfree; apply to_int_small; lia. }
  split; [exact Hfree|]. split; [lia|]. rewrite Hfree. split.
  - intros Hnone. assert (Hzero : used = 0) by lia.
    rewrite Hat, Hzero, Z.add_0_r. apply Z.mod_small. lia.
  - intros Heq. subst used. rewrite Heq, Z.sub_diag, Z.mod_0_l by lia. lia.
Qed.

Lemma ReDistributeBufferFreeSize_room_witness :
  ReDistributeBufferFreeSize sample_wrapped_buffer = 8
  /\ ReDistributeBufferFreeSize sample_wrapped_buffer = 16 - 1 - (3 - 12) mod 16.
Proof.
  split; [reflexivity|].
  destruct (ReDistributeBufferFreeSize_room sample_wrapped_buffer) as [Hfree _].
  - simpl. lia.
  - simpl. lia.
  - simpl. lia.
  - exact Hfree.
Defined.

(** X2: a channel set up by ReDistributeInitializeDSM, under any
    interleaving of ReDistributeData sending messages of one data type,
    built as it builds them (data rows, or tuples that say their own
    length), and GetReDistributeData receiving, behaves as a first-in
    first-out queue with room for [size - 1] chars: the messages received
    are those of the queue, in order, with their lengths and whole (the
    [t_data] of a heap tuple being set anew); a message that finds no room
    goes to the buffer file; the buffer has [head = tail] exactly when the
    queue is empty; and the counters count the tuples sent, those sent to
    the file and those sent through the buffer. *)
Theorem channel_is_fifo {TL : TupleLayout} (dataType : ReDistributeDataType)
  (size : Z) (chars : list Z) (ops : list ChannelOp) :
  0 < size <= 2 ^ 30 ->
  Z.of_nat (length chars) = size ->
  Forall (fun data => Z.of_nat (length data) < 2 ^ 31) (sends ops) ->
  Forall (well_formed dataType) (sends ops) ->
  exists chan',
    channel_run dataType ops
      {| chan_buf := ReDistributeBuffer_init size chars;
         chan_fileType := None; chan_file := [] |}
    = Ok (received_as dataType <$> (fifo_run size ops []).1.1, chan')
    /\ chan_file chan' = with_length <$> (fifo_run size ops []).1.2
    /\ (buf_head (chan_buf chan') = buf_tail (chan_buf chan')
        <-> (fifo_run size ops []).2 = [])
    /\ nTuples (chan_buf chan') = Z.of_nat (length (sends ops))
    /\ nTuplesFile (chan_buf chan')
       = Z.of_nat (length (fifo_run size ops []).1.2)
    /\ nTuplesBuffer (chan_buf chan') + nTuplesFile (chan_buf chan')
       = Z.of_nat (length (sends ops)).
Proof.
  intros Hsize Hchars Hint Hwf.
  destruct (channel_run_fifo dataType ops Hint Hwf
              {| chan_buf := ReDistributeBuffer_init size chars;
                 chan_fileType := None; chan_file := [] |} [])
    as (chan' & Hrun & Hfile & Hholds & Hc1 & Hc2 & Hc3).
  - split; cbn [chan_buf ReDistributeBuffer_init buf_length buf_head buf_tail buffer];
      try done; try lia.
    simpl. lia.
  - done.
  - done.
  - by left.
  - by left.
  - cbn [chan_buf chan_file ReDistributeBuffer_init buf_length nTuples
           nTuplesBuffer nTuplesFile app] in *.
    exists chan'. split; [exact Hrun|]. split; [exact Hfile|]. split.
    + destruct ((fifo_run size ops []).2) as [|msg queue] eqn:Hqueue.
      * split; [done|]. intros _. by apply ring_holds_empty.
      * destruct (ReDistributeBufferGetData_holds _ _ _ Hholds) as (_ & _ & _ & Hne).
        split; [done|discriminate].
    + repeat split; lia.
Qed.

Lemma channel_is_fifo_witness :
  exists chan',
    channel_run (TL := sample_layout) DT_MinimalTup sample_channel_ops sample_channel
    = Ok ([(5, [5; 0; 0; 0; 1]); (4, [4; 0; 0; 0]); (6, [6; 0; 0; 0; 2; 3]);
           (7, [7; 0; 0; 0; 1; 2; 3])], chan')
    /\ chan_file chan' = [(5, [5; 0; 0; 0; 9])]
    /\ buf_head (chan_buf chan') = buf_tail (chan_buf chan')
    /\ buf_head (chan_buf chan') = 6.
Proof.
  destruct (channel_is_fifo (TL := sample_layout) DT_MinimalTup 32
              (replicate 32 0) sample_channel_ops)
    as (chan' & Hrun & Hfile & Hempty & _).
  - lia.
  - reflexivity.
  - repeat (constructor; [simpl; lia|]). constructor.
  - repeat (constructor; [reflexivity|]). constructor.
  - exists chan'. split; [exact Hrun|]. split; [exact Hfile|].
    split; [apply Hempty; reflexivity|].
    change (channel_run (TL := sample_layout) DT_MinimalTup sample_channel_ops
              {| chan_buf := ReDistributeBuffer_init 32 (replicate 32 0);
                 chan_fileType := None; chan_file := [] |})
      with (channel_run (TL := sample_layout) DT_MinimalTup sample_channel_ops
              sample_channel) in Hrun.
    vm_compute in Hrun. injection Hrun as <-. reflexivity.
Defined.

(** ** The buffer a row is sent through *)

(** X3: in a worker that passed the checks of
    ReDistributeInitializeWorker, with fewer than 31 workers launched,
    ReDistributeData always finds a route for a row; when the row is sent,
    it goes to a launched worker other than the sender, through a buffer
    within the [numExpectedParallelWorkers]^2 buffers allocated, and that
    buffer is the one the destination reads the sender's messages from. *)
Theorem ReDistributeData_route_in_bounds
  (numExpectedParallelWorkers numLaunchedParallelWorkers ParallelWorkerNumber : Z)
  (varattno : nat) (slot : TupleTableSlot) (hashfunc : Datum -> Datum) (type : Oid) :
  ReDistributeInitializeWorker_check numExpectedParallelWorkers
    numLaunchedParallelWorkers ParallelWorkerNumber = Ok tt ->
  0 <= ParallelWorkerNumber ->
  numLaunchedParallelWorkers < 31 ->
  exists route,
    ReDistributeData_route numLaunchedParallelWorkers ParallelWorkerNumber
      varattno slot hashfunc type = Ok route
    /\ match route with
       | KeepLocal => True
       | SendTo indexSendWorker index =>
           0 <= indexSendWorker < numLaunchedParallelWorkers
           /\ indexSendWorker <> ParallelWorkerNumber
           /\ 0 <= index < numExpectedParallelWorkers * numExpectedParallelWorkers
           /\ index = receive_index numLaunchedParallelWorkers indexSendWorker
                        ParallelWorkerNumber
       end.
Proof.
  intros Hcheck Hself Hfew. unfold ReDistributeInitializeWorker_check in Hcheck.
  destruct (Z.ltb_spec numExpectedParallelWorkers numLaunchedParallelWorkers);
    [done|].
  destruct (Z.leb_spec numLaunchedParallelWorkers ParallelWorkerNumber); [done|].
  set (N := numLaunchedParallelWorkers) in *.
  unfold ReDistributeData_route.
  destruct (slot_getattr slot varattno) as [value isnull].
  assert (Hdest : exists dest,
             (if isnull then Ok 0 else ReDistributeHash type N value hashfunc)
             = Ok dest /\ 0 <= dest < N).
  { destruct isnull.
    - exists 0. split; [done|lia].
    - rewrite ReDistributeHash_value by lia. eexists. split; [reflexivity|].
      apply Z.mod_pos_bound. lia. }
  destruct Hdest as (dest & -> & Hdest). cbn [rbind].
  destruct (Z.eqb_spec dest ParallelWorkerNumber) as [|Hne].
  - by exists KeepLocal.
  - eexists. split; [reflexivity|]. unfold receive_index.
    repeat split; try lia; nia.
Qed.

Lemma ReDistributeData_route_in_bounds_witness :
  exists route,
    ReDistributeData_route 3 2 1 (sample_slot 8) (fun v => v) INT4OID = Ok route
    /\ match route with
       | KeepLocal => True
       | SendTo indexSendWorker index =>
           0 <= indexSendWorker < 3 /\ indexSendWorker <> 2
           /\ 0 <= index < 4 * 4
           /\ index = receive_index 3 indexSendWorker 2
       end.
Proof.
  apply (ReDistributeData_route_in_bounds 4 3 2 1 (sample_slot 8) (fun v => v)
           INT4OID); [reflexivity|lia|lia].
Defined.

(** ** From one phase to the next *)

Lemma ExecCopySlotTuple_stored tuple slot :
  ExecCopySlotTuple (ExecStoreTuple tuple slot) = tuple.
Proof. by destruct tuple. Qed.

Definition tuplesort_puts (sorter : option Tuplesortstate) (rows : list HeapTupleData)
  : option Tuplesortstate :=
  (fun s => {| ts_datum := ts_datum s; ts_spec := ts_spec s;
               ts_tuples := ts_tuples s ++ rows |}) <$> sorter.

Lemma tuplesort_puts_nil sorter : tuplesort_puts sorter [] = sorter.
Proof.
  destruct sorter as [[d s t]|]; [|done]. simpl. by rewrite app_nil_r.
Qed.

Lemma tuplesort_puts_cons sorter row rows :
  tuplesort_puts ((fun s => tuplesort_put s row) <$> sorter) rows
  = tuplesort_puts sorter (row :: rows).
Proof.
  destruct sorter as [[d s t]|]; [|done]. simpl. by rewrite <- app_assoc.
Qed.

Lemma fetch_input_tuple_outer aggstate row rows :
  sort_in aggstate = None ->
  lefttree aggstate = row :: rows ->
  exists aggstate',
    fetch_input_tuple aggstate = (Some OuterSlot, aggstate')
    /\ TupIsNull aggstate' (Some OuterSlot) = false
    /\ ExecCopySlotTuple (get_slot aggstate' OuterSlot) = row
    /\ sort_in aggstate' = None
    /\ lefttree aggstate' = rows
    /\ sort_out aggstate' = (fun s => tuplesort_put s row) <$> sort_out aggstate
    /\ current_phase aggstate' = current_phase aggstate
    /\ numphases aggstate' = numphases aggstate
    /\ phases aggstate' = phases aggstate.
Proof.
  intros Hin Hrows. unfold fetch_input_tuple, ExecProcNode_outer.
  rewrite Hin, Hrows.
  destruct (sort_out aggstate) as [sorter|] eqn:Hout; simpl; rewrite Hout; simpl;
    eexists; (split; [reflexivity|]); simpl; rewrite ?Hout;
    repeat split; try done; by destruct row.
Qed.

Lemma fetch_input_tuple_sorted aggstate sorter row rows :
  sort_in aggstate = Some sorter ->
  ts_tuples sorter = row :: rows ->
  exists aggstate' sorter',
    fetch_input_tuple aggstate = (Some SortSlot, aggstate')
    /\ TupIsNull aggstate' (Some SortSlot) = false
    /\ ExecCopySlotTuple (get_slot aggstate' SortSlot) = row
    /\ sort_in aggstate' = Some sorter'
    /\ ts_tuples sorter' = rows
    /\ lefttree aggstate' = lefttree aggstate
    /\ sort_out aggstate' = (fun s => tuplesort_put s row) <$> sort_out aggstate
    /\ current_phase aggstate' = current_phase aggstate
    /\ numphases aggstate' = numphases aggstate
    /\ phases aggstate' = phases aggstate.
Proof.
  intros Hin Hrows. unfold fetch_input_tuple, tuplesort_get.
  rewrite Hin, Hrows.
  destruct (sort_out aggstate) as [out|] eqn:Hout; simpl; rewrite Hout; simpl;
    eexists _, _; (split; [reflexivity|]); simpl; rewrite ?Hout;
    repeat split; try done; by destruct row.
Qed.

(** Reading the outer plan to its end: every row is read, in order, and
    handed to the sorter of the next phase, if there is one. *)
Lemma fetch_rows_outer rows : forall n aggstate,
  sort_in aggstate = None ->
  lefttree aggstate = rows ->
  (length rows < n)%nat ->
  exists aggstate',
    fetch_rows n aggstate = (rows, true, aggstate')
    /\ sort_in aggstate' = None
    /\ lefttree aggstate' = []
    /\ sort_out aggstate' = tuplesort_puts (sort_out aggstate) rows
    /\ current_phase aggstate' = current_phase aggstate
    /\ numphases aggstate' = numphases aggstate
    /\ phases aggstate' = phases aggstate.
Proof.
  induction rows as [|row rows IH]; intros n aggstate Hin Hrows Hn;
    (destruct n as [|n]; [simpl in Hn; lia|]).
  - cbn [fetch_rows]. unfold fetch_input_tuple, ExecProcNode_outer.
    rewrite Hin, Hrows. cbn [TupIsNull]. exists aggstate.
    by rewrite tuplesort_puts_nil.
  - destruct (fetch_input_tuple_outer aggstate row rows Hin Hrows)
      as (st1 & Hfetch & Hnull & Hcopy & Hin1 & Hrows1 & Hout1 & Hp1 & Hn1 & Hph1).
    cbn [fetch_rows]. rewrite Hfetch, Hnull, Hcopy.
    destruct (IH n st1) as (st' & -> & H1 & H2 & H3 & H4 & H5 & H6);
      [done|done|simpl in Hn; lia|].
    exists st'. split; [done|]. split; [done|]. split; [done|].
    split; [|by rewrite H4, H5, H6].
    rewrite H3, Hout1. apply tuplesort_puts_cons.
Qed.

(** Reading the sorter of the phase to its end. *)
Lemma fetch_rows_sorted rows : forall n aggstate sorter,
  sort_in aggstate = Some sorter ->
  ts_tuples sorter = rows ->
  (length rows < n)%nat ->
  exists aggstate',
    fetch_rows n aggstate = (rows, true, aggstate')
    /\ (exists sorter', sort_in aggstate' = Some sorter' /\ ts_tuples sorter' = [])
    /\ lefttree aggstate' = lefttree aggstate
    /\ sort_out aggstate' = tuplesort_puts (sort_out aggstate) rows
    /\ current_phase aggstate' = current_phase aggstate
    /\ numphases aggstate' = numphases aggstate
    /\ phases aggstate' = phases aggstate.
Proof.
  induction rows as [|row rows IH]; intros n aggstate sorter Hin Hrows Hn;
    (destruct n as [|n]; [simpl in Hn; lia|]).
  - cbn [fetch_rows]. unfold fetch_input_tuple, tuplesort_get.
    rewrite Hin, Hrows. cbn [TupIsNull]. eexists. split; [reflexivity|].
    rewrite tuplesort_puts_nil. repeat split; eauto.
  - destruct (fetch_input_tuple_sorted aggstate sorter row rows Hin Hrows)
      as (st1 & sorter1 & Hfetch & Hnull & Hcopy & Hin1 & Hrows1 & Hleft1 & Hout1
          & Hp1 & Hn1 & Hph1).
    cbn [fetch_rows]. rewrite Hfetch, Hnull, Hcopy.
    destruct (IH n st1 sorter1) as (st' & -> & H1 & H2 & H3 & H4 & H5 & H6);
      [done|done|simpl in Hn; lia|].
    exists st'. split; [done|]. split; [done|]. split; [by rewrite H2|].
    split; [|by rewrite H4, H5, H6].
    rewrite H3, Hout1. apply tuplesort_puts_cons.
Qed.

(** What a phase has to read. *)
Definition input_rows (aggstate : AggState) : list HeapTupleData :=
  match sort_in aggstate with
  | Some sorter => ts_tuples sorter
  | None => lefttree aggstate
  end.

Lemma fetch_rows_input n aggstate :
  (length (input_rows aggstate) < n)%nat ->
  exists aggstate',
    fetch_rows n aggstate = (input_rows aggstate, true, aggstate')
    /\ input_rows aggstate' = []
    /\ sort_out aggstate' = tuplesort_puts (sort_out aggstate) (input_rows aggstate)
    /\ current_phase aggstate' = current_phase aggstate
    /\ numphases aggstate' = numphases aggstate
    /\ phases aggstate' = phases aggstate.
Proof.
  unfold input_rows. destruct (sort_in aggstate) as [sorter|] eqn:Hin; intros Hn.
  - destruct (fetch_rows_sorted (ts_tuples sorter) n aggstate sorter Hin eq_refl Hn)
      as (st' & Hrun & (sorter' & Hin' & Hnone) & _ & Hrest).
    exists st'. split; [done|]. by rewrite Hin'.
  - destruct (fetch_rows_outer (lefttree aggstate) n aggstate Hin eq_refl Hn)
      as (st' & Hrun & Hin' & Hnone & Hrest).
    exists st'. split; [done|]. by rewrite Hin'.
Qed.

(** X4: when a phase that another phase follows has read its input to the
    end (the outer plan in phase 1, the sorter of the phase after that),
    initialize_phase succeeds, and the next phase reads the same rows, in
    the order the sort of that phase puts them in; while it reads them
    they are handed to the sorter of the phase after, if there is one. *)
Theorem rows_reach_next_phase {TS : Tuplesort} (aggstate : AggState)
  (spec : SortSpec) (n1 n2 : nat) :
  (1 <= current_phase aggstate)%nat ->
  (current_phase aggstate + 1 < numphases aggstate)%nat ->
  sort_out aggstate = Some (tuplesort_begin false spec) ->
  ((current_phase aggstate + 2 < numphases aggstate)%nat ->
   is_Some (sortnode (default phase_zero
                        (phases aggstate !! (current_phase aggstate + 2)%nat)))) ->
  (length (input_rows aggstate) < n1)%nat ->
  (length (tuplesort_order spec (input_rows aggstate)) < n2)%nat ->
  exists aggstate1 aggstate2 aggstate3,
    fetch_rows n1 aggstate = (input_rows aggstate, true, aggstate1)
    /\ initialize_phase aggstate1 (current_phase aggstate + 1) = Ok aggstate2
    /\ current_phase aggstate2 = (current_phase aggstate + 1)%nat
    /\ fetch_rows n2 aggstate2
       = (tuplesort_order spec (input_rows aggstate), true, aggstate3)
    /\ ts_tuples <$> sort_out aggstate3
       = if (current_phase aggstate + 2 <? numphases aggstate)%nat
         then Some (tuplesort_order spec (input_rows aggstate))
         else None.
Proof.
  intros Hp Hnext Hout Hnode Hn1 Hn2.
  destruct (fetch_rows_input n1 aggstate Hn1)
    as (st1 & Hrun1 & Hnone1 & Hout1 & Hp1 & Hnum1 & Hph1).
  rewrite Hout in Hout1. cbn [tuplesort_puts fmap option_fmap option_map
                                tuplesort_begin ts_datum ts_spec ts_tuples app]
    in Hout1.
  set (rows := input_rows aggstate) in *.
  set (p := current_phase aggstate) in *.
  assert (Hinit : exists st2,
             initialize_phase st1 (p + 1) = Ok st2
             /\ current_phase st2 = (p + 1)%nat
             /\ input_rows st2 = tuplesort_order spec rows
             /\ ts_tuples <$> sort_out st2
                = (if (p + 2 <? numphases aggstate)%nat then Some [] else None)).
  { unfold initialize_phase. rewrite Hp1.
    rewrite Nat.eqb_refl, orb_true_r. cbn [Assert rbind].
    destruct (Nat.leb_spec (p + 1) 1) as [|_]; [lia|].
    cbn [sort_out set_sort_in sort_in set_sort_out]. rewrite Hout1.
    rewrite bool_decide_eq_true_2 by eauto. cbn [Assert rbind].
    destruct (Nat.ltb_spec 0 (p + 1)) as [_|]; [|lia]. cbn [andb].
    cbn [numphases phases set_sort_in set_sort_out fmap option_fmap option_map].
    rewrite Hnum1, Hph1.
    replace (p + 1 + 1)%nat with (p + 2)%nat by lia.
    destruct (Nat.ltb_spec (p + 2) (numphases aggstate)) as [Hmore|Hlast].
    - destruct (Hnode Hmore) as [spec2 ->]. cbn [rbind].
      eexists. split; [reflexivity|]. by repeat split.
    - cbn [rbind]. eexists. split; [reflexivity|]. by repeat split. }
  destruct Hinit as (st2 & Hinit & Hp2 & Hrows2 & Hout2).
  destruct (fetch_rows_input n2 st2) as (st3 & Hrun3 & _ & Hout3 & _);
    [by rewrite Hrows2|].
  rewrite Hrows2 in Hrun3, Hout3.
  exists st1, st2, st3. split; [done|]. split; [done|]. split; [done|].
  split; [done|]. rewrite Hout3.
  destruct (sort_out st2) as [sorter|]; destruct (p + 2 <? numphases aggstate)%nat;
    simpl in Hout2 |- *; try done.
  injection Hout2 as ->. done.
Qed.

Lemma rows_reach_next_phase_witness :
  exists aggstate1 aggstate2 aggstate3,
    fetch_rows 4 sample_two_phase_state
    = ([sample_row [1; 7; 10]; sample_row [1; 8; 20]; sample_row [2; 7; 30]],
       true, aggstate1)
    /\ initialize_phase (TS := reverse_tuplesort) aggstate1 2 = Ok aggstate2
    /\ current_phase aggstate2 = 2%nat
    /\ fetch_rows 4 aggstate2
       = ([sample_row [2; 7; 30]; sample_row [1; 8; 20]; sample_row [1; 7; 10]],
          true, aggstate3)
    /\ ts_tuples <$> sort_out aggstate3 = None.
Proof.
  apply (rows_reach_next_phase (TS := reverse_tuplesort) sample_two_phase_state
           no_sort 4 4).
  - simpl. lia.
  - simpl. lia.
  - reflexivity.
  - simpl. lia.
  - simpl. lia.
  - simpl. lia.
Defined.

(** ** The columns of a grouping set *)

Lemma get_put_slot aggstate id slot : get_slot (put_slot aggstate id slot) id = slot.
Proof. by destruct id. Qed.

Lemma null_ungrouped_spec all : forall slot cols,
  Forall (fun attnum => 1 <= attnum)%nat all ->
  tts_isempty (null_ungrouped slot all cols) = tts_isempty slot
  /\ tts_values (null_ungrouped slot all cols) = tts_values slot
  /\ length (tts_isnull (null_ungrouped slot all cols)) = length (tts_isnull slot)
  /\ forall i,
       tts_isnull (null_ungrouped slot all cols) !! i
       = if bool_decide (S i ∈ all /\ S i ∉ cols)
         then (fun _ => true) <$> tts_isnull slot !! i
         else tts_isnull slot !! i.
Proof.
  unfold null_ungrouped.
  induction all as [|attnum all IH]; intros slot cols Hall.
  - simpl. repeat split; try done; intros i;
      (rewrite bool_decide_eq_false_2; [done|]); intros [Hin _];
      by apply elem_of_nil in Hin.
  - apply Forall_cons in Hall as [Hattnum Hall]. cbn [foldl].
    destruct (bool_decide_reflect (attnum ∈ cols)) as [Hin|Hout].
    + destruct (IH slot cols Hall) as (H1 & H2 & H3 & H4).
      split; [done|]. split; [done|]. split; [done|].
      intros i. rewrite H4.
      destruct (decide (S i = attnum)) as [<-|Hne].
      * destruct (bool_decide_reflect (S i ∈ all /\ S i ∉ cols)) as [[_ ?]|_];
          [done|].
        rewrite bool_decide_eq_false_2; [done|]. by intros [_ ?].
      * apply (f_equal (fun b : bool => if b then _ else _)).
        apply bool_decide_ext. rewrite elem_of_cons.
        split; intros [Hin' Hnot]; (split; [|done]); [by right|by destruct Hin'].
    + set (slot1 := {| tts_isempty := tts_isempty slot;
                       tts_values := tts_values slot;
                       tts_isnull := <[(attnum - 1)%nat := true]> (tts_isnull slot) |}).
      destruct (IH slot1 cols Hall) as (H1 & H2 & H3 & H4).
      split; [done|]. split; [done|].
      split; [by rewrite H3; subst slot1; cbn; rewrite length_insert|].
      intros i. rewrite H4. subst slot1. cbn [tts_isnull].
      destruct (decide (S i = attnum)) as [<-|Hne].
      * replace (S i - 1)%nat with i by lia.
        rewrite (bool_decide_eq_true_2 (S i ∈ S i :: all /\ S i ∉ cols))
          by (split; [left|done]).
        destruct (tts_isnull slot !! i) as [b|] eqn:Hi.
        -- rewrite list_lookup_insert_eq by (by eapply lookup_lt_Some).
           by destruct (bool_decide _).
        -- rewrite list_insert_ge by (by apply lookup_ge_None).
           rewrite Hi. by destruct (bool_decide _).
      * rewrite list_lookup_insert_ne by lia.
        apply (f_equal (fun b : bool => if b then _ else _)).
        apply bool_decide_ext. rewrite elem_of_cons.
        split; intros [Hin' Hnot]; (split; [|done]); [by right|by destruct Hin'].
Qed.

(** X5: when the phase has no grouping sets ([phase->grouped_cols] is
    NULL) prepare_projection_slot changes nothing, and an empty slot stays
    empty.  When it has, the routine selects the columns of the current
    grouping set and leaves the slot holding a tuple: on a slot that holds
    a tuple it keeps the values and makes NULL exactly the columns that
    are grouped by in some grouping set but not in this one; on an empty
    slot it stores the all-null tuple. *)
Theorem prepare_projection_slot_nulls (aggstate : AggState) (slot : SlotId)
  (currentSet : nat) :
  Forall (fun attnum => 1 <= attnum)%nat (all_grouped_cols aggstate) ->
  let before := get_slot aggstate slot in
  let after := get_slot (prepare_projection_slot aggstate slot currentSet) slot in
  match phase_grouped_cols (phase aggstate) with
  | None => prepare_projection_slot aggstate slot currentSet = aggstate
  | Some sets =>
      forall cols, sets !! currentSet = Some cols ->
        grouped_cols (prepare_projection_slot aggstate slot currentSet) = cols
        /\ tts_isempty after = false
        /\ length (tts_values after) = length (tts_values before)
        /\ length (tts_isnull after) = length (tts_isnull before)
        /\ (tts_isempty before = true ->
            forall i, (i < length (tts_isnull before))%nat ->
              tts_isnull after !! i = Some true)
        /\ (tts_isempty before = false ->
            tts_values after = tts_values before
            /\ forall i,
                 tts_isnull after !! i
                 = if bool_decide (S i ∈ all_grouped_cols aggstate /\ S i ∉ cols)
                   then (fun _ => true) <$> tts_isnull before !! i
                   else tts_isnull before !! i)
  end.
Proof.
  intros Hall before after. subst before after.
  unfold prepare_projection_slot.
  destruct (phase_grouped_cols (phase aggstate)) as [sets|]; [|reflexivity].
  intros cols Hcols. rewrite Hcols. cbn [default]. unfold id.
  set (st1 := set_grouped_cols aggstate cols).
  assert (Hslot : get_slot st1 slot = get_slot aggstate slot) by (by destruct slot).
  assert (Hall1 : all_grouped_cols st1 = all_grouped_cols aggstate) by done.
  rewrite Hslot, Hall1.
  destruct (tts_isempty (get_slot aggstate slot)) eqn:Hempty.
  - rewrite get_put_slot. split; [by destruct slot|].
    cbn [ExecStoreAllNullTuple tts_isempty tts_values tts_isnull].
    rewrite !length_replicate. repeat split; try done.
    intros _ i Hi. by apply lookup_replicate_2.
  - destruct (all_grouped_cols aggstate) as [|attnum all] eqn:Hcolumns.
    + rewrite Hslot. repeat split; try done; intros i;
        (rewrite bool_decide_eq_false_2; [done|]); intros [Hin _];
        by apply elem_of_nil in Hin.
    + rewrite get_put_slot.
      destruct (null_ungrouped_spec (attnum :: all) (get_slot aggstate slot) cols Hall)
        as (H1 & H2 & H3 & H4).
      split; [by destruct slot|]. split; [by rewrite H1|].
      split; [by rewrite H2|]. split; [done|]. split; [done|]. intros _.
      split; [done|]. exact H4.
Qed.

Lemma prepare_projection_slot_nulls_witness :
  grouped_cols (prepare_projection_slot sample_sets_state ScanSlot 1) = [1%nat]
  /\ tts_values (get_slot (prepare_projection_slot sample_sets_state ScanSlot 1)
                   ScanSlot) = [1; 7; 10]
  /\ tts_isnull (get_slot (prepare_projection_slot sample_sets_state ScanSlot 1)
                   ScanSlot) !! 1%nat = Some true
  /\ tts_isnull (get_slot (prepare_projection_slot sample_sets_state ScanSlot 1)
                   ScanSlot) !! 0%nat = Some false
  /\ prepare_projection_slot sample_sorted_state ScanSlot 0 = sample_sorted_state.
Proof.
  pose proof (prepare_projection_slot_nulls sample_sets_state ScanSlot 1
                ltac:(repeat constructor)) as Hsets.
  pose proof (prepare_projection_slot_nulls sample_sorted_state ScanSlot 0
                ltac:(repeat constructor)) as Hnone.
  cbv zeta in Hsets, Hnone.
  change (phase_grouped_cols (phase sample_sets_state))
    with (Some [[1; 2]; [1]; []]%nat) in Hsets.
  change (phase_grouped_cols (phase sample_sorted_state))
    with (@None (list (list nat))) in Hnone.
  cbv beta iota in Hsets, Hnone.
  destruct (Hsets [1%nat] eq_refl) as (Hcols & _ & _ & _ & _ & Hfull).
  destruct (Hfull eq_refl) as [Hvalues Hnulls].
  split; [exact Hcols|]. split; [exact Hvalues|].
  split; [exact (Hnulls 1%nat)|]. split; [exact (Hnulls 0%nat)|exact Hnone].
Defined.

(** ** A group written to a batch file and read back *)

(** A loop over a list that can raise, with an invariant on what was
    done so far. *)
Lemma foldl_result_inv {S A} (I : list A -> S -> Prop) (f : S -> A -> result S)
  (l : list A) (s r : S) :
  I [] s ->
  (forall done a s1 s2, I done s1 -> f s1 a = Ok s2 -> I (done ++ [a]) s2) ->
  foldl (fun acc a => s <-! acc ;; f s a) (Ok s) l = Ok r ->
  I l r.
Proof.
  intros Hs Hf.
  cut (forall done s1, I done s1 ->
         foldl (fun acc a => s <-! acc ;; f s a) (Ok s1) l = Ok r -> I (done ++ l) r).
  { intros H. by apply (H [] s). }
  induction l as [|a l IH]; intros done s1 Hdone; simpl.
  - intros [= <-]. by rewrite app_nil_r.
  - destruct (f s1 a) as [s2|e] eqn:Hfa.
    + intros Hrest. replace (done ++ a :: l) with ((done ++ [a]) ++ l)
        by (by rewrite <- app_assoc).
      apply (IH (done ++ [a]) s2); [by eapply Hf|done].
    + intros H. exfalso. revert H. clear.
      induction l as [|b l IHl]; simpl; [discriminate|exact IHl].
Qed.

Lemma foldl_result_run {S A} (I : list A -> S -> Prop) (f : S -> A -> result S)
  (l : list A) (s : S) :
  I [] s ->
  (forall done a rest s1, l = done ++ a :: rest -> I done s1 ->
     exists s2, f s1 a = Ok s2 /\ I (done ++ [a]) s2) ->
  exists r, foldl (fun acc a => s <-! acc ;; f s a) (Ok s) l = Ok r /\ I l r.
Proof.
  intros Hs Hf.
  cut (forall l' done s1, l = done ++ l' -> I done s1 ->
         exists r, foldl (fun acc a => s <-! acc ;; f s a) (Ok s1) l' = Ok r
                   /\ I (done ++ l') r).
  { intros H. by apply (H l [] s). }
  induction l' as [|a l' IH]; intros done s1 Hl Hdone; simpl.
  - exists s1. by rewrite app_nil_r.
  - destruct (Hf done a l' s1 Hl Hdone) as (s2 & -> & Hs2). cbn [rbind].
    replace (done ++ a :: l') with ((done ++ [a]) ++ l')
      by (by rewrite <- app_assoc).
    apply IH; [|done]. by rewrite <- app_assoc.
Qed.

Lemma zip_with_take_S {A B C} (f : A -> B -> C) (l : list A) (k : list B) n x y :
  l !! n = Some x -> k !! n = Some y ->
  zip_with f l (take (S n) k) = zip_with f l (take n k) ++ [f x y].
Proof.
  intros Hx Hy. rewrite (take_S_r _ _ y) by done.
  pose proof (lookup_lt_Some _ _ _ Hy) as Hlt.
  rewrite zip_with_app_r, length_take, Nat.min_l by lia.
  rewrite (drop_S _ _ _ Hx). cbn [zip_with].
  rewrite zip_with_take_l' by (rewrite length_take; lia).
  by destruct (drop (S n) l).
Qed.

Section SpillRoundTrip.
Context {FM : FunctionManager}.

(** The state a dumped state comes back as: a by-value INTERNAL state
    goes through its serialization and deserialization functions, every
    other state comes back as it was. *)
Definition reloaded (pertrans : AggStatePerTransData)
  (pergroupstate : AggStatePerGroupData) : AggStatePerGroupData :=
  if negb (transValueIsNull pergroupstate) && transtypeByVal pertrans
     && (aggtranstype pertrans =? INTERNALOID)
  then
    {| transValue :=
         (FunctionCallInvoke
            (call_frame (deserial_func pertrans)
               [((FunctionCallInvoke
                    (call_frame (serial_func pertrans)
                       [(transValue pergroupstate,
                         transValueIsNull pergroupstate)])).1, false);
                (0, false)])).1;
       transValueIsNull := transValueIsNull pergroupstate;
       noTransValue := noTransValue pergroupstate |}
  else pergroupstate.

(** The state needs its deserialization function. *)
Definition needs_deserial (pertrans : AggStatePerTransData)
  (pergroupstate : AggStatePerGroupData) : bool :=
  negb (transValueIsNull pergroupstate) && transtypeByVal pertrans
  && (aggtranstype pertrans =? INTERNALOID).

Lemma load_state_dump_payload pertrans pergroupstate payload :
  dump_payload pertrans pergroupstate = Ok payload ->
  (needs_deserial pertrans pergroupstate = true ->
   OidIsValid (deserial_func_id pertrans) = true) ->
  load_state pertrans pergroupstate payload = Ok (reloaded pertrans pergroupstate).
Proof.
  unfold dump_payload, load_state, reloaded, needs_deserial.
  destruct (transValueIsNull pergroupstate) eqn:Hnull; cbn [negb andb]; [done|].
  destruct (transtypeByVal pertrans); cbn [negb andb].
  - destruct (aggtranstype pertrans =? INTERNALOID); [|done].
    destruct (OidIsValid (serial_func_id pertrans)); cbn [negb]; [|done].
    intros [= <-] Hvalid. rewrite Hvalid by done. cbn [negb default].
    reflexivity.
  - intros [= <-] _. cbn [default]. destruct pergroupstate; simpl in *. by subst.
Qed.

(** What dump_record puts into the record of an entry. *)
Lemma dump_record_fields aggstate entry record :
  dump_record aggstate entry = Ok record ->
  rec_hash record = hash entry
  /\ rec_tuple record = firstTuple entry
  /\ rec_states record = take (numtrans aggstate) (additional entry)
  /\ length (rec_payload record) = numtrans aggstate
  /\ forall aggno, (aggno < numtrans aggstate)%nat ->
       exists slot pergroupstate payload,
         pertrans aggstate !! aggno = Some slot
         /\ additional entry !! aggno = Some pergroupstate
         /\ rec_payload record !! aggno = Some payload
         /\ dump_payload slot pergroupstate = Ok payload.
Proof.
  unfold dump_record.
  match goal with
  | |- rbind ?m _ = _ -> _ => destruct m as [payloads|] eqn:Hloop; [|discriminate]
  end.
  cbn [rbind]. intros [= <-]. cbn [rec_hash rec_tuple rec_states rec_payload].
  split; [done|]. split; [done|]. split; [done|].
  apply (foldl_result_inv
           (fun done payloads =>
              length payloads = length done
              /\ forall k aggno, done !! k = Some aggno ->
                   exists slot pergroupstate payload,
                     pertrans aggstate !! aggno = Some slot
                     /\ additional entry !! aggno = Some pergroupstate
                     /\ payloads !! k = Some payload
                     /\ dump_payload slot pergroupstate = Ok payload)) in Hloop.
  - destruct Hloop as [Hlen Hall]. rewrite length_seq in Hlen. split; [done|].
    intros aggno Hlt. apply (Hall aggno aggno). by apply lookup_seq_lt.
  - split; [done|]. intros k aggno Hk. by rewrite lookup_nil in Hk.
  - intros done aggno s1 s2 [Hlen Hall]. unfold get_pertrans.
    destruct (pertrans aggstate !! aggno) as [p|] eqn:Hp; [|discriminate].
    cbn [rbind].
    destruct (additional entry !! aggno) as [pg|] eqn:Hpg; [|discriminate].
    destruct (dump_payload p pg) as [x|] eqn:Hx; [|discriminate].
    cbn [rbind]. intros [= <-]. split; [by rewrite !length_app, Hlen|].
    intros k a Hk. destruct (decide (k < length done)%nat) as [Hlt|Hge].
    + rewrite lookup_app_l in Hk by done.
      destruct (Hall k a Hk) as (p' & pg' & x' & H1 & H2 & H3 & H4).
      exists p', pg', x'. rewrite lookup_app_l by lia. done.
    + rewrite lookup_app_r in Hk by lia.
      destruct (k - length done)%nat as [|?] eqn:Hz; [|done]. injection Hk as <-.
      assert (k = length done) as -> by lia.
      exists p, pg, x. rewrite lookup_app_r by lia.
      rewrite Hlen, Nat.sub_diag. done.
Qed.

(** X6: a group that dump_record wrote to a batch file and that is read
    back into a new entry (the record misses in the table and is
    inserted) has the key tuple it had and, for every transition slot,
    the transition state it had; only a by-value INTERNAL state that is
    not null is different, being the deserialization of its serialized
    form. *)
Theorem spilled_group_round_trip (aggstate aggstate1 : AggState)
  (entry entry0 : TupleHashEntryData) (record : SpillRecord)
  (setno position : nat) (perhash0 : AggStatePerHashData) :
  dump_record aggstate entry = Ok record ->
  pertrans aggstate1 = pertrans aggstate ->
  numtrans aggstate1 = numtrans aggstate ->
  perhash aggstate1 !! setno = Some perhash0 ->
  hashtab (hashtable perhash0) !! position = Some entry0 ->
  (forall aggno slot pergroupstate,
     (aggno < numtrans aggstate)%nat ->
     pertrans aggstate !! aggno = Some slot ->
     additional entry !! aggno = Some pergroupstate ->
     needs_deserial slot pergroupstate = true ->
     OidIsValid (deserial_func_id slot) = true) ->
  exists aggstate2 perhash2 entry2,
    load_new_entry aggstate1 setno position record = Ok aggstate2
    /\ perhash aggstate2 !! setno = Some perhash2
    /\ hashtab (hashtable perhash2) !! position = Some entry2
    /\ firstTuple entry2 = firstTuple entry
    /\ hash entry2 = hash entry0
    /\ ((0 < numtrans aggstate)%nat ->
        additional entry2
        = zip_with reloaded (pertrans aggstate)
            (take (numtrans aggstate) (additional entry))).
Proof.
  intros Hdump Hpt Hnt Hph Hentry Hvalid.
  destruct (dump_record_fields _ _ _ Hdump) as (Hhash & Htuple & Hstates & Hlen & Hall).
  unfold load_new_entry.
  set (st1 := alter_entry aggstate1 setno position
                (fun e => set_firstTuple e (rec_tuple record))).
  assert (Hst1 : numtrans st1 = numtrans aggstate /\ pertrans st1 = pertrans aggstate)
    by (by split).
  destruct Hst1 as [Hnt1 Hpt1]. rewrite Hnt1.
  assert (Hlook1 : perhash st1 !! setno
                   = Some (set_hashtable perhash0
                             (set_hashtab (hashtable perhash0)
                                (alter (fun e => set_firstTuple e (rec_tuple record))
                                   position (hashtab (hashtable perhash0)))))).
  { subst st1. unfold alter_entry. cbn [perhash set_perhash].
    by rewrite list_lookup_alter_eq, Hph. }
  destruct (Nat.ltb_spec 0 (numtrans aggstate)) as [Hpos|Hzero].
  - destruct (foldl_result_run
                (fun done states =>
                   states = zip_with reloaded (pertrans aggstate)
                              (take (length done) (additional entry)))
                (fun states aggno =>
                   pertrans <-! get_pertrans st1 aggno ;;
                   let! (pergroupstate, payload) := record_state record aggno in
                   pergroupstate <-! load_state pertrans pergroupstate payload ;;
                   Ok (states ++ [pergroupstate]))
                (seq 0 (numtrans aggstate)) [])
      as (states & Hloop & Hstates').
    + cbn. by destruct (pertrans aggstate).
    + intros done aggno rest states Hsplit ->.
      assert (Haggno : aggno = length done).
      { apply (f_equal (fun l => l !! length done)) in Hsplit.
        rewrite list_lookup_middle in Hsplit by done.
        apply lookup_seq in Hsplit. lia. }
      assert (Hlt : (aggno < numtrans aggstate)%nat).
      { apply (f_equal length) in Hsplit.
        rewrite length_seq, length_app in Hsplit. simpl in Hsplit. lia. }
      destruct (Hall aggno Hlt) as (p & pg & x & Hp & Hpg & Hx & Hpayload).
      unfold get_pertrans. rewrite Hpt1, Hp. cbn [rbind].
      unfold record_state. rewrite Hstates, lookup_take_lt by done.
      rewrite Hpg, Hx. cbn [default rbind]. unfold id.
      rewrite (load_state_dump_payload p pg x Hpayload) by (by apply (Hvalid aggno)).
      cbn [rbind]. eexists. split; [reflexivity|].
      rewrite length_app. simpl. rewrite <- Haggno, Nat.add_1_r.
      by rewrite (zip_with_take_S _ _ _ _ p pg).
    + rewrite Hloop. cbn [rbind]. eexists _, _, _. split; [reflexivity|].
      unfold alter_entry. cbn [perhash set_perhash].
      rewrite list_lookup_alter_eq, Hlook1. cbn [fmap option_fmap option_map].
      split; [reflexivity|].
      cbn [hashtable set_hashtable hashtab set_hashtab].
      rewrite !list_lookup_alter_eq, Hentry. cbn [fmap option_fmap option_map].
      split; [reflexivity|].
      cbn [firstTuple hash additional set_additional set_firstTuple].
      split; [done|]. split; [done|]. intros _.
      by rewrite Hstates', length_seq.
  - eexists _, _, _. split; [reflexivity|]. rewrite Hlook1.
    split; [reflexivity|]. cbn [hashtable set_hashtable hashtab set_hashtab].
    rewrite list_lookup_alter_eq, Hentry. cbn [fmap option_fmap option_map].
    split; [reflexivity|]. split; [done|]. split; [done|]. lia.
Qed.

End SpillRoundTrip.

Lemma spilled_group_round_trip_witness :
  dump_record (FM := sum_fmgr) sample_filled_state sample_entry
  = Ok (sample_record 1 10)
  /\ exists aggstate2 perhash2 entry2,
       load_new_entry (FM := sum_fmgr) sample_filled_state 0 0 (sample_record 1 10)
       = Ok aggstate2
       /\ perhash aggstate2 !! 0%nat = Some perhash2
       /\ hashtab (hashtable perhash2) !! 0%nat = Some entry2
       /\ firstTuple entry2 = sample_row [1]
       /\ additional entry2 = [pergroup_value 10].
Proof.
  split; [vm_compute; reflexivity|].
  destruct (spilled_group_round_trip (FM := sum_fmgr) sample_filled_state
              sample_filled_state sample_entry sample_entry (sample_record 1 10)
              0 0 sample_filled_perhash)
    as (st2 & ph2 & e2 & Hload & Hph & He & Htuple & _ & Hstates).
  - vm_compute. reflexivity.
  - reflexivity.
  - reflexivity.
  - vm_compute. reflexivity.
  - vm_compute. reflexivity.
  - intros aggno slot pg Hlt Hslot Hpg Hneeds. vm_compute in Hlt.
    assert (aggno = 0%nat) as -> by lia.
    vm_compute in Hslot. injection Hslot as <-.
    vm_compute in Hpg. injection Hpg as <-.
    vm_compute in Hneeds. discriminate Hneeds.
  - exists st2, ph2, e2. split; [exact Hload|]. split; [exact Hph|].
    split; [exact He|]. split; [exact Htuple|].
    rewrite Hstates by (vm_compute; lia). vm_compute. reflexivity.
Defined.

(** ** The batches of a dump *)

Section DumpPartition.
Context {FM : FunctionManager}.

Lemma dump_record_same aggstate aggstate' entry :
  pertrans aggstate' = pertrans aggstate ->
  numtrans aggstate' = numtrans aggstate ->
  dump_record aggstate' entry = dump_record aggstate entry.
Proof. destruct aggstate, aggstate'; simpl; intros -> ->; reflexivity. Qed.

(** The records of the batch [k] among [records], [B] being the number
    of batches. *)
Definition batch_of (B : Z) (k : nat) (records : list SpillRecord) : list SpillRecord :=
  filter (fun record => Z.to_nat (rec_hash record mod B) = k) records.

(** A spill set of level 0 whose batch files hold [records], each in the
    batch of its hash, in order; a batch without record has no file. *)
Record batches_hold (B : Z) (spillset : SpillSet) (records : list SpillRecord)
  : Prop := {
  batches_level : level spillset = 0;
  batches_files : num_files spillset = B;
  batches_parent : parent_spill_set spillset = None;
  batches_current : current_file spillset = 0;
  batches_length : length (spill_file spillset) = Z.to_nat B;
  batches_content : forall k, (k < Z.to_nat B)%nat ->
    match spill_file spillset !! k with
    | Some (Some sfile) =>
        file sfile = batch_of B k records
        /\ batch_of B k records <> []
        /\ ntups_write sfile = Z.of_nat (length (batch_of B k records))
        /\ ntups_read sfile = 0
        /\ file_spilled sfile = false
        /\ child_spill_set sfile = None
    | Some None => batch_of B k records = []
    | None => False
    end
}.

Lemma batch_of_snoc B k records record :
  batch_of B k (records ++ [record])
  = batch_of B k records
    ++ (if decide (Z.to_nat (rec_hash record mod B) = k) then [record] else []).
Proof.
  unfold batch_of. by rewrite filter_app.
Qed.

Lemma append_to_batch_holds B aggstate ptr spill_set records record :
  0 < B < 2 ^ 31 -> 0 <= rec_hash record ->
  spill_heap aggstate !! ptr = Some spill_set ->
  batches_hold B spill_set records ->
  exists spill_set',
    append_to_batch aggstate ptr (Z.to_nat (rec_hash record mod B)) record
    = Ok (put_spill_set aggstate ptr spill_set')
    /\ batches_hold B spill_set' (records ++ [record]).
Proof.
  intros HB Hhash Hptr [H1 H2 H3 H4 H5 H6].
  set (index := Z.to_nat (rec_hash record mod B)).
  assert (Hindex : (index < Z.to_nat B)%nat).
  { subst index. pose proof (Z.mod_pos_bound (rec_hash record) B). lia. }
  unfold append_to_batch, get_spill_set. rewrite Hptr. cbn [rbind].
  destruct (lookup_lt_is_Some_2 (spill_file spill_set) index) as [slot Hslot];
    [lia|].
  rewrite Hslot. eexists. split; [reflexivity|].
  split; cbn [level num_files parent_spill_set current_file spill_file
                set_spill_file]; try done.
  - by rewrite length_insert.
  - intros k Hk. rewrite batch_of_snoc. fold index.
    destruct (decide (index = k)) as [<-|Hne].
    + rewrite list_lookup_insert_eq by lia.
      cbn [file set_file set_ntups_write ntups_write ntups_read file_spilled
             child_spill_set].
      specialize (H6 index Hindex). rewrite Hslot in H6.
      destruct slot as [sfile|]; cbn [default]; unfold id.
      * destruct H6 as (Hf & Hne & Hw & Hr & Hs & Hc). rewrite Hf.
        repeat split; try done.
        -- by destruct (batch_of B index records).
        -- rewrite Hw, length_app. simpl. lia.
      * rewrite H6. cbn [new_spill_file file ntups_write ntups_read
                           file_spilled child_spill_set app].
        repeat split; done.
    + rewrite list_lookup_insert_ne by done. rewrite app_nil_r. by apply H6.
Qed.

(** X7: the first DumpHybridHashtable of a table whose entries can all be
    written succeeds; it leaves the table empty and marked as spilled,
    with a new spill set of level 0 and [nbatches] batch slots; every
    entry is written exactly once, to the batch file its hash selects
    ([hash mod nbatches]), the records of a file being in the order of
    the table; [ntups_write] of a file is the number of its records, and
    a batch that got no record has no file. *)
Theorem DumpHybridHashtable_partitions (aggstate : AggState) (setno : nat)
  (perhash0 : AggStatePerHashData) (records : list SpillRecord) :
  perhash aggstate !! setno = Some perhash0 ->
  spilled (hashtable perhash0) = false ->
  0 < nbatches (hashtable perhash0) < 2 ^ 31 ->
  Forall (fun entry => 0 <= hash entry) (hashtab (hashtable perhash0)) ->
  Forall2 (fun entry record => dump_record aggstate entry = Ok record)
    (hashtab (hashtable perhash0)) records ->
  exists aggstate' perhash' spillset,
    DumpHybridHashtable aggstate setno = Ok aggstate'
    /\ perhash aggstate' !! setno = Some perhash'
    /\ hashtab (hashtable perhash') = []
    /\ spilled (hashtable perhash') = true
    /\ spill_set (hashtable perhash') = Some (length (spill_heap aggstate))
    /\ spill_heap aggstate' !! length (spill_heap aggstate) = Some spillset
    /\ batches_hold (nbatches (hashtable perhash0)) spillset records.
Proof.
  intros Hph Hfirst HB Hhashes Hrecords.
  set (B := nbatches (hashtable perhash0)) in *.
  set (ptr := length (spill_heap aggstate)).
  unfold DumpHybridHashtable, get_perhash. rewrite Hph. cbn [rbind].
  rewrite Hfirst. cbn [negb alloc_spill_set]. fold B ptr.
  set (ht1 := set_spill_set (set_spilled (hashtable perhash0) true) (Some ptr)).
  set (ss0 := {| level := 0; num_files := B; parent_index := -1;
                 parent_spill_set := None; current_file := 0;
                 spill_file := replicate (Z.to_nat B) None |}).
  set (st1 := put_hashtable
                (set_spill_heap aggstate (spill_heap aggstate ++ [ss0])) setno ht1).
  cbn [spill_set ht1 set_spill_set rbind].
  change (nbatches ht1) with B. change (hashtab ht1) with (hashtab (hashtable perhash0)).
  destruct (foldl_result_run
              (fun done s =>
                 pertrans s = pertrans aggstate /\ numtrans s = numtrans aggstate
                 /\ perhash s = perhash st1
                 /\ length (spill_heap s) = S ptr
                 /\ exists ss, spill_heap s !! ptr = Some ss
                               /\ batches_hold B ss (take (length done) records))
              (fun s entry =>
                 spill_file_index <-! batch_index (hash entry) B ;;
                 record <-! dump_record s entry ;;
                 append_to_batch s ptr spill_file_index record)
              (hashtab (hashtable perhash0)) st1)
    as (st2 & Hloop & Hpt & Hnt & Hper & Hheap & ss & Hss & Hhold).
  - split; [done|]. split; [done|]. split; [done|].
    split; [subst st1; cbn; rewrite length_app; simpl; lia|].
    exists ss0. split.
    + subst st1. cbn. by rewrite list_lookup_middle.
    + split; cbn; try done.
      * by rewrite length_replicate.
      * intros k Hk. by rewrite lookup_replicate_2.
  - intros done entry rest s Hsplit (Hpt & Hnt & Hper & Hheap & ss & Hss & Hhold).
    assert (Hin : hashtab (hashtable perhash0) !! length done = Some entry)
      by (rewrite Hsplit; by apply list_lookup_middle).
    destruct (Forall2_lookup_l _ _ _ _ _ Hrecords Hin) as (record & Hrecord & Hdump).
    assert (Hhash : 0 <= hash entry)
      by (by apply (Forall_lookup_1 _ _ _ _ Hhashes Hin)).
    destruct (dump_record_fields _ _ _ Hdump) as (Hrh & _).
    rewrite batch_index_value by lia. cbn [rbind].
    rewrite (dump_record_same aggstate s) by done. rewrite Hdump. cbn [rbind].
    rewrite <- Hrh in Hhash |- *.
    destruct (append_to_batch_holds B s ptr ss _ record HB Hhash Hss Hhold)
      as (ss' & Happend & Hhold').
    rewrite Happend. eexists. split; [reflexivity|].
    split; [done|]. split; [done|]. split; [done|].
    split; [by cbn; rewrite length_insert|].
    exists ss'. split.
    + cbn. apply list_lookup_insert_eq. lia.
    + rewrite length_app. simpl. rewrite Nat.add_1_r.
      by rewrite (take_S_r _ _ record).
  - rewrite Hloop. cbn [rbind]. eexists _, _, ss. split; [reflexivity|].
    unfold put_hashtable. cbn [perhash set_perhash spill_heap].
    rewrite list_lookup_alter_eq, Hper. subst st1. unfold put_hashtable.
    cbn [perhash set_perhash set_spill_heap].
    rewrite list_lookup_alter_eq, Hph. cbn [fmap option_fmap option_map].
    split; [reflexivity|]. cbn. split; [done|]. split; [done|]. split; [done|].
    split; [exact Hss|].
    rewrite (Forall2_length _ _ _ Hrecords), firstn_all in Hhold. exact Hhold.
Qed.

End DumpPartition.

Lemma DumpHybridHashtable_partitions_witness :
  exists aggstate' perhash' spillset sfile,
    DumpHybridHashtable (FM := sum_fmgr) sample_hybrid_state 0 = Ok aggstate'
    /\ perhash aggstate' !! 0%nat = Some perhash'
    /\ hashtab (hashtable perhash') = []
    /\ spill_heap aggstate' !! 0%nat = Some spillset
    /\ spill_file spillset !! 1%nat = Some (Some sfile)
    /\ file sfile = [sample_record 1 15; sample_record 5 50]
    /\ spill_file spillset !! 3%nat = Some None.
Proof.
  destruct (DumpHybridHashtable_partitions (FM := sum_fmgr) sample_hybrid_state 0
              sample_hybrid_perhash
              [sample_record 1 15; sample_record 2 20; sample_record 5 50])
    as (st' & ph' & ss & Hdump & Hph & Hempty & _ & _ & Hss & Hhold).
  - vm_compute. reflexivity.
  - vm_compute. reflexivity.
  - vm_compute. split; reflexivity.
  - vm_compute. repeat constructor; discriminate.
  - vm_compute. repeat constructor.
  - pose proof (batches_content _ _ _ Hhold 1%nat) as Hone.
    pose proof (batches_content _ _ _ Hhold 3%nat) as Hthree.
    destruct (spill_file ss !! 1%nat) as [[sfile|]|] eqn:Hfile1.
    + destruct (spill_file ss !! 3%nat) as [[other|]|] eqn:Hfile3.
      * exfalso. destruct Hthree as (_ & Hsome & _); [vm_compute; lia|].
        apply Hsome. vm_compute. reflexivity.
      * exists st', ph', ss, sfile. split; [exact Hdump|]. split; [exact Hph|].
        split; [exact Hempty|]. split; [exact Hss|]. split; [exact Hfile1|].
        split; [|exact Hfile3].
        destruct Hone as (Hfile & _); [vm_compute; lia|].
        rewrite Hfile. vm_compute. reflexivity.
      * exfalso. apply Hthree. vm_compute. lia.
    + exfalso. assert (H : batch_of 4 1 [sample_record 1 15; sample_record 2 20;
                                          sample_record 5 50] = [])
        by (apply Hone; vm_compute; lia).
      vm_compute in H. discriminate H.
    + exfalso. apply Hone. vm_compute. lia.
Defined.

(** ** The child spill set of a batch file being reloaded *)

Section ReloadChild.
Context {FM : FunctionManager} {EG : ExecGrouping}.

(** The record misses and the table is full: tuplehash_insert_with_key
    gives NULL for it. *)
Definition cannot_insert (aggstate : AggState) (setno : nat) (record : SpillRecord)
  : bool :=
  match perhash aggstate !! setno with
  | Some ph =>
      match (tuplehash_insert_with_key (hashtable ph) (record_slot record)
               (rec_hash record)).1 with
      | None => true
      | Some _ => false
      end
  | None => false
  end.

(** The records among [records], read in this order from [aggstate], that
    miss and cannot be inserted. *)
Fixpoint overflowing (aggstate : AggState) (setno ptr index : nat)
  (records : list SpillRecord) : list SpillRecord :=
  match records with
  | [] => []
  | record :: records =>
      (if cannot_insert aggstate setno record then [record] else [])
      ++ match load_record aggstate setno ptr index record with
         | Ok aggstate' => overflowing aggstate' setno ptr index records
         | Err _ => []
         end
  end.

(** Batch files that hold [records], each in the batch of its hash among
    [B], in order; a batch without record has no file. *)
Definition files_hold (B : Z) (files : list (option SpillFile))
  (records : list SpillRecord) : Prop :=
  length files = Z.to_nat B
  /\ forall k, (k < Z.to_nat B)%nat ->
       match files !! k with
       | Some (Some sfile) =>
           file sfile = batch_of B k records
           /\ batch_of B k records <> []
           /\ ntups_write sfile = Z.of_nat (length (batch_of B k records))
           /\ ntups_read sfile = 0
           /\ file_spilled sfile = false
           /\ child_spill_set sfile = None
       | Some None => batch_of B k records = []
       | None => False
       end.

(** The child spill set of a batch file of a spill set at [ptr] with level
    [L] and [B] batch slots, holding [records]. *)
Definition child_holds (L B : Z) (ptr : nat) (cs : SpillSet)
  (records : list SpillRecord) : Prop :=
  level cs = L + 1 /\ num_files cs = B + 1 /\ parent_spill_set cs = Some ptr
  /\ current_file cs = 0
  /\ files_hold (B + 1) (spill_file cs) records.

(** While the batch file [index] of the spill set at [ptr] is read, [over]
    being the records that overflowed so far and [heap0] the number of
    spill sets when the reading began: nothing was allocated before the
    first overflow; from then on one spill set was, the file points to it,
    and it holds [over]. *)
Definition reloading (L B : Z) (ptr index heap0 : nat) (over : list SpillRecord)
  (aggstate : AggState) : Prop :=
  exists ss sfile,
    spill_heap aggstate !! ptr = Some ss
    /\ level ss = L /\ num_files ss = B
    /\ spill_file ss !! index = Some (Some sfile)
    /\ (ptr < heap0)%nat
    /\ match over with
       | [] => file_spilled sfile = false
               /\ length (spill_heap aggstate) = heap0
       | _ :: _ =>
           file_spilled sfile = true
           /\ child_spill_set sfile = Some heap0
           /\ length (spill_heap aggstate) = S heap0
           /\ exists cs, spill_heap aggstate !! heap0 = Some cs
                         /\ child_holds L B ptr cs over
       end.

Lemma files_hold_empty B : 0 <= B -> files_hold B (replicate (Z.to_nat B) None) [].
Proof.
  intros HB. split; [by rewrite length_replicate|].
  intros k Hk. by rewrite lookup_replicate_2.
Qed.

Lemma files_hold_append B files records record :
  0 < B ->
  files_hold B files records ->
  let k := Z.to_nat (rec_hash record mod B) in
  exists slot,
    files !! k = Some slot
    /\ files_hold B
         (<[k := Some (set_ntups_write
                         (set_file (default new_spill_file slot)
                            (file (default new_spill_file slot) ++ [record]))
                         (ntups_write (default new_spill_file slot) + 1))]> files)
         (records ++ [record]).
Proof.
  intros HB [Hlen Hcontent] k.
  assert (Hk : (k < Z.to_nat B)%nat).
  { subst k. pose proof (Z.mod_pos_bound (rec_hash record) B). lia. }
  destruct (lookup_lt_is_Some_2 files k) as [slot Hslot]; [lia|].
  exists slot. split; [done|]. split; [by rewrite length_insert|].
  intros j Hj. rewrite batch_of_snoc. fold k.
  destruct (decide (k = j)) as [<-|Hne].
  - rewrite list_lookup_insert_eq by lia.
    cbn [file set_file set_ntups_write ntups_write ntups_read file_spilled
           child_spill_set].
    specialize (Hcontent k Hk). rewrite Hslot in Hcontent.
    destruct slot as [sfile|]; cbn [default]; unfold id.
    + destruct Hcontent as (Hf & Hnonempty & Hw & Hr & Hs & Hc). rewrite Hf.
      repeat split; try done.
      * by destruct (batch_of B k records).
      * rewrite Hw, length_app. simpl. lia.
    + rewrite Hcontent. cbn [new_spill_file file ntups_write ntups_read
                               file_spilled child_spill_set app].
      repeat split; done.
  - rewrite list_lookup_insert_ne by done. rewrite app_nil_r. by apply Hcontent.
Qed.

(** Counting a record read, or working on the table, keeps the spill
    sets as they are. *)
Lemma reloading_read L B ptr index heap0 over aggstate sfile aggstate' :
  reloading L B ptr index heap0 over aggstate ->
  get_spill_file aggstate ptr index = Ok sfile ->
  put_spill_file aggstate ptr index (set_ntups_read sfile (ntups_read sfile + 1))
  = Ok aggstate' ->
  reloading L B ptr index heap0 over aggstate'
  /\ perhash aggstate' = perhash aggstate.
Proof.
  intros (ss & sfile0 & Hss & HL & HB & Hfile & Hptr0 & Hover) Hget Hput.
  unfold get_spill_file, get_spill_set in Hget. rewrite Hss in Hget.
  cbn [rbind] in Hget. rewrite Hfile in Hget. simplify_eq.
  unfold put_spill_file, get_spill_set in Hput. rewrite Hss in Hput.
  cbn [rbind] in Hput. simplify_eq. split; [|done].
  assert (Hptr : (ptr < length (spill_heap aggstate))%nat)
    by (by eapply lookup_lt_Some).
  assert (Hidx : (index < length (spill_file ss))%nat)
    by (by eapply lookup_lt_Some).
  eexists _, _. unfold put_spill_set.
  cbn [spill_heap set_spill_heap].
  rewrite list_lookup_insert_eq by done.
  split; [reflexivity|].
  cbn [level num_files spill_file set_spill_file].
  rewrite list_lookup_insert_eq by done.
  split; [done|]. split; [done|]. split; [reflexivity|]. split; [done|].
  cbn [file_spilled child_spill_set set_ntups_read]. rewrite length_insert.
  destruct over as [|r over]; [done|].
  destruct Hover as (Hsp & Hchild & Hlen & cs & Hcs & Hholds).
  split; [done|]. split; [done|]. split; [done|].
  exists cs. by rewrite list_lookup_insert_ne by lia.
Qed.

Lemma reloading_heap L B ptr index heap0 over aggstate aggstate' :
  spill_heap aggstate' = spill_heap aggstate ->
  reloading L B ptr index heap0 over aggstate ->
  reloading L B ptr index heap0 over aggstate'.
Proof. intros Hheap. unfold reloading. by rewrite Hheap. Qed.

(** A record that overflows is appended to the one child spill set of the
    batch file, which its first overflow creates. *)
Lemma load_spill_to_child_reloading L B ptr index heap0 over aggstate record :
  reloading L B ptr index heap0 over aggstate ->
  0 <= B < 2 ^ 31 - 1 -> 0 <= rec_hash record ->
  exists aggstate',
    load_spill_to_child aggstate ptr index record = Ok aggstate'
    /\ reloading L B ptr index heap0 (over ++ [record]) aggstate'
    /\ perhash aggstate' = perhash aggstate.
Proof.
  intros (ss & sfile & Hss & HL & HBs & Hfile & Hptr0 & Hover) HB Hhash.
  subst L B. set (B := num_files ss) in *.
  assert (Hptr : (ptr < length (spill_heap aggstate))%nat)
    by (by eapply lookup_lt_Some).
  assert (Hidx : (index < length (spill_file ss))%nat)
    by (by eapply lookup_lt_Some).
  assert (Hsnoc : exists r rest, over ++ [record] = r :: rest).
  { destruct over; simpl; eauto. }
  destruct Hsnoc as (r0 & rest0 & Hsnoc).
  unfold load_spill_to_child, get_spill_file, get_spill_set.
  rewrite Hss. cbn [rbind]. rewrite Hfile. cbn [rbind].
  destruct over as [|r over].
  - (* first overflow of this file: the child is created *)
    destruct Hover as [Hfresh Hlen]. rewrite Hfresh. cbn [negb].
    unfold alloc_spill_set, put_spill_file, get_spill_set.
    cbn [spill_heap set_spill_heap fst snd].
    rewrite lookup_app_l by done. rewrite Hss. cbn [rbind].
    unfold put_spill_set. cbn [spill_heap set_spill_heap].
    rewrite list_lookup_insert_eq by (rewrite length_app; simpl; lia).
    cbn [rbind spill_file set_spill_file].
    rewrite list_lookup_insert_eq by done. cbn [rbind].
    cbn [child_spill_set set_child_spill_set rbind].
    rewrite list_lookup_insert_ne by lia.
    rewrite list_lookup_middle by done. cbn [rbind num_files]. fold B.
    rewrite batch_index_value by lia. cbn [rbind].
    destruct (files_hold_append (B + 1) (replicate (Z.to_nat (B + 1)) None) []
                record ltac:(lia) (files_hold_empty (B + 1) ltac:(lia)))
      as (slot & Hslot & Hfiles).
    unfold append_to_batch, get_spill_set. cbn [spill_heap set_spill_heap].
    rewrite list_lookup_insert_ne by lia.
    rewrite list_lookup_middle by done. cbn [rbind spill_file].
    rewrite Hslot.
    eexists. split; [reflexivity|]. split; [|reflexivity].
    rewrite Hsnoc. rewrite <- Hsnoc. cbn [app].
    eexists _, _. unfold put_spill_set. cbn [spill_heap set_spill_heap].
    rewrite list_lookup_insert_ne by lia.
    rewrite list_lookup_insert_eq by (rewrite length_app; simpl; lia).
    split; [reflexivity|]. cbn [level num_files spill_file set_spill_file].
    rewrite list_lookup_insert_eq by done.
    split; [done|]. split; [done|]. split; [reflexivity|]. split; [lia|].
    cbn [file_spilled child_spill_set set_child_spill_set set_file_spilled].
    rewrite Hlen. split; [done|]. split; [done|].
    split; [rewrite !length_insert, length_app; simpl; lia|].
    eexists. rewrite <- Hlen.
    rewrite list_lookup_insert_eq
      by (rewrite length_insert, length_app; simpl; lia).
    split; [reflexivity|].
    unfold child_holds. cbn [level num_files parent_spill_set current_file
                               spill_file set_spill_file].
    repeat split; try done. apply Hfiles. apply Hfiles.
  - (* the file has spilled before: its child is there *)
    destruct Hover as (Hsp & Hchild & Hlen & cs & Hcs & Hholds).
    rewrite Hsp. cbn [negb rbind]. rewrite Hss. cbn [rbind]. rewrite Hfile.
    cbn [rbind]. rewrite Hchild. cbn [rbind]. rewrite Hcs. cbn [rbind].
    destruct Hholds as (Hlev & Hnum & Hpar & Hcur & Hfiles).
    rewrite Hnum, batch_index_value by lia. cbn [rbind].
    destruct (files_hold_append (B + 1) (spill_file cs) (r :: over) record
                ltac:(lia) Hfiles) as (slot & Hslot & Hfiles').
    unfold append_to_batch, get_spill_set. rewrite Hcs. cbn [rbind].
    rewrite Hslot.
    eexists. split; [reflexivity|]. split; [|reflexivity].
    exists ss, sfile. unfold put_spill_set. cbn [spill_heap set_spill_heap].
    rewrite list_lookup_insert_ne by lia.
    split; [done|]. split; [done|]. split; [done|]. split; [done|].
    split; [done|]. cbn [app].
    split; [done|]. split; [done|]. split; [by rewrite length_insert|].
    eexists. rewrite list_lookup_insert_eq by lia.
    split; [reflexivity|].
    unfold child_holds. cbn [level num_files parent_spill_set current_file
                               spill_file set_spill_file].
    repeat split; try done. apply Hfiles'. apply Hfiles'.
Qed.

(** One record of the file, whatever becomes of it. *)
Lemma load_record_reloading L B ptr index heap0 over setno aggstate record aggstate' :
  reloading L B ptr index heap0 over aggstate ->
  0 <= B < 2 ^ 31 - 1 -> 0 <= rec_hash record ->
  load_record aggstate setno ptr index record = Ok aggstate' ->
  reloading L B ptr index heap0
    (over ++ if cannot_insert aggstate setno record then [record] else [])
    aggstate'.
Proof.
  intros Hinv HB Hhash. unfold load_record, cannot_insert.
  destruct (get_spill_file aggstate ptr index) as [sfile|] eqn:Hget; [|discriminate].
  cbn [rbind].
  destruct (put_spill_file _ _ _ _) as [st1|] eqn:Hput; [|discriminate].
  cbn [rbind].
  destruct (reloading_read _ _ _ _ _ _ _ _ _ Hinv Hget Hput) as [Hinv1 Hph1].
  unfold get_perhash. rewrite Hph1.
  destruct (perhash aggstate !! setno) as [ph|]; [|discriminate]. cbn [rbind].
  destruct (tuplehash_insert_with_key _ _ _) as [[[entry [|]]|] ht']; cbn [fst].
  - (* hit *)
    rewrite app_nil_r.
    destruct (0 <? numtrans _)%nat.
    + intros Hm. apply load_merge_spill_heap in Hm.
      eapply reloading_heap; [exact Hm|]. exact Hinv1.
    + intros Hm. simplify_eq. exact Hinv1.
  - (* miss, inserted *)
    rewrite app_nil_r.
    intros Hn. apply load_new_entry_spill_heap in Hn.
    eapply reloading_heap; [exact Hn|]. exact Hinv1.
  - (* miss, table full *)
    intros Hs.
    destruct (load_spill_to_child_reloading L B ptr index heap0 over
                (put_hashtable st1 setno ht') record)
      as (st2 & Hrun & Hinv2 & _); [exact Hinv1|done|done|].
    rewrite Hrun in Hs. by injection Hs as <-.
Qed.

Lemma load_records_reloading L B ptr index heap0 setno records :
  0 <= B < 2 ^ 31 - 1 ->
  Forall (fun record => 0 <= rec_hash record) records ->
  forall over aggstate aggstate',
    reloading L B ptr index heap0 over aggstate ->
    load_records aggstate setno ptr index records = Ok aggstate' ->
    reloading L B ptr index heap0
      (over ++ overflowing aggstate setno ptr index records) aggstate'.
Proof.
  intros HB Hhashes. unfold load_records.
  induction Hhashes as [|record records Hhash _ IH]; intros over aggstate aggstate' Hinv;
    cbn [foldl overflowing rbind].
  - intros H. simplify_eq. by rewrite app_nil_r.
  - destruct (load_record aggstate setno ptr index record) as [st1|] eqn:Hrec.
    + intros Hrest. rewrite app_assoc. apply (IH _ st1); [|exact Hrest].
      by eapply load_record_reloading.
    + intros H. exfalso. revert H. clear.
      induction records as [|r l IHl]; simpl; [discriminate|exact IHl].
Qed.

End ReloadChild.

(** C6: while the batch file [index] of a spill set with B batch slots and
    level L is reloaded (the file not having spilled when its reload
    starts), after any records [prefix] of the file have been read, the
    reading of a record that misses and cannot be inserted succeeds.  It
    leaves the file marked as spilled and pointing to one child spill
    set, the only spill set allocated since the reload of the file began
    (the first overflow creates it), of exactly B+1 batch slots and level
    L+1, whose parent pointer is the spill set being reloaded.  The child
    holds the records of the file that overflowed so far, this one
    included, and no other: each in the batch file number (stored hash)
    mod (B+1), in the order they were read; this record is the last of
    its batch file. *)
Theorem reload_overflow_goes_to_child
  {FM : FunctionManager} {EG : ExecGrouping}
  (aggstate aggstate1 : AggState) (setno ptr index : nat)
  (spill_set : SpillSet) (sfile : SpillFile)
  (prefix : list SpillRecord) (record : SpillRecord) (ph : AggStatePerHashData) :
  spill_heap aggstate !! ptr = Some spill_set ->
  spill_file spill_set !! index = Some (Some sfile) ->
  file_spilled sfile = false ->
  0 <= num_files spill_set < 2 ^ 31 - 1 ->
  Forall (fun r => 0 <= rec_hash r) (prefix ++ [record]) ->
  load_records aggstate setno ptr index prefix = Ok aggstate1 ->
  perhash aggstate1 !! setno = Some ph ->
  (tuplehash_insert_with_key (hashtable ph) (record_slot record)
     (rec_hash record)).1 = None ->
  let child := length (spill_heap aggstate) in
  let over := overflowing aggstate setno ptr index prefix ++ [record] in
  exists aggstate2 sfile' cs f,
    load_record aggstate1 setno ptr index record = Ok aggstate2
    /\ get_spill_file aggstate2 ptr index = Ok sfile'
    /\ file_spilled sfile' = true
    /\ child_spill_set sfile' = Some child
    /\ length (spill_heap aggstate2) = S child
    /\ spill_heap aggstate2 !! child = Some cs
    /\ level cs = level spill_set + 1
    /\ num_files cs = num_files spill_set + 1
    /\ parent_spill_set cs = Some ptr
    /\ files_hold (num_files spill_set + 1) (spill_file cs) over
    /\ spill_file cs !! Z.to_nat (rec_hash record mod (num_files spill_set + 1))
       = Some (Some f)
    /\ last (file f) = Some record.
Proof.
  intros Hss Hfile Hfresh HB Hhashes Hprefix Hph Hfull child over.
  apply Forall_app in Hhashes as [Hpre Hlast].
  rewrite Forall_singleton in Hlast.
  set (L := level spill_set). set (B := num_files spill_set) in *.
  assert (Hinv : reloading L B ptr index child [] aggstate).
  { exists spill_set, sfile. repeat split; try done.
    subst child. by eapply lookup_lt_Some. }
  pose proof (load_records_reloading L B ptr index child setno prefix HB Hpre
                [] aggstate aggstate1 Hinv Hprefix) as Hinv1.
  cbn [app] in Hinv1.
  set (before := overflowing aggstate setno ptr index prefix) in *.
  assert (Hget : exists sf1, get_spill_file aggstate1 ptr index = Ok sf1).
  { destruct Hinv1 as (ss1 & sf1 & Hss1 & _ & _ & Hf1 & _).
    exists sf1. unfold get_spill_file, get_spill_set. rewrite Hss1. cbn [rbind].
    by rewrite Hf1. }
  destruct Hget as [sf1 Hget].
  assert (Hput : exists st2,
             put_spill_file aggstate1 ptr index
               (set_ntups_read sf1 (ntups_read sf1 + 1)) = Ok st2).
  { destruct Hinv1 as (ss1 & _ & Hss1 & _).
    unfold put_spill_file, get_spill_set. rewrite Hss1. cbn [rbind]. eauto. }
  destruct Hput as [st2 Hput].
  destruct (reloading_read _ _ _ _ _ _ _ _ _ Hinv1 Hget Hput) as [Hinv2 Hph2].
  unfold load_record. rewrite Hget. cbn [rbind]. rewrite Hput. cbn [rbind].
  unfold get_perhash. rewrite Hph2, Hph. cbn [rbind].
  destruct (tuplehash_insert_with_key _ _ _) as [entry ht'].
  simpl in Hfull. subst entry.
  destruct (load_spill_to_child_reloading L B ptr index child before
              (put_hashtable st2 setno ht') record)
    as (st3 & Hrun & Hinv3 & _); [exact Hinv2|done|done|].
  fold over in Hinv3.
  destruct Hinv3 as (ss3 & sf3 & Hss3 & _ & _ & Hf3 & _ & Hover).
  destruct over as [|r rest] eqn:Hshape.
  { subst over. by destruct before. }
  destruct Hover as (Hsp & Hchild & Hlen & cs & Hcs & Hlev & Hnum & Hpar & _ & Hfiles).
  rewrite <- Hshape in Hfiles.
  set (k := Z.to_nat (rec_hash record mod (B + 1))).
  assert (Hk : (k < Z.to_nat (B + 1))%nat).
  { subst k. pose proof (Z.mod_pos_bound (rec_hash record) (B + 1)). lia. }
  assert (Hbatch : batch_of (B + 1) k over
                   = batch_of (B + 1) k before ++ [record]).
  { subst over. rewrite batch_of_snoc. fold k. by rewrite decide_True. }
  pose proof (proj2 Hfiles k Hk) as Hslot.
  destruct (spill_file cs !! k) as [[f|]|] eqn:Hf; [| |done].
  2:{ rewrite Hbatch in Hslot. by destruct (batch_of (B + 1) k before). }
  destruct Hslot as (Hfile_f & _).
  exists st3, sf3, cs, f.
  split; [exact Hrun|].
  split.
  { unfold get_spill_file, get_spill_set. rewrite Hss3. cbn [rbind]. by rewrite Hf3. }
  split; [done|]. split; [done|]. split; [done|]. split; [done|].
  split; [done|]. split; [done|]. split; [done|].
  split; [by rewrite <- Hshape|].
  split; [done|].
  rewrite Hfile_f, Hbatch. apply last_snoc.
Qed.

Lemma reload_overflow_goes_to_child_witness :
  overflowing (FM := sum_fmgr) (EG := sample_grouping) sample_reload_state 0 0 0
    [sample_record 2 20; sample_record 3 1; sample_record 2 5]
  = [sample_record 3 1]
  /\ exists aggstate2 sfile' cs f,
       load_record (FM := sum_fmgr) (EG := sample_grouping)
         (state_of
            (load_records (FM := sum_fmgr) (EG := sample_grouping)
               sample_reload_state 0 0 0
               [sample_record 2 20; sample_record 3 1; sample_record 2 5]))
         0 0 0 (sample_record 5 7) = Ok aggstate2
       /\ get_spill_file aggstate2 0 0 = Ok sfile'
       /\ child_spill_set sfile' = Some 1%nat
       /\ length (spill_heap aggstate2) = 2%nat
       /\ spill_heap aggstate2 !! 1%nat = Some cs
       /\ num_files cs = 2
       /\ spill_file cs !! 0%nat = Some None
       /\ spill_file cs !! 1%nat = Some (Some f)
       /\ file f = [sample_record 3 1; sample_record 5 7].
Proof.
  split; [vm_compute; reflexivity|].
  destruct (reload_overflow_goes_to_child (FM := sum_fmgr) (EG := sample_grouping)
              sample_reload_state
              (state_of
                 (load_records (FM := sum_fmgr) (EG := sample_grouping)
                    sample_reload_state 0 0 0
                    [sample_record 2 20; sample_record 3 1; sample_record 2 5]))
              0 0 0 sample_spill_set sample_spill_file
              [sample_record 2 20; sample_record 3 1; sample_record 2 5]
              (sample_record 5 7)
              (default (sample_perhash true 1024)
                 (perhash
                    (state_of
                       (load_records (FM := sum_fmgr) (EG := sample_grouping)
                          sample_reload_state 0 0 0
                          [sample_record 2 20; sample_record 3 1;
                           sample_record 2 5]))
                  !! 0%nat)))
    as (aggstate2 & sfile' & cs & f & Hrun & Hget & _ & Hchild & Hlen & Hcs
        & _ & Hnum & _ & Hfiles & Hslot & _).
  - reflexivity.
  - reflexivity.
  - reflexivity.
  - simpl. lia.
  - repeat (constructor; [simpl; lia|]). constructor.
  - vm_compute. reflexivity.
  - vm_compute. reflexivity.
  - vm_compute. reflexivity.
  - exists aggstate2, sfile', cs, f.
    split; [exact Hrun|]. split; [exact Hget|]. split; [exact Hchild|].
    split; [exact Hlen|]. split; [exact Hcs|]. split; [exact Hnum|].
    assert (Hover : overflowing (FM := sum_fmgr) (EG := sample_grouping)
                      sample_reload_state 0 0 0
                      [sample_record 2 20; sample_record 3 1; sample_record 2 5]
                    ++ [sample_record 5 7]
                    = [sample_record 3 1; sample_record 5 7])
      by (vm_compute; reflexivity).
    rewrite Hover in Hfiles. destruct Hfiles as [_ Hcontent].
    pose proof (Hcontent 0%nat ltac:(simpl; lia)) as H0.
    pose proof (Hcontent 1%nat ltac:(simpl; lia)) as H1.
    change (Z.to_nat (rec_hash (sample_record 5 7)
                      mod (num_files sample_spill_set + 1))) with 1%nat in Hslot.
    rewrite Hslot in H1. destruct H1 as (Hfile & _).
    destruct (spill_file cs !! 0%nat) as [[f0|]|]; [|done|done].
    destruct H0 as (_ & Hne & _). exfalso. apply Hne. vm_compute. reflexivity.
Defined.

(** ** The rows of a group *)

(** The slot the arguments of the transition functions are read from:
    what [evalproj] makes of the tuple in hand. *)
Definition evaluated (aggstate : AggState) (input : TupleTableSlot) : TupleTableSlot :=
  match evalproj aggstate with
  | Some proj => proj input
  | None => evalslot aggstate
  end.

(** The arguments 1 .. numTransInputs of the call frame, loaded from the
    columns of the evaluated inputs. *)
Definition load_inputs (pertrans : AggStatePerTransData) (slot : TupleTableSlot)
  : AggStatePerTransData :=
  set_transfn_fcinfo pertrans
    (foldl (fun fcinfo i =>
              set_arg fcinfo (i + 1) (slot_value slot (i + inputoff pertrans))
                (slot_isnull slot (i + inputoff pertrans)))
       (transfn_fcinfo pertrans) (seq 0 (numTransInputs pertrans))).

(** What one row does to one aggregate without DISTINCT or ORDER BY: its
    slot and its per-group state after the row. *)
Definition transition_step {FM : FunctionManager} (input slot : TupleTableSlot)
  (state : AggStatePerTransData * AggStatePerGroupData)
  : AggStatePerTransData * AggStatePerGroupData :=
  if filter_rejects state.1 input then state
  else
    let adv := advance_transition_function (load_inputs state.1 slot) state.2 in
    (adv_pertrans adv, adv_pergroup adv).

(** A state without what advance_aggregates works on. *)
Definition row_frame (aggstate : AggState) : AggState :=
  set_calls
    (set_current_set
       (set_pergroup
          (set_pertrans (set_evalslot aggstate (blank_slot 0)) []) [])
       0)
    [].

(** The slot a stored row is seen in. *)
Definition stored (row : HeapTupleData) : TupleTableSlot :=
  {| tts_isempty := false; tts_values := t_values row; tts_isnull := t_isnull row |}.

Lemma static_of_fields p p' :
  static_of p' = static_of p ->
  aggfilter p' = aggfilter p /\ numSortCols p' = numSortCols p
  /\ numTransInputs p' = numTransInputs p /\ inputoff p' = inputoff p.
Proof.
  intros H. repeat split.
  - exact (f_equal aggfilter H).
  - exact (f_equal numSortCols H).
  - exact (f_equal numTransInputs H).
  - exact (f_equal inputoff H).
Qed.

Lemma transition_step_static {FM : FunctionManager} input slot p pg :
  static_of (transition_step input slot (p, pg)).1 = static_of p.
Proof.
  unfold transition_step. cbn [fst snd].
  destruct (filter_rejects p input); [done|]. cbn [fst].
  destruct (advance_transition_function_static (load_inputs p slot) pg) as [-> _].
  reflexivity.
Qed.

Lemma foldl_pointwise {A B} (f g : A -> B -> A) (l : list B) (a : A) :
  (forall a b, f a b = g a b) -> foldl f a l = foldl g a l.
Proof.
  intros H. revert a. induction l as [|b l IH]; intros a; simpl; [done|].
  by rewrite H, IH.
Qed.

Section GroupRows.
Context {FM : FunctionManager} {TS : Tuplesort} {EG : ExecGrouping} {guc : GUC}.

Lemma row_frame_slot aggstate aggstate' :
  row_frame aggstate' = row_frame aggstate ->
  input_slot aggstate' = input_slot aggstate.
Proof.
  intros H. unfold input_slot.
  rewrite (f_equal tmp_outertuple H : tmp_outertuple aggstate' = tmp_outertuple aggstate).
  destruct (tmp_outertuple aggstate); simpl.
  - exact (f_equal ss_ScanTupleSlot H).
  - exact (f_equal sort_slot H).
  - exact (f_equal outer_slot H).
Qed.

(** One row on the sorted path, for aggregates without DISTINCT or ORDER BY
    and a phase of one grouping set: every aggregate takes its step, and
    nothing else changes but the slot of the evaluated inputs. *)
Lemma advance_aggregates_row aggstate :
  (numsets (phase aggstate) <= 1)%nat ->
  (numtrans aggstate <= length (pertrans aggstate))%nat ->
  (numtrans aggstate <= length (pergroup aggstate))%nat ->
  (forall t p, (t < numtrans aggstate)%nat -> pertrans aggstate !! t = Some p ->
     numSortCols p = 0%nat
     /\ (filter_rejects p (input_slot aggstate) = false ->
         (numTransInputs p + inputoff p
          <= length (tts_values (evaluated aggstate (input_slot aggstate))))%nat)) ->
  exists aggstate',
    advance_aggregates aggstate (Some (SortedGroups 0)) None = Ok aggstate'
    /\ row_frame aggstate' = row_frame aggstate
    /\ evalslot aggstate' = evaluated aggstate (input_slot aggstate)
    /\ length (pertrans aggstate') = length (pertrans aggstate)
    /\ length (pergroup aggstate') = length (pergroup aggstate)
    /\ forall t p pg,
         pertrans aggstate !! t = Some p -> pergroup aggstate !! t = Some pg ->
         if decide (t < numtrans aggstate)%nat then
           pertrans aggstate' !! t
           = Some (transition_step (input_slot aggstate)
                     (evaluated aggstate (input_slot aggstate)) (p, pg)).1
           /\ pergroup aggstate' !! t
              = Some (transition_step (input_slot aggstate)
                        (evaluated aggstate (input_slot aggstate)) (p, pg)).2
         else pertrans aggstate' !! t = Some p /\ pergroup aggstate' !! t = Some pg.
Proof.
  intros Hsets Hpt Hpg Hagg. unfold advance_aggregates, advance_aggregates_in.
  cbn [Assert_in].
  replace (Nat.max (numsets (phase aggstate)) 1) with 1%nat by lia.
  set (st0 := match evalproj aggstate with
              | Some proj => _
              | None => aggstate
              end).
  assert (H0 : row_frame st0 = row_frame aggstate
               /\ evalslot st0 = evaluated aggstate (input_slot aggstate)
               /\ pertrans st0 = pertrans aggstate
               /\ pergroup st0 = pergroup aggstate).
  { subst st0. unfold evaluated, input_slot.
    destruct (evalproj aggstate); repeat split; reflexivity. }
  destruct H0 as (H0frame & H0slot & H0pt & H0pg).
  cbv zeta. rewrite H0slot.
  set (input := input_slot aggstate) in *.
  set (slot := evaluated aggstate input) in *.
  pose (I := fun (k : nat) (s : AggState) =>
              row_frame s = row_frame aggstate
              /\ evalslot s = slot
              /\ length (pertrans s) = length (pertrans aggstate)
              /\ length (pergroup s) = length (pergroup aggstate)
              /\ forall t p pg,
                   pertrans aggstate !! t = Some p -> pergroup aggstate !! t = Some pg ->
                   if decide (t < k)%nat then
                     pertrans s !! t = Some (transition_step input slot (p, pg)).1
                     /\ pergroup s !! t = Some (transition_step input slot (p, pg)).2
                   else pertrans s !! t = Some p /\ pergroup s !! t = Some pg).
  apply (for_each_run I); unfold I; clear I.
  { rewrite H0pt, H0pg. repeat split; try done;
      intros t p pg Hp Hg; by destruct (decide (t < 0)%nat); [lia|]. }
  intros k s1 Hk (Hframe & Hslot & Hlen1 & Hlen2 & Hstates).
  destruct (lookup_lt_is_Some_2 (pertrans aggstate) k) as [p Hp]; [lia|].
  destruct (lookup_lt_is_Some_2 (pergroup aggstate) k) as [pg Hg]; [lia|].
  pose proof (Hstates k p pg Hp Hg) as Hhere.
  destruct (decide (k < k)%nat) as [|_]; [lia|]. destruct Hhere as [Hp1 Hg1].
  destruct (Hagg k p Hk Hp) as [Hcols Hwidth].
  unfold get_pertrans at 1. rewrite Hp1. cbn [rbind].
  change (get_slot s1 (tmp_outertuple s1)) with (input_slot s1).
  rewrite (row_frame_slot _ _ Hframe). fold input.
  assert (Hstep : transition_step input slot (p, pg)
                  = if filter_rejects p input then (p, pg)
                    else
                      let adv := advance_transition_function (load_inputs p slot) pg in
                      (adv_pertrans adv, adv_pergroup adv)) by reflexivity.
  destruct (filter_rejects p input) eqn:Hrej.
  - unfold filter_rejects in Hrej. rewrite Hrej.
    exists s1. split; [reflexivity|]. repeat split; try done.
    intros t q qg Hq Hqg. specialize (Hstates t q qg Hq Hqg).
    destruct (decide (t < S k)%nat) as [Hlt|Hge].
    + destruct (decide (t = k)) as [->|Hne].
      * simplify_eq. by rewrite Hstep.
      * by destruct (decide (t < k)%nat); [|lia].
    + by destruct (decide (t < k)%nat); [lia|].
  - pose proof Hrej as Hrej'. unfold filter_rejects in Hrej'. rewrite Hrej'.
    rewrite Hcols. cbn [Nat.ltb Nat.leb].
    specialize (Hwidth eq_refl).
    replace (numTransInputs p + inputoff p <=? length (tts_values slot))%nat
      with true by (symmetry; by apply Nat.leb_le).
    cbn [Assert rbind].
    change (set_transfn_fcinfo p _) with (load_inputs p slot).
    unfold for_each at 1. cbn [seq foldl rbind].
    unfold select_current_set.
    replace (k + 0 * numtrans aggstate)%nat with k by lia.
    unfold advance_one, get_pertrans, read_pergroup, put_pertrans.
    cbn [pertrans set_current_set set_pertrans pergroup].
    rewrite list_lookup_insert_eq by (apply lookup_lt_Some in Hp1; lia).
    cbn [rbind]. cbn [Nat.add]. rewrite Hg1. cbn [rbind].
    eexists. split; [reflexivity|].
    set (adv := advance_transition_function (load_inputs p slot) pg) in *.
    split; [exact Hframe|]. split; [exact Hslot|].
    split.
    { unfold log_calls, write_pergroup. simpl. by rewrite !length_insert. }
    split.
    { unfold log_calls, write_pergroup. simpl. by rewrite !length_insert. }
    intros t q qg Hq Hqg. specialize (Hstates t q qg Hq Hqg).
    unfold log_calls, write_pergroup.
    cbn [pertrans pergroup set_calls set_pergroup set_current_set set_pertrans
           Nat.add].
    destruct (decide (t = k)) as [->|Hne].
    + simplify_eq. destruct (decide (k < S k)%nat); [|lia].
      rewrite Hstep.
      rewrite !list_lookup_insert_eq;
        rewrite ?length_insert;
        try (apply lookup_lt_Some in Hp1; apply lookup_lt_Some in Hg1; lia).
      done.
    + rewrite !list_lookup_insert_ne by done.
      destruct (decide (t < S k)%nat), (decide (t < k)%nat); try lia; done.
Qed.


(** A state without what the loop over the rows of a group works on. *)
Definition group_frame (aggstate : AggState) : AggState :=
  set_agg_done
    (set_input_done
       (set_grp_firstTuple
          (set_tmp_outertuple
             (set_sort_out
                (set_lefttree (set_outer_slot (row_frame aggstate) (blank_slot 0)) [])
                None)
             ScanSlot)
          None)
       false)
    false.

Lemma row_frame_group aggstate aggstate' :
  row_frame aggstate' = row_frame aggstate ->
  group_frame aggstate' = group_frame aggstate
  /\ outer_slot aggstate' = outer_slot aggstate
  /\ lefttree aggstate' = lefttree aggstate
  /\ sort_out aggstate' = sort_out aggstate
  /\ tmp_outertuple aggstate' = tmp_outertuple aggstate
  /\ grp_firstTuple aggstate' = grp_firstTuple aggstate
  /\ input_done aggstate' = input_done aggstate
  /\ agg_done aggstate' = agg_done aggstate.
Proof.
  intros H. split; [by unfold group_frame; rewrite H|].
  repeat split.
  - exact (f_equal outer_slot H).
  - exact (f_equal lefttree H).
  - exact (f_equal sort_out H).
  - exact (f_equal tmp_outertuple H).
  - exact (f_equal grp_firstTuple H).
  - exact (f_equal input_done H).
  - exact (f_equal agg_done H).
Qed.

(** The next row of the outer plan, read in phase 1. *)
Lemma fetch_input_tuple_next aggstate row rows :
  sort_in aggstate = None ->
  lefttree aggstate = row :: rows ->
  exists aggstate',
    fetch_input_tuple aggstate = (Some OuterSlot, aggstate')
    /\ group_frame aggstate' = group_frame aggstate
    /\ pertrans aggstate' = pertrans aggstate
    /\ pergroup aggstate' = pergroup aggstate
    /\ evalslot aggstate' = evalslot aggstate
    /\ outer_slot aggstate' = stored row
    /\ lefttree aggstate' = rows
    /\ sort_out aggstate' = (fun s => tuplesort_put s row) <$> sort_out aggstate
    /\ tmp_outertuple aggstate' = tmp_outertuple aggstate
    /\ grp_firstTuple aggstate' = grp_firstTuple aggstate
    /\ input_done aggstate' = input_done aggstate
    /\ agg_done aggstate' = agg_done aggstate.
Proof.
  intros Hin Hrows. unfold fetch_input_tuple, ExecProcNode_outer.
  rewrite Hin, Hrows.
  destruct (sort_out aggstate) as [sorter|] eqn:Hout; simpl; rewrite Hout; simpl;
    eexists; (split; [reflexivity|]); simpl; rewrite ?Hout;
    repeat split; try done; by destruct row.
Qed.

(** What the loop over the rows of a group needs of the state: a sorted
    or plain aggregation of one grouping set in its first phase, taking
    transition steps. *)
Record group_ready (aggstate : AggState) : Prop := {
  ready_strategy : aggstrategy aggstate <> AGG_MIXED;
  ready_split : DO_AGGSPLIT_COMBINE (aggsplit aggstate) = false;
  ready_sets : (numsets (phase aggstate) <= 1)%nat;
  ready_hashes : num_hashes aggstate = 0%nat;
  ready_sort_in : sort_in aggstate = None;
  ready_pertrans : (numtrans aggstate <= length (pertrans aggstate))%nat;
  ready_pergroup : (numtrans aggstate <= length (pergroup aggstate))%nat
}.

Lemma group_ready_frame aggstate aggstate' :
  group_frame aggstate' = group_frame aggstate ->
  length (pertrans aggstate') = length (pertrans aggstate) ->
  length (pergroup aggstate') = length (pergroup aggstate) ->
  group_ready aggstate -> group_ready aggstate'.
Proof.
  intros H Hpt Hpg [H1 H2 H3 H4 H5 H6 H7].
  assert (Hphase : phase aggstate' = phase aggstate).
  { unfold phase.
    by rewrite (f_equal phases H : phases aggstate' = phases aggstate),
      (f_equal current_phase H : current_phase aggstate' = current_phase aggstate). }
  split.
  - by rewrite (f_equal aggstrategy H : aggstrategy aggstate' = aggstrategy aggstate).
  - by rewrite (f_equal aggsplit H : aggsplit aggstate' = aggsplit aggstate).
  - by rewrite Hphase.
  - by rewrite (f_equal num_hashes H : num_hashes aggstate' = num_hashes aggstate).
  - by rewrite (f_equal sort_in H : sort_in aggstate' = sort_in aggstate).
  - by rewrite Hpt, (f_equal numtrans H : numtrans aggstate' = numtrans aggstate).
  - by rewrite Hpg, (f_equal numtrans H : numtrans aggstate' = numtrans aggstate).
Qed.

(** Every aggregate is without DISTINCT and ORDER BY, and the evaluated
    inputs of every row it accepts have the columns it reads. *)
Definition inputs_fit (aggstate : AggState) (inputs : list TupleTableSlot) : Prop :=
  forall t p,
    (t < numtrans aggstate)%nat -> pertrans aggstate !! t = Some p ->
    numSortCols p = 0%nat
    /\ Forall (fun input =>
                 filter_rejects p input = false ->
                 (numTransInputs p + inputoff p
                  <= length (tts_values (evaluated aggstate input)))%nat)
         inputs.

(** The row belongs to the group of the tuple in [firstSlot]. *)
Definition in_group (aggstate : AggState) (node : Agg) (row : HeapTupleData) : bool :=
  AggStrategy_eqb (plan_aggstrategy node) AGG_PLAIN
  || execTuplesMatch (ss_ScanTupleSlot aggstate) (stored row) (plan_numCols node)
       (plan_grpColIdx node) (eqfunctions (phase aggstate)).

(** The steps of one aggregate over the rows of a group. *)
Definition group_fold (aggstate : AggState) (inputs : list TupleTableSlot)
  (state : AggStatePerTransData * AggStatePerGroupData)
  : AggStatePerTransData * AggStatePerGroupData :=
  foldl (fun state input => transition_step input (evaluated aggstate input) state)
    state inputs.

(** How the loop leaves the flags and the first tuple of the next group. *)
Definition group_ended (aggstate aggstate' : AggState) (hasGroupingSets : bool)
  (rest : list HeapTupleData) : Prop :=
  match rest with
  | [] =>
      grp_firstTuple aggstate' = grp_firstTuple aggstate
      /\ (if hasGroupingSets
          then input_done aggstate' = true /\ agg_done aggstate' = agg_done aggstate
          else agg_done aggstate' = true /\ input_done aggstate' = input_done aggstate)
  | next :: _ =>
      grp_firstTuple aggstate' = Some next
      /\ input_done aggstate' = input_done aggstate
      /\ agg_done aggstate' = agg_done aggstate
  end.

Lemma AggStrategy_eqb_ne a b : a <> b -> AggStrategy_eqb a b = false.
Proof. by destruct a, b. Qed.

Lemma filter_rejects_static p p' input :
  static_of p' = static_of p -> filter_rejects p' input = filter_rejects p input.
Proof.
  intros H. unfold filter_rejects.
  by rewrite (f_equal aggfilter H : aggfilter p' = aggfilter p).
Qed.

Lemma evaluated_after aggstate aggstate' :
  evalproj aggstate' = evalproj aggstate ->
  evalslot aggstate' = evaluated aggstate (input_slot aggstate) ->
  forall input, evaluated aggstate' input = evaluated aggstate input.
Proof.
  intros He Hs input. unfold evaluated. rewrite He.
  destruct (evalproj aggstate) eqn:Hproj; [done|].
  rewrite Hs. unfold evaluated. by rewrite Hproj.
Qed.

Lemma advance_group_run node hasGroupingSets run : forall rest aggstate,
  group_ready aggstate ->
  lefttree aggstate = run ++ rest ->
  Forall (fun row => in_group aggstate node row = true) run ->
  (forall next, head rest = Some next -> in_group aggstate node next = false) ->
  inputs_fit aggstate (input_slot aggstate :: (stored <$> run)) ->
  exists aggstate',
    (forall fuel, (length run < fuel)%nat ->
       advance_group fuel aggstate node hasGroupingSets = Ok aggstate')
    /\ group_frame aggstate' = group_frame aggstate
    /\ length (pertrans aggstate') = length (pertrans aggstate)
    /\ length (pergroup aggstate') = length (pergroup aggstate)
    /\ lefttree aggstate' = tail rest
    /\ sort_out aggstate' = tuplesort_puts (sort_out aggstate) (run ++ take 1 rest)
    /\ group_ended aggstate aggstate' hasGroupingSets rest
    /\ (forall input, evaluated aggstate' input = evaluated aggstate input)
    /\ forall t p pg,
         (t < numtrans aggstate)%nat ->
         pertrans aggstate !! t = Some p -> pergroup aggstate !! t = Some pg ->
         pertrans aggstate' !! t
         = Some (group_fold aggstate (input_slot aggstate :: (stored <$> run)) (p, pg)).1
         /\ pergroup aggstate' !! t
            = Some (group_fold aggstate (input_slot aggstate :: (stored <$> run))
                      (p, pg)).2.
Proof.
  induction run as [|row run IH]; intros rest aggstate Hready Hrows Hrun Hnext Hfit.
  - destruct Hready as [H1 H2 H3 H4 H5 H6 H7].
    destruct (advance_aggregates_row aggstate H3 H6 H7)
      as (s1 & Hadv & Hframe & Hslot & Hlen1 & Hlen2 & Hstates).
    { intros t p Ht Hp. destruct (Hfit t p Ht Hp) as [Hcols Hall].
      split; [done|]. by apply Forall_cons in Hall as [Hhere _]. }
    destruct (row_frame_group _ _ Hframe)
      as (Hg & Ho & Hl & Hso & Htmp & Hft & Hid & Had).
    simpl in Hrows.
    destruct rest as [|next rest].
    + exists (if hasGroupingSets then set_input_done s1 true else set_agg_done s1 true).
      split.
      { intros [|fuel] Hfuel; [simpl in Hfuel; lia|]. cbn [advance_group].
        rewrite (AggStrategy_eqb_ne _ _ H1). cbn [andb rbind].
        rewrite H2, Hadv. cbn [rbind].
        unfold fetch_input_tuple, ExecProcNode_outer.
        rewrite (f_equal sort_in Hframe : sort_in s1 = sort_in aggstate), H5.
        rewrite Hl, Hrows. cbn [TupIsNull].
        unfold dump_hashtable_if_spilled.
        rewrite (f_equal num_hashes Hframe : num_hashes s1 = num_hashes aggstate), H4.
        unfold for_each. cbn [seq foldl].
        by destruct g_hybrid_hash_agg, hasGroupingSets. }
      split; [by destruct hasGroupingSets|].
      split; [by destruct hasGroupingSets|].
      split; [by destruct hasGroupingSets|].
      split; [destruct hasGroupingSets; simpl; by rewrite Hl, Hrows|].
      split.
      { rewrite tuplesort_puts_nil. by destruct hasGroupingSets. }
      split; [by destruct hasGroupingSets|].
      split.
      { intros input.
        transitivity (evaluated s1 input); [by destruct hasGroupingSets|].
        apply evaluated_after; [exact (f_equal evalproj Hframe)|exact Hslot]. }
      intros t p pg Ht Hp Hpg. specialize (Hstates t p pg Hp Hpg).
      destruct (decide (t < numtrans aggstate)%nat); [|lia].
      by destruct hasGroupingSets.
    + destruct (fetch_input_tuple_next s1 next rest)
        as (s2 & Hfetch & Hg2 & Hpt2 & Hpg2 & Hev2 & Ho2 & Hl2 & Hso2 & Htmp2
            & Hft2 & Hid2 & Had2).
      { by rewrite (f_equal sort_in Hframe : sort_in s1 = sort_in aggstate). }
      { by rewrite Hl. }
      exists (set_grp_firstTuple (set_tmp_outertuple s2 OuterSlot) (Some next)).
      assert (Hphase : phase s2 = phase aggstate).
      { unfold phase.
        by rewrite (f_equal phases Hg2 : phases s2 = phases s1),
          (f_equal current_phase Hg2 : current_phase s2 = current_phase s1),
          (f_equal phases Hframe : phases s1 = phases aggstate),
          (f_equal current_phase Hframe : current_phase s1 = current_phase aggstate). }
      split.
      { intros [|fuel] Hfuel; [simpl in Hfuel; lia|]. cbn [advance_group].
        rewrite (AggStrategy_eqb_ne _ _ H1). cbn [andb rbind].
        rewrite H2, Hadv. cbn [rbind]. rewrite Hfetch.
        cbn [TupIsNull get_slot]. rewrite Ho2. cbn [stored tts_isempty].
        specialize (Hnext next eq_refl). unfold in_group in Hnext.
        apply orb_false_iff in Hnext as [Hplain Hmatch].
        rewrite Hplain.
        change (phase (set_tmp_outertuple s2 OuterSlot)) with (phase s2).
        rewrite Hphase.
        change (ss_ScanTupleSlot (set_tmp_outertuple s2 OuterSlot))
          with (ss_ScanTupleSlot s2).
        change (outer_slot (set_tmp_outertuple s2 OuterSlot))
          with (outer_slot s2).
        rewrite (f_equal ss_ScanTupleSlot Hg2 : ss_ScanTupleSlot s2 = ss_ScanTupleSlot s1),
          (f_equal ss_ScanTupleSlot Hframe
            : ss_ScanTupleSlot s1 = ss_ScanTupleSlot aggstate), Ho2.
        change {| tts_isempty := false; tts_values := t_values next;
                  tts_isnull := t_isnull next |} with (stored next).
        rewrite Hmatch. cbn [negb andb].
        by destruct next. }
      split.
      { transitivity (group_frame s2); [reflexivity|]. by rewrite Hg2. }
      split; [simpl; by rewrite Hpt2|].
      split; [simpl; by rewrite Hpg2|].
      split; [simpl; by rewrite Hl2|].
      split.
      { simpl. rewrite Hso2, Hso. by destruct (sort_out aggstate) as [[? ? ?]|]. }
      split.
      { simpl. by rewrite Hid2, Had2, Hid, Had. }
      split.
      { apply evaluated_after.
        - transitivity (evalproj s2); [reflexivity|].
          by rewrite (f_equal evalproj Hg2 : evalproj s2 = evalproj s1),
            (f_equal evalproj Hframe : evalproj s1 = evalproj aggstate).
        - transitivity (evalslot s2); [reflexivity|]. by rewrite Hev2. }
      intros t p pg Ht Hp Hpg. specialize (Hstates t p pg Hp Hpg).
      destruct (decide (t < numtrans aggstate)%nat); [|lia].
      simpl. by rewrite Hpt2, Hpg2.
  - pose proof Hready as [H1 H2 H3 H4 H5 H6 H7].
    destruct (advance_aggregates_row aggstate H3 H6 H7)
      as (s1 & Hadv & Hframe & Hslot & Hlen1 & Hlen2 & Hstates).
    { intros t p Ht Hp. destruct (Hfit t p Ht Hp) as [Hcols Hall].
      split; [done|]. by apply Forall_cons in Hall as [Hhere _]. }
    destruct (row_frame_group _ _ Hframe)
      as (Hg & Ho & Hl & Hso & Htmp & Hft & Hid & Had).
    simpl in Hrows.
    destruct (fetch_input_tuple_next s1 row (run ++ rest))
      as (s2 & Hfetch & Hg2 & Hpt2 & Hpg2 & Hev2 & Ho2 & Hl2 & Hso2 & Htmp2
          & Hft2 & Hid2 & Had2).
    { by rewrite (f_equal sort_in Hframe : sort_in s1 = sort_in aggstate). }
    { by rewrite Hl. }
    set (s3 := set_tmp_outertuple s2 OuterSlot).
    assert (Hg3 : group_frame s3 = group_frame aggstate).
    { transitivity (group_frame s2); [reflexivity|]. by rewrite Hg2. }
    assert (Hphase : phase s3 = phase aggstate).
    { unfold phase.
      by rewrite (f_equal phases Hg3 : phases s3 = phases aggstate),
        (f_equal current_phase Hg3 : current_phase s3 = current_phase aggstate). }
    assert (Hscan : ss_ScanTupleSlot s3 = ss_ScanTupleSlot aggstate)
      by exact (f_equal ss_ScanTupleSlot Hg3).
    assert (Hin3 : input_slot s3 = stored row) by exact Ho2.
    assert (Hgroup : forall r, in_group s3 node r = in_group aggstate node r).
    { intros r. unfold in_group. by rewrite Hscan, Hphase. }
    assert (Heval : forall input, evaluated s3 input = evaluated aggstate input).
    { intros input. unfold evaluated.
      rewrite (f_equal evalproj Hg3 : evalproj s3 = evalproj aggstate).
      destruct (evalproj aggstate) eqn:Hproj; [done|].
      change (evalslot s3) with (evalslot s2). rewrite Hev2, Hslot.
      unfold evaluated. by rewrite Hproj. }
    assert (Hnum : numtrans s3 = numtrans aggstate) by exact (f_equal numtrans Hg3).
    apply Forall_cons in Hrun as [Hrow Hrun].
    destruct (IH rest s3) as (s' & Hrun' & Hg' & Hlen1' & Hlen2' & Hl' & Hso' & Hend'
                              & Heval' & Hstates').
    { eapply group_ready_frame; [exact Hg3| | |exact Hready].
      - change (pertrans s3) with (pertrans s2). by rewrite Hpt2.
      - change (pergroup s3) with (pergroup s2). by rewrite Hpg2. }
    { exact Hl2. }
    { eapply Forall_impl; [exact Hrun|]. intros r Hr. by rewrite Hgroup. }
    { intros next Hhead. rewrite Hgroup. by apply Hnext. }
    { intros t p' Ht Hp'. rewrite Hnum in Ht.
      change (pertrans s3) with (pertrans s2) in Hp'. rewrite Hpt2 in Hp'.
      destruct (lookup_lt_is_Some_2 (pertrans aggstate) t) as [p Hp]; [lia|].
      destruct (lookup_lt_is_Some_2 (pergroup aggstate) t) as [pg Hpg]; [lia|].
      specialize (Hstates t p pg Hp Hpg).
      destruct (decide (t < numtrans aggstate)%nat); [|lia].
      destruct Hstates as [Hp1 _]. rewrite Hp1 in Hp'. simplify_eq.
      pose proof (transition_step_static (input_slot aggstate)
                    (evaluated aggstate (input_slot aggstate)) p pg) as Hstatic.
      destruct (static_of_fields _ _ Hstatic) as (Hf1 & Hf2 & Hf3 & Hf4).
      destruct (Hfit t p Ht Hp) as [Hcols Hall].
      split; [by rewrite Hf2|].
      apply Forall_cons in Hall as [_ Hall]. rewrite Hin3.
      eapply Forall_impl; [exact Hall|]. intros input Hinput.
      cbv beta in *. rewrite (filter_rejects_static _ _ _ Hstatic), Hf3, Hf4, Heval.
      exact Hinput. }
    exists s'. split.
    { intros [|fuel] Hfuel; [simpl in Hfuel; lia|]. cbn [advance_group].
      rewrite (AggStrategy_eqb_ne _ _ H1). cbn [andb rbind].
      rewrite H2, Hadv. cbn [rbind]. rewrite Hfetch.
      cbn [TupIsNull get_slot]. rewrite Ho2. cbn [stored tts_isempty].
      fold s3.
      unfold in_group in Hrow.
      change (outer_slot s3) with (outer_slot s2).
      rewrite Hscan, Hphase, Ho2.
      change {| tts_isempty := false; tts_values := t_values row;
                tts_isnull := t_isnull row |} with (stored row).
      replace (negb (AggStrategy_eqb (plan_aggstrategy node) AGG_PLAIN)
               && negb (execTuplesMatch (ss_ScanTupleSlot aggstate) (stored row)
                          (plan_numCols node) (plan_grpColIdx node)
                          (eqfunctions (phase aggstate))))
        with false
        by (symmetry; rewrite <- negb_orb, Hrow; reflexivity).
      apply Hrun'. simpl in Hfuel. lia. }
    split; [by rewrite Hg'|].
    split; [rewrite Hlen1'; change (pertrans s3) with (pertrans s2); by rewrite Hpt2|].
    split; [rewrite Hlen2'; change (pergroup s3) with (pergroup s2); by rewrite Hpg2|].
    split; [exact Hl'|].
    split.
    { rewrite Hso'. change (sort_out s3) with (sort_out s2).
      rewrite Hso2, Hso. apply tuplesort_puts_cons. }
    split.
    { unfold group_ended in *.
      change (grp_firstTuple s3) with (grp_firstTuple s2) in Hend'.
      change (input_done s3) with (input_done s2) in Hend'.
      change (agg_done s3) with (agg_done s2) in Hend'.
      rewrite Hft2, Hid2, Had2, Hft, Hid, Had in Hend'. exact Hend'. }
    split; [intros input; by rewrite Heval', Heval|].
    intros t p pg Ht Hp Hpg. specialize (Hstates t p pg Hp Hpg).
    destruct (decide (t < numtrans aggstate)%nat); [|lia].
    destruct Hstates as [Hp1 Hpg1].
    specialize (Hstates' t _ _ ltac:(lia)
                  ltac:(change (pertrans s3) with (pertrans s2); rewrite Hpt2; exact Hp1)
                  ltac:(change (pergroup s3) with (pergroup s2); rewrite Hpg2; exact Hpg1)).
    rewrite Hin3 in Hstates'.
    unfold group_fold in *. cbn [fmap list_fmap foldl].
    rewrite <- surjective_pairing in Hstates'.
    rewrite (foldl_pointwise _
               (fun state input => transition_step input (evaluated aggstate input) state))
      in Hstates' by (intros st input; by rewrite Heval).
    exact Hstates'.
Qed.


(** The per-group states of one grouping set, set up for aggregates
    without DISTINCT or ORDER BY. *)
Lemma initialize_aggregates_plain aggstate :
  (numtrans aggstate <= length (pertrans aggstate))%nat ->
  (numtrans aggstate <= length (pergroup aggstate))%nat ->
  (forall t p, (t < numtrans aggstate)%nat -> pertrans aggstate !! t = Some p ->
     numSortCols p = 0%nat) ->
  exists aggstate',
    initialize_aggregates aggstate (SortedGroups 0) 1 = Ok aggstate'
    /\ row_frame aggstate' = row_frame aggstate
    /\ evalslot aggstate' = evalslot aggstate
    /\ pertrans aggstate' = pertrans aggstate
    /\ length (pergroup aggstate') = length (pergroup aggstate)
    /\ forall t p, (t < numtrans aggstate)%nat -> pertrans aggstate !! t = Some p ->
         pergroup aggstate' !! t = Some (initial_group p).
Proof.
  intros Hpt Hpg Hcols. unfold initialize_aggregates.
  cbn [Z.eqb Z.ltb Z.compare Z.to_nat Pos.to_nat Pos.iter_op].
  pose (I := fun (k : nat) (s : AggState) =>
              row_frame s = row_frame aggstate
              /\ evalslot s = evalslot aggstate
              /\ pertrans s = pertrans aggstate
              /\ length (pergroup s) = length (pergroup aggstate)
              /\ forall t p, (t < k)%nat -> pertrans aggstate !! t = Some p ->
                   pergroup s !! t = Some (initial_group p)).
  destruct (for_each_run I (numtrans aggstate)
              (fun transno aggstate0 =>
                 for_each 1
                   (fun setno aggstate1 =>
                      initialize_one (select_current_set aggstate1 setno false)
                        transno (SortedGroups 0)
                        (transno + setno * numtrans aggstate)%nat)
                   aggstate0)
              aggstate) as (s' & Hrun & HI).
  - unfold I. repeat split; try done. intros t p Ht. lia.
  - unfold I. intros k s1 Hk (Hframe & Hslot & Hpt1 & Hlen & Hstates).
    destruct (lookup_lt_is_Some_2 (pertrans aggstate) k) as [p Hp]; [lia|].
    destruct (lookup_lt_is_Some_2 (pergroup s1) k) as [pg Hg]; [lia|].
    unfold for_each. cbn [seq foldl rbind]. unfold select_current_set.
    replace (k + 0 * numtrans aggstate)%nat with k by lia.
    unfold initialize_one, get_pertrans, read_pergroup.
    cbn [pertrans pergroup set_current_set Nat.add]. rewrite Hpt1, Hp. cbn [rbind].
    rewrite Hg. cbn [rbind]. unfold initialize_aggregate.
    rewrite (Hcols k p Hk Hp). cbn [Nat.ltb Nat.leb].
    eexists. split; [reflexivity|].
    split; [exact Hframe|]. split; [exact Hslot|].
    split.
    { unfold write_pergroup, put_pertrans. simpl. rewrite Hpt1.
      by apply list_insert_id. }
    split.
    { unfold write_pergroup, put_pertrans. simpl. by rewrite length_insert. }
    intros t q Ht Hq. unfold write_pergroup, put_pertrans. simpl.
    destruct (decide (t = k)) as [->|Hne].
    + simplify_eq. rewrite list_lookup_insert_eq by (apply lookup_lt_Some in Hg; lia).
      reflexivity.
    + rewrite list_lookup_insert_ne by done. apply Hstates; [lia|done].
  - exists s'. split; [exact Hrun|]. exact HI.
Qed.

(** The results of aggregates without DISTINCT or ORDER BY: every
    aggregate is finalized on the state of its slot, and nothing else
    changes. *)
Lemma finalize_aggregates_plain aggstate :
  (numtrans aggstate <= length (pertrans aggstate))%nat ->
  (numtrans aggstate <= length (pergroup aggstate))%nat ->
  (forall t p, (t < numtrans aggstate)%nat -> pertrans aggstate !! t = Some p ->
     numSortCols p = 0%nat) ->
  (numaggs aggstate <= length (peragg aggstate))%nat ->
  (numaggs aggstate <= length (ecxt_aggvalues aggstate))%nat ->
  (numaggs aggstate <= length (ecxt_aggnulls aggstate))%nat ->
  (forall aggno pa, (aggno < numaggs aggstate)%nat ->
     peragg aggstate !! aggno = Some pa -> (transno pa < numtrans aggstate)%nat) ->
  exists values nulls,
    finalize_aggregates aggstate (SortedGroups 0)
    = Ok (set_ecxt_aggnulls (set_ecxt_aggvalues aggstate values) nulls)
    /\ length values = length (ecxt_aggvalues aggstate)
    /\ length nulls = length (ecxt_aggnulls aggstate)
    /\ forall aggno pa pg,
         (aggno < numaggs aggstate)%nat ->
         peragg aggstate !! aggno = Some pa ->
         pergroup aggstate !! transno pa = Some pg ->
         exists resultVal resultIsNull,
           (if DO_AGGSPLIT_SKIPFINAL (aggsplit aggstate)
            then finalize_partialaggregate aggstate pa pg
            else finalize_aggregate aggstate pa pg) = Ok (resultVal, resultIsNull)
           /\ values !! aggno = Some resultVal
           /\ nulls !! aggno = Some resultIsNull.
Proof.
  intros Hpt Hpg Hcols Hpa Hv Hn Htransno. unfold finalize_aggregates.
  destruct (for_each_run (fun _ s => s = aggstate) (numtrans aggstate)
              (fun transno aggstate0 =>
                 pertrans <-! get_pertrans aggstate0 transno ;;
                 if (0 <? numSortCols pertrans)%nat then
                   _ <-! Assert (negb (AggStrategy_eqb (aggstrategy aggstate0) AGG_HASHED)
                                 && negb (AggStrategy_eqb (aggstrategy aggstate0) AGG_MIXED)) ;;
                   if (numInputs pertrans =? 1)%nat
                   then process_ordered_aggregate_single aggstate0 transno
                          (SortedGroups 0) transno
                   else process_ordered_aggregate_multi aggstate0 transno
                          (SortedGroups 0) transno
                 else Ok aggstate0)
              aggstate) as (s1 & Hrun1 & ->); [done| |].
  { intros t s Ht ->.
    destruct (lookup_lt_is_Some_2 (pertrans aggstate) t) as [p Hp]; [lia|].
    unfold get_pertrans. rewrite Hp. cbn [rbind].
    rewrite (Hcols t p Ht Hp). cbn [Nat.ltb Nat.leb]. by exists aggstate. }
  rewrite Hrun1. cbn [rbind].
  pose (I := fun (k : nat) (s : AggState) =>
              exists values nulls,
                s = set_ecxt_aggnulls (set_ecxt_aggvalues aggstate values) nulls
                /\ length values = length (ecxt_aggvalues aggstate)
                /\ length nulls = length (ecxt_aggnulls aggstate)
                /\ forall aggno pa pg,
                     (aggno < k)%nat ->
                     peragg aggstate !! aggno = Some pa ->
                     pergroup aggstate !! transno pa = Some pg ->
                     exists resultVal resultIsNull,
                       (if DO_AGGSPLIT_SKIPFINAL (aggsplit aggstate)
                        then finalize_partialaggregate aggstate pa pg
                        else finalize_aggregate aggstate pa pg)
                       = Ok (resultVal, resultIsNull)
                       /\ values !! aggno = Some resultVal
                       /\ nulls !! aggno = Some resultIsNull).
  destruct (for_each_run I (numaggs aggstate)
              (fun aggno aggstate0 =>
                 peragg <-! get_peragg aggstate0 aggno ;;
                 pergroupstate <-! read_pergroup aggstate0 (SortedGroups 0) (transno peragg) ;;
                 let! (resultVal, resultIsNull) :=
                   (if DO_AGGSPLIT_SKIPFINAL (aggsplit aggstate0)
                    then finalize_partialaggregate aggstate0 peragg pergroupstate
                    else finalize_aggregate aggstate0 peragg pergroupstate) in
                 Ok (set_ecxt_aggnulls
                       (set_ecxt_aggvalues aggstate0
                          (<[aggno := resultVal]> (ecxt_aggvalues aggstate0)))
                       (<[aggno := resultIsNull]> (ecxt_aggnulls aggstate0))))
              aggstate) as (s2 & Hrun2 & HI);
    [| |unfold I in HI; destruct HI as (values & nulls & -> & Hlv & Hln & Hres)].
  - unfold I. exists (ecxt_aggvalues aggstate), (ecxt_aggnulls aggstate).
    split; [by destruct aggstate|]. repeat split; try done. intros ? ? ? ?. lia.
  - unfold I. intros k s Hk (values & nulls & -> & Hlv & Hln & Hres).
    destruct (lookup_lt_is_Some_2 (peragg aggstate) k) as [pa Hpak]; [lia|].
    pose proof (Htransno k pa ltac:(lia) Hpak) as Htn.
    destruct (lookup_lt_is_Some_2 (pergroup aggstate) (transno pa)) as [pg Hg]; [lia|].
    destruct (lookup_lt_is_Some_2 (pertrans aggstate) (transno pa)) as [p Hp]; [lia|].
    unfold get_peragg, read_pergroup.
    cbn [peragg pergroup set_ecxt_aggnulls set_ecxt_aggvalues Nat.add aggsplit].
    rewrite Hpak. cbn [rbind]. rewrite Hg. cbn [rbind].
    destruct (finalize_aggregate_run aggstate pa pg p Hp) as ([v n] & Hfin).
    change (if DO_AGGSPLIT_SKIPFINAL (aggsplit aggstate)
            then finalize_partialaggregate
                   (set_ecxt_aggnulls (set_ecxt_aggvalues aggstate values) nulls) pa pg
            else finalize_aggregate
                   (set_ecxt_aggnulls (set_ecxt_aggvalues aggstate values) nulls) pa pg)
      with (if DO_AGGSPLIT_SKIPFINAL (aggsplit aggstate)
            then finalize_partialaggregate aggstate pa pg
            else finalize_aggregate aggstate pa pg).
    rewrite Hfin. cbn [rbind].
    eexists. split; [reflexivity|].
    exists (<[k := v]> values), (<[k := n]> nulls).
    split; [reflexivity|]. rewrite !length_insert.
    split; [done|]. split; [done|].
    intros aggno qa qg Hlt Hqa Hqg.
    destruct (decide (aggno = k)) as [->|Hne].
    + simplify_eq. exists v, n. rewrite !list_lookup_insert_eq by lia. done.
    + rewrite !list_lookup_insert_ne by done. apply Hres; [lia|done|done].
  - exists values, nulls. rewrite Hrun2. repeat split; try done.
Qed.


(** *** One group of a sorted or plain aggregation *)

(** A state without what one turn of the loop of agg_retrieve_direct
    works on: the plan. *)
Definition direct_frame (aggstate : AggState) : AggState :=
  set_grouped_cols
    (set_ecxt_aggnulls
       (set_ecxt_aggvalues
          (set_ecxt_outertuple
             (set_ss_ScanTupleSlot (set_projected_set (group_frame aggstate) 0)
                (blank_slot 0))
             ScanSlot)
          [])
       [])
    [].

Lemma group_frame_direct aggstate aggstate' :
  group_frame aggstate' = group_frame aggstate ->
  direct_frame aggstate' = direct_frame aggstate
  /\ projected_set aggstate' = projected_set aggstate
  /\ ss_ScanTupleSlot aggstate' = ss_ScanTupleSlot aggstate
  /\ ecxt_outertuple aggstate' = ecxt_outertuple aggstate
  /\ ecxt_aggvalues aggstate' = ecxt_aggvalues aggstate
  /\ ecxt_aggnulls aggstate' = ecxt_aggnulls aggstate
  /\ grouped_cols aggstate' = grouped_cols aggstate.
Proof.
  intros H. split; [by unfold direct_frame; rewrite H|].
  repeat split.
  - exact (f_equal projected_set H).
  - exact (f_equal ss_ScanTupleSlot H).
  - exact (f_equal ecxt_outertuple H).
  - exact (f_equal ecxt_aggvalues H).
  - exact (f_equal ecxt_aggnulls H).
  - exact (f_equal grouped_cols H).
Qed.

(** The rows still to be aggregated: the first tuple of the next group,
    if it was read already, and what the outer plan still has. *)
Definition rows_pending (aggstate : AggState) : list HeapTupleData :=
  match grp_firstTuple aggstate with
  | Some tuple => tuple :: lefttree aggstate
  | None => lefttree aggstate
  end.

(** Two rows are in one group. *)
Definition rows_match (aggstate : AggState) (first row : HeapTupleData) : bool :=
  in_group (set_ss_ScanTupleSlot aggstate (stored first))
    (phase_aggnode (phase aggstate)) row.

(** A sorted or plain aggregation without grouping sets, of aggregates
    without DISTINCT or ORDER BY, between two groups. *)
Record direct_ready (aggstate : AggState) : Prop := {
  direct_group : group_ready aggstate;
  direct_strategy :
    phase_aggstrategy (phase aggstate) = AGG_PLAIN
    \/ phase_aggstrategy (phase aggstate) = AGG_SORTED;
  direct_sets : numsets (phase aggstate) = 0%nat;
  direct_no_cols : phase_grouped_cols (phase aggstate) = None;
  direct_not_done : agg_done aggstate = false;
  direct_input : input_done aggstate = false;
  direct_cols : forall t p,
    (t < numtrans aggstate)%nat -> pertrans aggstate !! t = Some p ->
    numSortCols p = 0%nat;
  direct_peragg : (numaggs aggstate <= length (peragg aggstate))%nat;
  direct_values : (numaggs aggstate <= length (ecxt_aggvalues aggstate))%nat;
  direct_nulls : (numaggs aggstate <= length (ecxt_aggnulls aggstate))%nat;
  direct_transno : forall aggno pa,
    (aggno < numaggs aggstate)%nat -> peragg aggstate !! aggno = Some pa ->
    (transno pa < numtrans aggstate)%nat
}.

(** The inputs of the aggregates have the columns the aggregates read. *)
Definition rows_fit (aggstate : AggState) (rows : list HeapTupleData) : Prop :=
  forall t p,
    (t < numtrans aggstate)%nat -> pertrans aggstate !! t = Some p ->
    Forall (fun row =>
              filter_rejects p (stored row) = false ->
              (numTransInputs p + inputoff p
               <= length (tts_values (evaluated aggstate (stored row))))%nat)
      rows.

(** The state of an aggregate after the rows of a group. *)
Definition group_state (aggstate : AggState) (rows : list HeapTupleData)
  (pertrans : AggStatePerTransData) : AggStatePerTransData * AggStatePerGroupData :=
  group_fold aggstate (stored <$> rows) (pertrans, initial_group pertrans).

(** What a turn of the loop over the group [first :: run] leaves, the
    rows [rest] following the group. *)
Record group_result (aggstate : AggState) (first : HeapTupleData)
  (run rest : list HeapTupleData) (aggstate' : AggState) : Prop := {
  result_frame : direct_frame aggstate' = direct_frame aggstate;
  result_pertrans : length (pertrans aggstate') = length (pertrans aggstate);
  result_pergroup : length (pergroup aggstate') = length (pergroup aggstate);
  result_values_length :
    length (ecxt_aggvalues aggstate') = length (ecxt_aggvalues aggstate);
  result_nulls_length :
    length (ecxt_aggnulls aggstate') = length (ecxt_aggnulls aggstate);
  result_pending : rows_pending aggstate' = rest;
  result_done : agg_done aggstate' = bool_decide (rest = []);
  result_input : input_done aggstate' = false;
  result_evaluated : forall input,
    evaluated aggstate' input = evaluated aggstate input;
  result_states : forall t p,
    (t < numtrans aggstate)%nat -> pertrans aggstate !! t = Some p ->
    pertrans aggstate' !! t = Some (group_state aggstate (first :: run) p).1
    /\ pergroup aggstate' !! t = Some (group_state aggstate (first :: run) p).2;
  result_aggregates : forall aggno pa p,
    (aggno < numaggs aggstate)%nat ->
    peragg aggstate !! aggno = Some pa ->
    pertrans aggstate !! transno pa = Some p ->
    exists resultVal resultIsNull,
      (if DO_AGGSPLIT_SKIPFINAL (aggsplit aggstate)
       then finalize_partialaggregate aggstate' pa
              (group_state aggstate (first :: run) p).2
       else finalize_aggregate aggstate' pa
              (group_state aggstate (first :: run) p).2)
      = Ok (resultVal, resultIsNull)
      /\ ecxt_aggvalues aggstate' !! aggno = Some resultVal
      /\ ecxt_aggnulls aggstate' !! aggno = Some resultIsNull;
  result_slot : get_slot aggstate' (ecxt_outertuple aggstate') = stored first;
  result_grouped_cols : grouped_cols aggstate' = grouped_cols aggstate
}.

Lemma direct_frame_phase aggstate aggstate' :
  direct_frame aggstate' = direct_frame aggstate -> phase aggstate' = phase aggstate.
Proof.
  intros H. unfold phase.
  by rewrite (f_equal phases H : phases aggstate' = phases aggstate),
    (f_equal current_phase H : current_phase aggstate' = current_phase aggstate).
Qed.

Lemma direct_frame_ready aggstate aggstate' :
  direct_frame aggstate' = direct_frame aggstate ->
  length (pertrans aggstate') = length (pertrans aggstate) ->
  length (pergroup aggstate') = length (pergroup aggstate) ->
  group_ready aggstate -> group_ready aggstate'.
Proof.
  intros H Hpt Hpg [H1 H2 H3 H4 H5 H6 H7].
  pose proof (direct_frame_phase _ _ H) as Hphase.
  split.
  - by rewrite (f_equal aggstrategy H : aggstrategy aggstate' = aggstrategy aggstate).
  - by rewrite (f_equal aggsplit H : aggsplit aggstate' = aggsplit aggstate).
  - by rewrite Hphase.
  - by rewrite (f_equal num_hashes H : num_hashes aggstate' = num_hashes aggstate).
  - by rewrite (f_equal sort_in H : sort_in aggstate' = sort_in aggstate).
  - by rewrite Hpt, (f_equal numtrans H : numtrans aggstate' = numtrans aggstate).
  - by rewrite Hpg, (f_equal numtrans H : numtrans aggstate' = numtrans aggstate).
Qed.


(** The first tuple of the group is in hand. *)
Record in_hand (aggstate aggstate' : AggState) (first : HeapTupleData)
  (rows : list HeapTupleData) : Prop := {
  hand_frame : direct_frame aggstate' = direct_frame aggstate;
  hand_pertrans : pertrans aggstate' = pertrans aggstate;
  hand_pergroup : pergroup aggstate' = pergroup aggstate;
  hand_evalslot : evalslot aggstate' = evalslot aggstate;
  hand_rows : lefttree aggstate' = rows;
  hand_first : grp_firstTuple aggstate' = Some first;
  hand_projected : projected_set aggstate' = 0;
  hand_input_done : input_done aggstate' = false;
  hand_agg_done : agg_done aggstate' = false;
  hand_values : ecxt_aggvalues aggstate' = ecxt_aggvalues aggstate;
  hand_nulls : ecxt_aggnulls aggstate' = ecxt_aggnulls aggstate;
  hand_grouped_cols : grouped_cols aggstate' = grouped_cols aggstate
}.

Lemma group_tail aggstate s_b first run rest :
  direct_ready aggstate ->
  in_hand aggstate s_b first (run ++ rest) ->
  Forall (fun row => rows_match aggstate first row = true) run ->
  (forall next, head rest = Some next -> rows_match aggstate first next = false) ->
  rows_fit aggstate (first :: run) ->
  exists s_c s_e aggstate',
    initialize_aggregates s_b (SortedGroups 0) 1 = Ok s_c
    /\ grp_firstTuple s_c = Some first
    /\ (forall fuel, (length run < fuel)%nat ->
          advance_group fuel
            (set_tmp_outertuple
               (set_grp_firstTuple
                  (set_ss_ScanTupleSlot s_c
                     (ExecStoreTuple first (ss_ScanTupleSlot s_c)))
                  None)
               ScanSlot)
            (phase_aggnode (phase aggstate)) false
          = Ok s_e)
    /\ agg_retrieve_direct_project (set_ecxt_outertuple s_e ScanSlot)
       = Ok (match project_aggregates aggstate' with
             | Some row => Return (Some row) aggstate'
             | None => Continue aggstate'
             end)
    /\ group_result aggstate first run rest aggstate'.
Proof.
  intros Hready Hhand Hrun Hnext Hfit.
  pose proof Hready as [Hgroup Hstrategy Hsets Hnocols Hnotdone Hinput Hcols Hpa Hv Hn
                         Htransno].
  pose proof Hgroup as [H1 H2 H3 H4 H5 H6 H7].
  destruct Hhand as [Bf Bpt Bpg Bev Brows Bfirst Bps Bid Bad Bv Bn Bgc].
  assert (Bnum : numtrans s_b = numtrans aggstate) by exact (f_equal numtrans Bf).
  (* initialize_aggregates *)
  destruct (initialize_aggregates_plain s_b)
    as (s_c & Hinit & Cframe & Cev & Cpt & Cpglen & Cstates).
  { by rewrite Bnum, Bpt. }
  { by rewrite Bnum, Bpg. }
  { intros t p Ht Hp. rewrite Bnum in Ht. rewrite Bpt in Hp. by eapply Hcols. }
  destruct (row_frame_group _ _ Cframe)
    as (Cg & Co & Cl & Cso & Ctmp & Cft & Cid & Cad).
  destruct (group_frame_direct _ _ Cg) as (Cd & Cps & Css & Ceo & Cv & Cn & Cgc).
  set (s_d := set_tmp_outertuple
                (set_grp_firstTuple
                   (set_ss_ScanTupleSlot s_c
                      (ExecStoreTuple first (ss_ScanTupleSlot s_c)))
                   None)
                ScanSlot).
  assert (Dd : direct_frame s_d = direct_frame aggstate).
  { transitivity (direct_frame s_c); [reflexivity|]. by rewrite Cd. }
  pose proof (direct_frame_phase _ _ Dd) as Dphase.
  assert (Dnum : numtrans s_d = numtrans aggstate) by exact (f_equal numtrans Dd).
  assert (Dpt : pertrans s_d = pertrans aggstate).
  { transitivity (pertrans s_c); [reflexivity|]. by rewrite Cpt. }
  assert (Deval : forall input, evaluated s_d input = evaluated aggstate input).
  { intros input. unfold evaluated.
    rewrite (f_equal evalproj Dd : evalproj s_d = evalproj aggstate).
    change (evalslot s_d) with (evalslot s_c). by rewrite Cev, Bev. }
  assert (Dgroup : forall row, in_group s_d (phase_aggnode (phase aggstate)) row
                               = rows_match aggstate first row).
  { intros row. unfold rows_match, in_group. by rewrite Dphase. }
  assert (Dv : ecxt_aggvalues s_d = ecxt_aggvalues aggstate).
  { transitivity (ecxt_aggvalues s_c); [reflexivity|]. by rewrite Cv, Bv. }
  assert (Dn : ecxt_aggnulls s_d = ecxt_aggnulls aggstate).
  { transitivity (ecxt_aggnulls s_c); [reflexivity|]. by rewrite Cn, Bn. }
  assert (Dgc : grouped_cols s_d = grouped_cols aggstate).
  { transitivity (grouped_cols s_c); [reflexivity|]. by rewrite Cgc, Bgc. }
  assert (Dpglen : length (pergroup s_d) = length (pergroup aggstate)).
  { transitivity (length (pergroup s_c)); [reflexivity|]. by rewrite Cpglen, Bpg. }
  assert (Dps : projected_set s_d = 0).
  { transitivity (projected_set s_c); [reflexivity|]. by rewrite Cps, Bps. }
  assert (Did : input_done s_d = false).
  { transitivity (input_done s_c); [reflexivity|]. by rewrite Cid, Bid. }
  assert (Dad : agg_done s_d = false).
  { transitivity (agg_done s_c); [reflexivity|]. by rewrite Cad, Bad. }
  (* the rows of the group *)
  destruct (advance_group_run (phase_aggnode (phase aggstate)) false run rest s_d)
    as (s_e & Hadv & Eg & Elen1 & Elen2 & El & Eso & Eend & Eeval & Estates).
  { eapply direct_frame_ready; [exact Dd| | |exact Hgroup].
    - by rewrite Dpt.
    - exact Dpglen. }
  { change (lefttree s_d) with (lefttree s_c). by rewrite Cl. }
  { eapply Forall_impl; [exact Hrun|]. intros row Hrow. by rewrite Dgroup. }
  { intros next Hhead. rewrite Dgroup. by apply Hnext. }
  { intros t p Ht Hp. rewrite Dnum in Ht. rewrite Dpt in Hp.
    split; [by eapply Hcols|].
    change (input_slot s_d) with (stored first).
    change (stored first :: (stored <$> run)) with (stored <$> (first :: run)).
    apply Forall_fmap. eapply Forall_impl; [exact (Hfit t p Ht Hp)|].
    intros row Hrow. unfold compose. cbv beta in *. by rewrite Deval. }
  destruct (group_frame_direct _ _ Eg) as (Ed & Eps & Ess & Eeo & Ev & En & Egc).
  (* the projection *)
  set (s_g := set_ecxt_outertuple s_e ScanSlot).
  set (s_h := set_current_set s_g 0).
  assert (Hd : direct_frame s_h = direct_frame aggstate).
  { transitivity (direct_frame s_e); [reflexivity|]. by rewrite Ed. }
  assert (Hnum : numtrans s_h = numtrans aggstate) by exact (f_equal numtrans Hd).
  assert (Hnumaggs : numaggs s_h = numaggs aggstate) by exact (f_equal numaggs Hd).
  assert (Hperagg : peragg s_h = peragg aggstate) by exact (f_equal peragg Hd).
  assert (Hstates : forall t p,
             (t < numtrans aggstate)%nat -> pertrans aggstate !! t = Some p ->
             pertrans s_h !! t = Some (group_state aggstate (first :: run) p).1
             /\ pergroup s_h !! t = Some (group_state aggstate (first :: run) p).2).
  { intros t p Ht Hp.
    destruct (Estates t p (initial_group p)) as [Ep Epg].
    - by rewrite Dnum.
    - by rewrite Dpt.
    - change (pergroup s_d) with (pergroup s_c). apply Cstates; [by rewrite Bnum|].
      by rewrite Bpt.
    - change (pertrans s_h) with (pertrans s_e).
      change (pergroup s_h) with (pergroup s_e).
      unfold group_state, group_fold.
      rewrite (foldl_pointwise _
                 (fun state input => transition_step input (evaluated s_d input) state))
        by (intros st input; by rewrite Deval).
      done. }
  destruct (finalize_aggregates_plain s_h) as (values & nulls & Hfin & Hlv & Hln & Hres).
  { rewrite Hnum. change (pertrans s_h) with (pertrans s_e). by rewrite Elen1, Dpt. }
  { rewrite Hnum. change (pergroup s_h) with (pergroup s_e). by rewrite Elen2, Dpglen. }
  { intros t q Ht Hq. rewrite Hnum in Ht.
    destruct (lookup_lt_is_Some_2 (pertrans aggstate) t) as [p Hp]; [lia|].
    destruct (Hstates t p Ht Hp) as [Hq' _]. rewrite Hq' in Hq. simplify_eq.
    unfold group_state.
    assert (Hstatic : forall inputs st,
               static_of (group_fold aggstate inputs st).1 = static_of st.1).
    { induction inputs as [|input inputs IHi]; intros [p0 pg0]; [done|].
      unfold group_fold in *. cbn [foldl].
      rewrite (surjective_pairing (transition_step _ _ _)), IHi.
      apply transition_step_static. }
    rewrite (proj1 (proj2 (static_of_fields _ _ (Hstatic _ _)))).
    by eapply Hcols. }
  { by rewrite Hnumaggs, Hperagg. }
  { rewrite Hnumaggs. change (ecxt_aggvalues s_h) with (ecxt_aggvalues s_e).
    by rewrite Ev, Dv. }
  { rewrite Hnumaggs. change (ecxt_aggnulls s_h) with (ecxt_aggnulls s_e).
    by rewrite En, Dn. }
  { intros aggno pa Hlt Hpa'. rewrite Hnum. rewrite Hnumaggs in Hlt.
    rewrite Hperagg in Hpa'. by eapply Htransno. }
  set (s_i := set_ecxt_aggnulls (set_ecxt_aggvalues s_h values) nulls) in *.
  exists s_c, s_e, s_i.
  split; [exact Hinit|].
  split; [by rewrite Cft|].
  split; [exact Hadv|].
  split.
  { unfold agg_retrieve_direct_project.
    change (projected_set (set_ecxt_outertuple s_e ScanSlot)) with (projected_set s_e).
    rewrite Eps, Dps. cbn [Z.leb Z.compare Assert rbind Z.to_nat].
    unfold prepare_projection_slot. fold s_g.
    rewrite (direct_frame_phase aggstate s_g Hd).
    rewrite Hnocols. unfold select_current_set.
    change (finalize_aggregates (set_current_set s_g (Z.to_nat 0))
              (SortedGroups (Z.to_nat 0 * numtrans (set_current_set s_g (Z.to_nat 0)))))
      with (finalize_aggregates s_h (SortedGroups 0)).
    rewrite Hfin. cbn [rbind]. fold s_i.
    by destruct (project_aggregates s_i). }
  split.
  - transitivity (direct_frame s_h); [reflexivity|exact Hd].
  - change (pertrans s_i) with (pertrans s_e). by rewrite Elen1, Dpt.
  - change (pergroup s_i) with (pergroup s_e). by rewrite Elen2, Dpglen.
  - change (ecxt_aggvalues s_i) with values. rewrite Hlv.
    change (ecxt_aggvalues s_h) with (ecxt_aggvalues s_e). by rewrite Ev, Dv.
  - change (ecxt_aggnulls s_i) with nulls. rewrite Hln.
    change (ecxt_aggnulls s_h) with (ecxt_aggnulls s_e). by rewrite En, Dn.
  - unfold rows_pending. change (grp_firstTuple s_i) with (grp_firstTuple s_e).
    change (lefttree s_i) with (lefttree s_e). rewrite El.
    unfold group_ended in Eend. destruct rest as [|next rest].
    + destruct Eend as [-> _]. reflexivity.
    + destruct Eend as [-> _]. reflexivity.
  - change (agg_done s_i) with (agg_done s_e).
    unfold group_ended in Eend. destruct rest as [|next rest].
    + by destruct Eend as (_ & -> & _).
    + by destruct Eend as (_ & _ & ->).
  - change (input_done s_i) with (input_done s_e).
    unfold group_ended in Eend. destruct rest as [|next rest].
    + by destruct Eend as (_ & _ & ->).
    + by destruct Eend as (_ & -> & _).
  - intros input. transitivity (evaluated s_e input); [reflexivity|].
    by rewrite Eeval, Deval.
  - intros t p Ht Hp. change (pertrans s_i) with (pertrans s_h).
    change (pergroup s_i) with (pergroup s_h). by apply Hstates.
  - intros aggno pa p Hlt Hpa' Hp.
    pose proof (Htransno aggno pa Hlt Hpa') as Htn.
    destruct (Hstates (transno pa) p Htn Hp) as [_ Hpg].
    destruct (Hres aggno pa _ ltac:(by rewrite Hnumaggs) ltac:(by rewrite Hperagg) Hpg)
      as (v & n & Hfinal & Hvv & Hnn).
    exists v, n. split; [|done].
    rewrite <- (f_equal aggsplit Hd : aggsplit s_h = aggsplit aggstate).
    exact Hfinal.
  - change (get_slot s_i (ecxt_outertuple s_i)) with (ss_ScanTupleSlot s_e).
    by rewrite Ess.
  - change (grouped_cols s_i) with (grouped_cols s_e).
    by rewrite Egc, Dgc.
Qed.


Lemma ExecCopySlotTuple_of_stored row : ExecCopySlotTuple (stored row) = row.
Proof. by destruct row. Qed.

(** One turn of the loop of agg_retrieve_direct: the rows of the next
    group are read and aggregated, and its row is projected. *)
Lemma agg_retrieve_direct_body_run aggstate first run rest :
  direct_ready aggstate ->
  rows_pending aggstate = first :: run ++ rest ->
  Forall (fun row => rows_match aggstate first row = true) run ->
  (forall next, head rest = Some next -> rows_match aggstate first next = false) ->
  rows_fit aggstate (first :: run) ->
  exists aggstate',
    (forall fuel, (length run < fuel)%nat ->
       agg_retrieve_direct_body fuel aggstate false
       = Ok (match project_aggregates aggstate' with
             | Some row => Return (Some row) aggstate'
             | None => Continue aggstate'
             end))
    /\ group_result aggstate first run rest aggstate'.
Proof.
  intros Hready Hrows Hrun Hnext Hfit.
  pose proof Hready as [Hgroup Hstrategy Hsets Hnocols Hnotdone Hinput Hcols Hpa Hv Hn
                         Htransno].
  pose proof Hgroup as [H1 H2 H3 H4 H5 H6 H7].
  assert (Hb : exists s_b,
             in_hand aggstate s_b first (run ++ rest)
             /\ match grp_firstTuple aggstate with
                | Some _ => s_b = set_projected_set aggstate 0
                | None =>
                    exists s_f,
                      fetch_input_tuple (set_projected_set aggstate 0)
                      = (Some OuterSlot, s_f)
                      /\ tts_isempty (outer_slot s_f) = false
                      /\ s_b = set_grp_firstTuple s_f
                                 (Some (ExecCopySlotTuple (outer_slot s_f)))
                end).
  { unfold rows_pending in Hrows.
    destruct (grp_firstTuple aggstate) as [tuple|] eqn:Hft.
    - simplify_eq. exists (set_projected_set aggstate 0). split; [|done].
      split; try done.
    - destruct (fetch_input_tuple_next (set_projected_set aggstate 0) first
                  (run ++ rest) H5 Hrows)
        as (s_f & Hfetch & Fg & Fpt & Fpg & Fev & Fo & Fl & Fso & Ftmp & Fft & Fid
            & Fad).
      destruct (group_frame_direct _ _ Fg) as (Fd & Fps & Fss & Feo & Fv & Fn & Fgc).
      exists (set_grp_firstTuple s_f (Some (ExecCopySlotTuple (outer_slot s_f)))).
      split.
      + split; simpl; try done.
        * by rewrite Fo, ExecCopySlotTuple_of_stored.
        * by rewrite Fid.
        * by rewrite Fad.
      + exists s_f. split; [done|]. split; [by rewrite Fo|done]. }
  destruct Hb as (s_b & Hhand & Hcase).
  destruct (group_tail aggstate s_b first run rest Hready Hhand Hrun Hnext Hfit)
    as (s_c & s_e & aggstate' & Hinit & Cft & Hadv & Hproj & Hres).
  exists aggstate'. split; [|exact Hres].
  intros fuel Hfuel.
  unfold agg_retrieve_direct_body, agg_retrieve_direct_next_phase.
  rewrite Hinput. cbn [andb rbind].
  unfold agg_retrieve_direct_group. rewrite Hinput, Hsets. cbn [Nat.max orb].
  replace ((0 <=? projected_set aggstate) && (projected_set aggstate <? Z.of_nat 1 - 1))
    with false
    by (destruct (Z.leb_spec 0 (projected_set aggstate)),
          (Z.ltb_spec (projected_set aggstate) (Z.of_nat 1 - 1)); simpl; try done; lia).
  cbn [Nat.ltb Nat.leb]. rewrite andb_false_r. cbn [andb].
  replace (if (0 <=? projected_set aggstate) && (projected_set aggstate <? Z.of_nat 1)
           then projected_set aggstate + 1 else Z.of_nat 1)
    with 1
    by (destruct (Z.leb_spec 0 (projected_set aggstate)),
          (Z.ltb_spec (projected_set aggstate) (Z.of_nat 1)); simpl; try done; lia).
  change (grp_firstTuple (set_projected_set aggstate 0)) with (grp_firstTuple aggstate).
  destruct (grp_firstTuple aggstate) as [tuple|].
  - subst s_b. cbn [rbind]. rewrite Hinit. cbn [rbind]. rewrite Cft.
    rewrite (Hadv fuel Hfuel). cbn [rbind]. exact Hproj.
  - destruct Hcase as (s_f & Hfetch & Hnull & ->). rewrite Hfetch.
    cbn [TupIsNull get_slot]. rewrite Hnull. cbn [negb rbind].
    rewrite Hinit. cbn [rbind]. rewrite Cft.
    rewrite (Hadv fuel Hfuel). cbn [rbind]. exact Hproj.
Qed.


Lemma group_fold_static aggstate inputs : forall state,
  static_of (group_fold aggstate inputs state).1 = static_of state.1.
Proof.
  induction inputs as [|input inputs IH]; intros [p pg]; [done|].
  unfold group_fold in *. cbn [foldl].
  rewrite (surjective_pairing (transition_step _ _ _)), IH.
  apply transition_step_static.
Qed.

Lemma rows_match_frame aggstate aggstate' first row :
  direct_frame aggstate' = direct_frame aggstate ->
  rows_match aggstate' first row = rows_match aggstate first row.
Proof.
  intros H. unfold rows_match, in_group.
  change (phase (set_ss_ScanTupleSlot aggstate' (stored first))) with (phase aggstate').
  change (phase (set_ss_ScanTupleSlot aggstate (stored first))) with (phase aggstate).
  by rewrite (direct_frame_phase _ _ H).
Qed.

(** After a group the aggregation is ready for the next one. *)
Lemma group_result_ready aggstate first run rest aggstate' :
  direct_ready aggstate ->
  group_result aggstate first run rest aggstate' ->
  rest <> [] ->
  direct_ready aggstate'.
Proof.
  intros [Hgroup Hstrategy Hsets Hnocols Hnotdone Hinput Hcols Hpa Hv Hn Htransno]
    [Rf Rpt Rpg Rv Rn Rpend Rdone Rinput Reval Rstates Raggs Rslot Rgc] Hrest.
  pose proof (direct_frame_phase _ _ Rf) as Hphase.
  assert (Hnum : numtrans aggstate' = numtrans aggstate) by exact (f_equal numtrans Rf).
  assert (Hnumaggs : numaggs aggstate' = numaggs aggstate) by exact (f_equal numaggs Rf).
  assert (Hperagg : peragg aggstate' = peragg aggstate) by exact (f_equal peragg Rf).
  split.
  - by eapply direct_frame_ready.
  - by rewrite Hphase.
  - by rewrite Hphase.
  - by rewrite Hphase.
  - rewrite Rdone. by apply bool_decide_eq_false_2.
  - exact Rinput.
  - intros t p' Ht Hp'. rewrite Hnum in Ht.
    destruct (lookup_lt_is_Some_2 (pertrans aggstate) t) as [p Hp];
      [destruct Hgroup; lia|].
    destruct (Rstates t p Ht Hp) as [Hp1 _]. rewrite Hp1 in Hp'. simplify_eq.
    unfold group_state.
    rewrite (proj1 (proj2 (static_of_fields _ _ (group_fold_static _ _ _)))).
    by eapply Hcols.
  - by rewrite Hnumaggs, Hperagg.
  - by rewrite Hnumaggs, Rv.
  - by rewrite Hnumaggs, Rn.
  - intros aggno pa Hlt Hpa'. rewrite Hnum. rewrite Hnumaggs in Hlt.
    rewrite Hperagg in Hpa'. by eapply Htransno.
Qed.

Lemma group_result_fit aggstate first run rest aggstate' :
  direct_ready aggstate ->
  group_result aggstate first run rest aggstate' ->
  rows_fit aggstate (first :: run ++ rest) ->
  rows_fit aggstate' rest.
Proof.
  intros [Hgroup _ _ _ _ _ _ _ _ _ _]
    [Rf Rpt Rpg Rv Rn Rpend Rdone Rinput Reval Rstates Raggs Rslot Rgc] Hfit.
  assert (Hnum : numtrans aggstate' = numtrans aggstate) by exact (f_equal numtrans Rf).
  intros t p' Ht Hp'. rewrite Hnum in Ht.
  destruct (lookup_lt_is_Some_2 (pertrans aggstate) t) as [p Hp];
    [destruct Hgroup; lia|].
  destruct (Rstates t p Ht Hp) as [Hp1 _]. rewrite Hp1 in Hp'. simplify_eq.
  pose proof (group_fold_static aggstate (stored <$> first :: run)
                (p, initial_group p)) as Hstatic.
  destruct (static_of_fields _ _ Hstatic) as (Hf1 & Hf2 & Hf3 & Hf4).
  specialize (Hfit t p Ht Hp).
  apply Forall_cons in Hfit as [_ Hfit]. apply Forall_app in Hfit as [_ Hfit].
  eapply Forall_impl; [exact Hfit|]. intros row Hrow. cbv beta in *.
  unfold group_state.
  rewrite (filter_rejects_static _ _ _ Hstatic), Hf3, Hf4, Reval. exact Hrow.
Qed.

(** The rows that follow a row split into those of its group and the
    rest. *)
Lemma rows_split {A} (P : A -> bool) (l : list A) :
  exists run rest,
    l = run ++ rest
    /\ Forall (fun x => P x = true) run
    /\ forall next, head rest = Some next -> P next = false.
Proof.
  induction l as [|x l (run & rest & -> & Hrun & Hnext)].
  - exists [], []. repeat split; [done|]. intros next [=].
  - destruct (P x) eqn:HP.
    + exists (x :: run), rest. repeat split; [by constructor|done].
    + exists [], (x :: run ++ rest). repeat split; [done|].
      intros next [= <-]. exact HP.
Qed.

(** The turns of the loop over the groups of [rows], with the states they
    leave. *)
Inductive groups_run : AggState -> list HeapTupleData -> list AggState -> Prop :=
| groups_run_nil aggstate :
    agg_done aggstate = true -> groups_run aggstate [] []
| groups_run_cons aggstate first run rest aggstate' finals :
    direct_ready aggstate ->
    (forall fuel, (length run < fuel)%nat ->
       agg_retrieve_direct_body fuel aggstate false
       = Ok (match project_aggregates aggstate' with
             | Some row => Return (Some row) aggstate'
             | None => Continue aggstate'
             end)) ->
    Forall (fun row => rows_match aggstate first row = true) run ->
    (forall next, head rest = Some next -> rows_match aggstate first next = false) ->
    group_result aggstate first run rest aggstate' ->
    groups_run aggstate' rest finals ->
    groups_run aggstate (first :: run ++ rest) (aggstate' :: finals).

(** The groups of [rows] and the states their turns leave: a group is a
    row and the rows after it that match it, up to the first that does
    not. *)
Inductive groups_done : AggState -> list HeapTupleData -> list AggState -> Prop :=
| groups_done_nil aggstate : groups_done aggstate [] []
| groups_done_cons aggstate first run rest aggstate' finals :
    Forall (fun row => rows_match aggstate first row = true) run ->
    (forall next, head rest = Some next -> rows_match aggstate first next = false) ->
    group_result aggstate first run rest aggstate' ->
    groups_done aggstate' rest finals ->
    groups_done aggstate (first :: run ++ rest) (aggstate' :: finals).

Lemma groups_run_done aggstate rows finals :
  groups_run aggstate rows finals -> groups_done aggstate rows finals.
Proof. induction 1; by constructor. Qed.

Lemma groups_run_exists n : forall rows aggstate,
  (length rows <= n)%nat ->
  rows_pending aggstate = rows ->
  (rows <> [] -> direct_ready aggstate /\ rows_fit aggstate rows) ->
  (rows = [] -> agg_done aggstate = true) ->
  exists finals, groups_run aggstate rows finals.
Proof.
  induction n as [|n IH]; intros rows aggstate Hlen Hpending Hsome Hnone.
  - destruct rows; [|simpl in Hlen; lia]. exists []. constructor. by apply Hnone.
  - destruct rows as [|first rows].
    { exists []. constructor. by apply Hnone. }
    destruct Hsome as [Hready Hfit]; [done|].
    destruct (rows_split (rows_match aggstate first) rows)
      as (run & rest & -> & Hrun & Hnext).
    destruct (agg_retrieve_direct_body_run aggstate first run rest)
      as (s' & Hbody & Hres); try done.
    { intros t p Ht Hp. specialize (Hfit t p Ht Hp).
      apply Forall_cons in Hfit as [Hfirst Hfit].
      apply Forall_app in Hfit as [Hfit _]. by constructor. }
    destruct (IH rest s') as (finals & Hfinals).
    + simpl in Hlen. rewrite length_app in Hlen. lia.
    + by destruct Hres.
    + intros Hrest. split; [by eapply group_result_ready|].
      by eapply group_result_fit.
    + intros ->. destruct Hres as [_ _ _ _ _ _ Hdone _ _ _ _ _ _].
      rewrite Hdone. by apply bool_decide_eq_true_2.
    + exists (s' :: finals). by econstructor.
Qed.

(** What the next call of ExecAgg answers: the row of the first of the
    groups that the qual accepts. *)
Fixpoint next_answer (aggstate : AggState) (finals : list AggState)
  : option TupleTableSlot * AggState :=
  match finals with
  | [] => (None, aggstate)
  | aggstate' :: finals =>
      match project_aggregates aggstate' with
      | Some row => (Some row, aggstate')
      | None => next_answer aggstate' finals
      end
  end.

Lemma agg_retrieve_direct_loop_groups aggstate rows finals :
  groups_run aggstate rows finals ->
  forall fuel, (length rows < fuel)%nat ->
    agg_retrieve_direct_loop fuel aggstate false = Ok (next_answer aggstate finals).
Proof.
  induction 1 as [s Hdone|s first run rest s' finals Hready Hbody Hrun Hnext Hres Hrest IH];
    intros [|fuel] Hfuel; try (simpl in Hfuel; lia); cbn [agg_retrieve_direct_loop].
  - by rewrite Hdone.
  - rewrite (direct_not_done _ Hready).
    simpl in Hfuel. rewrite length_app in Hfuel.
    rewrite Hbody by lia. cbn [rbind next_answer].
    destruct (project_aggregates s'); [done|]. apply IH. lia.
Qed.

Lemma next_answer_row aggstate finals row aggstate' :
  next_answer aggstate finals = (Some row, aggstate') -> tts_isempty row = false.
Proof.
  revert aggstate. induction finals as [|s finals IH]; intros aggstate; simpl;
    [discriminate|].
  destruct (project_aggregates s) as [r|] eqn:Hr; [|apply IH].
  intros [= <- <-]. by eapply project_aggregates_not_empty.
Qed.

Lemma ExecAgg_groups aggstate rows finals :
  groups_run aggstate rows finals ->
  forall fuel, (length rows < fuel)%nat ->
    ExecAgg fuel aggstate = Ok (next_answer aggstate finals).
Proof.
  intros Hgroups fuel Hfuel. unfold ExecAgg.
  pose proof (agg_retrieve_direct_loop_groups _ _ _ Hgroups fuel Hfuel) as Hloop.
  destruct Hgroups as [s Hdone|s first run rest s' finals Hready Hbody Hrun Hnext Hres
                                 Hrest].
  - by rewrite Hdone.
  - rewrite (direct_not_done _ Hready). cbn [negb].
    assert (Hdirect : agg_retrieve_direct fuel s
                      = Ok (next_answer s (s' :: finals))).
    { unfold agg_retrieve_direct. by rewrite (direct_sets _ Hready). }
    destruct (direct_strategy _ Hready) as [-> | ->]; rewrite Hdirect; cbn [rbind];
      destruct (next_answer s (s' :: finals)) as [[row|] s1] eqn:Hanswer; try done;
      by rewrite (next_answer_row _ _ _ _ Hanswer).
Qed.

Lemma ExecAgg_drain_groups aggstate rows finals :
  groups_run aggstate rows finals ->
  forall fuel n, (length rows < fuel)%nat -> (length finals < n)%nat ->
    ExecAgg_drain fuel n aggstate
    = Ok (omap project_aggregates finals, true, default aggstate (last finals)).
Proof.
  induction 1 as [s Hdone|s first run rest s' finals Hready Hbody Hrun Hnext Hres Hrest IH];
    intros fuel [|n] Hfuel Hn; try (simpl in Hn; lia).
  - cbn [ExecAgg_drain].
    rewrite (ExecAgg_groups s [] [] (groups_run_nil s Hdone) fuel Hfuel). done.
  - assert (Hfuel' : (length rest < fuel)%nat)
      by (simpl in Hfuel; rewrite length_app in Hfuel; lia).
    pose proof (ExecAgg_groups _ _ _
                  (groups_run_cons s first run rest s' finals Hready Hbody Hrun Hnext
                     Hres Hrest) fuel Hfuel) as Hfirst.
    pose proof (ExecAgg_groups _ _ _ Hrest fuel Hfuel') as Hthen.
    cbn [next_answer] in Hfirst.
    assert (Hlast : default s (last (s' :: finals)) = default s' (last finals)).
    { destruct finals as [|s2 finals]; [done|]. rewrite last_cons.
      by destruct (last (s2 :: finals)). }
    rewrite Hlast. cbn [omap list_omap].
    destruct (project_aggregates s') as [row|] eqn:Hrow.
    + cbn [ExecAgg_drain]. rewrite Hfirst. cbn [rbind].
      rewrite (IH fuel n Hfuel') by (simpl in Hn; lia). done.
    + specialize (IH fuel (S n) Hfuel' ltac:(simpl in Hn; lia)).
      cbn [ExecAgg_drain] in IH |- *. by rewrite Hfirst, <- Hthen.
Qed.

(** X8 (agg_retrieve_direct, the loop over the rows of a group, with
    advance_aggregates and fetch_input_tuple): in a sorted or plain
    aggregation of one grouping set that takes transition steps, whose
    aggregates are without DISTINCT and ORDER BY, the loop started with
    the first tuple of a group in hand reads the rows [run] that belong to
    the group and the row after them, if there is one.  Every aggregate
    has then taken its steps over the tuple in hand and the rows of [run],
    in this order, a row its FILTER rejects leaving it as it was; every
    row read was handed to the sorter of the next phase; the row after the
    group is kept as the first tuple of the next group, and at the end of
    the input the aggregation is marked done (input_done with grouping
    sets, agg_done without). *)
Theorem advance_group_folds (aggstate : AggState) (node : Agg)
  (hasGroupingSets : bool) (run rest : list HeapTupleData) :
  group_ready aggstate ->
  lefttree aggstate = run ++ rest ->
  Forall (fun row => in_group aggstate node row = true) run ->
  (forall next, head rest = Some next -> in_group aggstate node next = false) ->
  inputs_fit aggstate (input_slot aggstate :: (stored <$> run)) ->
  exists aggstate',
    (forall fuel, (length run < fuel)%nat ->
       advance_group fuel aggstate node hasGroupingSets = Ok aggstate')
    /\ lefttree aggstate' = tail rest
    /\ sort_out aggstate' = tuplesort_puts (sort_out aggstate) (run ++ take 1 rest)
    /\ group_ended aggstate aggstate' hasGroupingSets rest
    /\ forall t p pg,
         (t < numtrans aggstate)%nat ->
         pertrans aggstate !! t = Some p -> pergroup aggstate !! t = Some pg ->
         pertrans aggstate' !! t
         = Some (group_fold aggstate (input_slot aggstate :: (stored <$> run)) (p, pg)).1
         /\ pergroup aggstate' !! t
            = Some (group_fold aggstate (input_slot aggstate :: (stored <$> run))
                      (p, pg)).2.
Proof.
  intros Hready Hrows Hrun Hnext Hfit.
  destruct (advance_group_run node hasGroupingSets run rest aggstate
              Hready Hrows Hrun Hnext Hfit)
    as (s' & H1 & _ & _ & _ & H2 & H3 & H4 & _ & H5).
  exists s'. repeat split; try done; by apply H5.
Qed.

(** What the qual and the target list see of a group: its first tuple
    and the results of the aggregates. *)
Definition group_input (aggstate aggstate' : AggState) (first : HeapTupleData)
  : ProjInput :=
  {| pi_outertuple := stored first;
     pi_aggvalues := ecxt_aggvalues aggstate';
     pi_aggnulls := ecxt_aggnulls aggstate';
     pi_grouped_cols := grouped_cols aggstate |}.

Lemma group_result_row aggstate first run rest aggstate' :
  group_result aggstate first run rest aggstate' ->
  project_aggregates aggstate'
  = if qual aggstate (group_input aggstate aggstate' first)
    then Some (ExecStoreVirtualTuple
                 (ps_ProjInfo aggstate (group_input aggstate aggstate' first)))
    else None.
Proof.
  intros [Rf Rpt Rpg Rv Rn Rpend Rdone Rinput Reval Rstates Raggs Rslot Rgc].
  unfold project_aggregates, proj_input, group_input.
  by rewrite Rslot, Rgc, (f_equal qual Rf : qual aggstate' = qual aggstate),
    (f_equal ps_ProjInfo Rf : ps_ProjInfo aggstate' = ps_ProjInfo aggstate).
Qed.

(** X9 (ExecAgg, agg_retrieve_direct, initialize_aggregates,
    finalize_aggregates, project_aggregates): a sorted or plain
    aggregation without grouping sets, of aggregates without DISTINCT and
    ORDER BY, is between two groups, and the rows still to be aggregated
    begin with a group: a row [first], the rows [run] that match it, and
    then a row that does not or nothing.  The next turn of the loop of
    agg_retrieve_direct reads exactly the group and the row after it.
    Every aggregate starts from its initial value and takes its steps over
    the rows of the group in their order, its result is what
    finalize_aggregate (or finalize_partialaggregate) gives on the state
    reached, and the qual and the target list see these results beside
    the first row of the group.  When the qual accepts the group, ExecAgg
    returns its projection; the rows after the group are left to be
    aggregated, and at the end of the input agg_done is set. *)
Theorem ExecAgg_first_group (aggstate : AggState) (first : HeapTupleData)
  (run rest : list HeapTupleData) :
  direct_ready aggstate ->
  rows_pending aggstate = first :: run ++ rest ->
  Forall (fun row => rows_match aggstate first row = true) run ->
  (forall next, head rest = Some next -> rows_match aggstate first next = false) ->
  rows_fit aggstate (first :: run) ->
  exists aggstate',
    group_result aggstate first run rest aggstate'
    /\ forall fuel,
         (length run + 1 < fuel)%nat ->
         qual aggstate (group_input aggstate aggstate' first) = true ->
         ExecAgg fuel aggstate
         = Ok (Some (ExecStoreVirtualTuple
                       (ps_ProjInfo aggstate (group_input aggstate aggstate' first))),
               aggstate').
Proof.
  intros Hready Hrows Hrun Hnext Hfit.
  destruct (agg_retrieve_direct_body_run aggstate first run rest
              Hready Hrows Hrun Hnext Hfit) as (s' & Hbody & Hres).
  exists s'. split; [exact Hres|].
  intros [|fuel] Hfuel Hqual; [lia|].
  pose proof (group_result_row _ _ _ _ _ Hres) as Hrow. rewrite Hqual in Hrow.
  unfold ExecAgg. rewrite (direct_not_done _ Hready). cbn [negb].
  assert (Hdirect : agg_retrieve_direct (S fuel) aggstate
                    = Ok (Some (ExecStoreVirtualTuple
                                  (ps_ProjInfo aggstate
                                     (group_input aggstate s' first))), s')).
  { unfold agg_retrieve_direct. rewrite (direct_sets _ Hready).
    cbn [agg_retrieve_direct_loop Nat.ltb Nat.leb].
    rewrite (direct_not_done _ Hready), Hbody by lia.
    cbn [rbind]. by rewrite Hrow. }
  by destruct (direct_strategy _ Hready) as [-> | ->]; rewrite Hdirect.
Qed.

(** X10 (ExecAgg, agg_retrieve_direct): a sorted or plain aggregation
    without grouping sets, of aggregates without DISTINCT and ORDER BY,
    that is between two groups and has rows to aggregate, called until it
    answers NULL.  The rows fall into groups, a group being a row and the
    rows after it that match it, up to the first that does not; every
    group is aggregated as the theorem of one group says, each from the
    state the group before it left; ExecAgg returns, in the order of the
    groups, the projections of the groups the qual accepts, and then
    NULL. *)
Theorem ExecAgg_drain_sorted_groups (aggstate : AggState)
  (rows : list HeapTupleData) :
  direct_ready aggstate ->
  rows_pending aggstate = rows ->
  rows <> [] ->
  rows_fit aggstate rows ->
  exists finals,
    groups_done aggstate rows finals
    /\ forall fuel n,
         (length rows < fuel)%nat -> (length finals < n)%nat ->
         ExecAgg_drain fuel n aggstate
         = Ok (omap project_aggregates finals, true,
               default aggstate (last finals)).
Proof.
  intros Hready Hrows Hsome Hfit.
  destruct (groups_run_exists (length rows) rows aggstate) as (finals & Hrun);
    [done|done|done|done|].
  exists finals. split; [by apply groups_run_done|].
  intros fuel n Hfuel Hn. by eapply ExecAgg_drain_groups.
Qed.

End GroupRows.

Lemma advance_group_folds_witness :
  exists aggstate',
    advance_group (FM := sum_fmgr) (EG := sample_grouping) (guc := sample_guc) 2 sample_group_state (sample_agg AGG_SORTED [1%nat]) false
    = Ok aggstate'
    /\ lefttree aggstate' = [sample_row [3; 1]; sample_row [3; 2]]
    /\ grp_firstTuple aggstate' = Some (sample_row [2; 7])
    /\ pergroup aggstate' !! 0%nat = Some (pergroup_value 15).
Proof.
  destruct (advance_group_folds (FM := sum_fmgr) (EG := sample_grouping)
              (guc := sample_guc)
              sample_group_state (sample_agg AGG_SORTED [1%nat]) false
              [sample_row [1; 5]]
              [sample_row [2; 7]; sample_row [3; 1]; sample_row [3; 2]])
    as (s' & Hrun & Hleft & _ & Hend & Hstates).
  - split; vm_compute; try done; lia.
  - vm_compute. reflexivity.
  - repeat constructor.
  - intros next [= <-]. vm_compute. reflexivity.
  - intros t p Ht Hp. assert (t = 0%nat) as -> by (vm_compute in Ht; lia).
    vm_compute in Hp. injection Hp as <-. split; [reflexivity|].
    repeat constructor; intros _; vm_compute; lia.
  - exists s'. split; [apply Hrun; simpl; lia|]. split; [exact Hleft|].
    split; [exact (proj1 Hend)|].
    destruct (Hstates 0%nat (set_sortstates (sample_pertrans true 0 false) [None])
                pergroup_zero) as [_ Hpg].
    + vm_compute. lia.
    + vm_compute. reflexivity.
    + vm_compute. reflexivity.
    + rewrite Hpg. vm_compute. reflexivity.
Defined.

Lemma sample_sorted_ready : direct_ready sample_sorted_state.
Proof.
  split; try (vm_compute; done); try (vm_compute; lia).
  - split; vm_compute; try done; lia.
  - right. reflexivity.
  - intros t p Ht Hp. assert (t = 0%nat) as -> by (vm_compute in Ht; lia).
    vm_compute in Hp. by injection Hp as <-.
  - intros aggno pa Hlt Hpa. assert (aggno = 0%nat) as -> by (vm_compute in Hlt; lia).
    vm_compute in Hpa. injection Hpa as <-. vm_compute. lia.
Qed.

Lemma sample_sorted_fit : rows_fit sample_sorted_state sample_sorted_rows.
Proof.
  intros t p Ht Hp. assert (t = 0%nat) as -> by (vm_compute in Ht; lia).
  vm_compute in Hp. injection Hp as <-.
  repeat constructor; intros _; vm_compute; lia.
Qed.

Lemma ExecAgg_first_group_witness :
  exists aggstate',
    group_result (FM := sum_fmgr) sample_sorted_state (sample_row [1; 10])
      [sample_row [1; 5]] [sample_row [2; 7]; sample_row [3; 1]; sample_row [3; 2]]
      aggstate'
    /\ forall fuel,
         (2 < fuel)%nat ->
         qual sample_sorted_state
           (group_input sample_sorted_state aggstate' (sample_row [1; 10])) = true ->
         ExecAgg (FM := sum_fmgr) (TS := sample_tuplesort) (EG := sample_grouping)
           (guc := sample_guc) fuel sample_sorted_state
         = Ok (Some (ExecStoreVirtualTuple
                       (ps_ProjInfo sample_sorted_state
                          (group_input sample_sorted_state aggstate'
                             (sample_row [1; 10])))),
               aggstate').
Proof.
  apply (ExecAgg_first_group (FM := sum_fmgr) (TS := sample_tuplesort)
           (EG := sample_grouping) (guc := sample_guc)
           sample_sorted_state (sample_row [1; 10]) [sample_row [1; 5]]
           [sample_row [2; 7]; sample_row [3; 1]; sample_row [3; 2]]).
  - exact sample_sorted_ready.
  - vm_compute. reflexivity.
  - repeat constructor.
  - intros next [= <-]. vm_compute. reflexivity.
  - intros t p Ht Hp. pose proof (sample_sorted_fit t p Ht Hp) as Hall.
    apply Forall_cons in Hall as [H1 Hall]. apply Forall_cons in Hall as [H2 _].
    apply Forall_cons. split; [exact H1|]. apply Forall_cons. split; [exact H2|].
    apply Forall_nil_2.
Defined.

Lemma ExecAgg_drain_sorted_groups_witness :
  rows_of (ExecAgg_drain (FM := sum_fmgr) (TS := sample_tuplesort)
             (EG := sample_grouping) (guc := sample_guc) 6 4 sample_sorted_state)
  = Some ([[Some 1; Some 10; Some 15]; [Some 3; Some 1; Some 3]], true)
  /\ exists finals,
       groups_done (FM := sum_fmgr) (EG := sample_grouping) sample_sorted_state
         sample_sorted_rows finals
       /\ forall fuel n,
            (5 < fuel)%nat -> (length finals < n)%nat ->
            ExecAgg_drain (FM := sum_fmgr) (TS := sample_tuplesort)
              (EG := sample_grouping) (guc := sample_guc) fuel n sample_sorted_state
            = Ok (omap project_aggregates finals, true,
                  default sample_sorted_state (last finals)).
Proof.
  split; [vm_compute; reflexivity|].
  apply (ExecAgg_drain_sorted_groups (FM := sum_fmgr) (TS := sample_tuplesort)
           (EG := sample_grouping) (guc := sample_guc)
           sample_sorted_state sample_sorted_rows).
  - exact sample_sorted_ready.
  - vm_compute. reflexivity.
  - discriminate.
  - exact sample_sorted_fit.
Defined.

(** ** Aggregates with DISTINCT or ORDER BY, of one input *)

(** The datum a sorter of datums gives back, with its null flag. *)
Definition datum_of (tuple : HeapTupleData) : Datum * bool :=
  (default 0 (t_values tuple !! 0%nat), default true (t_isnull tuple !! 0%nat)).

(** Before the first value. *)
Definition no_prior : DistinctState :=
  {| oldVal := 0; oldIsNull := true; haveOldVal := false; oldAbbrevVal := 0 |}.

(** What is remembered of a value handed to the transition function. *)
Definition remember {TS : Tuplesort} (spec : SortSpec) (tuple : HeapTupleData)
  : DistinctState :=
  {| oldVal := (datum_of tuple).1; oldIsNull := (datum_of tuple).2;
     haveOldVal := true; oldAbbrevVal := abbrev_key spec tuple |}.

(** In DISTINCT mode, the value is not distinct from the one handed to the
    transition function last: both are null, or none is and the equality
    function of the aggregate holds of them. *)
Definition equal_to_prior {FM : FunctionManager} {TS : Tuplesort}
  (pertrans : AggStatePerTransData) (spec : SortSpec) (old : DistinctState)
  (tuple : HeapTupleData) : bool :=
  (0 <? numDistinctCols pertrans)%nat && haveOldVal old
  && ((oldIsNull old && (datum_of tuple).2)
      || (negb (oldIsNull old) && negb (datum_of tuple).2
          && (oldAbbrevVal old =? abbrev_key spec tuple)
          && match equalfns pertrans !! 0%nat with
             | Some eqfn =>
                 DatumGetBool
                   (FunctionCallInvoke
                      (call_frame eqfn [(oldVal old, false);
                                        ((datum_of tuple).1, false)])).1
             | None => false
             end)).

(** The values handed to the transition function so far, and the last of
    them. *)
Definition distinct_step {FM : FunctionManager} {TS : Tuplesort}
  (pertrans : AggStatePerTransData) (spec : SortSpec)
  (state : list HeapTupleData * DistinctState) (tuple : HeapTupleData)
  : list HeapTupleData * DistinctState :=
  if equal_to_prior pertrans spec state.2 tuple then state
  else (state.1 ++ [tuple], remember spec tuple).

(** The values of a sorted run that reach the transition function. *)
Definition values_fed {FM : FunctionManager} {TS : Tuplesort}
  (pertrans : AggStatePerTransData) (spec : SortSpec) (tuples : list HeapTupleData)
  : list HeapTupleData :=
  (foldl (distinct_step pertrans spec) ([], no_prior) tuples).1.

(** The value is in argument 1 of the call frame of the slot. *)
Definition datum_loaded (slot : AggStatePerTransData) (tuple : HeapTupleData) : Prop :=
  arg (transfn_fcinfo slot) 1 = (datum_of tuple).1
  /\ argnull (transfn_fcinfo slot) 1 = (datum_of tuple).2.

(** The first numTransInputs columns of the tuple are in the arguments
    from 1 on of the call frame of the slot. *)
Definition columns_loaded (slot : AggStatePerTransData) (tuple : HeapTupleData)
  : Prop :=
  forall i, (i < numTransInputs slot)%nat ->
    arg (transfn_fcinfo slot) (i + 1) = slot_value (stored tuple) i
    /\ argnull (transfn_fcinfo slot) (i + 1) = slot_isnull (stored tuple) i.

(** The per-group state after the tuples were handed, one after the other,
    to advance_transition_function, each loaded into the call frame of the
    slot. *)
Inductive fed {FM : FunctionManager}
  (loaded : AggStatePerTransData -> HeapTupleData -> Prop)
  (pertrans : AggStatePerTransData)
  : list HeapTupleData -> AggStatePerGroupData -> AggStatePerGroupData -> Prop :=
| fed_nil pergroupstate : fed loaded pertrans [] pergroupstate pergroupstate
| fed_snoc tuples tuple slot pergroupstate pergroupstate' :
    fed loaded pertrans tuples pergroupstate pergroupstate' ->
    static_of slot = static_of pertrans ->
    loaded slot tuple ->
    fed loaded pertrans (tuples ++ [tuple]) pergroupstate
      (adv_pergroup (advance_transition_function slot pergroupstate')).

Section OrderedAggregates.
Context {FM : FunctionManager} {TS : Tuplesort} {EG : ExecGrouping} {guc : GUC}.

Lemma equal_to_prior_static p p' spec old tuple :
  static_of p' = static_of p ->
  equal_to_prior p' spec old tuple = equal_to_prior p spec old tuple.
Proof.
  intros H. unfold equal_to_prior.
  by rewrite (f_equal numDistinctCols H : numDistinctCols p' = numDistinctCols p),
    (f_equal equalfns H : equalfns p' = equalfns p).
Qed.

(** X11 (process_ordered_aggregate_single): for an aggregate of one input
    with DISTINCT or ORDER BY whose sorter of the current grouping set
    holds the values of the group, the routine sorts them and hands them
    to advance_transition_function in sorted order, each in argument 1 of
    the call frame; in DISTINCT mode a value that is not distinct from the
    value handed over last is left out, two nulls counting as not
    distinct.  Afterwards the sorter is gone (NULL), and no other slot and
    no other per-group state has changed. *)
Theorem process_ordered_aggregate_single_feeds (aggstate : AggState)
  (transno offset i : nat) (p : AggStatePerTransData) (sorter : Tuplesortstate)
  (pergroupstate : AggStatePerGroupData) :
  pertrans aggstate !! transno = Some p ->
  (numDistinctCols p < 2)%nat ->
  ((0 < numDistinctCols p)%nat -> is_Some (equalfns p !! 0%nat)) ->
  sortstates p !! current_set aggstate = Some (Some sorter) ->
  pergroup aggstate !! (offset + i)%nat = Some pergroupstate ->
  exists aggstate' p' pergroupstate',
    process_ordered_aggregate_single aggstate transno (SortedGroups offset) i
    = Ok aggstate'
    /\ pertrans aggstate' !! transno = Some p'
    /\ static_of p' = static_of p
    /\ sortstates p' = <[current_set aggstate := None]> (sortstates p)
    /\ pergroup aggstate' !! (offset + i)%nat = Some pergroupstate'
    /\ fed datum_loaded p (values_fed p (ts_spec sorter)
                (tuplesort_order (ts_spec sorter) (ts_tuples sorter)))
         pergroupstate pergroupstate'
    /\ (forall t, t <> transno -> pertrans aggstate' !! t = pertrans aggstate !! t)
    /\ (forall j, j <> (offset + i)%nat ->
          pergroup aggstate' !! j = pergroup aggstate !! j).
Proof.
  intros Hp Hdistinct Heq Hsorter Hpg.
  unfold process_ordered_aggregate_single, take_sorter, get_pertrans.
  rewrite Hp. cbn [rbind].
  replace (numDistinctCols p <? 2)%nat with true by (symmetry; by apply Nat.ltb_lt).
  cbn [Assert rbind]. rewrite Hsorter. cbn [rbind].
  set (spec := ts_spec sorter).
  set (tuples := tuplesort_order spec (ts_tuples sorter)).
  change (ts_tuples (tuplesort_performsort sorter)) with tuples.
  change (ts_spec (tuplesort_performsort sorter)) with spec.
  pose (I := fun (done : list HeapTupleData) (s : AggState * DistinctState) =>
              exists q pg,
                pertrans s.1 !! transno = Some q
                /\ static_of q = static_of p
                /\ sortstates q = sortstates p
                /\ pergroup s.1 !! (offset + i)%nat = Some pg
                /\ fed datum_loaded p
                     (foldl (distinct_step p spec) ([], no_prior) done).1
                     pergroupstate pg
                /\ s.2 = (foldl (distinct_step p spec) ([], no_prior) done).2
                /\ current_set s.1 = current_set aggstate
                /\ (forall t, t <> transno ->
                      pertrans s.1 !! t = pertrans aggstate !! t)
                /\ (forall j, j <> (offset + i)%nat ->
                      pergroup s.1 !! j = pergroup aggstate !! j)).
  destruct (foldl_result_run I
              (fun s tuple =>
                 let '(aggstate0, old) := s in
                 pertrans <-! match pertrans aggstate0 !! transno with
                              | Some pertrans => Ok pertrans
                              | None => Err (Undefined "pertrans out of bounds")
                              end ;;
                 let newVal := default 0 (t_values tuple !! 0%nat) in
                 let isNull := default true (t_isnull tuple !! 0%nat) in
                 let newAbbrevVal := abbrev_key spec tuple in
                 let aggstate1 :=
                   put_pertrans aggstate0 transno
                     (set_transfn_fcinfo pertrans
                        (set_arg (transfn_fcinfo pertrans) 1 newVal isNull)) in
                 equal <-!
                   (if (0 <? numDistinctCols p)%nat && haveOldVal old then
                      if oldIsNull old && isNull then Ok true
                      else if negb (oldIsNull old) && negb isNull
                              && (oldAbbrevVal old =? newAbbrevVal) then
                        match equalfns pertrans !! 0%nat with
                        | Some eqfn =>
                            Ok (DatumGetBool
                                  (FunctionCallInvoke
                                     (call_frame eqfn
                                        [(oldVal old, false); (newVal, false)])).1)
                        | None => Err (Undefined "equalfns out of bounds")
                        end
                      else Ok false
                    else Ok false) ;;
                 if equal then Ok (aggstate1, old)
                 else
                   aggstate2 <-! advance_one aggstate1 transno (SortedGroups offset) i ;;
                   Ok (aggstate2,
                       {| oldVal := newVal; oldIsNull := isNull; haveOldVal := true;
                          oldAbbrevVal := newAbbrevVal |}))
              tuples (aggstate, no_prior)) as ([s' old'] & Hloop & HI).
  - unfold I. exists p, pergroupstate. cbn [fst snd foldl].
    repeat split; try done. constructor.
  - unfold I. intros done tuple rest [s1 old1] Htuples
      (q & pg & Hq & Hstatic & Hsort & Hpg1 & Hfed & Hold & Hcur & Hpt & Hpgs).
    cbn [fst snd] in *. cbv beta iota zeta. rewrite Hq. cbn [rbind].
    set (v := default 0 (t_values tuple !! 0%nat)).
    set (n := default true (t_isnull tuple !! 0%nat)).
    set (q1 := set_transfn_fcinfo q (set_arg (transfn_fcinfo q) 1 v n)).
    assert (Hequal :
              (if (0 <? numDistinctCols p)%nat && haveOldVal old1 then
                 if oldIsNull old1 && n then Ok true
                 else if negb (oldIsNull old1) && negb n
                         && (oldAbbrevVal old1 =? abbrev_key spec tuple) then
                   match equalfns q !! 0%nat with
                   | Some eqfn =>
                       Ok (DatumGetBool
                             (FunctionCallInvoke
                                (call_frame eqfn [(oldVal old1, false); (v, false)])).1)
                   | None => Err (Undefined "equalfns out of bounds")
                   end
                 else Ok false
               else Ok false)
              = Ok (equal_to_prior p spec old1 tuple)).
    { unfold equal_to_prior, datum_of. cbn [fst snd]. fold v n.
      rewrite (f_equal equalfns Hstatic : equalfns q = equalfns p).
      destruct (Nat.ltb_spec 0 (numDistinctCols p)) as [Hpos|_]; [|done].
      destruct (Heq Hpos) as [eqfn ->].
      destruct (haveOldVal old1); [|done]. cbn [andb].
      destruct (oldIsNull old1), n; cbn [andb orb negb]; try done.
      by destruct (oldAbbrevVal old1 =? abbrev_key spec tuple). }
    rewrite Hequal. cbn [rbind].
    set (st := foldl (distinct_step p spec) ([], no_prior) done) in *.
    assert (Hsnoc : foldl (distinct_step p spec) ([], no_prior) (done ++ [tuple])
                    = if equal_to_prior p spec old1 tuple then st
                      else (st.1 ++ [tuple], remember spec tuple)).
    { rewrite foldl_app. cbn [foldl]. fold st. unfold distinct_step.
      by rewrite <- Hold. }
    rewrite Hsnoc.
    assert (Hlen : (transno < length (pertrans s1))%nat)
      by (by apply lookup_lt_Some in Hq).
    destruct (equal_to_prior p spec old1 tuple) eqn:Hprior.
    + eexists. split; [reflexivity|]. cbn [fst snd].
      exists q1, pg. unfold put_pertrans.
      cbn [pertrans pergroup set_pertrans current_set].
      rewrite list_lookup_insert_eq by done.
      repeat split; try done.
      intros t Hne. rewrite list_lookup_insert_ne by done. by apply Hpt.
    + unfold advance_one, get_pertrans, read_pergroup, put_pertrans.
      cbn [pertrans pergroup set_pertrans]. rewrite list_lookup_insert_eq by done.
      cbn [rbind]. rewrite Hpg1. cbn [rbind].
      eexists. split; [reflexivity|]. cbn [fst snd].
      set (adv := advance_transition_function q1 pg).
      destruct (advance_transition_function_static q1 pg) as [Hs1 Hs2].
      exists (adv_pertrans adv), (adv_pergroup adv).
      unfold log_calls, write_pergroup.
      cbn [pertrans pergroup set_calls set_pergroup set_pertrans current_set].
      rewrite !list_lookup_insert_eq
        by (rewrite ?length_insert; try done; by apply lookup_lt_Some in Hpg1).
      split; [done|]. split; [etrans; [exact Hs1|exact Hstatic]|].
      split; [etrans; [exact Hs2|exact Hsort]|].
      split; [done|]. split.
      { by apply (fed_snoc datum_loaded p _ tuple q1). }
      split; [done|]. split; [done|]. split.
      * intros t Hne. rewrite !list_lookup_insert_ne by done. by apply Hpt.
      * intros j Hne. rewrite list_lookup_insert_ne by done. by apply Hpgs.
  - unfold I in HI. cbn [fst snd] in HI.
    destruct HI as (q & pg & Hq & Hstatic & Hsort & Hpg1 & Hfed & Hold & Hcur & Hpt
                    & Hpgs).
    match goal with
    | |- context [foldl ?f ?a tuples] =>
        assert (Hloop' : foldl f a tuples = Ok (s', old')) by exact Hloop;
        rewrite Hloop'
    end. cbn [rbind fst]. unfold drop_sorter, get_pertrans.
    rewrite Hq. cbn [rbind].
    eexists _, _, pg. split; [reflexivity|].
    unfold put_pertrans. cbn [pertrans pergroup set_pertrans].
    rewrite list_lookup_insert_eq by (by apply lookup_lt_Some in Hq).
    split; [done|]. split; [done|]. split; [by simpl; rewrite Hsort, Hcur|].
    split; [done|]. split; [exact Hfed|]. split; [|done].
    intros t Hne. rewrite list_lookup_insert_ne by done. by apply Hpt.
Qed.

(** *** More than one input *)

(** Nothing was handed to the transition function yet: [slot2] is
    cleared. *)
Definition no_prior_tuple : TupleTableSlot * Datum * bool :=
  ({| tts_isempty := true; tts_values := []; tts_isnull := [] |}, 0, false).

(** The tuples handed to the transition function so far, and what is kept
    of the last of them in DISTINCT mode: the tuple in [slot2] and its
    abbreviated key.  A tuple is left out when its abbreviated key and its
    DISTINCT columns are those of the tuple kept. *)
Definition multi_step (pertrans : AggStatePerTransData) (spec : SortSpec)
  (state : list HeapTupleData * (TupleTableSlot * Datum * bool))
  (tuple : HeapTupleData)
  : list HeapTupleData * (TupleTableSlot * Datum * bool) :=
  let '(slot2, oldAbbrevVal, haveOldValue) := state.2 in
  if (numDistinctCols pertrans =? 0)%nat
     || negb haveOldValue
     || negb (abbrev_key spec tuple =? oldAbbrevVal)
     || negb (execTuplesMatch (stored tuple) slot2 (numDistinctCols pertrans)
                (sortColIdx (sortspec pertrans)) (equalfns pertrans))
  then (state.1 ++ [tuple],
        if (0 <? numDistinctCols pertrans)%nat
        then (stored tuple, abbrev_key spec tuple, true)
        else state.2)
  else state.

Definition tuples_fed (pertrans : AggStatePerTransData) (spec : SortSpec)
  (tuples : list HeapTupleData) : list HeapTupleData :=
  (foldl (multi_step pertrans spec) ([], no_prior_tuple) tuples).1.

Lemma load_columns_lookup (fcinfo : FunctionCallInfoData) (slot : TupleTableSlot) n :
  forall i, (i < n)%nat ->
    arg (foldl (fun fcinfo i =>
                  set_arg fcinfo (i + 1) (slot_value slot i) (slot_isnull slot i))
           fcinfo (seq 0 n)) (i + 1)
    = slot_value slot i
    /\ argnull (foldl (fun fcinfo i =>
                         set_arg fcinfo (i + 1) (slot_value slot i) (slot_isnull slot i))
                  fcinfo (seq 0 n)) (i + 1)
       = slot_isnull slot i.
Proof.
  induction n as [|n IH]; intros i Hi; [lia|].
  rewrite seq_S, foldl_app. cbn [foldl Nat.add set_arg arg argnull].
  destruct (Nat.eqb_spec (i + 1) (n + 1)) as [Heq|Hne].
  - by assert (i = n) as -> by lia.
  - apply IH. lia.
Qed.

(** X12 (process_ordered_aggregate_multi): for an aggregate of several
    inputs with DISTINCT or ORDER BY whose sorter of the current grouping
    set holds the tuples of the group, the routine sorts them and hands
    them to advance_transition_function in sorted order, the first
    numTransInputs columns of each in the arguments from 1 on of the call
    frame; in DISTINCT mode a tuple is left out when its abbreviated key
    and, by execTuplesMatch, its DISTINCT columns are those of the tuple
    handed over last.  Afterwards the sorter is gone (NULL), and no other
    slot and no other per-group state has changed. *)
Theorem process_ordered_aggregate_multi_feeds (aggstate : AggState)
  (transno offset i : nat) (p : AggStatePerTransData) (sorter : Tuplesortstate)
  (pergroupstate : AggStatePerGroupData) :
  pertrans aggstate !! transno = Some p ->
  sortstates p !! current_set aggstate = Some (Some sorter) ->
  pergroup aggstate !! (offset + i)%nat = Some pergroupstate ->
  exists aggstate' p' pergroupstate',
    process_ordered_aggregate_multi aggstate transno (SortedGroups offset) i
    = Ok aggstate'
    /\ pertrans aggstate' !! transno = Some p'
    /\ static_of p' = static_of p
    /\ sortstates p' = <[current_set aggstate := None]> (sortstates p)
    /\ pergroup aggstate' !! (offset + i)%nat = Some pergroupstate'
    /\ fed columns_loaded p
         (tuples_fed p (ts_spec sorter)
            (tuplesort_order (ts_spec sorter) (ts_tuples sorter)))
         pergroupstate pergroupstate'
    /\ (forall t, t <> transno -> pertrans aggstate' !! t = pertrans aggstate !! t)
    /\ (forall j, j <> (offset + i)%nat ->
          pergroup aggstate' !! j = pergroup aggstate !! j).
Proof.
  intros Hp Hsorter Hpg.
  unfold process_ordered_aggregate_multi, take_sorter, get_pertrans.
  rewrite Hp. cbn [rbind]. rewrite Hsorter. cbn [rbind].
  set (spec := ts_spec sorter).
  set (tuples := tuplesort_order spec (ts_tuples sorter)).
  change (ts_tuples (tuplesort_performsort sorter)) with tuples.
  change (ts_spec (tuplesort_performsort sorter)) with spec.
  pose (I := fun (done : list HeapTupleData)
                 (s : AggState * TupleTableSlot * Datum * bool) =>
              exists q pg,
                pertrans s.1.1.1 !! transno = Some q
                /\ static_of q = static_of p
                /\ sortstates q = sortstates p
                /\ pergroup s.1.1.1 !! (offset + i)%nat = Some pg
                /\ fed columns_loaded p
                     (foldl (multi_step p spec) ([], no_prior_tuple) done).1
                     pergroupstate pg
                /\ (s.1.1.2, s.1.2, s.2)
                   = (foldl (multi_step p spec) ([], no_prior_tuple) done).2
                /\ current_set s.1.1.1 = current_set aggstate
                /\ (forall t, t <> transno ->
                      pertrans s.1.1.1 !! t = pertrans aggstate !! t)
                /\ (forall j, j <> (offset + i)%nat ->
                      pergroup s.1.1.1 !! j = pergroup aggstate !! j)).
  destruct (foldl_result_run I
              (fun s tuple =>
                 let '(aggstate0, slot2, oldAbbrevVal, haveOldValue) := s in
                 pertrans <-! match pertrans aggstate0 !! transno with
                              | Some pertrans => Ok pertrans
                              | None => Err (Undefined "pertrans out of bounds")
                              end ;;
                 let slot1 := {| tts_isempty := false; tts_values := t_values tuple;
                                 tts_isnull := t_isnull tuple |} in
                 let newAbbrevVal := abbrev_key spec tuple in
                 if (numDistinctCols p =? 0)%nat
                    || negb haveOldValue
                    || negb (newAbbrevVal =? oldAbbrevVal)
                    || negb (execTuplesMatch slot1 slot2 (numDistinctCols p)
                               (sortColIdx (sortspec pertrans)) (equalfns pertrans))
                 then
                   let fcinfo :=
                     foldl (fun fcinfo i =>
                              set_arg fcinfo (i + 1) (slot_value slot1 i)
                                (slot_isnull slot1 i))
                       (transfn_fcinfo pertrans) (seq 0 (numTransInputs p)) in
                   let aggstate1 :=
                     put_pertrans aggstate0 transno
                       (set_transfn_fcinfo pertrans fcinfo) in
                   aggstate2 <-! advance_one aggstate1 transno (SortedGroups offset) i ;;
                   if (0 <? numDistinctCols p)%nat
                   then Ok (aggstate2, slot1, newAbbrevVal, true)
                   else Ok (aggstate2, slot2, oldAbbrevVal, haveOldValue)
                 else Ok (aggstate0, slot2, oldAbbrevVal, haveOldValue))
              tuples
              (aggstate, {| tts_isempty := true; tts_values := []; tts_isnull := [] |},
               0, false)) as ([[[s' slot2'] old'] have'] & Hloop & HI).
  - unfold I. exists p, pergroupstate. cbn [fst snd foldl].
    repeat split; try done. constructor.
  - unfold I. intros done tuple rest [[[s1 slot2] oldA] haveOld] Htuples
      (q & pg & Hq & Hstatic & Hsort & Hpg1 & Hfed & Hold & Hcur & Hpt & Hpgs).
    cbn [fst snd] in *. cbv beta iota zeta. rewrite Hq. cbn [rbind].
    change {| tts_isempty := false; tts_values := t_values tuple;
              tts_isnull := t_isnull tuple |} with (stored tuple).
    rewrite (f_equal sortspec Hstatic : sortspec q = sortspec p),
      (f_equal equalfns Hstatic : equalfns q = equalfns p).
    set (st := foldl (multi_step p spec) ([], no_prior_tuple) done) in *.
    set (feed := (numDistinctCols p =? 0)%nat
                 || negb haveOld
                 || negb (abbrev_key spec tuple =? oldA)
                 || negb (execTuplesMatch (stored tuple) slot2 (numDistinctCols p)
                            (sortColIdx (sortspec p)) (equalfns p))).
    assert (Hsnoc : foldl (multi_step p spec) ([], no_prior_tuple) (done ++ [tuple])
                    = if feed
                      then (st.1 ++ [tuple],
                            if (0 <? numDistinctCols p)%nat
                            then (stored tuple, abbrev_key spec tuple, true)
                            else (slot2, oldA, haveOld))
                      else st).
    { rewrite foldl_app. cbn [foldl]. fold st. unfold multi_step.
      rewrite <- Hold. reflexivity. }
    rewrite Hsnoc.
    assert (Hlen : (transno < length (pertrans s1))%nat)
      by (by apply lookup_lt_Some in Hq).
    destruct feed.
    + set (q1 := set_transfn_fcinfo q _).
      unfold advance_one, get_pertrans, read_pergroup, put_pertrans.
      cbn [pertrans pergroup set_pertrans]. rewrite list_lookup_insert_eq by done.
      cbn [rbind]. rewrite Hpg1. cbn [rbind].
      set (adv := advance_transition_function q1 pg).
      destruct (advance_transition_function_static q1 pg) as [Hs1 Hs2].
      assert (Hfed' : fed columns_loaded p (st.1 ++ [tuple]) pergroupstate
                        (adv_pergroup adv)).
      { apply (fed_snoc columns_loaded p _ tuple q1); [done|done|].
        intros k Hk. subst q1. cbn [transfn_fcinfo set_transfn_fcinfo].
        apply load_columns_lookup.
        change (numTransInputs (set_transfn_fcinfo q _)) with (numTransInputs q) in Hk.
        by rewrite (f_equal numTransInputs Hstatic : numTransInputs q = numTransInputs p)
          in Hk. }
      destruct (0 <? numDistinctCols p)%nat;
        (eexists; split; [reflexivity|]); cbn [fst snd];
        exists (adv_pertrans adv), (adv_pergroup adv);
        unfold log_calls, write_pergroup;
        cbn [pertrans pergroup set_calls set_pergroup set_pertrans current_set];
        rewrite !list_lookup_insert_eq
          by (rewrite ?length_insert; try done; by apply lookup_lt_Some in Hpg1);
        (split; [done|]); (split; [etrans; [exact Hs1|exact Hstatic]|]);
        (split; [etrans; [exact Hs2|exact Hsort]|]);
        (split; [done|]); (split; [exact Hfed'|]);
        (split; [done|]); (split; [done|]); split.
      * intros t Hne. rewrite !list_lookup_insert_ne by done. by apply Hpt.
      * intros j Hne. rewrite list_lookup_insert_ne by done. by apply Hpgs.
      * intros t Hne. rewrite !list_lookup_insert_ne by done. by apply Hpt.
      * intros j Hne. rewrite list_lookup_insert_ne by done. by apply Hpgs.
    + eexists. split; [reflexivity|]. cbn [fst snd].
      exists q, pg. repeat split; done.
  - unfold I in HI. cbn [fst snd] in HI.
    destruct HI as (q & pg & Hq & Hstatic & Hsort & Hpg1 & Hfed & Hold & Hcur & Hpt
                    & Hpgs).
    match goal with
    | |- context [foldl ?f ?a tuples] =>
        assert (Hloop' : foldl f a tuples = Ok (s', slot2', old', have'))
          by exact Hloop;
        rewrite Hloop'
    end.
    cbn [rbind fst]. unfold drop_sorter, get_pertrans.
    rewrite Hq. cbn [rbind].
    eexists _, _, pg. split; [reflexivity|].
    unfold put_pertrans. cbn [pertrans pergroup set_pertrans].
    rewrite list_lookup_insert_eq by (by apply lookup_lt_Some in Hq).
    split; [done|]. split; [done|]. split; [by simpl; rewrite Hsort, Hcur|].
    split; [done|]. split; [exact Hfed|]. split; [|done].
    intros t Hne. rewrite list_lookup_insert_ne by done. by apply Hpt.
Qed.

End OrderedAggregates.

Lemma process_ordered_aggregate_single_feeds_witness :
  exists aggstate',
    process_ordered_aggregate_single (FM := sample_distinct_fmgr)
      (TS := sample_tuplesort) sample_distinct_state 0 (SortedGroups 0) 0
    = Ok aggstate'
    /\ values_fed (FM := sample_distinct_fmgr) (TS := sample_tuplesort)
         (sample_distinct_pertrans sample_distinct_sorter) no_sort
         (ts_tuples sample_distinct_sorter)
       = [sample_row [1]; sample_row [3]; null_row 1; sample_row [3]]
    /\ pergroup aggstate' !! 0%nat = Some (pergroup_value 7)
    /\ (sortstates <$> pertrans aggstate') = [[None]].
Proof.
  destruct (process_ordered_aggregate_single_feeds (FM := sample_distinct_fmgr)
              (TS := sample_tuplesort) sample_distinct_state 0 0 0
              (sample_distinct_pertrans sample_distinct_sorter)
              sample_distinct_sorter (pergroup_value 0))
    as (s' & p' & pg' & Hrun & _).
  - reflexivity.
  - vm_compute. lia.
  - intros _. eexists. reflexivity.
  - reflexivity.
  - reflexivity.
  - exists s'. split; [exact Hrun|]. split; [vm_compute; reflexivity|].
    vm_compute in Hrun. injection Hrun as <-. split; vm_compute; reflexivity.
Defined.

Lemma process_ordered_aggregate_multi_feeds_witness :
  exists aggstate',
    process_ordered_aggregate_multi (FM := sample_distinct_fmgr)
      (TS := sample_tuplesort) (EG := sample_grouping)
      sample_multi_state 0 (SortedGroups 0) 0
    = Ok aggstate'
    /\ tuples_fed (TS := sample_tuplesort) (EG := sample_grouping)
         (sample_multi_pertrans sample_multi_sorter) (ts_spec sample_multi_sorter)
         (ts_tuples sample_multi_sorter)
       = [sample_row [1; 5]; sample_row [2; 5]; sample_row [2; 6]]
    /\ pergroup aggstate' !! 0%nat = Some (pergroup_value 5)
    /\ (sortstates <$> pertrans aggstate') = [[None]].
Proof.
  destruct (process_ordered_aggregate_multi_feeds (FM := sample_distinct_fmgr)
              (TS := sample_tuplesort) (EG := sample_grouping)
              sample_multi_state 0 0 0
              (sample_multi_pertrans sample_multi_sorter)
              sample_multi_sorter (pergroup_value 0))
    as (s' & p' & pg' & Hrun & _).
  - reflexivity.
  - reflexivity.
  - reflexivity.
  - exists s'. split; [exact Hrun|]. split; [vm_compute; reflexivity|].
    vm_compute in Hrun. injection Hrun as <-. split; vm_compute; reflexivity.
Defined.

(** ** A group read back into an entry that is there already *)

Section SpillMerge.
Context {FM : FunctionManager}.

(** The state of an entry after a dumped state of its group was merged
    into it: the state read back goes into argument 1 of the frame of the
    combine function. *)
Definition merged (pertrans : AggStatePerTransData)
  (pergroupstate dumped : AggStatePerGroupData) : AggStatePerGroupData :=
  let incoming := reloaded pertrans dumped in
  adv_pergroup
    (combine_transition
       (set_combfn_fcinfo pertrans
          (set_arg (combfn_fcinfo pertrans) 1 (transValue incoming)
             (transValueIsNull incoming)))
       pergroupstate).

(** X13 (LoadHybridHashtable, the record hits an entry; DumpHybridHashtable;
    combine_transition): a group that was written to a batch file and is
    read back while the table holds an entry of its key is merged into
    that entry: the key tuple and the hash of the entry stay, and every
    transition state of the entry becomes what combine_transition makes
    of it and of the dumped state of the group, read back as the round
    trip of a new entry reads it.  The load succeeds provided every
    by-value INTERNAL state that is not null has a valid deserialization
    function. *)
Theorem spilled_group_merged (aggstate aggstate1 : AggState)
  (entry entry0 : TupleHashEntryData) (record : SpillRecord)
  (setno position : nat) (perhash0 : AggStatePerHashData) :
  dump_record aggstate entry = Ok record ->
  pertrans aggstate1 = pertrans aggstate ->
  numtrans aggstate1 = numtrans aggstate ->
  perhash aggstate1 !! setno = Some perhash0 ->
  hashtab (hashtable perhash0) !! position = Some entry0 ->
  (numtrans aggstate <= length (additional entry0))%nat ->
  (forall aggno slot pergroupstate,
     (aggno < numtrans aggstate)%nat ->
     pertrans aggstate !! aggno = Some slot ->
     additional entry !! aggno = Some pergroupstate ->
     needs_deserial slot pergroupstate = true ->
     OidIsValid (deserial_func_id slot) = true) ->
  exists aggstate2 perhash2 entry2,
    load_merge aggstate1 setno position record = Ok aggstate2
    /\ perhash aggstate2 !! setno = Some perhash2
    /\ hashtab (hashtable perhash2) !! position = Some entry2
    /\ firstTuple entry2 = firstTuple entry0
    /\ hash entry2 = hash entry0
    /\ length (additional entry2) = length (additional entry0)
    /\ forall aggno slot pergroupstate dumped,
         pertrans aggstate !! aggno = Some slot ->
         additional entry0 !! aggno = Some pergroupstate ->
         additional entry !! aggno = Some dumped ->
         additional entry2 !! aggno
         = Some (if decide (aggno < numtrans aggstate)%nat
                 then merged slot pergroupstate dumped
                 else pergroupstate).
Proof.
  intros Hdump Hpt Hnt Hph Hentry Hroom Hvalid.
  destruct (dump_record_fields _ _ _ Hdump) as (Hhash & Htuple & Hstates & Hlen & Hall).
  unfold load_merge. rewrite Hnt.
  pose (I := fun (k : nat) (s : AggState) =>
              (forall t, (k <= t)%nat -> pertrans s !! t = pertrans aggstate !! t)
              /\ exists ph e,
                   perhash s !! setno = Some ph
                   /\ hashtab (hashtable ph) !! position = Some e
                   /\ firstTuple e = firstTuple entry0
                   /\ hash e = hash entry0
                   /\ length (additional e) = length (additional entry0)
                   /\ forall aggno slot pergroupstate dumped,
                        pertrans aggstate !! aggno = Some slot ->
                        additional entry0 !! aggno = Some pergroupstate ->
                        additional entry !! aggno = Some dumped ->
                        additional e !! aggno
                        = Some (if decide (aggno < k)%nat
                                then merged slot pergroupstate dumped
                                else pergroupstate)).
  destruct (for_each_run I (numtrans aggstate)
              (fun aggno aggstate0 =>
                 pertrans <-! get_pertrans aggstate0 aggno ;;
                 pergroupstate <-! read_pergroup aggstate0 (HashGroups setno position)
                                     aggno ;;
                 let! (merge_pergroupstate, payload) := record_state record aggno in
                 merge_pergroupstate <-! load_state pertrans merge_pergroupstate payload ;;
                 let fcinfo := set_arg (combfn_fcinfo pertrans) 1
                                 (transValue merge_pergroupstate)
                                 (transValueIsNull merge_pergroupstate) in
                 let adv := combine_transition (set_combfn_fcinfo pertrans fcinfo)
                              pergroupstate in
                 Ok (log_calls
                       (write_pergroup
                          (put_pertrans aggstate0 aggno (adv_pertrans adv))
                          (HashGroups setno position) aggno (adv_pergroup adv))
                       (adv_calls adv)))
              aggstate1) as (s' & Hrun & HI).
  - unfold I. split; [intros t _; by rewrite Hpt|].
    exists perhash0, entry0. repeat split; try done;
      intros aggno slot pg0 pg Hslot Hpg0 Hpg;
      by destruct (decide (aggno < 0)%nat); [lia|].
  - unfold I. intros k s1 Hk (Hpts & ph & e & Hph1 & He & Hft & Hh & Hlen1 & Hadd).
    destruct (Hall k Hk) as (p & pg & x & Hp & Hpg & Hx & Hpayload).
    destruct (lookup_lt_is_Some_2 (additional entry0) k) as [pg0 Hpg0]; [lia|].
    pose proof (Hadd k p pg0 pg Hp Hpg0 Hpg) as Hhere.
    destruct (decide (k < k)%nat) as [|_]; [lia|].
    unfold get_pertrans. rewrite (Hpts k) by done. rewrite Hp. cbn [rbind].
    unfold read_pergroup. rewrite Hph1, He, Hhere. cbn [rbind].
    unfold record_state. rewrite Hstates, lookup_take_lt by done.
    rewrite Hpg, Hx. cbn [default rbind]. unfold id.
    rewrite (load_state_dump_payload p pg x Hpayload) by (by apply (Hvalid k)).
    cbn [rbind]. eexists. split; [reflexivity|].
    unfold log_calls, write_pergroup, alter_entry, put_pertrans.
    cbn [pertrans perhash set_calls set_perhash set_pertrans].
    split.
    { intros t Ht. rewrite list_lookup_insert_ne by lia. apply Hpts. lia. }
    rewrite list_lookup_alter_eq, Hph1. cbn [fmap option_fmap option_map].
    eexists _, _. split; [reflexivity|].
    cbn [hashtable set_hashtable hashtab set_hashtab].
    rewrite list_lookup_alter_eq, He. cbn [fmap option_fmap option_map].
    split; [reflexivity|].
    cbn [firstTuple hash additional set_additional].
    split; [done|]. split; [done|]. split; [by rewrite length_insert|].
    intros aggno slot q0 q Hslot Hq0 Hq.
    destruct (decide (aggno = k)) as [->|Hne].
    + simplify_eq. rewrite list_lookup_insert_eq by lia.
      by destruct (decide (k < S k)%nat); [|lia].
    + rewrite list_lookup_insert_ne by done.
      rewrite (Hadd aggno slot q0 q Hslot Hq0 Hq).
      by destruct (decide (aggno < S k)%nat), (decide (aggno < k)%nat); try lia.
  - unfold I in HI. destruct HI as (_ & ph & e & Hph1 & He & Hft & Hh & Hlen1 & Hadd).
    exists s', ph, e. split; [exact Hrun|]. done.
Qed.

End SpillMerge.

Lemma spilled_group_merged_witness :
  exists aggstate2 perhash2 entry2,
    load_merge (FM := sum_fmgr) sample_filled_state 0 0 (sample_record 1 10)
    = Ok aggstate2
    /\ perhash aggstate2 !! 0%nat = Some perhash2
    /\ hashtab (hashtable perhash2) !! 0%nat = Some entry2
    /\ firstTuple entry2 = sample_row [1]
    /\ additional entry2 !! 0%nat = Some (pergroup_value 20).
Proof.
  destruct (spilled_group_merged (FM := sum_fmgr) sample_filled_state
              sample_filled_state sample_entry sample_entry (sample_record 1 10)
              0 0 sample_filled_perhash)
    as (st2 & ph2 & e2 & Hload & Hph & He & Htuple & _ & _ & Hstates).
  - vm_compute. reflexivity.
  - reflexivity.
  - reflexivity.
  - vm_compute. reflexivity.
  - vm_compute. reflexivity.
  - vm_compute. lia.
  - intros aggno slot pg Hlt Hslot Hpg Hneeds. vm_compute in Hlt.
    assert (aggno = 0%nat) as -> by lia.
    vm_compute in Hslot. injection Hslot as <-.
    vm_compute in Hpg. injection Hpg as <-.
    vm_compute in Hneeds. discriminate Hneeds.
  - exists st2, ph2, e2. split; [exact Hload|]. split; [exact Hph|].
    split; [exact He|]. split; [exact Htuple|].
    rewrite (Hstates 0%nat
               (default (sample_pertrans true 0 false)
                  (pertrans sample_filled_state !! 0%nat))
               (pergroup_value 10) (pergroup_value 10));
      vm_compute; reflexivity.
Defined.

(** ** A rescan *)

Lemma MemSet_run {A} (zero : A) n (cells : list A) :
  (n <= length cells)%nat ->
  exists cells',
    MemSet zero n cells = Ok cells'
    /\ length cells' = length cells
    /\ (forall i, (i < n)%nat -> cells' !! i = Some zero)
    /\ (forall i, (n <= i)%nat -> cells' !! i = cells !! i).
Proof.
  intros Hn. unfold MemSet.
  replace (n <=? length cells)%nat with true by (symmetry; by apply Nat.leb_le).
  eexists. split; [reflexivity|]. split; [|split].
  - rewrite length_app, length_replicate, length_drop. lia.
  - intros i Hi. rewrite lookup_app_l by (rewrite length_replicate; lia).
    by apply lookup_replicate_2.
  - intros i Hi. rewrite lookup_app_r by (rewrite length_replicate; lia).
    rewrite length_replicate, lookup_drop. f_equal. lia.
Qed.

Lemma frame_of_static p p' : frame_of p' = frame_of p -> static_of p' = static_of p.
Proof. intros H. exact (f_equal static_of H). Qed.

Lemma set_pertrans_same (aggstate : AggState) :
  set_pertrans aggstate (pertrans aggstate) = aggstate.
Proof. by destruct aggstate. Qed.

Ltac rescan_fields :=
  cbn [aggstrategy numaggs numphases pergroup ecxt_aggvalues ecxt_aggnulls
         set_sort_out set_sort_in set_pergroup set_ecxt_aggnulls set_ecxt_aggvalues
         set_ss_ScanTupleSlot set_grp_firstTuple set_pertrans set_agg_done].

Section ReScanRuns.
Context {FM : FunctionManager} {TS : Tuplesort} {EG : ExecGrouping} {guc : GUC}.

(** The sorters of the first [n] grouping sets of every slot are closed,
    and nothing else changes. *)
Lemma close_sorters_run (n : nat) (aggstate : AggState) :
  (numtrans aggstate <= length (pertrans aggstate))%nat ->
  (forall t p, (t < numtrans aggstate)%nat -> pertrans aggstate !! t = Some p ->
     (n <= length (sortstates p))%nat) ->
  exists slots,
    for_each (numtrans aggstate)
      (fun transno node =>
         for_each n (fun setno node => close_sorter node transno setno) node)
      aggstate
    = Ok (set_pertrans aggstate slots)
    /\ frame_of <$> slots = frame_of <$> pertrans aggstate
    /\ forall t p setno,
         (t < numtrans aggstate)%nat -> slots !! t = Some p -> (setno < n)%nat ->
         sortstates p !! setno = Some None.
Proof.
  intros Hlen Hroom.
  pose (closed := fun (slots : list AggStatePerTransData) (t setno : nat) =>
                    forall p, slots !! t = Some p -> sortstates p !! setno = Some None).
  pose (I := fun (k : nat) (s : AggState) =>
              exists slots,
                s = set_pertrans aggstate slots
                /\ frame_of <$> slots = frame_of <$> pertrans aggstate
                /\ forall t setno, (t < k)%nat -> (setno < n)%nat ->
                     closed slots t setno).
  destruct (for_each_run I (numtrans aggstate)
              (fun transno node =>
                 for_each n (fun setno node => close_sorter node transno setno) node)
              aggstate) as (s' & Hrun & HI).
  - unfold I. exists (pertrans aggstate).
    split; [by rewrite set_pertrans_same|]. split; [done|]. intros t j Ht. lia.
  - unfold I. intros k s1 Hk (slots & -> & Hframe & Hclosed).
    pose (J := fun (j : nat) (s : AggState) =>
                exists slots',
                  s = set_pertrans aggstate slots'
                  /\ frame_of <$> slots' = frame_of <$> pertrans aggstate
                  /\ (forall t setno, (t < k)%nat -> (setno < n)%nat ->
                        closed slots' t setno)
                  /\ forall setno, (setno < j)%nat -> closed slots' k setno).
    destruct (for_each_run J n
                (fun setno node => close_sorter node k setno)
                (set_pertrans aggstate slots)) as (s2 & Hrun2 & HJ).
    + unfold J. exists slots. repeat split; try done. intros j Hj. lia.
    + unfold J. intros j s Hj (slots' & -> & Hframe' & Hclosed' & Hhere).
      assert (Hlen' : length slots' = length (pertrans aggstate)).
      { apply (f_equal length) in Hframe'. by rewrite !length_fmap in Hframe'. }
      destruct (lookup_lt_is_Some_2 slots' k) as [q Hq]; [lia|].
      destruct (fmap_eq_lookup frame_of (pertrans aggstate) slots' k q Hframe' Hq)
        as (p & Hp & Hqp).
      destruct (frame_of_numSortCols _ _ Hqp) as (_ & _ & _ & Hroomq).
      pose proof (Hroom k p Hk Hp) as Hn.
      destruct (lookup_lt_is_Some_2 (sortstates q) j) as [cell Hcell]; [lia|].
      unfold close_sorter, get_pertrans. cbn [pertrans set_pertrans].
      rewrite Hq. cbn [rbind]. rewrite Hcell.
      destruct cell as [sorter|].
      * eexists. split; [reflexivity|].
        set (q' := set_sortstates q (<[j := None]> (sortstates q))).
        assert (Hq' : frame_of q' = frame_of q)
          by (apply frame_of_set_sortstates; by rewrite length_insert).
        exists (<[k := q']> slots'). split; [reflexivity|]. split.
        { rewrite <- Hframe'. by eapply fmap_insert_same. }
        split.
        { intros t setno Ht Hs r Hr. rewrite list_lookup_insert_ne in Hr by lia.
          by apply (Hclosed' t setno). }
        intros setno Hs r Hr. rewrite list_lookup_insert_eq in Hr by lia.
        injection Hr as <-. subst q'. cbn [sortstates set_sortstates].
        destruct (decide (setno = j)) as [->|Hne].
        -- by rewrite list_lookup_insert_eq by lia.
        -- rewrite list_lookup_insert_ne by done.
           apply (Hhere setno); [lia|done].
      * exists (set_pertrans aggstate slots'). split; [reflexivity|].
        exists slots'. repeat split; try done.
        intros setno Hs r Hr. destruct (decide (setno = j)) as [->|Hne].
        -- by simplify_eq.
        -- apply (Hhere setno); [lia|done].
    + unfold J in HJ. destruct HJ as (slots' & -> & Hframe' & Hclosed' & Hhere).
      exists (set_pertrans aggstate slots'). split; [exact Hrun2|].
      exists slots'. repeat split; try done.
      intros t setno Ht Hs. destruct (decide (t = k)) as [->|Hne].
      * by apply Hhere.
      * apply Hclosed'; [lia|done].
  - unfold I in HI. destruct HI as (slots & -> & Hframe & Hclosed).
    exists slots. split; [exact Hrun|]. split; [done|].
    intros t p setno Ht Hp Hs. by apply (Hclosed t setno).
Qed.


(** The state with its control reset: not done, in phase 1, reading the
    outer plan. *)
Definition restarted (aggstate : AggState) : AggState :=
  set_current_phase
    (set_sort_in (set_input_done (set_agg_done aggstate false) false) None) 1.

Lemma direct_ready_frame aggstate aggstate' :
  direct_frame aggstate' = direct_frame aggstate ->
  length (pertrans aggstate') = length (pertrans aggstate) ->
  length (pergroup aggstate') = length (pergroup aggstate) ->
  length (ecxt_aggvalues aggstate') = length (ecxt_aggvalues aggstate) ->
  length (ecxt_aggnulls aggstate') = length (ecxt_aggnulls aggstate) ->
  static_of <$> pertrans aggstate' = static_of <$> pertrans aggstate ->
  agg_done aggstate' = false ->
  input_done aggstate' = false ->
  direct_ready aggstate -> direct_ready aggstate'.
Proof.
  intros Hf Hpt Hpg Hvl Hnl Hstatic Hdone Hinput
    [Hgroup Hstrategy Hsets Hnocols _ _ Hcols Hpa Hv Hn Htransno].
  pose proof (direct_frame_phase _ _ Hf) as Hphase.
  assert (Hnum : numtrans aggstate' = numtrans aggstate) by exact (f_equal numtrans Hf).
  assert (Hnumaggs : numaggs aggstate' = numaggs aggstate) by exact (f_equal numaggs Hf).
  assert (Hperagg : peragg aggstate' = peragg aggstate) by exact (f_equal peragg Hf).
  split; try done.
  - by eapply direct_frame_ready.
  - by rewrite Hphase.
  - by rewrite Hphase.
  - by rewrite Hphase.
  - intros t p' Ht Hp'. rewrite Hnum in Ht.
    destruct (fmap_eq_lookup static_of _ _ t p' Hstatic Hp') as (p & Hp & Heq).
    rewrite (proj1 (proj2 (static_of_fields _ _ Heq))). by eapply Hcols.
  - by rewrite Hnumaggs, Hperagg.
  - by rewrite Hnumaggs, Hvl.
  - by rewrite Hnumaggs, Hnl.
  - intros aggno pa Hlt Hpa'. rewrite Hnum. rewrite Hnumaggs in Hlt.
    rewrite Hperagg in Hpa'. by eapply Htransno.
Qed.

Lemma rows_fit_frame aggstate aggstate' rows :
  numtrans aggstate' = numtrans aggstate ->
  static_of <$> pertrans aggstate' = static_of <$> pertrans aggstate ->
  (forall input, evaluated aggstate' input = evaluated aggstate input) ->
  rows_fit aggstate rows -> rows_fit aggstate' rows.
Proof.
  intros Hnum Hstatic Heval Hfit t p' Ht Hp'. rewrite Hnum in Ht.
  destruct (fmap_eq_lookup static_of _ _ t p' Hstatic Hp') as (p & Hp & Heq).
  destruct (static_of_fields _ _ Heq) as (Hf1 & Hf2 & Hf3 & Hf4).
  eapply Forall_impl; [exact (Hfit t p Ht Hp)|]. intros row Hrow. cbv beta in *.
  by rewrite (filter_rejects_static _ _ _ Heq), Hf3, Hf4, Heval.
Qed.

(** X14 (ExecReScanAgg, with ExecAgg): a rescan of a sorted or plain
    aggregation of one phase without grouping sets, whose aggregates are
    without DISTINCT and ORDER BY, in whatever state the scan before left
    it: half-way through a group, with the first tuple of the next group
    kept, or done.  ExecReScanAgg succeeds and leaves the node not done,
    in phase 1 and between two groups, with no tuple kept, every sorter
    closed and the per-group states zeroed; the node then aggregates the
    rows the rescanned outer plan gives as a node that was not run
    before: called until it answers NULL, ExecAgg returns the projections
    of the groups of these rows that the qual accepts, in order. *)
Theorem ExecReScanAgg_restarts (maxsets : nat) (outer_chgParam params_overlap : bool)
  (rows : list HeapTupleData) (aggstate : AggState) :
  aggstrategy aggstate = AGG_PLAIN \/ aggstrategy aggstate = AGG_SORTED ->
  (numphases aggstate <= 2)%nat ->
  direct_ready (restarted aggstate) ->
  (forall t p, (t < numtrans aggstate)%nat -> pertrans aggstate !! t = Some p ->
     (Nat.max maxsets 1 <= length (sortstates p))%nat) ->
  (numaggs aggstate * Nat.max maxsets 1 <= length (pergroup aggstate))%nat ->
  rows <> [] ->
  rows_fit aggstate rows ->
  exists aggstate',
    ExecReScanAgg maxsets outer_chgParam params_overlap rows aggstate = Ok aggstate'
    /\ direct_ready aggstate'
    /\ current_phase aggstate' = 1%nat
    /\ rows_pending aggstate' = rows
    /\ (forall i, (i < numaggs aggstate * Nat.max maxsets 1)%nat ->
          pergroup aggstate' !! i = Some pergroup_zero)
    /\ (forall t p setno,
          (t < numtrans aggstate)%nat -> pertrans aggstate' !! t = Some p ->
          (setno < Nat.max maxsets 1)%nat -> sortstates p !! setno = Some None)
    /\ exists finals,
         groups_done aggstate' rows finals
         /\ forall fuel n,
              (length rows < fuel)%nat -> (length finals < n)%nat ->
              ExecAgg_drain fuel n aggstate'
              = Ok (omap project_aggregates finals, true,
                    default aggstate' (last finals)).
Proof.
  intros Hstrategy Hphases Hready Hroom Hgroups Hsome Hfit.
  pose proof Hready as [Hgroup _ _ _ _ _ _ Hpa Hv Hn _].
  pose proof Hgroup as [_ _ _ _ _ Hptlen Hpglen].
  change (numtrans (restarted aggstate)) with (numtrans aggstate) in *.
  change (pertrans (restarted aggstate)) with (pertrans aggstate) in *.
  change (pergroup (restarted aggstate)) with (pergroup aggstate) in *.
  change (numaggs (restarted aggstate)) with (numaggs aggstate) in *.
  change (ecxt_aggvalues (restarted aggstate)) with (ecxt_aggvalues aggstate) in *.
  change (ecxt_aggnulls (restarted aggstate)) with (ecxt_aggnulls aggstate) in *.
  destruct (close_sorters_run (Nat.max maxsets 1) (set_agg_done aggstate false))
    as (slots & Hclose & Hframe & Hclosed); [exact Hptlen|exact Hroom|].
  destruct (MemSet_run 0 (numaggs aggstate) (ecxt_aggvalues aggstate) Hv)
    as (values & Hvalues & Hvlen & _ & _).
  destruct (MemSet_run false (numaggs aggstate) (ecxt_aggnulls aggstate) Hn)
    as (nulls & Hnulls & Hnlen & _ & _).
  destruct (MemSet_run pergroup_zero (numaggs aggstate * Nat.max maxsets 1)
              (pergroup aggstate) Hgroups)
    as (groups & Hgroups' & Hglen & Hzero & _).
  assert (Hhashed : AggStrategy_eqb (aggstrategy aggstate) AGG_HASHED = false
                    /\ AggStrategy_eqb (aggstrategy aggstate) AGG_MIXED = false)
    by (destruct Hstrategy as [-> | ->]; done).
  destruct Hhashed as [Hhashed Hmixed].
  assert (Hstatic : static_of <$> slots = static_of <$> pertrans aggstate).
  { apply (f_equal (fmap static_of)) in Hframe.
    rewrite <- !list_fmap_compose in Hframe. exact Hframe. }
  assert (Hslots : length slots = length (pertrans aggstate)).
  { apply (f_equal length) in Hframe. by rewrite !length_fmap in Hframe. }
  eexists. split.
  { unfold ExecReScanAgg.
    change (aggstrategy (set_agg_done aggstate false)) with (aggstrategy aggstate).
    rewrite Hhashed. cbn [andb]. rewrite Hclose. cbn [rbind]. rescan_fields.
    rewrite Hvalues. cbn [rbind]. rewrite Hnulls. cbn [rbind]. rescan_fields.
    rewrite Hhashed, Hmixed. cbn [orb negb rbind]. rescan_fields.
    rewrite Hhashed. cbn [negb]. rewrite Hgroups'. cbn [rbind].
    unfold initialize_phase. cbn [Nat.leb orb Assert rbind]. rescan_fields.
    replace (1 + 1 <? numphases aggstate)%nat with false
      by (symmetry; apply Nat.ltb_ge; lia).
    rewrite andb_false_r. cbn [rbind]. reflexivity. }
  match goal with
  | |- direct_ready ?s /\ _ => set (s' := s)
  end.
  assert (Hd : direct_frame s' = direct_frame (restarted aggstate)) by reflexivity.
  assert (Hready' : direct_ready s').
  { apply (direct_ready_frame (restarted aggstate)); done. }
  split; [exact Hready'|]. split; [reflexivity|]. split; [reflexivity|].
  split; [exact Hzero|]. split; [exact Hclosed|].
  assert (Hfit' : rows_fit s' rows).
  { apply (rows_fit_frame aggstate); try done. }
  destruct (groups_run_exists (length rows) rows s') as (finals & Hrun);
    [done|done|done|done|].
  exists finals. split; [by apply groups_run_done|].
  intros fuel n Hfuel Hn'. by eapply ExecAgg_drain_groups.
Qed.

End ReScanRuns.

Lemma ExecReScanAgg_restarts_witness :
  grp_firstTuple sample_midscan_state = Some (sample_row [2; 7])
  /\ exists aggstate',
       ExecReScanAgg (TS := sample_tuplesort) (guc := sample_guc) 0 false false
         sample_sorted_rows sample_midscan_state
       = Ok aggstate'
       /\ rows_pending aggstate' = sample_sorted_rows
       /\ rows_of (ExecAgg_drain (FM := sum_fmgr) (TS := sample_tuplesort)
                     (EG := sample_grouping) (guc := sample_guc) 6 4 aggstate')
          = Some ([[Some 1; Some 10; Some 15]; [Some 3; Some 1; Some 3]], true).
Proof.
  split; [vm_compute; reflexivity|].
  destruct (ExecReScanAgg_restarts (FM := sum_fmgr) (TS := sample_tuplesort)
              (EG := sample_grouping) (guc := sample_guc) 0 false false
              sample_sorted_rows sample_midscan_state)
    as (s' & Hrescan & _ & _ & Hpending & _).
  - right. vm_compute. reflexivity.
  - vm_compute. lia.
  - split; try (vm_compute; done); try (vm_compute; lia).
    + split; vm_compute; try done; lia.
    + right. vm_compute. reflexivity.
    + intros t p Ht Hp. assert (t = 0%nat) as -> by (vm_compute in Ht; lia).
      vm_compute in Hp. by injection Hp as <-.
    + intros aggno pa Hlt Hpa. assert (aggno = 0%nat) as -> by (vm_compute in Hlt; lia).
      vm_compute in Hpa. injection Hpa as <-. vm_compute. lia.
  - intros t p Ht Hp. assert (t = 0%nat) as -> by (vm_compute in Ht; lia).
    vm_compute in Hp. injection Hp as <-. vm_compute. lia.
  - vm_compute. lia.
  - discriminate.
  - intros t p Ht Hp. assert (t = 0%nat) as -> by (vm_compute in Ht; lia).
    vm_compute in Hp. injection Hp as <-.
    repeat constructor; intros _; vm_compute; lia.
  - exists s'. split; [exact Hrescan|]. split; [exact Hpending|].
    vm_compute in Hrescan. injection Hrescan as <-. vm_compute. reflexivity.
Defined.

(** * Starting a group: the grouping sets that are reset *)

(** The number of leading grouping sets initialize_aggregates resets. *)
Definition sets_reset (aggstate : AggState) (numReset : Z) : nat :=
  Z.to_nat (if numReset =? 0
            then Z.of_nat (Nat.max (numsets (phase aggstate)) 1)
            else numReset).

(** The sorter initialize_aggregate starts for a slot. *)
Definition fresh_sorter (pertrans : AggStatePerTransData) : option Tuplesortstate :=
  Some (tuplesort_begin (numInputs pertrans =? 1)%nat (sortspec pertrans)).

(** A slot whose sorters of the first [n] grouping sets are fresh, when
    the aggregate has DISTINCT or ORDER BY. *)
Definition reset_slot (n : nat) (pertrans : AggStatePerTransData)
  : AggStatePerTransData :=
  if (0 <? numSortCols pertrans)%nat
  then set_sortstates pertrans
         (replicate n (fresh_sorter pertrans) ++ drop n (sortstates pertrans))
  else pertrans.

(** A state without what initialize_aggregates works on. *)
Definition reset_frame (aggstate : AggState) : AggState :=
  set_current_set (set_pergroup (set_pertrans aggstate []) []) 0.

Lemma reset_slot_0 p : reset_slot 0 p = p.
Proof. unfold reset_slot. destruct (0 <? numSortCols p)%nat; [|done]. by destruct p. Qed.

Lemma initialize_aggregate_reset_slot setno p pg :
  ((0 < numSortCols p)%nat -> (setno < length (sortstates p))%nat) ->
  initialize_aggregate setno (reset_slot setno p) pg
  = (reset_slot (S setno) p, initial_group p).
Proof.
  intros Hroom. unfold reset_slot.
  destruct (0 <? numSortCols p)%nat eqn:Hcols.
  2:{ unfold initial_group, initialize_aggregate. by rewrite Hcols. }
  apply Nat.ltb_lt in Hcols. specialize (Hroom Hcols).
  assert (Hins : forall x : option Tuplesortstate,
             <[setno := x]> (replicate setno x ++ drop setno (sortstates p))
             = replicate (S setno) x ++ drop (S setno) (sortstates p)).
  { intros x. rewrite insert_app_r_alt; rewrite length_replicate; [|lia].
    rewrite Nat.sub_diag.
    destruct (drop setno (sortstates p)) as [|y rest] eqn:Hdrop.
    { apply (f_equal length) in Hdrop. rewrite length_drop in Hdrop. simpl in Hdrop. lia. }
    cbn [insert list_insert].
    replace (drop (S setno) (sortstates p)) with rest.
    2:{ rewrite <- (Nat.add_1_r setno), <- drop_drop, Hdrop. done. }
    by rewrite replicate_S_end, <- assoc by apply _. }
  apply Nat.ltb_lt in Hcols.
  unfold initial_group, initialize_aggregate, fresh_sorter.
  change (numSortCols (set_sortstates p ?l)) with (numSortCols p).
  rewrite Hcols. cbn [snd].
  f_equal.
  destruct (numInputs (set_sortstates p _) =? 1)%nat eqn:Hone;
    change (numInputs (set_sortstates p ?l)) with (numInputs p) in Hone;
    rewrite Hone;
    change (sortstates (set_sortstates p ?l)) with l;
    change (sortspec (set_sortstates p ?l)) with (sortspec p);
    rewrite Hins; reflexivity.
Qed.

Lemma cell_unique (n t t' setno setno' : nat) :
  (t < n)%nat -> (t' < n)%nat -> (t + setno * n = t' + setno' * n)%nat ->
  t = t' /\ setno = setno'.
Proof.
  intros Ht Ht' Heq.
  assert (setno = setno').
  { destruct (Nat.lt_trichotomy setno setno') as [H|[H|H]]; [nia|done|nia]. }
  subst. split; [lia|done].
Qed.

(** X15: initialize_aggregates, called for a new group with [numReset >= 0]
    on the array of the sorted path, resets exactly the leading
    [numReset] grouping sets ([Max(numsets, 1)] of them when [numReset] is
    0): the state of every aggregate in each of these sets becomes the
    initial state of the aggregate, an aggregate with DISTINCT or ORDER BY
    gets a fresh sorter for each of these sets, and the states and sorters
    of the other grouping sets are left as they are.  The current set is
    left at the last set reset. *)
Theorem initialize_aggregates_resets_leading_sets (aggstate : AggState) (numReset : Z) :
  0 <= numReset ->
  (numtrans aggstate <= length (pertrans aggstate))%nat ->
  (sets_reset aggstate numReset * numtrans aggstate <= length (pergroup aggstate))%nat ->
  (forall t p, (t < numtrans aggstate)%nat -> pertrans aggstate !! t = Some p ->
     (0 < numSortCols p)%nat ->
     (sets_reset aggstate numReset <= length (sortstates p))%nat) ->
  exists aggstate',
    initialize_aggregates aggstate (SortedGroups 0) numReset = Ok aggstate'
    /\ reset_frame aggstate' = reset_frame aggstate
    /\ ((0 < numtrans aggstate)%nat ->
        current_set aggstate' = (sets_reset aggstate numReset - 1)%nat)
    /\ length (pertrans aggstate') = length (pertrans aggstate)
    /\ (forall t p, pertrans aggstate !! t = Some p ->
          pertrans aggstate' !! t
          = Some (if decide (t < numtrans aggstate)%nat
                  then reset_slot (sets_reset aggstate numReset) p else p))
    /\ length (pergroup aggstate') = length (pergroup aggstate)
    /\ (forall t setno p,
          (t < numtrans aggstate)%nat -> (setno < sets_reset aggstate numReset)%nat ->
          pertrans aggstate !! t = Some p ->
          pergroup aggstate' !! (t + setno * numtrans aggstate)%nat
          = Some (initial_group p))
    /\ (forall i, (sets_reset aggstate numReset * numtrans aggstate <= i)%nat ->
          pergroup aggstate' !! i = pergroup aggstate !! i).
Proof.
  intros Hpos Hpt Hpg Hroom.
  assert (HR : (1 <= sets_reset aggstate numReset)%nat).
  { unfold sets_reset. destruct (Z.eqb_spec numReset 0); lia. }
  unfold initialize_aggregates.
  replace (if numReset =? 0
           then Z.of_nat (Nat.max (numsets (phase aggstate)) 1) else numReset)
    with (Z.of_nat (sets_reset aggstate numReset)).
  2:{ unfold sets_reset. destruct (Z.eqb_spec numReset 0); lia. }
  replace (Z.of_nat (sets_reset aggstate numReset) <? 0) with false
    by (symmetry; apply Z.ltb_ge; lia).
  rewrite Nat2Z.id.
  set (R := sets_reset aggstate numReset) in *.
  set (N := numtrans aggstate) in *.
  pose (touched := fun (k j : nat) (t setno : nat) =>
                     ((t < k)%nat /\ (setno < R)%nat) \/ (t = k /\ (setno < j)%nat)).
  pose (J := fun (k j : nat) (s : AggState) =>
               reset_frame s = reset_frame aggstate
               /\ ((0 < j)%nat -> current_set s = (j - 1)%nat)
               /\ ((0 < k)%nat -> j = 0%nat -> current_set s = (R - 1)%nat)
               /\ length (pertrans s) = length (pertrans aggstate)
               /\ (forall t p, pertrans aggstate !! t = Some p ->
                     pertrans s !! t
                     = Some (if decide (t < k)%nat then reset_slot R p
                             else if decide (t = k) then reset_slot j p else p))
               /\ length (pergroup s) = length (pergroup aggstate)
               /\ (forall t setno p, (t < N)%nat -> touched k j t setno ->
                     pertrans aggstate !! t = Some p ->
                     pergroup s !! (t + setno * N)%nat = Some (initial_group p))
               /\ (forall i, (forall t setno, (t < N)%nat -> touched k j t setno ->
                                i <> (t + setno * N)%nat) ->
                     pergroup s !! i = pergroup aggstate !! i)).
  pose (I := fun (k : nat) (s : AggState) => J k 0%nat s).
  assert (Hnext : forall k s, (k < N)%nat -> J k R s -> J (S k) 0%nat s).
  { intros k s Hk (Hf & Hcur & _ & Hlen & Hslots & Hpglen & Hinit & Hrest).
    unfold J. repeat split; try done.
    - lia.
    - intros _ _. apply Hcur. lia.
    - intros t p Hp. rewrite (Hslots t p Hp).
      destruct (decide (t < k)%nat), (decide (t < S k)%nat), (decide (t = k)),
        (decide (t = S k)); try lia; try done.
      by rewrite reset_slot_0.
    - intros t setno p Ht Htouched Hp. apply Hinit; [done| |done].
      unfold touched in *. destruct Htouched as [[? ?]|[? ?]]; [|lia].
      destruct (decide (t = k)); [right|left]; lia.
    - intros i Hi. apply Hrest. intros t setno Ht Htouched. apply Hi; [done|].
      unfold touched in *. destruct Htouched as [[? ?]|[? ?]]; [left|left]; lia. }
  destruct (for_each_run I N
              (fun transno aggstate0 =>
                 for_each R
                   (fun setno aggstate1 =>
                      initialize_one (select_current_set aggstate1 setno false)
                        transno (SortedGroups 0) (transno + setno * N)%nat)
                   aggstate0)
              aggstate) as (s' & Hrun & HI).
  { unfold I, J. repeat split; try done; try lia.
    - intros t p Hp. rewrite Hp.
      destruct (decide (t < 0)%nat); [lia|].
      destruct (decide (t = 0%nat)); [|done]. by rewrite reset_slot_0.
    - intros t setno p _ Htouched. unfold touched in Htouched. lia. }
  { intros k s1 Hk HIk. unfold I in HIk.
    destruct (pertrans aggstate !! k) as [pk|] eqn:Hpk.
    2:{ apply lookup_ge_None in Hpk. lia. }
    destruct (for_each_run (J k) R
                (fun setno aggstate1 =>
                   initialize_one (select_current_set aggstate1 setno false)
                     k (SortedGroups 0) (k + setno * N)%nat)
                s1) as (s2 & Hrun2 & HJ).
    { exact HIk. }
    { intros j s Hj (Hf & Hcur & Hcur0 & Hlen & Hslots & Hpglen & Hinit & Hrest).
      unfold initialize_one, select_current_set, get_pertrans, read_pergroup.
      change (pertrans (set_current_set s j)) with (pertrans s).
      change (pergroup (set_current_set s j)) with (pergroup s).
      change (current_set (set_current_set s j)) with j.
      rewrite (Hslots k pk Hpk).
      destruct (decide (k < k)%nat); [lia|].
      destruct (decide (k = k)); [|done].
      cbn [rbind].
      destruct (pergroup s !! (0 + (k + j * N))%nat) as [pg|] eqn:Hcell.
      2:{ apply lookup_ge_None in Hcell. nia. }
      cbn [rbind].
      rewrite initialize_aggregate_reset_slot.
      2:{ intros Hcols. specialize (Hroom k pk Hk Hpk Hcols). lia. }
      eexists. split; [reflexivity|].
      unfold J, write_pergroup, put_pertrans.
      cbn [pertrans pergroup current_set set_pertrans set_pergroup set_current_set].
      repeat split.
      - exact Hf.
      - intros _. lia.
      - intros _ ?. lia.
      - by rewrite length_insert.
      - intros t p Hp. destruct (decide (t = k)) as [->|Hne].
        + rewrite list_lookup_insert_eq.
          2:{ rewrite Hlen. apply lookup_lt_Some in Hp. done. }
          destruct (decide (k < k)%nat); [lia|]. congruence.
        + rewrite list_lookup_insert_ne by done. rewrite (Hslots t p Hp).
          destruct (decide (t < k)%nat); [done|].
          destruct (decide (t = k)); done.
      - by rewrite length_insert.
      - intros t setno p Ht Htouched Hp.
        destruct (decide ((t + setno * N)%nat = (0 + (k + j * N))%nat)) as [Heq|Hne].
        + destruct (cell_unique N t k setno j Ht Hk) as [-> ->]; [lia|].
          rewrite Heq, list_lookup_insert_eq.
          2:{ by apply lookup_lt_Some in Hcell. }
          congruence.
        + rewrite list_lookup_insert_ne by done.
          apply Hinit; [done| |done].
          unfold touched in *. destruct Htouched as [[? ?]|[-> ?]]; [by left|].
          right. split; [done|].
          destruct (decide (setno = j)) as [->|]; [|lia]. done.
      - intros i Hi.
        rewrite list_lookup_insert_ne.
        2:{ intros Heq. apply (Hi k j Hk); [|lia]. unfold touched. right. lia. }
        apply Hrest. intros t setno Ht Htouched. apply Hi; [done|].
        unfold touched in *. destruct Htouched as [[? ?]|[? ?]]; [by left|right; lia]. }
    exists s2. split; [exact Hrun2|]. unfold I. by apply Hnext. }
  unfold I in HI. destruct HI as (Hf & _ & Hcur & Hlen & Hslots & Hpglen & Hinit & Hrest).
  exists s'. split; [exact Hrun|].
  repeat split.
  - exact Hf.
  - intros HN. by apply Hcur.
  - exact Hlen.
  - intros t p Hp. rewrite (Hslots t p Hp).
    destruct (decide (t < N)%nat); [done|].
    destruct (decide (t = N)); [|done]. by rewrite reset_slot_0.
  - exact Hpglen.
  - intros t setno p Ht Hsetno Hp. apply Hinit; [done| |done].
    unfold touched. left. done.
  - intros i Hi. apply Hrest. intros t setno Ht Htouched.
    unfold touched in Htouched. destruct Htouched as [[? ?]|[? ?]]; [|lia]. nia.
Qed.

(** Two of three grouping sets are reset: the states of the third set and
    its sorter stay. *)
Lemma initialize_aggregates_resets_leading_sets_witness :
  exists aggstate',
    initialize_aggregates sample_reset_state (SortedGroups 0) 2 = Ok aggstate'
    /\ current_set aggstate' = 1%nat
    /\ pergroup aggstate' !! 3%nat = Some pergroup_unset
    /\ pergroup aggstate' !! 4%nat = Some (pergroup_value 30)
    /\ pergroup aggstate' !! 5%nat = Some (pergroup_value 31)
    /\ (sortstates <$> pertrans aggstate' !! 1%nat)
       = Some [Some (tuplesort_begin true no_sort);
               Some (tuplesort_begin true no_sort);
               Some (tuplesort_put (tuplesort_begin true no_sort) (sample_row [4]))].
Proof.
  destruct (initialize_aggregates_resets_leading_sets sample_reset_state 2)
    as (aggstate' & Hrun & _ & Hcur & _ & Hslots & _ & Hinit & Hrest).
  - lia.
  - vm_compute. lia.
  - vm_compute. lia.
  - intros t p Ht Hp Hcols.
    destruct t as [|[|t]]; vm_compute in Hp; simplify_eq; vm_compute; lia.
  - exists aggstate'. split; [exact Hrun|].
    split; [apply Hcur; vm_compute; lia|].
    split.
    { exact (Hinit 1%nat 1%nat _ ltac:(vm_compute; lia) ltac:(vm_compute; lia)
               eq_refl). }
    split; [exact (Hrest 4%nat ltac:(vm_compute; lia))|].
    split; [exact (Hrest 5%nat ltac:(vm_compute; lia))|].
    rewrite (Hslots 1%nat _ eq_refl). reflexivity.
Defined.
